(** * RMDB storage core: LRU replacer, buffer pool manager, record file
      handle and record scan, as a shallow embedding.

    Sources embedded here:
    - [src/replacer/lru_replacer.cpp]
    - [src/storage/buffer_pool_manager.cpp]
    - [src/record/rm_file_handle.cpp]
    - [src/record/rm_scan.cpp]

    Conventions.  C++ [int] values ([page_no], [fd], [slot_no],
    [pin_count_], header fields) are [Z]; no operation of the embedded code
    is used in a range where a 32-bit signed [int] would overflow (which is
    undefined behaviour in C++), except where stated.  A [frame_id_t] is only
    ever stored, compared and used as an index of [pages_], so it is a
    [nat].  [std::list] is [list] (front = head), [std::unordered_map] is
    [gmap].  A [Page*] into [pages_] is the index of the frame. *)

From stdpp Require Import base gmap list sorting.
From Stdlib Require Import ZArith Lia.

Local Open Scope Z_scope.

Abbreviation frame_id_t := nat (only parsing).

(** [PageId = {fd, page_no}] *)
Abbreviation PageId := (Z * Z)%type (only parsing).
Definition fd (p : PageId) : Z := fst p.
Definition page_no (p : PageId) : Z := snd p.

Definition PAGE_SIZE : Z := 4096.
Definition INVALID_PAGE_ID : Z := -1.
Definition RM_NO_PAGE : Z := -1.
Definition RM_FILE_HDR_PAGE : Z := 0.
Definition RM_FIRST_RECORD_PAGE : Z := 1.

(* ================================================================= *)
(** * The LRU replacer ([lru_replacer.cpp]) *)

(** [LRUlist_] is the [std::list<frame_id_t>] with the most recently
    unpinned frame at the front.  [LRUhash_] maps a frame to the iterator of
    its node in [LRUlist_]; an iterator is only ever used to erase that node,
    so the map is kept as its key set and [LRUlist_.erase(it->second)] removes
    the node that holds the frame (the first one from the front; the list
    never holds a frame twice, see [lru_wf]). *)
Record LRUReplacer := mkLRU {
  LRUlist_ : list frame_id_t;
  LRUhash_ : gset frame_id_t;
  max_size_ : nat
}.

Fixpoint list_erase (f : frame_id_t) (l : list frame_id_t) : list frame_id_t :=
  match l with
  | [] => []
  | x :: l' => if decide (x = f) then l' else x :: list_erase f l'
  end.

Module LRU.

(** [LRUReplacer::LRUReplacer(num_pages)] *)
Definition create (num_pages : nat) : LRUReplacer :=
  mkLRU [] ∅ num_pages.

(** [LRUReplacer::victim]: [None] is the [false] return (and [*frame_id]
    untouched), [Some f] is [true] with [*frame_id = f]. *)
Definition victim (r : LRUReplacer) : option frame_id_t * LRUReplacer :=
  match last (LRUlist_ r) with
  | None => (None, r)
  | Some f =>
      (Some f, mkLRU (removelast (LRUlist_ r)) (LRUhash_ r ∖ {[f]}) (max_size_ r))
  end.

(** [LRUReplacer::pin] *)
Definition pin (f : frame_id_t) (r : LRUReplacer) : LRUReplacer :=
  if decide (f ∈ LRUhash_ r)
  then mkLRU (list_erase f (LRUlist_ r)) (LRUhash_ r ∖ {[f]}) (max_size_ r)
  else r.

(** [LRUReplacer::unpin] *)
Definition unpin (f : frame_id_t) (r : LRUReplacer) : LRUReplacer :=
  if decide (f ∈ LRUhash_ r)
  then r
  else mkLRU (f :: LRUlist_ r) ({[f]} ∪ LRUhash_ r) (max_size_ r).

(** [LRUReplacer::Size] *)
Definition Size (r : LRUReplacer) : nat := length (LRUlist_ r).

End LRU.

(** The replacer's own invariant: at most one entry per frame, and the keys
    of [LRUhash_] are the elements of [LRUlist_]. *)
Definition lru_wf (r : LRUReplacer) : Prop :=
  NoDup (LRUlist_ r) ∧ ∀ f, f ∈ LRUhash_ r ↔ f ∈ LRUlist_ r.

(** Histories of replacer calls, to speak about "when" a frame was unpinned. *)
Inductive ReplacerOp :=
  | OpUnpin (f : frame_id_t)
  | OpPin (f : frame_id_t)
  | OpVictim.

Definition run_op (o : ReplacerOp) (r : LRUReplacer) : LRUReplacer :=
  match o with
  | OpUnpin f => LRU.unpin f r
  | OpPin f => LRU.pin f r
  | OpVictim => snd (LRU.victim r)
  end.

(** The calls are numbered 1, 2, ... in the order they are made;
    [run_ops] replays a history on a replacer. *)
Definition run_ops (ops : list ReplacerOp) (r : LRUReplacer) : LRUReplacer :=
  foldl (λ r o, run_op o r) r ops.

(** [k] calls of [victim] in a row: what each returned, and the replacer
    they leave. *)
Fixpoint victims (k : nat) (r : LRUReplacer) : list (option frame_id_t) * LRUReplacer :=
  match k with
  | O => ([], r)
  | S k' =>
      let '(o, r1) := LRU.victim r in
      let '(os, r2) := victims k' r1 in
      (o :: os, r2)
  end.

(** Time of the most recent [unpin(f)] of a history ([0]: never).  An
    [unpin(f)] that finds [f] eligible returns at once and is no unpin of
    [f]: the one counted is the call that made [f] eligible.  The replacer
    is replayed along the history to know which calls those are. *)
Fixpoint last_effective_unpin (t : nat) (ops : list ReplacerOp) (r : LRUReplacer)
    (f : frame_id_t) (acc : nat) : nat :=
  match ops with
  | [] => acc
  | o :: ops' =>
      last_effective_unpin (S t) ops' (run_op o r) f
        (match o with
         | OpUnpin g => if decide (g = f ∧ f ∉ LRUhash_ r) then t else acc
         | _ => acc
         end)
  end.

(* ================================================================= *)
(** * Pages and the disk manager *)

(** A frame of the pool: [Page] with its [id_], the [PAGE_SIZE] bytes of
    [data_] (a byte is a [Z]), [is_dirty_] and [pin_count_]. *)
Record Page := mkPage {
  id_ : PageId;
  data_ : list Z;
  is_dirty_ : bool;
  pin_count_ : Z
}.

Definition zero_page : list Z := replicate (Z.to_nat PAGE_SIZE) 0.

Arguments PAGE_SIZE : simpl never.
Arguments zero_page : simpl never.

(** A frame as the pool's constructor leaves it: unbound, zeroed, not dirty,
    not pinned. *)
Definition empty_frame : Page := mkPage (-1, INVALID_PAGE_ID) zero_page false 0.

Global Instance Page_inhabited : Inhabited Page := populate empty_frame.

(** [Page::reset_memory]: [memset(data_, 0, PAGE_SIZE)]. *)
Definition reset_memory (p : Page) : Page :=
  mkPage (id_ p) zero_page (is_dirty_ p) (pin_count_ p).

(** Modelled from the spec: the Disk Manager, an external collaborator whose
    code is not part of the sources.  [read_page] reads exactly [PAGE_SIZE]
    bytes (bytes never written read as zero), [write_page] writes exactly the
    bytes it is given at the start of the page, [allocate_page] extends the
    file by one page and returns its number, or [INVALID_PAGE_ID] on failure.
    Failure is modelled by a device with [disk_room] pages left.  Disk I/O
    errors other than a failed allocation are not modelled. *)
Record DiskManager := mkDisk {
  disk_pages : gmap (Z * Z) (list Z);
  fd2pageno : gmap Z Z;
  disk_room : nat
}.

Module Disk.

Definition read_page (pid : PageId) (d : DiskManager) : list Z :=
  resize (Z.to_nat PAGE_SIZE) 0 (default [] (disk_pages d !! pid)).

Definition write_page (pid : PageId) (bytes : list Z) (d : DiskManager) : DiskManager :=
  mkDisk (<[pid := bytes ++ drop (length bytes) (read_page pid d)]> (disk_pages d))
         (fd2pageno d) (disk_room d).

Definition next_page_no (f : Z) (d : DiskManager) : Z := default 0 (fd2pageno d !! f).

Definition allocate_page (f : Z) (d : DiskManager) : Z * DiskManager :=
  match disk_room d with
  | O => (INVALID_PAGE_ID, d)
  | S room =>
      (next_page_no f d,
       mkDisk (disk_pages d) (<[f := next_page_no f d + 1]> (fd2pageno d)) room)
  end.

End Disk.

(* ================================================================= *)
(** * The buffer pool manager ([buffer_pool_manager.cpp]) *)

Record BufferPoolManager := mkBPM {
  pages_ : list Page;
  page_table_ : gmap (Z * Z) frame_id_t;
  free_list_ : list frame_id_t;
  replacer_ : LRUReplacer;
  disk_manager_ : DiskManager
}.

Definition with_pages (ps : list Page) (b : BufferPoolManager) : BufferPoolManager :=
  mkBPM ps (page_table_ b) (free_list_ b) (replacer_ b) (disk_manager_ b).
Definition with_page_table (pt : gmap (Z * Z) frame_id_t) (b : BufferPoolManager) :=
  mkBPM (pages_ b) pt (free_list_ b) (replacer_ b) (disk_manager_ b).
Definition with_free_list (fl : list frame_id_t) (b : BufferPoolManager) :=
  mkBPM (pages_ b) (page_table_ b) fl (replacer_ b) (disk_manager_ b).
Definition with_replacer (r : LRUReplacer) (b : BufferPoolManager) :=
  mkBPM (pages_ b) (page_table_ b) (free_list_ b) r (disk_manager_ b).
Definition with_disk (d : DiskManager) (b : BufferPoolManager) :=
  mkBPM (pages_ b) (page_table_ b) (free_list_ b) (replacer_ b) d.

(** [pages_[f]] and the assignment [pages_[f] = p].  An index outside the
    pool is undefined behaviour in the source; here the read gives
    [empty_frame] and the write does nothing. *)
Definition frame (b : BufferPoolManager) (f : frame_id_t) : Page := pages_ b !!! f.
Definition set_frame (f : frame_id_t) (p : Page) (b : BufferPoolManager) :=
  with_pages (<[f := p]> (pages_ b)) b.

Definition set_id (i : PageId) (p : Page) := mkPage i (data_ p) (is_dirty_ p) (pin_count_ p).
Definition set_data (d : list Z) (p : Page) := mkPage (id_ p) d (is_dirty_ p) (pin_count_ p).
Definition set_dirty (x : bool) (p : Page) := mkPage (id_ p) (data_ p) x (pin_count_ p).
Definition set_pin_count (n : Z) (p : Page) := mkPage (id_ p) (data_ p) (is_dirty_ p) n.

Module BPM.

(** The constructor: [pool_size] empty frames, all on the free list. *)
Definition create (pool_size : nat) (d : DiskManager) : BufferPoolManager :=
  mkBPM (replicate pool_size empty_frame) ∅ (seq 0 pool_size) (LRU.create pool_size) d.

(** [BufferPoolManager::find_victim_page] *)
Definition find_victim_page (b : BufferPoolManager) : option frame_id_t * BufferPoolManager :=
  match free_list_ b with
  | f :: fl => (Some f, with_free_list fl b)
  | [] =>
      let '(r, rep) := LRU.victim (replacer_ b) in
      (r, with_replacer rep b)
  end.

(** [BufferPoolManager::update_page(page, new_page_id, new_frame_id)];
    [page] is the frame index of the [Page*]. *)
Definition update_page (page : frame_id_t) (new_page_id : PageId)
    (new_frame_id : frame_id_t) (b : BufferPoolManager) : BufferPoolManager :=
  let old_page_id := id_ (frame b page) in
  let b1 :=
    if decide (page_no old_page_id ≠ INVALID_PAGE_ID) then
      let b' :=
        if is_dirty_ (frame b page) then
          set_frame page (set_dirty false (frame b page))
            (with_disk (Disk.write_page old_page_id (data_ (frame b page))
                          (disk_manager_ b)) b)
        else b in
      with_page_table (delete old_page_id (page_table_ b')) b'
    else b in
  if decide (page_no new_page_id ≠ INVALID_PAGE_ID) then
    let b2 := with_page_table (<[new_page_id := new_frame_id]> (page_table_ b1)) b1 in
    set_frame page (reset_memory (set_id new_page_id (frame b2 page))) b2
  else
    set_frame page
      (reset_memory (set_dirty false (set_pin_count 0 (set_id new_page_id (frame b1 page)))))
      b1.

(** [BufferPoolManager::fetch_page]; [None] is [nullptr]. *)
Definition fetch_page (page_id : PageId) (b : BufferPoolManager)
    : option frame_id_t * BufferPoolManager :=
  match page_table_ b !! page_id with
  | Some frame_id =>
      let p := frame b frame_id in
      let b1 := set_frame frame_id (set_pin_count (pin_count_ p + 1) p) b in
      (Some frame_id, with_replacer (LRU.pin frame_id (replacer_ b1)) b1)
  | None =>
      match find_victim_page b with
      | (None, b0) => (None, b0)
      | (Some victim_frame_id, b0) =>
          let b1 := update_page victim_frame_id page_id victim_frame_id b0 in
          let b2 := set_frame victim_frame_id
                      (set_data (Disk.read_page page_id (disk_manager_ b1))
                         (frame b1 victim_frame_id)) b1 in
          let b3 := set_frame victim_frame_id
                      (set_dirty false (set_pin_count 1 (frame b2 victim_frame_id))) b2 in
          (Some victim_frame_id,
           with_replacer (LRU.pin victim_frame_id (replacer_ b3)) b3)
      end
  end.

(** [BufferPoolManager::unpin_page] *)
Definition unpin_page (page_id : PageId) (is_dirty : bool) (b : BufferPoolManager)
    : bool * BufferPoolManager :=
  match page_table_ b !! page_id with
  | None => (false, b)
  | Some frame_id =>
      let p := frame b frame_id in
      if decide (pin_count_ p ≤ 0) then (false, b)
      else
        let p1 := set_pin_count (pin_count_ p - 1) p in
        let p2 := if is_dirty then set_dirty true p1 else p1 in
        let b1 := set_frame frame_id p2 b in
        let b2 := if decide (pin_count_ p2 = 0)
                  then with_replacer (LRU.unpin frame_id (replacer_ b1)) b1
                  else b1 in
        (true, b2)
  end.

(** [BufferPoolManager::flush_page] *)
Definition flush_page (page_id : PageId) (b : BufferPoolManager)
    : bool * BufferPoolManager :=
  match page_table_ b !! page_id with
  | None => (false, b)
  | Some frame_id =>
      let p := frame b frame_id in
      let b1 := with_disk (Disk.write_page (id_ p) (data_ p) (disk_manager_ b)) b in
      (true, set_frame frame_id (set_dirty false p) b1)
  end.

(** [BufferPoolManager::new_page(PageId* page_id)]: the result carries the
    [Page*] (or [None] for [nullptr]) and the value of [*page_id] at return. *)
Definition new_page (page_id : PageId) (b : BufferPoolManager)
    : option frame_id_t * PageId * BufferPoolManager :=
  match find_victim_page b with
  | (None, b0) => (None, page_id, b0)
  | (Some victim_frame_id, b0) =>
      let '(new_disk_page_no, d) := Disk.allocate_page (fd page_id) (disk_manager_ b0) in
      let b1 := with_disk d b0 in
      if decide (new_disk_page_no = INVALID_PAGE_ID) then (None, page_id, b1)
      else
        let new_actual_page_id := (fd page_id, new_disk_page_no) in
        let b2 := update_page victim_frame_id new_actual_page_id victim_frame_id b1 in
        let b3 := set_frame victim_frame_id
                    (set_dirty false (set_pin_count 1 (frame b2 victim_frame_id))) b2 in
        (Some victim_frame_id, new_actual_page_id,
         with_replacer (LRU.pin victim_frame_id (replacer_ b3)) b3)
  end.

(** [BufferPoolManager::delete_page] *)
Definition delete_page (page_id : PageId) (b : BufferPoolManager)
    : bool * BufferPoolManager :=
  match page_table_ b !! page_id with
  | None => (true, b)
  | Some frame_id =>
      let p := frame b frame_id in
      if decide (pin_count_ p > 0) then (false, b)
      else
        let b1 :=
          if is_dirty_ p then
            set_frame frame_id (set_dirty false p)
              (with_disk (Disk.write_page (id_ p) (data_ p) (disk_manager_ b)) b)
          else b in
        let b2 := with_page_table (delete page_id (page_table_ b1)) b1 in
        let p2 := frame b2 frame_id in
        let b3 := set_frame frame_id
                    (reset_memory (set_dirty false (set_pin_count 0
                       (set_id (fd (id_ p2), INVALID_PAGE_ID) p2)))) b2 in
        let b4 := with_replacer (LRU.pin frame_id (replacer_ b3)) b3 in
        (true, with_free_list (free_list_ b4 ++ [frame_id]) b4)
  end.

(** One iteration of the loop of [flush_all_pages] over [page_table_]. *)
Definition flush_all_step (fd_arg : Z) (b : BufferPoolManager)
    (entry : Z * Z * frame_id_t) : BufferPoolManager :=
  let '(pageid_in_table, frameid_in_table) := entry in
  if decide (fd pageid_in_table = fd_arg) then
    let p := frame b frameid_in_table in
    if is_dirty_ p then
      set_frame frameid_in_table (set_dirty false p)
        (with_disk (Disk.write_page (id_ p) (data_ p) (disk_manager_ b)) b)
    else b
  else b.

(** [BufferPoolManager::flush_all_pages]: the loop visits the entries of
    [page_table_] (which it does not change) in the map's iteration order. *)
Definition flush_all_pages (fd_arg : Z) (b : BufferPoolManager) : BufferPoolManager :=
  foldl (flush_all_step fd_arg) b (map_to_list (page_table_ b)).

(** Modelled from the spec: [mark_dirty(Page* page)] is declared in the header,
    which is not part of the sources; it sets the frame's dirty flag. *)
Definition mark_dirty (page : frame_id_t) (b : BufferPoolManager) : BufferPoolManager :=
  set_frame page (set_dirty true (frame b page)) b.

End BPM.

(* ================================================================= *)
(** * Page memory: bytes, 32-bit fields, the bitmap utility *)

(** A [char*] into a page is the offset from the start of [data_]. *)
Definition byte_at (off : Z) (d : list Z) : Z := default 0 (d !! Z.to_nat off).

Definition load (off n : Z) (d : list Z) : list Z :=
  take (Z.to_nat n) (drop (Z.to_nat off) d).

(** Writing [bs] at [off]; a write that would leave the buffer (undefined
    behaviour in the source) is cut at its end, so the length never changes. *)
Definition store (off : Z) (bs : list Z) (d : list Z) : list Z :=
  take (Z.to_nat off) d
  ++ take (length d - Z.to_nat off)%nat bs
  ++ drop (Z.to_nat off + length bs)%nat d.

(** [memcpy(dst, src, n)] with [dst] inside a page. *)
Definition memcpy_to (dst : Z) (src : list Z) (n : Z) (d : list Z) : list Z :=
  store dst (resize (Z.to_nat n) 0 src) d.

(** [memset(dst, 0, n)] *)
Definition memset0 (dst n : Z) (d : list Z) : list Z :=
  store dst (replicate (Z.to_nat n) 0) d.

(** The byte image of an [int]: 4 bytes, little-endian, two's complement.
    Reading takes each byte as an [unsigned char], that is, modulo 256. *)
Definition encode_int (v : Z) : list Z :=
  [v mod 256; (v / 256) mod 256; (v / 65536) mod 256; (v / 16777216) mod 256].

Definition decode_int (bs : list Z) : Z :=
  let u := byte_at 0 bs mod 256 + 256 * (byte_at 1 bs mod 256)
           + 65536 * (byte_at 2 bs mod 256) + 16777216 * (byte_at 3 bs mod 256) in
  if decide (u < 2147483648) then u else u - 4294967296.

Definition load_int (off : Z) (d : list Z) : Z := decode_int (load off 4 d).
Definition store_int (off v : Z) (d : list Z) : list Z := store off (encode_int v) d.

(** Modelled from the spec: the Bitmap utility (test, set, reset, next-set,
    first-unset over a byte-packed bit array), whose code is not part of the
    sources.  Bit [pos] lives in byte [pos / 8], highest bit first.  [bm] is
    the [char*] of the array, [d] the page it points into. *)
Module Bitmap.

Definition bucket (bm pos : Z) : Z := bm + pos / 8.
Definition bit_ix (pos : Z) : Z := 7 - pos mod 8.

Definition is_set (bm pos : Z) (d : list Z) : bool :=
  Z.testbit (byte_at (bucket bm pos) d) (bit_ix pos).

Definition set (bm pos : Z) (d : list Z) : list Z :=
  store (bucket bm pos) [Z.setbit (byte_at (bucket bm pos) d) (bit_ix pos)] d.

Definition reset (bm pos : Z) (d : list Z) : list Z :=
  store (bucket bm pos) [Z.clearbit (byte_at (bucket bm pos) d) (bit_ix pos)] d.

(** [init(bm, size)]: [memset(bm, 0, size)]. *)
Definition init (bm size : Z) (d : list Z) : list Z := memset0 bm size d.

(** The loop [for (i = curr + 1; i < max_n; i++)] of [next_bit], with [n]
    the number of positions left to try. *)
Fixpoint search (n : nat) (bit : bool) (bm max_n i : Z) (d : list Z) : Z :=
  match n with
  | O => max_n
  | S n' =>
      if decide (i < max_n) then
        if bool_decide (is_set bm i d = bit) then i
        else search n' bit bm max_n (i + 1) d
      else max_n
  end.

(** [next_bit(bit, bm, max_n, curr)]: the first position after [curr] and
    below [max_n] whose bit is [bit], else [max_n]. *)
Definition next_bit (bit : bool) (bm max_n curr : Z) (d : list Z) : Z :=
  search (Z.to_nat (max_n - (curr + 1))) bit bm max_n (curr + 1) d.

Definition first_bit (bit : bool) (bm max_n : Z) (d : list Z) : Z :=
  next_bit bit bm max_n (-1) d.

End Bitmap.

(* ================================================================= *)
(** * The record file handle ([rm_file_handle.cpp]) *)

Record RmFileHdr := mkFileHdr {
  record_size : Z;
  num_pages : Z;
  num_records_per_page : Z;
  first_free_page_no : Z;
  bitmap_size : Z
}.

Definition set_num_pages (n : Z) (h : RmFileHdr) :=
  mkFileHdr (record_size h) n (num_records_per_page h) (first_free_page_no h) (bitmap_size h).
Definition set_first_free_page_no (n : Z) (h : RmFileHdr) :=
  mkFileHdr (record_size h) (num_pages h) (num_records_per_page h) n (bitmap_size h).

(** The byte image of [file_hdr_], [sizeof(file_hdr_)] = 20 bytes. *)
Definition encode_file_hdr (h : RmFileHdr) : list Z :=
  encode_int (record_size h) ++ encode_int (num_pages h)
  ++ encode_int (num_records_per_page h) ++ encode_int (first_free_page_no h)
  ++ encode_int (bitmap_size h).

(** Modelled from the spec: [RmPageHdr] and [RmPageHandle], declared in
    headers that are not part of the sources.  A data page is
    [RmPageHdr | slot bitmap (bitmap_size bytes) | slots], the page header
    being the two [int]s [num_records] and [next_free_page_no]. *)
Definition sizeof_RmPageHdr : Z := 8.
Definition OFFSET_NUM_RECORDS : Z := 0.
Definition OFFSET_NEXT_FREE_PAGE_NO : Z := 4.

Module PageHandle.

(** [ph.bitmap] *)
Definition bitmap : Z := sizeof_RmPageHdr.
(** [ph.slots] *)
Definition slots (h : RmFileHdr) : Z := bitmap + bitmap_size h.
(** [ph.get_slot(slot_no)] *)
Definition get_slot (h : RmFileHdr) (slot_no : Z) : Z := slots h + slot_no * record_size h.

(** [ph.page_hdr->num_records], [ph.page_hdr->next_free_page_no] *)
Definition num_records (d : list Z) : Z := load_int OFFSET_NUM_RECORDS d.
Definition next_free_page_no (d : list Z) : Z := load_int OFFSET_NEXT_FREE_PAGE_NO d.
Definition set_num_records (v : Z) (d : list Z) := store_int OFFSET_NUM_RECORDS v d.
Definition set_next_free_page_no (v : Z) (d : list Z) := store_int OFFSET_NEXT_FREE_PAGE_NO v d.

End PageHandle.

(** [Rid = {page_no, slot_no}]; its [page_no] is [rpage_no] here, the name
    [page_no] being taken by [PageId]. *)
Record Rid := mkRid {
  rpage_no : Z;
  slot_no : Z
}.

Global Instance Rid_eq_dec : EqDecision Rid.
Proof. solve_decision. Defined.

(** The exceptions thrown by the record layer (messages left out). *)
Inductive RmError :=
  | RMDBError
  | RecordNotFoundError (page slot : Z)
  | PageNotExistError (page : Z).

(** [buffer_pool_manager_] is the pool the handle points to; the handle's
    [disk_manager_] is the pool's [disk_manager_] (one shared object). *)
Record RmFileHandle := mkFH {
  fd_ : Z;
  file_hdr_ : RmFileHdr;
  buffer_pool_manager_ : BufferPoolManager
}.

Definition with_hdr (h : RmFileHdr) (s : RmFileHandle) :=
  mkFH (fd_ s) h (buffer_pool_manager_ s).
Definition with_bpm (b : BufferPoolManager) (s : RmFileHandle) :=
  mkFH (fd_ s) (file_hdr_ s) b.

(** Member functions run in a monad of the handle's state with exceptions:
    a [throw] keeps the state changes made so far. *)
Definition M (A : Type) : Type := RmFileHandle → (RmError + A) * RmFileHandle.

Definition ret {A} (a : A) : M A := λ s, (inr a, s).
Definition throw {A} (e : RmError) : M A := λ s, (inl e, s).
Definition bind {A B} (m : M A) (k : A → M B) : M B :=
  λ s, match m s with
       | (inl e, s') => (inl e, s')
       | (inr a, s') => k a s'
       end.
Definition get_fh : M RmFileHandle := λ s, (inr s, s).
Definition put_hdr (h : RmFileHdr) : M unit := λ s, (inr tt, with_hdr h s).
Definition put_bpm (b : BufferPoolManager) : M unit := λ s, (inr tt, with_bpm b s).

Notation "'let*' x ':=' m 'in' k" := (bind m (λ x, k))
  (at level 10, x name, m at level 100, k at level 200).

(** A call into the pool that returns a value. *)
Definition call_bpm {A} (f : BufferPoolManager → A * BufferPoolManager) : M A :=
  λ s, let '(a, b) := f (buffer_pool_manager_ s) in (inr a, with_bpm b s).

(** An assignment through the page handle: the bytes of frame [page] change. *)
Definition poke (page : frame_id_t) (g : list Z → list Z) : M unit :=
  λ s, let b := buffer_pool_manager_ s in
       (inr tt, with_bpm (set_frame page (set_data (g (data_ (frame b page))) (frame b page)) b) s).

(** The bytes of frame [page] and its [get_page_id()]. *)
Definition peek (page : frame_id_t) : M (list Z) :=
  λ s, (inr (data_ (frame (buffer_pool_manager_ s) page)), s).
Definition get_page_id (page : frame_id_t) : M PageId :=
  λ s, (inr (id_ (frame (buffer_pool_manager_ s) page)), s).

Definition unpin (page : frame_id_t) (is_dirty : bool) : M unit :=
  let* pid := get_page_id page in
  let* _ := call_bpm (BPM.unpin_page pid is_dirty) in
  ret tt.

Definition mark_dirty (page : frame_id_t) : M unit :=
  λ s, (inr tt, with_bpm (BPM.mark_dirty page (buffer_pool_manager_ s)) s).

Module Rm.

(** [RmFileHandle::fetch_page_handle]; the handle returned is the frame. *)
Definition fetch_page_handle (page_no : Z) : M frame_id_t :=
  let* s := get_fh in
  if decide (page_no ≤ RM_FILE_HDR_PAGE ∨ page_no >= num_pages (file_hdr_ s)) then
    throw (PageNotExistError page_no)
  else
    let* page := call_bpm (BPM.fetch_page (fd_ s, page_no)) in
    match page with
    | None => throw RMDBError
    | Some f => ret f
    end.

(** [RmFileHandle::create_new_page_handle]; [new_pid_out.page_no] starts
    as the default [INVALID_PAGE_ID] and is not read by [new_page]. *)
Definition create_new_page_handle : M frame_id_t :=
  let* s := get_fh in
  let* r := call_bpm (λ b, let '(p, pid, b') := BPM.new_page (fd_ s, INVALID_PAGE_ID) b in
                           ((p, pid), b')) in
  match r with
  | (None, _) => throw RMDBError
  | (Some new_page_ptr, new_pid_out) =>
      let* _ := poke new_page_ptr (PageHandle.set_num_records 0) in
      let* _ := poke new_page_ptr (PageHandle.set_next_free_page_no RM_NO_PAGE) in
      let* _ := poke new_page_ptr
                  (Bitmap.init PageHandle.bitmap (num_records_per_page (file_hdr_ s))) in
      let* _ := (if decide (page_no new_pid_out >= num_pages (file_hdr_ s))
                 then put_hdr (set_num_pages (page_no new_pid_out + 1) (file_hdr_ s))
                 else ret tt) in
      let* _ := mark_dirty new_page_ptr in
      ret new_page_ptr
  end.

(** [RmFileHandle::create_page_handle] *)
Definition create_page_handle : M frame_id_t :=
  let* s := get_fh in
  if decide (first_free_page_no (file_hdr_ s) ≠ RM_NO_PAGE) then
    fetch_page_handle (first_free_page_no (file_hdr_ s))
  else create_new_page_handle.

(** [RmFileHandle::release_page_handle] *)
Definition release_page_handle (page_handle : frame_id_t) : M unit :=
  let* s := get_fh in
  let* pid := get_page_id page_handle in
  let current_page_no := page_no pid in
  let* _ := poke page_handle
              (PageHandle.set_next_free_page_no (first_free_page_no (file_hdr_ s))) in
  let* _ := put_hdr (set_first_free_page_no current_page_no (file_hdr_ s)) in
  mark_dirty page_handle.

(** [RmFileHandle::get_record]; the result is [record->data]. *)
Definition get_record (rid : Rid) : M (list Z) :=
  let* ph := fetch_page_handle (rpage_no rid) in
  let* s := get_fh in
  let h := file_hdr_ s in
  if decide (slot_no rid < 0 ∨ slot_no rid >= num_records_per_page h) then
    let* _ := unpin ph false in throw RMDBError
  else
    let* d := peek ph in
    if negb (Bitmap.is_set PageHandle.bitmap (slot_no rid) d) then
      let* _ := unpin ph false in throw (RecordNotFoundError (rpage_no rid) (slot_no rid))
    else
      let record := load (PageHandle.get_slot h (slot_no rid)) (record_size h) d in
      let* _ := unpin ph false in
      ret record.

(** [RmFileHandle::insert_record(char* buf, Context* context)] *)
Definition insert_record (buf : list Z) : M Rid :=
  let* ph := create_page_handle in
  let* s := get_fh in
  let h := file_hdr_ s in
  let* d := peek ph in
  let slot := Bitmap.first_bit false PageHandle.bitmap (num_records_per_page h) d in
  if decide (slot = num_records_per_page h
             ∨ PageHandle.num_records d >= num_records_per_page h) then
    let* _ := unpin ph false in throw RMDBError
  else
    let* _ := poke ph (memcpy_to (PageHandle.get_slot h slot) buf (record_size h)) in
    let* _ := poke ph (Bitmap.set PageHandle.bitmap slot) in
    let* _ := poke ph (λ d, PageHandle.set_num_records (PageHandle.num_records d + 1) d) in
    let* _ := mark_dirty ph in
    let* d1 := peek ph in
    let* pid := get_page_id ph in
    let* _ :=
      (if decide (PageHandle.num_records d1 = num_records_per_page h) then
         let current_page_no := page_no pid in
         if decide (first_free_page_no h = current_page_no) then
           let h' := set_first_free_page_no (PageHandle.next_free_page_no d1) h in
           let* _ := put_hdr h' in
           call_bpm (λ b, (tt, with_disk
                            (Disk.write_page (fd_ s, RM_FILE_HDR_PAGE)
                               (encode_file_hdr h') (disk_manager_ b)) b))
         else ret tt
       else ret tt) in
    let rid := mkRid (page_no pid) slot in
    let* _ := unpin ph true in
    ret rid.

(** [RmFileHandle::insert_record(const Rid& rid, char* buf)] *)
Definition insert_record_at (rid : Rid) (buf : list Z) : M unit :=
  let* ph := fetch_page_handle (rpage_no rid) in
  let* s := get_fh in
  let h := file_hdr_ s in
  if decide (slot_no rid < 0 ∨ slot_no rid >= num_records_per_page h) then
    let* _ := unpin ph false in throw RMDBError
  else
    let* d := peek ph in
    let was_set := Bitmap.is_set PageHandle.bitmap (slot_no rid) d in
    let* _ := poke ph (memcpy_to (PageHandle.get_slot h (slot_no rid)) buf (record_size h)) in
    let* _ :=
      (if negb was_set then
         let* _ := poke ph (Bitmap.set PageHandle.bitmap (slot_no rid)) in
         poke ph (λ d, PageHandle.set_num_records (PageHandle.num_records d + 1) d)
       else
         poke ph (Bitmap.set PageHandle.bitmap (slot_no rid))) in
    let* _ := mark_dirty ph in
    unpin ph true.

(** [RmFileHandle::delete_record] *)
Definition delete_record (rid : Rid) : M unit :=
  let* ph := fetch_page_handle (rpage_no rid) in
  let* s := get_fh in
  let h := file_hdr_ s in
  if decide (slot_no rid < 0 ∨ slot_no rid >= num_records_per_page h) then
    let* _ := unpin ph false in throw RMDBError
  else
    let* d := peek ph in
    if negb (Bitmap.is_set PageHandle.bitmap (slot_no rid) d) then
      let* _ := unpin ph false in throw (RecordNotFoundError (rpage_no rid) (slot_no rid))
    else
      let was_full := bool_decide (PageHandle.num_records d = num_records_per_page h) in
      let* _ := poke ph (Bitmap.reset PageHandle.bitmap (slot_no rid)) in
      let* _ := poke ph (λ d, PageHandle.set_num_records (PageHandle.num_records d - 1) d) in
      let* _ := mark_dirty ph in
      let* d1 := peek ph in
      let* _ :=
        (if was_full && bool_decide (PageHandle.num_records d1 < num_records_per_page h)
         then release_page_handle ph
         else ret tt) in
      unpin ph true.

(** [RmFileHandle::update_record] *)
Definition update_record (rid : Rid) (buf : list Z) : M unit :=
  let* ph := fetch_page_handle (rpage_no rid) in
  let* s := get_fh in
  let h := file_hdr_ s in
  if decide (slot_no rid < 0 ∨ slot_no rid >= num_records_per_page h) then
    let* _ := unpin ph false in throw RMDBError
  else
    let* d := peek ph in
    if negb (Bitmap.is_set PageHandle.bitmap (slot_no rid) d) then
      let* _ := unpin ph false in throw (RecordNotFoundError (rpage_no rid) (slot_no rid))
    else
      let* _ := poke ph (memcpy_to (PageHandle.get_slot h (slot_no rid)) buf (record_size h)) in
      let* _ := mark_dirty ph in
      unpin ph true.

End Rm.

(* ================================================================= *)
(** * The record scan ([rm_scan.cpp]) *)

(** [file_handle_] is the (possibly null) pointer to the file handle; the
    scan reaches the buffer pool through it, so the handle it holds is the
    handle's current state. *)
Record RmScan := mkScan {
  file_handle_ : option RmFileHandle;
  rid_ : Rid
}.

Module Scan.

(** [RmScan::is_end] *)
Definition is_end (sc : RmScan) : bool :=
  if decide (rpage_no (rid_ sc) = RM_NO_PAGE) then true
  else if file_handle_ sc is None then true
  else bool_decide (rpage_no (rid_ sc) = RM_NO_PAGE).

(** [RmScan::rid] *)
Definition rid (sc : RmScan) : Rid := rid_ sc.

(** The [while] loop of [next] and the two assignments after it.  Every turn
    that does not return adds one to [rid_.page_no], so the loop is left
    after at most [hdr.num_pages - rid_.page_no] turns; [n] counts the turns
    left.  The result carries the exception, if one was thrown, and [rid_]. *)
Fixpoint next_loop (n : nat) (hdr : RmFileHdr) (r : Rid) (fh : RmFileHandle)
    : option RmError * Rid * RmFileHandle :=
  match n with
  | O => (None, mkRid RM_NO_PAGE (-1), fh)
  | S n' =>
      if decide (rpage_no r < num_pages hdr ∧ rpage_no r >= RM_FIRST_RECORD_PAGE) then
        match Rm.fetch_page_handle (rpage_no r) fh with
        | (inl e, fh1) => (Some e, r, fh1)
        | (inr ph, fh1) =>
            let d := data_ (frame (buffer_pool_manager_ fh1) ph) in
            let next_slot :=
              Bitmap.next_bit true PageHandle.bitmap (num_records_per_page hdr)
                (slot_no r) d in
            let fh2 := snd (unpin ph false fh1) in
            if decide (next_slot < num_records_per_page hdr) then
              (None, mkRid (rpage_no r) next_slot, fh2)
            else next_loop n' hdr (mkRid (rpage_no r + 1) (-1)) fh2
        end
      else (None, mkRid RM_NO_PAGE (-1), fh)
  end.

(** [RmScan::next] *)
Definition next (sc : RmScan) : option RmError * RmScan :=
  if is_end sc then (None, sc)
  else
    match file_handle_ sc with
    | None => (None, sc)
    | Some fh =>
        let hdr := file_hdr_ fh in
        let '(e, r, fh') :=
          next_loop (Z.to_nat (num_pages hdr - rpage_no (rid_ sc))) hdr (rid_ sc) fh in
        (e, mkScan (Some fh') r)
    end.

(** [RmScan::RmScan(file_handle)] *)
Definition create (file_handle : option RmFileHandle) : option RmError * RmScan :=
  match file_handle with
  | None => (None, mkScan None (mkRid RM_NO_PAGE (-1)))
  | Some fh => next (mkScan (Some fh) (mkRid RM_FIRST_RECORD_PAGE (-1)))
  end.

End Scan.

(* ================================================================= *)
(** * Clients of the record layer *)

(** What a run of client code ends in. *)
Inductive Outcome (A : Type) :=
  | Done (a : A)
  | Threw (e : RmError)
  | OutOfFuel.
Arguments Done {A} a.
Arguments Threw {A} e.
Arguments OutOfFuel {A}.

(** A full scan: [for (RmScan scan(fh); !scan.is_end(); scan.next())
    rids.push_back(scan.rid())], with [fuel] bounding the number of records
    visited. *)
Fixpoint scan_from (fuel : nat) (sc : RmScan) : Outcome (list Rid * RmScan) :=
  if Scan.is_end sc then Done ([], sc)
  else
    match fuel with
    | O => OutOfFuel
    | S fuel' =>
        match Scan.next sc with
        | (Some e, _) => Threw e
        | (None, sc') =>
            match scan_from fuel' sc' with
            | Done (rids, sc'') => Done (Scan.rid sc :: rids, sc'')
            | Threw e => Threw e
            | OutOfFuel => OutOfFuel
            end
        end
    end.

Definition full_scan (fuel : nat) (fh : RmFileHandle) : Outcome (list Rid * RmScan) :=
  match Scan.create (Some fh) with
  | (Some e, _) => Threw e
  | (None, sc) => scan_from fuel sc
  end.


(* ================================================================= *)
(** * Predicates used by the statements *)

(** [desc σ l]: along [l], from front to back, the stamps [σ] strictly
    decrease. *)
Fixpoint desc (σ : frame_id_t → nat) (l : list frame_id_t) : Prop :=
  match l with
  | [] => True
  | a :: l' => (∀ b, b ∈ l' → (σ b < σ a)%nat) ∧ desc σ l'
  end.

(** One call advances the clock; [step_stamp] is the stamp function after
    the call made at time [t]. *)
Definition step_stamp (t : nat) (o : ReplacerOp) (r : LRUReplacer)
    (σ : frame_id_t → nat) (f : frame_id_t) : nat :=
  match o with
  | OpUnpin g => if decide (g = f ∧ f ∉ LRUhash_ r) then t else σ f
  | _ => σ f
  end.

Definition stamped (r : LRUReplacer) (σ : frame_id_t → nat) (t : nat) : Prop :=
  lru_wf r ∧ (∀ f, f ∈ LRUlist_ r → (σ f < t)%nat) ∧ desc σ (LRUlist_ r).

(** The frame [find_victim_page] hands out: the front of the free list if
    there is one, else the replacer's victim. *)
Definition chosen_victim (b : BufferPoolManager) (v : frame_id_t) : Prop :=
  head (free_list_ b) = Some v
  ∨ (free_list_ b = [] ∧ last (LRUlist_ (replacer_ b)) = Some v).

(** Frame [f] is the value of some page-table entry. *)
Definition in_table (b : BufferPoolManager) (f : frame_id_t) : Prop :=
  ∃ pid, page_table_ b !! pid = Some f.

(** The pool invariant of the specification: every frame of the pool is in
    exactly one of the free list and the page table, and is in the replacer
    iff it is in the page table with pin count 0. *)
Definition pool_inv (b : BufferPoolManager) : Prop :=
  ∀ f, (f < length (pages_ b))%nat →
    (f ∈ free_list_ b ∨ in_table b f)
    ∧ ¬ (f ∈ free_list_ b ∧ in_table b f)
    ∧ (f ∈ LRUhash_ (replacer_ b) ↔ in_table b f ∧ pin_count_ (frame b f) = 0).

(** Structural well-formedness of the pool: frames hold [PAGE_SIZE] bytes;
    a page-table entry points to a frame of the pool bound to that page;
    every bound frame has its entry; the replacer is well formed and holds
    only unpinned frames of the page table; the free list holds each frame
    once, unbound; only allocated pages are cached; no pin count is
    negative. *)
Record bpm_ok (b : BufferPoolManager) : Prop := {
  ok_data : ∀ f p, pages_ b !! f = Some p → length (data_ p) = Z.to_nat PAGE_SIZE;
  ok_table : ∀ pid f, page_table_ b !! pid = Some f →
      (f < length (pages_ b))%nat ∧ id_ (frame b f) = pid
      ∧ page_no pid ≠ INVALID_PAGE_ID;
  ok_bound : ∀ f, (f < length (pages_ b))%nat →
      page_no (id_ (frame b f)) ≠ INVALID_PAGE_ID →
      page_table_ b !! id_ (frame b f) = Some f;
  ok_lru : lru_wf (replacer_ b);
  ok_replacer : ∀ f, f ∈ LRUhash_ (replacer_ b) →
      (f < length (pages_ b))%nat
      ∧ page_table_ b !! id_ (frame b f) = Some f
      ∧ pin_count_ (frame b f) = 0;
  ok_free : NoDup (free_list_ b)
      ∧ ∀ f, f ∈ free_list_ b →
          (f < length (pages_ b))%nat ∧ page_no (id_ (frame b f)) = INVALID_PAGE_ID;
  ok_alloc : ∀ pid f, page_table_ b !! pid = Some f →
      page_no pid < Disk.next_page_no (fd pid) (disk_manager_ b);
  ok_pins : ∀ f, 0 ≤ pin_count_ (frame b f)
}.

(** A client's calls of the pool's operations, results dropped. *)
Inductive PoolOp :=
  | PFetch (page_id : PageId)
  | PUnpin (page_id : PageId) (is_dirty : bool)
  | PFlush (page_id : PageId)
  | PNew (fd_arg : Z)
  | PDelete (page_id : PageId)
  | PFlushAll (fd_arg : Z).

Definition run_pool_op (o : PoolOp) (b : BufferPoolManager) : BufferPoolManager :=
  match o with
  | PFetch page_id => snd (BPM.fetch_page page_id b)
  | PUnpin page_id is_dirty => snd (BPM.unpin_page page_id is_dirty b)
  | PFlush page_id => snd (BPM.flush_page page_id b)
  | PNew fd_arg => snd (BPM.new_page (fd_arg, INVALID_PAGE_ID) b)
  | PDelete page_id => snd (BPM.delete_page page_id b)
  | PFlushAll fd_arg => BPM.flush_all_pages fd_arg b
  end.

(** What a call needs from the pool it is made on: [fetch_page] is asked
    for a page of the file (a page number that the disk manager has
    allocated), and the disk manager does not refuse the allocation of
    [new_page] once a frame was taken for it. *)
Definition pool_op_ok (b : BufferPoolManager) (o : PoolOp) : Prop :=
  match o with
  | PFetch page_id =>
      page_no page_id ≠ INVALID_PAGE_ID
      ∧ page_no page_id < Disk.next_page_no (fd page_id) (disk_manager_ b)
  | PNew fd_arg =>
      (∃ v, chosen_victim b v) →
      fst (Disk.allocate_page fd_arg (disk_manager_ b)) ≠ INVALID_PAGE_ID
  | _ => True
  end.

Fixpoint pool_ops_ok (b : BufferPoolManager) (ops : list PoolOp) : Prop :=
  match ops with
  | [] => True
  | o :: ops' => pool_op_ok b o ∧ pool_ops_ok (run_pool_op o b) ops'
  end.

Definition run_pool_ops (ops : list PoolOp) (b : BufferPoolManager) : BufferPoolManager :=
  foldl (λ b o, run_pool_op o b) b ops.

(** The occupied slots of a data page, in increasing order, and their
    number: the population count of the bitmap over [0, n). *)
Definition set_slots (d : list Z) (n : Z) : list Z :=
  filter (λ i, Bitmap.is_set PageHandle.bitmap i d = true) (seqZ 0 n).

Definition popcount (d : list Z) (n : Z) : Z := Z.of_nat (length (set_slots d n)).

(** The layout constraints on a file header: the page header, the bitmap
    and the slots fit in a page, and the bitmap has a bit for every slot. *)
Record hdr_ok (h : RmFileHdr) : Prop := {
  hok_record_size : 0 ≤ record_size h;
  hok_nrpp : 0 ≤ num_records_per_page h;
  hok_bitmap : num_records_per_page h ≤ 8 * bitmap_size h;
  hok_fit : sizeof_RmPageHdr + bitmap_size h
            + num_records_per_page h * record_size h ≤ PAGE_SIZE
}.

Definition page_sized (d : list Z) : Prop := length d = Z.to_nat PAGE_SIZE.

(** What a caller sees of page [pid] through the pool: the bytes of its
    frame if it is cached, else the bytes on disk. *)
Definition page_view (b : BufferPoolManager) (pid : PageId) : list Z :=
  match page_table_ b !! pid with
  | Some f => data_ (frame b f)
  | None => Disk.read_page pid (disk_manager_ b)
  end.

(** A cached data page that is not dirty has the bytes of the disk. *)
Definition clean_synced (b : BufferPoolManager) : Prop :=
  ∀ pid f, page_table_ b !! pid = Some f → is_dirty_ (frame b f) = false →
    RM_FIRST_RECORD_PAGE ≤ page_no pid →
    data_ (frame b f) = Disk.read_page pid (disk_manager_ b).

(** Every frame of the pool holds a page that is pinned. *)
Definition all_pinned (b : BufferPoolManager) : Prop :=
  ∀ f, (f < length (pages_ b))%nat → in_table b f ∧ pin_count_ (frame b f) > 0.

(** Every cached page that is not dirty has the bytes of the disk. *)
Definition all_synced (b : BufferPoolManager) : Prop :=
  ∀ pid f, page_table_ b !! pid = Some f → is_dirty_ (frame b f) = false →
    data_ (frame b f) = Disk.read_page pid (disk_manager_ b).

(** Pages of the disk that are not allocated read as zeros. *)
Definition disk_fresh (d : DiskManager) : Prop :=
  ∀ pid, Disk.next_page_no (fd pid) d ≤ page_no pid → Disk.read_page pid d = zero_page.

(** Every allocated page of [b] looks the same through [b']. *)
Definition same_views (b b' : BufferPoolManager) : Prop :=
  ∀ q, page_no q < Disk.next_page_no (fd q) (disk_manager_ b) →
    page_view b' q = page_view b q.

(** What a call of the pool keeps: clean frames match the disk, pages that
    are not allocated read as zeros, no page number is given back, and
    allocated pages look the same. *)
Definition keeps_pages (b b' : BufferPoolManager) : Prop :=
  all_synced b' ∧ disk_fresh (disk_manager_ b')
  ∧ (∀ x, Disk.next_page_no x (disk_manager_ b)
          ≤ Disk.next_page_no x (disk_manager_ b'))
  ∧ same_views b b'.

(** The pool with at most one pinned frame, [pinned], held once: the pool
    invariant of the specification, every cached frame but [pinned] has pin
    count 0 and [pinned] has pin count 1. *)
Definition quiet_but (b : BufferPoolManager) (pinned : option frame_id_t) : Prop :=
  ∀ f, (f < length (pages_ b))%nat →
    (f ∈ free_list_ b ∨ in_table b f)
    ∧ ¬ (f ∈ free_list_ b ∧ in_table b f)
    ∧ (in_table b f →
         pin_count_ (frame b f) = if decide (pinned = Some f) then 1 else 0)
    ∧ (f ∈ LRUhash_ (replacer_ b) ↔ in_table b f ∧ pinned ≠ Some f)
    ∧ (pinned = Some f → in_table b f).

(** [b'] is [b] after frame [v], handed out by [find_victim_page], was
    written back if bound and dirty, unbound, and bound to [pid] with bytes
    [X], pin count 1 and dirty flag [D]. *)
Record rebound (b : BufferPoolManager) (v : frame_id_t) (pid : PageId)
    (X : list Z) (D : bool) (b' : BufferPoolManager) : Prop := {
  rb_victim : chosen_victim b v;
  rb_fresh : page_table_ b !! pid = None;
  rb_valid : page_no pid ≠ INVALID_PAGE_ID;
  rb_sized : page_sized X;
  rb_pages : pages_ b' = <[v := mkPage pid X D 1]> (pages_ b);
  rb_table : page_table_ b'
             = <[pid := v]>
                 (if bool_decide (page_no (id_ (frame b v)) ≠ INVALID_PAGE_ID)
                  then delete (id_ (frame b v)) (page_table_ b)
                  else page_table_ b);
  rb_free : free_list_ b' = tail (free_list_ b);
  rb_lru : lru_wf (replacer_ b');
  rb_replacer : ∀ g, g ∈ LRUhash_ (replacer_ b')
                     ↔ g ∈ LRUhash_ (replacer_ b) ∧ g ≠ v;
  rb_read : ∀ q, Disk.read_page q (disk_manager_ b')
                 = if bool_decide (page_no (id_ (frame b v)) ≠ INVALID_PAGE_ID
                                   ∧ is_dirty_ (frame b v) = true
                                   ∧ q = id_ (frame b v))
                   then data_ (frame b v)
                   else Disk.read_page q (disk_manager_ b);
  rb_next : ∀ x, Disk.next_page_no x (disk_manager_ b)
                 ≤ Disk.next_page_no x (disk_manager_ b');
  rb_alloc : page_no pid < Disk.next_page_no (fd pid) (disk_manager_ b')
}.

(** [b'] is [b] with frame [f] replaced by [p], which differs from it in
    bytes, dirty flag and pin count only, and with replacer [r']. *)
Record touched (b : BufferPoolManager) (f : frame_id_t) (p : Page)
    (r' : LRUReplacer) (b' : BufferPoolManager) : Prop := {
  tc_range : (f < length (pages_ b))%nat;
  tc_pages : pages_ b' = <[f := p]> (pages_ b);
  tc_id : id_ p = id_ (frame b f);
  tc_sized : page_sized (data_ p);
  tc_table : page_table_ b' = page_table_ b;
  tc_free : free_list_ b' = free_list_ b;
  tc_disk : disk_manager_ b' = disk_manager_ b;
  tc_replacer : replacer_ b' = r'
}.

(** The file handle's invariant: a header whose layout fits the page and
    whose [num_pages] is the disk manager's page count of the file (as
    [open_file] sets it up), no [int] field out of range (the device cannot
    grow the file past [INT_MAX] pages), and a well-formed pool whose clean
    data pages match the disk. *)
Record fh_ok (s : RmFileHandle) : Prop := {
  fo_hdr : hdr_ok (file_hdr_ s);
  fo_pages : 1 ≤ num_pages (file_hdr_ s);
  fo_next : Disk.next_page_no (fd_ s) (disk_manager_ (buffer_pool_manager_ s))
            = num_pages (file_hdr_ s);
  fo_room : num_pages (file_hdr_ s)
            + Z.of_nat (disk_room (disk_manager_ (buffer_pool_manager_ s)))
            ≤ 2147483647;
  fo_free : -2147483648 ≤ first_free_page_no (file_hdr_ s) ≤ 2147483647;
  fo_bpm : bpm_ok (buffer_pool_manager_ s);
  fo_sync : clean_synced (buffer_pool_manager_ s)
}.

(** [num_records] agrees with the bitmap, on one page and on every data
    page of the file as seen through the pool. *)
Definition page_consistent (h : RmFileHdr) (d : list Z) : Prop :=
  PageHandle.num_records d = popcount d (num_records_per_page h).

Definition file_consistent (s : RmFileHandle) : Prop :=
  ∀ p, RM_FIRST_RECORD_PAGE ≤ p < num_pages (file_hdr_ s) →
    page_consistent (file_hdr_ s) (page_view (buffer_pool_manager_ s) (fd_ s, p)).

(** The state between a fetch and its unpin after the page handle's bytes
    were changed by [g] and the page marked dirty. *)
Definition modify (f : frame_id_t) (g : list Z → list Z) (s : RmFileHandle)
    : RmFileHandle :=
  let b := buffer_pool_manager_ s in
  with_bpm (set_frame f (mkPage (id_ (frame b f)) (g (data_ (frame b f))) true
                           (pin_count_ (frame b f))) b) s.

(** The state after one assignment through the page handle ([poke]) and
    after [mark_dirty]. *)
Definition touch (f : frame_id_t) (g : list Z → list Z) (s : RmFileHandle)
    : RmFileHandle := snd (poke f g s).

Definition dirtied (f : frame_id_t) (s : RmFileHandle) : RmFileHandle :=
  snd (mark_dirty f s).

(** What [get_record(rid)] returns once the page of [rid] is fetched, [d]
    being the page's bytes: the checks on the slot, then the slot's bytes. *)
Definition get_record_result (h : RmFileHdr) (rid : Rid) (d : list Z)
    : RmError + list Z :=
  if decide (slot_no rid < 0 ∨ slot_no rid >= num_records_per_page h) then inl RMDBError
  else if Bitmap.is_set PageHandle.bitmap (slot_no rid) d
  then inr (load (PageHandle.get_slot h (slot_no rid)) (record_size h) d)
  else inl (RecordNotFoundError (rpage_no rid) (slot_no rid)).

(** [s'] shows the same data pages as [s], through a pool of the same
    size. *)
Definition same_pages (s s' : RmFileHandle) : Prop :=
  fd_ s' = fd_ s
  ∧ length (pages_ (buffer_pool_manager_ s')) = length (pages_ (buffer_pool_manager_ s))
  ∧ ∀ q, RM_FIRST_RECORD_PAGE ≤ page_no q →
         page_view (buffer_pool_manager_ s') q = page_view (buffer_pool_manager_ s) q.

(** [s'] shows the data pages of [s] but page [p] of the file, which now
    holds [d'] and is cached. *)
Definition page_written (s s' : RmFileHandle) (p : Z) (d' : list Z) : Prop :=
  fd_ s' = fd_ s
  ∧ length (pages_ (buffer_pool_manager_ s')) = length (pages_ (buffer_pool_manager_ s))
  ∧ page_view (buffer_pool_manager_ s') (fd_ s, p) = d'
  ∧ (∃ f, page_table_ (buffer_pool_manager_ s') !! (fd_ s, p) = Some f)
  ∧ ∀ q, RM_FIRST_RECORD_PAGE ≤ page_no q → q ≠ (fd_ s, p) →
         page_view (buffer_pool_manager_ s') q = page_view (buffer_pool_manager_ s) q.

(** A client's calls of the record operations; an exception is caught by
    the client, which goes on with the state the call left. *)
Inductive RecordOp :=
  | RInsert (buf : list Z)
  | RInsertAt (rid : Rid) (buf : list Z)
  | RDelete (rid : Rid)
  | RUpdate (rid : Rid) (buf : list Z)
  | RGet (rid : Rid).

Definition run_record_op (o : RecordOp) (s : RmFileHandle) : RmFileHandle :=
  match o with
  | RInsert buf => snd (Rm.insert_record buf s)
  | RInsertAt rid buf => snd (Rm.insert_record_at rid buf s)
  | RDelete rid => snd (Rm.delete_record rid s)
  | RUpdate rid buf => snd (Rm.update_record rid buf s)
  | RGet rid => snd (Rm.get_record rid s)
  end.

Definition run_record_ops (ops : list RecordOp) (s : RmFileHandle) : RmFileHandle :=
  foldl (λ s o, run_record_op o s) s ops.

(** The caller's side of [memcpy(slot, buf, record_size)]: a buffer holds
    [record_size] bytes. *)
Definition op_ok (h : RmFileHdr) (o : RecordOp) : Prop :=
  match o with
  | RInsert buf | RInsertAt _ buf | RUpdate _ buf =>
      length buf = Z.to_nat (record_size h)
  | RDelete _ | RGet _ => True
  end.

(** The record that a call writes at a position the caller chose. *)
Definition written_rid (o : RecordOp) : option Rid :=
  match o with
  | RInsertAt rid _ | RDelete rid | RUpdate rid _ => Some rid
  | RInsert _ | RGet _ => None
  end.

(** The occupied slots of a page after slot [slot], in increasing order. *)
Definition after_slots (d : list Z) (n slot : Z) : list Z :=
  filter (λ j, Bitmap.is_set PageHandle.bitmap j d = true)
    (seqZ (slot + 1) (n - (slot + 1))).

(** The Rids of the records after position [(p, slot)]: those of page [p]
    after [slot], then those of the [k - 1] pages that follow. *)
Fixpoint rids_after (s : RmFileHandle) (p slot : Z) (k : nat) : list Rid :=
  match k with
  | O => []
  | S k' =>
      map (mkRid p)
        (after_slots (page_view (buffer_pool_manager_ s) (fd_ s, p))
           (num_records_per_page (file_hdr_ s)) slot)
      ++ rids_after s (p + 1) (-1) k'
  end.

(** The Rids of the records of the file, page by page and slot by slot. *)
Definition live_rids (s : RmFileHandle) : list Rid :=
  rids_after s RM_FIRST_RECORD_PAGE (-1)
    (Z.to_nat (num_pages (file_hdr_ s) - RM_FIRST_RECORD_PAGE)).

(** The order of Rids: by page, then by slot. *)
Definition rid_lt (a b : Rid) : Prop :=
  rpage_no a < rpage_no b ∨ (rpage_no a = rpage_no b ∧ slot_no a < slot_no b).

(** The cursor of an exhausted scan. *)
Definition rid_end : Rid := mkRid RM_NO_PAGE (-1).

(** Two headers of the same file: they agree on the page layout. *)
Definition same_layout (h h' : RmFileHdr) : Prop :=
  record_size h' = record_size h
  ∧ num_records_per_page h' = num_records_per_page h
  ∧ bitmap_size h' = bitmap_size h.

(** The state after [insert_record] advanced the free-list head to [h'] and
    wrote the file header through the disk manager. *)
Definition flush_hdr (h' : RmFileHdr) (s : RmFileHandle) : RmFileHandle :=
  let b := buffer_pool_manager_ s in
  mkFH (fd_ s) h'
    (with_disk (Disk.write_page (fd_ s, RM_FILE_HDR_PAGE) (encode_file_hdr h')
                  (disk_manager_ b)) b).

(** The bytes of a page after a positional insert, a delete, an update and
    an insert into slot [i]. *)
Definition insert_at_bytes (h : RmFileHdr) (i : Z) (buf : list Z) (d : list Z)
    : list Z :=
  let d1 := memcpy_to (PageHandle.get_slot h i) buf (record_size h) d in
  let d2 := Bitmap.set PageHandle.bitmap i d1 in
  if Bitmap.is_set PageHandle.bitmap i d then d2
  else PageHandle.set_num_records (PageHandle.num_records d2 + 1) d2.

Definition insert_bytes (h : RmFileHdr) (i : Z) (buf : list Z) (d : list Z)
    : list Z :=
  let d1 := memcpy_to (PageHandle.get_slot h i) buf (record_size h) d in
  let d2 := Bitmap.set PageHandle.bitmap i d1 in
  PageHandle.set_num_records (PageHandle.num_records d2 + 1) d2.

Definition delete_bytes (i : Z) (d : list Z) : list Z :=
  let d1 := Bitmap.reset PageHandle.bitmap i d in
  PageHandle.set_num_records (PageHandle.num_records d1 - 1) d1.

Definition update_bytes (h : RmFileHdr) (i : Z) (buf : list Z) (d : list Z)
    : list Z :=
  memcpy_to (PageHandle.get_slot h i) buf (record_size h) d.

(** The bytes of a page as [create_new_page_handle] initialises it. *)
Definition new_page_bytes (h : RmFileHdr) : list Z :=
  Bitmap.init PageHandle.bitmap (num_records_per_page h)
    (PageHandle.set_next_free_page_no RM_NO_PAGE
       (PageHandle.set_num_records 0 zero_page)).

(* ================================================================= *)
(** * The LRU replacer: proofs *)

Section LRU_facts.

Local Open Scope nat_scope.

Lemma list_erase_subset f l g : g ∈ list_erase f l → g ∈ l.
Proof.
  induction l as [|x l IH]; simpl; [done|].
  case_decide; set_solver.
Qed.

Lemma list_erase_elem f l g : NoDup l → g ∈ list_erase f l ↔ g ∈ l ∧ g ≠ f.
Proof.
  induction l as [|x l IH]; simpl; intros Hnd.
  - set_solver.
  - apply NoDup_cons in Hnd as [Hx Hnd]. case_decide as Hxf.
    + subst x. split; [|set_solver]. intros Hg. split; [set_solver|].
      intros ->. done.
    + rewrite elem_of_cons, IH by done. set_solver.
Qed.

Lemma list_erase_NoDup f l : NoDup l → NoDup (list_erase f l).
Proof.
  induction l as [|x l IH]; simpl; intros Hnd; [done|].
  apply NoDup_cons in Hnd as [Hx Hnd]. case_decide; [done|].
  apply NoDup_cons. split; [|auto].
  intros Hin. apply Hx. by eapply list_erase_subset.
Qed.

Lemma list_erase_absent f l : f ∉ l → list_erase f l = l.
Proof.
  induction l as [|x l IH]; simpl; intros Hf; [done|].
  case_decide; [set_solver|]. f_equal. apply IH. set_solver.
Qed.

(** Erasing the node of [f] keeps the other frames in their order. *)
Lemma list_erase_filter f l : NoDup l → list_erase f l = filter (λ g, g ≠ f) l.
Proof.
  induction l as [|x l IH]; simpl; intros Hnd; [done|].
  apply NoDup_cons in Hnd as [Hx Hnd]. case_decide as Hxf.
  - subst x. rewrite filter_cons_False by naive_solver.
    rewrite <- IH by done. symmetry. by apply list_erase_absent.
  - rewrite filter_cons_True by done. f_equal. by apply IH.
Qed.

Lemma desc_erase σ f l : desc σ l → desc σ (list_erase f l).
Proof.
  induction l as [|x l IH]; simpl; [done|]. intros [Hx Hl].
  case_decide; [done|]. simpl. split; [|auto].
  intros b Hb. apply Hx. by eapply list_erase_subset.
Qed.

Lemma desc_ext σ σ' l : (∀ a, a ∈ l → σ a = σ' a) → desc σ l → desc σ' l.
Proof.
  induction l as [|x l IH]; simpl; [done|]. intros Heq [Hx Hl]. split.
  - intros b Hb. rewrite <- !Heq by set_solver. by apply Hx.
  - apply IH; [|done]. intros a Ha. apply Heq. set_solver.
Qed.

Lemma desc_snoc σ l v : desc σ (l ++ [v]) → desc σ l ∧ ∀ g, g ∈ l → σ v < σ g.
Proof.
  induction l as [|x l IH]; simpl.
  - intros _. split; [done|]. set_solver.
  - intros [Hx Hl]. destruct (IH Hl) as [Hd Hv]. split.
    + split; [|done]. intros b Hb. apply Hx. set_solver.
    + intros g [->|Hg]%elem_of_cons; [|by apply Hv]. apply Hx. set_solver.
Qed.

Lemma last_snoc_inv (l : list frame_id_t) v :
  last l = Some v → l = removelast l ++ [v].
Proof.
  intros [l' ->]%last_Some. by rewrite removelast_last.
Qed.

Lemma lru_wf_create n : lru_wf (LRU.create n).
Proof. split; simpl; [constructor|set_solver]. Qed.

Lemma lru_wf_unpin f r : lru_wf r → lru_wf (LRU.unpin f r).
Proof.
  intros [Hnd Hk]. unfold LRU.unpin. case_decide as Hf; [done|].
  split; simpl.
  - apply NoDup_cons. split; [|done]. by rewrite <- Hk.
  - intros g. rewrite elem_of_union, elem_of_singleton, elem_of_cons, Hk. done.
Qed.

Lemma lru_wf_pin f r : lru_wf r → lru_wf (LRU.pin f r).
Proof.
  intros [Hnd Hk]. unfold LRU.pin. case_decide as Hf; [|done].
  split; simpl.
  - by apply list_erase_NoDup.
  - intros g. rewrite list_erase_elem by done.
    rewrite elem_of_difference, elem_of_singleton, Hk. done.
Qed.

Lemma lru_wf_victim r : lru_wf r → lru_wf (snd (LRU.victim r)).
Proof.
  intros [Hnd Hk]. unfold LRU.victim.
  destruct (last (LRUlist_ r)) as [v|] eqn:Hlast; [|done]. simpl.
  apply last_snoc_inv in Hlast. rewrite Hlast in Hnd.
  apply NoDup_app in Hnd as (Hnd1 & Hdisj & _). split; simpl; [done|].
  intros g. rewrite elem_of_difference, elem_of_singleton, Hk.
  rewrite Hlast at 1. rewrite elem_of_app, list_elem_of_singleton.
  split.
  - intros [[?|?] ?]; done.
  - intros Hg. split; [by left|]. intros ->. apply (Hdisj v Hg). set_solver.
Qed.

Lemma lru_wf_run_op o r : lru_wf r → lru_wf (run_op o r).
Proof.
  destruct o; simpl; auto using lru_wf_unpin, lru_wf_pin, lru_wf_victim.
Qed.

Lemma lru_wf_run_ops ops r : lru_wf r → lru_wf (run_ops ops r).
Proof.
  revert r. induction ops as [|o ops IH]; intros r Hr; [done|].
  simpl. apply IH. by apply lru_wf_run_op.
Qed.

(** [victim] fails exactly on an empty replacer. *)
Lemma victim_None r :
  lru_wf r → fst (LRU.victim r) = None ↔ ∀ g, g ∉ LRUhash_ r.
Proof.
  intros [_ Hk]. unfold LRU.victim.
  destruct (last (LRUlist_ r)) as [v|] eqn:Hlast; simpl.
  - split; [done|]. intros Hno. exfalso. apply (Hno v), Hk.
    apply last_snoc_inv in Hlast. rewrite Hlast. set_solver.
  - apply last_None in Hlast. split; [|done]. intros _ g.
    rewrite Hk, Hlast. set_solver.
Qed.

(** What a successful [victim] does to the list and the key set. *)
Lemma victim_Some r v r' :
  lru_wf r → LRU.victim r = (Some v, r') →
  LRUlist_ r = LRUlist_ r' ++ [v] ∧ v ∈ LRUhash_ r
  ∧ (∀ g, g ∈ LRUhash_ r' ↔ g ∈ LRUhash_ r ∧ g ≠ v).
Proof.
  intros [Hnd Hk]. unfold LRU.victim.
  destruct (last (LRUlist_ r)) as [w|] eqn:Hlast; [|done].
  intros [= -> <-]. simpl. apply last_snoc_inv in Hlast.
  split; [done|]. split.
  - apply Hk. rewrite Hlast. set_solver.
  - intros g. rewrite elem_of_difference, elem_of_singleton. done.
Qed.

Lemma stamped_step o r σ t :
  stamped r σ t → stamped (run_op o r) (step_stamp t o r σ) (S t).
Proof.
  intros (Hwf & Hlt & Hd). split; [by apply lru_wf_run_op|].
  destruct Hwf as [Hnd Hk]. unfold step_stamp. destruct o as [f|f|]; simpl.
  - (* unpin *)
    unfold LRU.unpin. case_decide as Hf; simpl.
    + split.
      * intros g Hg. case_decide as Hc; [by destruct Hc as [-> ?]|].
        specialize (Hlt g Hg). lia.
      * eapply desc_ext; [|done]. intros a Ha.
        case_decide as Hc; [by destruct Hc as [-> ?]|done].
    + split.
      * intros g Hg. case_decide as Hc; [lia|].
        apply elem_of_cons in Hg as [Hgf|Hg]; [exfalso; apply Hc; split; [done|by subst]|].
        specialize (Hlt g Hg). lia.
      * split.
        -- intros b Hb.
           rewrite (decide_False (P := f = b ∧ _)).
           ++ rewrite decide_True by done. by apply Hlt.
           ++ intros [-> _]. apply Hf. by apply Hk.
        -- eapply desc_ext; [|done]. intros a Ha.
           rewrite decide_False; [done|]. intros [-> _]. apply Hf. by apply Hk.
  - (* pin *)
    unfold LRU.pin. case_decide as Hf; simpl.
    + split.
      * intros g Hg%list_erase_subset. specialize (Hlt g Hg). lia.
      * by apply desc_erase.
    + split; [|done]. intros g Hg. specialize (Hlt g Hg). lia.
  - (* victim *)
    unfold LRU.victim.
    destruct (last (LRUlist_ r)) as [v|] eqn:Hlast; simpl.
    + apply last_snoc_inv in Hlast. split.
      * intros g Hg. assert (g ∈ LRUlist_ r) as Hg' by (rewrite Hlast; set_solver).
        specialize (Hlt g Hg'). lia.
      * rewrite Hlast in Hd. by apply desc_snoc in Hd as [? _].
    + split; [|done]. intros g Hg. specialize (Hlt g Hg). lia.
Qed.

Lemma last_effective_unpin_step t o ops r σ f :
  last_effective_unpin t (o :: ops) r f (σ f)
  = last_effective_unpin (S t) ops (run_op o r) f (step_stamp t o r σ f).
Proof. destruct o; reflexivity. Qed.

Lemma stamped_run ops : ∀ r σ t,
  stamped r σ t →
  stamped (run_ops ops r) (λ f, last_effective_unpin t ops r f (σ f)) (t + length ops).
Proof.
  induction ops as [|o ops IH]; intros r σ t Hst.
  - simpl. by rewrite Nat.add_0_r.
  - specialize (IH _ _ _ (stamped_step o _ _ _ Hst)).
    simpl length. rewrite Nat.add_succ_r. simpl plus in IH.
    destruct IH as (H1 & H2 & H3). split; [done|]. split.
    + intros f Hf. rewrite last_effective_unpin_step. by apply H2.
    + eapply desc_ext; [|exact H3]. intros a _.
      by rewrite last_effective_unpin_step.
Qed.

Lemma run_ops_snoc ops o r : run_ops (ops ++ [o]) r = run_op o (run_ops ops r).
Proof. unfold run_ops. by rewrite foldl_app. Qed.

Lemma last_effective_unpin_snoc ops : ∀ t o r f acc,
  last_effective_unpin t (ops ++ [o]) r f acc
  = step_stamp (t + length ops) o (run_ops ops r)
      (λ g, last_effective_unpin t ops r g acc) f.
Proof.
  induction ops as [|o' ops IH]; intros t o r f acc.
  - simpl. rewrite Nat.add_0_r. by destruct o.
  - simpl app. simpl length. rewrite Nat.add_succ_r.
    change (last_effective_unpin t (o' :: ops ++ [o]) r f acc)
      with (last_effective_unpin (S t) (ops ++ [o]) (run_op o' r) f
              (match o' with
               | OpUnpin g => if decide (g = f ∧ f ∉ LRUhash_ r) then t else acc
               | _ => acc
               end)).
    rewrite IH. simpl plus.
    destruct o as [g| |]; simpl; [|done|done].
    case_decide; [done|]. done.
Qed.

End LRU_facts.

(** C9.  On the replacer reached from an empty one by any history of
    calls, with [stamp g] the time of the most recent unpin of [g] (an
    [unpin(g)] on an eligible [g] is a no-op and does not count): [victim]
    fails exactly when no frame is eligible and then changes nothing;
    otherwise it returns the eligible frame with the earliest stamp, the
    least recently used one (the tail of the list), and removes exactly that
    frame.  [unpin(f)] is a no-op on an eligible [f]; otherwise it makes [f]
    eligible at the front, with a stamp later than every other eligible
    frame's, whose stamps it keeps: [f] is the most recently used.  [pin(f)]
    is a no-op on a frame that is not eligible; otherwise it removes exactly
    [f], the others keeping their order. *)
Theorem lru_policy (n : nat) (ops : list ReplacerOp) (f : frame_id_t) :
  let r0 := LRU.create n in
  let r := run_ops ops r0 in
  let stamp := λ g, last_effective_unpin 1 ops r0 g 0 in
  let stamp' := λ g, last_effective_unpin 1 (ops ++ [OpUnpin f]) r0 g 0 in
  (fst (LRU.victim r) = None ↔ ∀ g, g ∉ LRUhash_ r)
  ∧ (fst (LRU.victim r) = None → snd (LRU.victim r) = r)
  ∧ (∀ v, fst (LRU.victim r) = Some v →
       v ∈ LRUhash_ r
       ∧ (∀ g, g ∈ LRUhash_ r → g ≠ v → (stamp v < stamp g)%nat)
       ∧ (∀ g, g ∈ LRUhash_ (snd (LRU.victim r)) ↔ g ∈ LRUhash_ r ∧ g ≠ v)
       ∧ LRUlist_ r = LRUlist_ (snd (LRU.victim r)) ++ [v])
  ∧ (f ∈ LRUhash_ r → LRU.unpin f r = r)
  ∧ (f ∉ LRUhash_ r →
       (∀ g, g ∈ LRUhash_ (LRU.unpin f r) ↔ g = f ∨ g ∈ LRUhash_ r)
       ∧ LRUlist_ (LRU.unpin f r) = f :: LRUlist_ r
       ∧ (∀ g, g ∈ LRUhash_ r → stamp' g = stamp g ∧ (stamp' g < stamp' f)%nat))
  ∧ (f ∉ LRUhash_ r → LRU.pin f r = r)
  ∧ (f ∈ LRUhash_ r →
       (∀ g, g ∈ LRUhash_ (LRU.pin f r) ↔ g ∈ LRUhash_ r ∧ g ≠ f)
       ∧ LRUlist_ (LRU.pin f r) = filter (λ g, g ≠ f) (LRUlist_ r)).
Proof.
  intros r0 r stamp stamp'.
  assert (stamped r0 (λ _, 0%nat) 1) as Hst0.
  { split; [apply lru_wf_create|]. split; [|done]. simpl. set_solver. }
  pose proof (stamped_run ops _ _ _ Hst0) as (Hwf & Hlt & Hd).
  fold r0 r in Hwf, Hlt, Hd. change (desc stamp (LRUlist_ r)) in Hd.
  destruct Hwf as [Hnd Hk].
  split; [by apply victim_None|]. split.
  { unfold LRU.victim. by destruct (last (LRUlist_ r)). }
  split.
  { intros v Hv. destruct (LRU.victim r) as [o r'] eqn:Hvic. simpl in Hv. subst o.
    apply victim_Some in Hvic as (Hl & Hin & Hk'); [|done]. simpl.
    split; [done|]. split; [|done].
    intros g Hg Hgv. rewrite Hl in Hd. apply desc_snoc in Hd as [_ Hmin].
    apply Hmin. apply Hk in Hg. rewrite Hl in Hg. set_solver. }
  split.
  { intros Hf. unfold LRU.unpin. by rewrite decide_True. }
  split.
  { intros Hf. unfold LRU.unpin. rewrite decide_False by done. simpl.
    split; [set_solver|]. split; [done|].
    intros g Hg. unfold stamp'. rewrite !last_effective_unpin_snoc.
    fold r0 r. simpl.
    rewrite decide_False by (intros [-> _]; done).
    rewrite decide_True by done. split; [done|].
    apply Hk in Hg. specialize (Hlt g Hg). simpl in Hlt. lia. }
  split.
  { intros Hf. unfold LRU.pin. by rewrite decide_False. }
  intros Hf. unfold LRU.pin. rewrite decide_True by done. simpl. split.
  - intros g. rewrite elem_of_difference, elem_of_singleton. done.
  - by apply list_erase_filter.
Qed.

(* ================================================================= *)
(** * The buffer pool manager: proofs *)

Section BPM_facts.

Implicit Types (b : BufferPoolManager) (f g : frame_id_t) (p : Page).

Lemma frame_set_frame_eq b f p :
  (f < length (pages_ b))%nat → frame (set_frame f p b) f = p.
Proof. intros Hf. unfold frame, set_frame. simpl. by apply list_lookup_total_insert_eq. Qed.

Lemma frame_set_frame_ne b f g p : f ≠ g → frame (set_frame f p b) g = frame b g.
Proof. intros Hf. unfold frame, set_frame. simpl. by apply list_lookup_total_insert_ne. Qed.

Lemma frame_out_of_range b f : (length (pages_ b) ≤ f)%nat → frame b f = empty_frame.
Proof.
  intros Hf. unfold frame. rewrite list_lookup_total_alt.
  by rewrite lookup_ge_None_2.
Qed.

Lemma frame_lookup b f : (f < length (pages_ b))%nat → pages_ b !! f = Some (frame b f).
Proof. intros Hf. unfold frame. by apply list_lookup_lookup_total_lt. Qed.

Lemma set_frame_same b f : set_frame f (frame b f) b = b.
Proof.
  unfold set_frame, with_pages. destruct b as [ps pt fl r d]. simpl. f_equal.
  destruct (decide (f < length ps)%nat).
  - apply list_insert_id. by apply list_lookup_lookup_total_lt.
  - apply list_insert_ge. lia.
Qed.

(** [unpin_page]: the three exits. *)
Lemma unpin_page_absent page_id is_dirty b :
  page_table_ b !! page_id = None → BPM.unpin_page page_id is_dirty b = (false, b).
Proof. intros H. unfold BPM.unpin_page. by rewrite H. Qed.

Lemma unpin_page_not_pinned page_id is_dirty b f :
  page_table_ b !! page_id = Some f → pin_count_ (frame b f) ≤ 0 →
  BPM.unpin_page page_id is_dirty b = (false, b).
Proof. intros H Hp. unfold BPM.unpin_page. rewrite H. by rewrite decide_True. Qed.

Lemma unpin_page_pinned page_id is_dirty b f :
  page_table_ b !! page_id = Some f → pin_count_ (frame b f) > 0 →
  BPM.unpin_page page_id is_dirty b =
  (true,
   let p := frame b f in
   let b1 := set_frame f (mkPage (id_ p) (data_ p) (is_dirty_ p || is_dirty)
                            (pin_count_ p - 1)) b in
   if decide (pin_count_ p = 1)
   then with_replacer (LRU.unpin f (replacer_ b)) b1 else b1).
Proof.
  intros H Hp. unfold BPM.unpin_page. rewrite H.
  rewrite decide_False by lia. f_equal.
  assert ((if is_dirty then set_dirty true (set_pin_count (pin_count_ (frame b f) - 1) (frame b f))
           else set_pin_count (pin_count_ (frame b f) - 1) (frame b f))
          = mkPage (id_ (frame b f)) (data_ (frame b f)) (is_dirty_ (frame b f) || is_dirty)
              (pin_count_ (frame b f) - 1)) as ->.
  { destruct is_dirty; unfold set_dirty, set_pin_count; simpl.
    - by rewrite orb_true_r.
    - by rewrite orb_false_r. }
  simpl. destruct (decide (pin_count_ (frame b f) - 1 = 0)).
  - by rewrite decide_True by lia.
  - by rewrite decide_False by lia.
Qed.

End BPM_facts.

(** C8.  [unpin_page(page_id, is_dirty)] returns false and leaves the whole
    pool unchanged when [page_id] is not in the page table or the frame's pin
    count is [<= 0]; it is a total function, so it never fails.  Otherwise it
    returns true, the frame keeps its id and bytes, its pin count goes down by
    one, its dirty flag becomes [old || is_dirty] (never cleared), the
    replacer is sent [unpin(frame_id)] exactly when the count reaches 0, and
    nothing else changes. *)
Theorem unpin_page_spec (page_id : PageId) (is_dirty : bool) (b : BufferPoolManager) :
  let r := BPM.unpin_page page_id is_dirty b in
  (page_table_ b !! page_id = None → r = (false, b))
  ∧ (∀ f, page_table_ b !! page_id = Some f → pin_count_ (frame b f) ≤ 0 →
       r = (false, b))
  ∧ (∀ f, page_table_ b !! page_id = Some f → pin_count_ (frame b f) > 0 →
       let p := frame b f in
       fst r = true
       ∧ pages_ (snd r)
         = <[f := mkPage (id_ p) (data_ p) (is_dirty_ p || is_dirty) (pin_count_ p - 1)]>
             (pages_ b)
       ∧ (is_dirty_ p = true → is_dirty_ (frame (snd r) f) = is_dirty_ p)
       ∧ replacer_ (snd r)
         = (if decide (pin_count_ p - 1 = 0)
            then LRU.unpin f (replacer_ b) else replacer_ b)
       ∧ page_table_ (snd r) = page_table_ b
       ∧ free_list_ (snd r) = free_list_ b
       ∧ disk_manager_ (snd r) = disk_manager_ b).
Proof.
  intros r. split; [apply unpin_page_absent|].
  split; [intros f; apply unpin_page_not_pinned|].
  intros f Hf Hp p. subst r. rewrite (unpin_page_pinned _ _ _ _ Hf Hp).
  cbv zeta. fold p. simpl fst. simpl snd.
  assert (∀ q, is_dirty_ p = true →
            is_dirty_ (frame (set_frame f (mkPage (id_ p) (data_ p) (is_dirty_ p || is_dirty) q) b) f)
            = is_dirty_ p) as Hd.
  { intros q Hdirty. destruct (decide (f < length (pages_ b))%nat).
    - rewrite frame_set_frame_eq by done. simpl. by rewrite Hdirty.
    - unfold set_frame. rewrite list_insert_ge by lia.
      by destruct b. }
  destruct (decide (pin_count_ p = 1)) as [H1|H1].
  - rewrite decide_True by lia. simpl. repeat split; try done.
    intros Hdirty. by apply Hd.
  - rewrite decide_False by lia. simpl. repeat split; try done.
    intros Hdirty. by apply Hd.
Qed.

Section fetch_page_facts.

Implicit Types (b : BufferPoolManager) (f v : frame_id_t).

Lemma pin_not_in f r : f ∉ LRUhash_ (LRU.pin f r).
Proof. unfold LRU.pin. case_decide; simpl; set_solver. Qed.

Lemma pin_other f g r : g ≠ f → g ∈ LRUhash_ (LRU.pin f r) ↔ g ∈ LRUhash_ r.
Proof. intros Hg. unfold LRU.pin. case_decide; simpl; set_solver. Qed.

Lemma victim_other r v g :
  fst (LRU.victim r) = Some v → g ≠ v →
  g ∈ LRUhash_ (snd (LRU.victim r)) ↔ g ∈ LRUhash_ r.
Proof.
  unfold LRU.victim. destruct (last (LRUlist_ r)); [|done]. simpl.
  intros [= ->] Hg. set_solver.
Qed.

Lemma find_victim_page_Some b v :
  chosen_victim b v →
  ∃ r, BPM.find_victim_page b
       = (Some v, with_replacer r (with_free_list (tail (free_list_ b)) b))
       ∧ (∀ g, g ≠ v → g ∈ LRUhash_ r ↔ g ∈ LRUhash_ (replacer_ b)).
Proof.
  unfold BPM.find_victim_page. intros [Hh|[Hfl Hl]].
  - destruct (free_list_ b) as [|x fl] eqn:E; [done|]. injection Hh as ->.
    exists (replacer_ b). split; [|done]. by destruct b.
  - rewrite Hfl. simpl. unfold LRU.victim. rewrite Hl.
    eexists. split.
    + f_equal. unfold with_replacer, with_free_list. simpl. rewrite <- Hfl.
      reflexivity.
    + intros g Hg. simpl. set_solver.
Qed.

Lemma find_victim_page_None b :
  free_list_ b = [] → LRUlist_ (replacer_ b) = [] →
  BPM.find_victim_page b = (None, b).
Proof.
  intros Hfl Hl. unfold BPM.find_victim_page, LRU.victim. rewrite Hfl, Hl. simpl.
  by destruct b.
Qed.

(** [update_page] towards a valid page id, in one step. *)
Lemma update_page_valid b v new_id :
  page_no new_id ≠ INVALID_PAGE_ID →
  let old := frame b v in
  let bound := bool_decide (page_no (id_ old) ≠ INVALID_PAGE_ID) in
  let disk' := if bound && is_dirty_ old
               then Disk.write_page (id_ old) (data_ old) (disk_manager_ b)
               else disk_manager_ b in
  let b' := BPM.update_page v new_id v b in
  disk_manager_ b' = disk'
  ∧ page_table_ b'
    = <[new_id := v]> (if bound then delete (id_ old) (page_table_ b) else page_table_ b)
  ∧ pages_ b'
    = <[v := mkPage new_id zero_page
               (if bound then false else is_dirty_ old) (pin_count_ old)]> (pages_ b)
  ∧ free_list_ b' = free_list_ b
  ∧ replacer_ b' = replacer_ b.
Proof.
  intros Hnew old bound disk' b'. subst b'. unfold BPM.update_page.
  rewrite (decide_True (P := page_no new_id ≠ _)) by done. fold old. subst disk' bound.
  assert (∀ (q : Page) (l : list Page),
            l = pages_ b →
            <[v := reset_memory (set_id new_id (<[v := q]> l !!! v))]> (<[v := q]> l)
            = <[v := mkPage new_id zero_page (is_dirty_ q) (pin_count_ q)]> l) as Hins.
  { intros q l ->. rewrite list_insert_insert_eq.
    destruct (decide (v < length (pages_ b))%nat).
    - by rewrite list_lookup_total_insert_eq by done.
    - by rewrite !list_insert_ge by lia. }
  destruct (decide (page_no (id_ old) ≠ INVALID_PAGE_ID)) as [Hb|Hb].
  - rewrite bool_decide_eq_true_2 by done. simpl andb.
    destruct (is_dirty_ old) eqn:Hd;
      unfold frame, set_frame, with_page_table, with_disk, with_pages; simpl.
    + split; [done|]. split; [done|]. split; [|done].
      by rewrite Hins.
    + split; [done|]. split; [done|]. split; [|done].
      unfold reset_memory, set_id. simpl. change (pages_ b !!! v) with old.
      by rewrite Hd.
  - rewrite bool_decide_eq_false_2 by done.
    unfold frame, set_frame, with_page_table, with_disk, with_pages; simpl.
    done.
Qed.

(** [update_page] for any new id: an id whose [page_no] is
    [INVALID_PAGE_ID] gets no page-table entry. *)
Lemma update_page_shape b v new_id :
  let old := frame b v in
  let bound := bool_decide (page_no (id_ old) ≠ INVALID_PAGE_ID) in
  let disk' := if bound && is_dirty_ old
               then Disk.write_page (id_ old) (data_ old) (disk_manager_ b)
               else disk_manager_ b in
  let unbound := if bound then delete (id_ old) (page_table_ b) else page_table_ b in
  let b' := BPM.update_page v new_id v b in
  ∃ D P,
    disk_manager_ b' = disk'
    ∧ page_table_ b'
      = (if decide (page_no new_id ≠ INVALID_PAGE_ID)
         then <[new_id := v]> unbound else unbound)
    ∧ pages_ b' = <[v := mkPage new_id zero_page D P]> (pages_ b)
    ∧ free_list_ b' = free_list_ b
    ∧ replacer_ b' = replacer_ b.
Proof.
  intros old bound disk' unbound b'.
  destruct (decide (page_no new_id ≠ INVALID_PAGE_ID)) as [Hnew|Hnew].
  { destruct (update_page_valid b v new_id Hnew) as (Hd & Hpt & Hps & Hfl & Hr).
    eexists _, _. split; [exact Hd|]. split; [exact Hpt|]. split; [exact Hps|]. done. }
  exists false, 0. subst b'. unfold BPM.update_page.
  rewrite (decide_False (P := page_no new_id ≠ _)) by done. fold old.
  subst disk' unbound bound.
  assert (∀ (q : Page) (l : list Page),
            l = pages_ b →
            <[v := reset_memory (set_dirty false (set_pin_count 0
                     (set_id new_id (<[v := q]> l !!! v))))]> (<[v := q]> l)
            = <[v := mkPage new_id zero_page false 0]> l) as Hins.
  { intros q l ->. rewrite list_insert_insert_eq.
    destruct (decide (v < length (pages_ b))%nat).
    - by rewrite list_lookup_total_insert_eq by done.
    - by rewrite !list_insert_ge by lia. }
  destruct (decide (page_no (id_ old) ≠ INVALID_PAGE_ID)) as [Hb|Hb].
  - rewrite bool_decide_eq_true_2 by done. simpl andb.
    destruct (is_dirty_ old) eqn:Hd;
      unfold frame, set_frame, with_page_table, with_disk, with_pages; simpl.
    + split; [done|]. split; [done|]. split; [|done]. by rewrite Hins.
    + done.
  - rewrite bool_decide_eq_false_2 by done.
    unfold frame, set_frame, with_page_table, with_disk, with_pages; simpl.
    done.
Qed.

End fetch_page_facts.

(** C2 (amended).  [fetch_page(page_id)].  On a hit at frame [f]: [f] is
    returned, its pin count is one more, [f] is no longer in the replacer,
    nothing else changes.  With no free frame and no frame in the replacer:
    [nullptr], and nothing changes.  On a miss with victim [v] (front of the
    free list, else the replacer's victim): if [v] was bound and dirty its
    bytes were written to disk under its old id; if bound, its old
    page-table entry is gone; [update_page] leaves the frame zeroed; the page
    table maps [page_id] to [v] when [page_id] names a page, but gets no
    entry when [page_no] is [INVALID_PAGE_ID]; frame [v] holds the bytes read
    from disk for [page_id], with pin count 1 and the dirty flag cleared; [v]
    is in neither the free list's front nor the replacer. *)
Theorem fetch_page_spec (page_id : PageId) (b : BufferPoolManager) :
  let r := BPM.fetch_page page_id b in
  (∀ f, page_table_ b !! page_id = Some f →
     fst r = Some f
     ∧ pages_ (snd r)
       = <[f := set_pin_count (pin_count_ (frame b f) + 1) (frame b f)]> (pages_ b)
     ∧ replacer_ (snd r) = LRU.pin f (replacer_ b)
     ∧ (f ∉ LRUhash_ (replacer_ (snd r)))
     ∧ page_table_ (snd r) = page_table_ b
     ∧ free_list_ (snd r) = free_list_ b
     ∧ disk_manager_ (snd r) = disk_manager_ b)
  ∧ (page_table_ b !! page_id = None → free_list_ b = [] →
     LRUlist_ (replacer_ b) = [] → r = (None, b))
  ∧ (∀ v, page_table_ b !! page_id = None →
     chosen_victim b v →
     let old := frame b v in
     let bound := bool_decide (page_no (id_ old) ≠ INVALID_PAGE_ID) in
     let disk' := if bound && is_dirty_ old
                  then Disk.write_page (id_ old) (data_ old) (disk_manager_ b)
                  else disk_manager_ b in
     let unbound := if bound then delete (id_ old) (page_table_ b) else page_table_ b in
     fst r = Some v
     ∧ disk_manager_ (snd r) = disk'
     ∧ page_table_ (snd r)
       = (if decide (page_no page_id ≠ INVALID_PAGE_ID)
          then <[page_id := v]> unbound else unbound)
     ∧ data_ (frame (BPM.update_page v page_id v (snd (BPM.find_victim_page b))) v)
       = zero_page
     ∧ pages_ (snd r)
       = <[v := mkPage page_id (Disk.read_page page_id disk') false 1]> (pages_ b)
     ∧ free_list_ (snd r) = tail (free_list_ b)
     ∧ (v ∉ LRUhash_ (replacer_ (snd r)))
     ∧ (∀ g, g ≠ v → g ∈ LRUhash_ (replacer_ (snd r)) ↔ g ∈ LRUhash_ (replacer_ b))).
Proof.
  intros r. subst r. unfold BPM.fetch_page. split; [|split].
  - intros f Hf. rewrite Hf. simpl. repeat split; try done. apply pin_not_in.
  - intros Hm Hfl Hl. rewrite Hm, find_victim_page_None by done. done.
  - intros v Hm Hv. rewrite Hm.
    set (old := frame b v).
    set (bound := bool_decide (page_no (id_ old) ≠ INVALID_PAGE_ID)).
    set (disk' := if bound && is_dirty_ old
                  then Disk.write_page (id_ old) (data_ old) (disk_manager_ b)
                  else disk_manager_ b).
    set (unbound := if bound then delete (id_ old) (page_table_ b) else page_table_ b).
    destruct (find_victim_page_Some b v Hv) as (rep & -> & Hrep).
    set (b0 := with_replacer rep (with_free_list (tail (free_list_ b)) b)).
    change (snd (Some v, b0)) with b0.
    destruct (update_page_shape b0 v page_id) as (D & P & Hd & Hpt & Hps & Hfl & Hr).
    change (frame b0 v) with old in Hd, Hpt, Hps.
    change (disk_manager_ b0) with (disk_manager_ b) in Hd.
    change (page_table_ b0) with (page_table_ b) in Hpt.
    change (pages_ b0) with (pages_ b) in Hps.
    fold bound in Hd, Hpt, Hps. fold disk' in Hd. fold unbound in Hpt.
    set (b1 := BPM.update_page v page_id v b0) in *.
    simpl. split; [done|]. split; [done|]. split; [done|]. split.
    { unfold frame. rewrite Hps.
      destruct (decide (v < length (pages_ b))%nat).
      - by rewrite list_lookup_total_insert_eq.
      - rewrite list_insert_ge by lia. rewrite list_lookup_total_alt.
        by rewrite lookup_ge_None_2 by lia. }
    split.
    { unfold frame. simpl. rewrite !list_insert_insert_eq, Hps, Hd.
      rewrite list_insert_insert_eq.
      destruct (decide (v < length (pages_ b))%nat).
      - rewrite !list_lookup_total_insert_eq by (rewrite ?length_insert; done).
        done.
      - by rewrite !list_insert_ge by lia. }
    split; [by rewrite Hfl|]. split; [apply pin_not_in|].
    intros g Hg. rewrite pin_other by done. simpl. rewrite Hr. by apply Hrep.
Qed.

(** The claim C2 without the amendment fails: [fetch_page] of a page id
    whose [page_no] is [INVALID_PAGE_ID] takes the free frame, pins it and
    returns it, and enters nothing in the page table. *)
Lemma fetch_page_invalid_id_no_entry :
  let b := BPM.create 1 (mkDisk ∅ ∅ 0) in
  let r := BPM.fetch_page (3, INVALID_PAGE_ID) b in
  page_table_ b !! (3, INVALID_PAGE_ID) = None
  ∧ fst r = Some 0%nat
  ∧ pin_count_ (frame (snd r) 0) = 1
  ∧ id_ (frame (snd r) 0) = (3, INVALID_PAGE_ID)
  ∧ page_table_ (snd r) !! (3, INVALID_PAGE_ID) = None
  ∧ page_table_ (snd r) = ∅.
Proof. intros b r. by vm_compute. Qed.

Section pool_invariant.

Lemma bpm_ok_create n d : bpm_ok (BPM.create n d).
Proof.
  split; simpl.
  - intros f p [-> _]%lookup_replicate.
    exact (length_replicate (Z.to_nat PAGE_SIZE) 0).
  - intros pid f. by rewrite lookup_empty.
  - intros f Hf. unfold frame. simpl. rewrite length_replicate in Hf.
    rewrite lookup_total_replicate_2 by done. done.
  - apply lru_wf_create.
  - set_solver.
  - split; [apply NoDup_seq|]. intros f Hf%elem_of_seq. rewrite length_replicate.
    split; [lia|]. unfold frame. simpl. by rewrite lookup_total_replicate_2 by lia.
  - intros pid f. by rewrite lookup_empty.
  - intros f. unfold frame. simpl. destruct (decide (f < n)%nat).
    + by rewrite lookup_total_replicate_2.
    + rewrite list_lookup_total_alt, lookup_ge_None_2; [done|].
      rewrite length_replicate. lia.
Qed.

Lemma pool_inv_create n d : pool_inv (BPM.create n d).
Proof.
  intros f Hf. simpl in *. rewrite length_replicate in Hf.
  assert (¬ in_table (BPM.create n d) f) as Hnt.
  { intros [pid Hpid]. simpl in Hpid. by rewrite lookup_empty in Hpid. }
  split; [left; apply elem_of_seq; lia|]. split; [tauto|].
  split; [set_solver|tauto].
Qed.

End pool_invariant.

(** C1, at the failing exit.  A fresh pool of one frame satisfies the pool
    invariant.  [new_page] on it, with a disk that cannot allocate, returns
    [nullptr] after [find_victim_page] took frame 0 off the free list:
    afterwards frame 0 is neither in the free list nor in the page table, so
    the invariant is broken.  The same exit with the victim taken from the
    replacer (the pool after one [new_page] and its [unpin_page], on a disk
    with room for that one page only) leaves frame 0 in the page table with
    pin count 0 and not in the replacer. *)
Theorem new_page_alloc_failure_leaks_frame :
  let b := BPM.create 1 (mkDisk ∅ ∅ 0) in
  let b' := snd (BPM.new_page (3, INVALID_PAGE_ID) b) in
  let c0 := snd (BPM.new_page (3, INVALID_PAGE_ID) (BPM.create 1 (mkDisk ∅ ∅ 1))) in
  let c := snd (BPM.unpin_page (3, 0) false c0) in
  let c' := snd (BPM.new_page (3, INVALID_PAGE_ID) c) in
  (pool_inv b ∧ bpm_ok b
   ∧ fst (fst (BPM.new_page (3, INVALID_PAGE_ID) b)) = None
   ∧ length (pages_ b') = 1%nat
   ∧ (0%nat ∉ free_list_ b') ∧ ¬ in_table b' 0%nat
   ∧ ¬ pool_inv b')
  ∧ (LRUlist_ (replacer_ c) = [0%nat]
     ∧ fst (fst (BPM.new_page (3, INVALID_PAGE_ID) c)) = None
     ∧ length (pages_ c') = 1%nat
     ∧ page_table_ c' !! (3, 0) = Some 0%nat
     ∧ pin_count_ (frame c' 0%nat) = 0
     ∧ (0%nat ∉ LRUhash_ (replacer_ c'))
     ∧ ¬ pool_inv c').
Proof.
  cbv zeta. split.
  - split; [apply pool_inv_create|]. split; [apply bpm_ok_create|].
    split; [reflexivity|]. split; [reflexivity|].
    assert (0%nat ∉ free_list_ (snd (BPM.new_page (3, INVALID_PAGE_ID)
                                       (BPM.create 1 (mkDisk ∅ ∅ 0))))) as Hnf.
    { change (0%nat ∉ ([] : list nat)). set_solver. }
    assert (¬ in_table (snd (BPM.new_page (3, INVALID_PAGE_ID)
                               (BPM.create 1 (mkDisk ∅ ∅ 0)))) 0%nat) as Hnt.
    { intros [q Hq]. change (page_table_ _) with (∅ : gmap (Z * Z) nat) in Hq.
      by rewrite lookup_empty in Hq. }
    split; [exact Hnf|]. split; [exact Hnt|].
    intros Hinv. destruct (Hinv 0%nat) as ([?|?] & _); [vm_compute; lia|done..].
  - split; [reflexivity|]. split; [reflexivity|]. split; [reflexivity|].
    split; [by vm_compute|]. split; [by vm_compute|].
    assert (0%nat ∉ LRUhash_ (replacer_ (snd (BPM.new_page (3, INVALID_PAGE_ID)
              (snd (BPM.unpin_page (3, 0) false
                 (snd (BPM.new_page (3, INVALID_PAGE_ID)
                    (BPM.create 1 (mkDisk ∅ ∅ 1)))))))))) as Hnr.
    { apply (bool_decide_unpack _). by vm_compute. }
    split; [exact Hnr|].
    intros Hinv. destruct (Hinv 0%nat) as (_ & _ & Hrep); [vm_compute; lia|].
    apply Hnr, Hrep. split; [by exists (3, 0); vm_compute|by vm_compute].
Qed.

(* ================================================================= *)
(** * Page memory: proofs *)

Section memory.

Implicit Types (d bs : list Z) (off n i : Z).

Lemma length_store off bs d : length (store off bs d) = length d.
Proof.
  unfold store. rewrite !length_app, !length_take, length_drop. lia.
Qed.

Lemma lookup_store off bs d (k : nat) :
  (k < length d)%nat →
  store off bs d !! k
  = if decide (Z.to_nat off ≤ k < Z.to_nat off + length bs)%nat
    then bs !! (k - Z.to_nat off)%nat else d !! k.
Proof.
  intros Hk. unfold store. set (o := Z.to_nat off).
  destruct (decide (k < o)%nat) as [Hlt|Hge].
  - rewrite decide_False by lia.
    rewrite lookup_app_l by (rewrite length_take; lia).
    by apply lookup_take_lt.
  - rewrite lookup_app_r by (rewrite length_take; lia).
    rewrite length_take. replace (k - o `min` length d)%nat with (k - o)%nat by lia.
    case_decide as Hin.
    + rewrite lookup_app_l by (rewrite length_take; lia).
      apply lookup_take_lt. lia.
    + rewrite lookup_app_r by (rewrite length_take; lia).
      rewrite length_take, lookup_drop. f_equal. lia.
Qed.

Lemma byte_at_store off bs d i :
  0 ≤ i < Z.of_nat (length d) → 0 ≤ off →
  byte_at i (store off bs d)
  = if decide (off ≤ i < off + Z.of_nat (length bs))
    then byte_at (i - off) bs else byte_at i d.
Proof.
  intros Hi Hoff. unfold byte_at. rewrite lookup_store by lia.
  case_decide; case_decide; try lia; try done.
  do 2 f_equal. lia.
Qed.

Lemma byte_at_store_outside off bs d i :
  0 ≤ i → 0 ≤ off → ¬ (off ≤ i < off + Z.of_nat (length bs)) →
  byte_at i (store off bs d) = byte_at i d.
Proof.
  intros Hi Hoff Hout. destruct (decide (i < Z.of_nat (length d))).
  - rewrite byte_at_store by lia. by rewrite decide_False.
  - unfold byte_at. rewrite !lookup_ge_None_2; [done|lia|rewrite length_store; lia].
Qed.

Lemma store_store off bs d :
  store off bs (store off bs d) = store off bs d.
Proof.
  apply list_eq. intros k. destruct (decide (k < length d)%nat).
  - rewrite lookup_store by (rewrite length_store; lia).
    case_decide; [|done]. rewrite lookup_store by done. by rewrite decide_True.
  - rewrite !lookup_ge_None_2; [done|rewrite ?length_store; lia..].
Qed.

Lemma length_load off n d :
  0 ≤ off → 0 ≤ n → off + n ≤ Z.of_nat (length d) →
  length (load off n d) = Z.to_nat n.
Proof. intros. unfold load. rewrite length_take, length_drop. lia. Qed.

Lemma lookup_load off n d (k : nat) :
  (k < Z.to_nat n)%nat → load off n d !! k = d !! (Z.to_nat off + k)%nat.
Proof.
  intros Hk. unfold load. rewrite lookup_take_lt by done. by rewrite lookup_drop.
Qed.

Lemma byte_at_load off n d i :
  0 ≤ off → 0 ≤ i < n → byte_at i (load off n d) = byte_at (off + i) d.
Proof.
  intros Hoff Hi. unfold byte_at. rewrite lookup_load by lia.
  do 2 f_equal. lia.
Qed.

(** Reading back what was just written. *)
Lemma load_store_same off bs d :
  0 ≤ off → off + Z.of_nat (length bs) ≤ Z.of_nat (length d) →
  load off (Z.of_nat (length bs)) (store off bs d) = bs.
Proof.
  intros Hoff Hfit. apply list_eq. intros k.
  destruct (decide (k < length bs)%nat).
  - rewrite lookup_load by lia. rewrite lookup_store by lia.
    rewrite decide_True by lia. f_equal. lia.
  - rewrite !lookup_ge_None_2; [done|lia|].
    rewrite length_load; rewrite ?length_store; lia.
Qed.

(** A write does not change what is read from a disjoint range. *)
Lemma load_store_disjoint off bs off' n d :
  0 ≤ off → 0 ≤ off' → 0 ≤ n →
  off' + n ≤ off ∨ off + Z.of_nat (length bs) ≤ off' →
  load off' n (store off bs d) = load off' n d.
Proof.
  intros Hoff Hoff' Hn Hdis. apply list_eq. intros k.
  unfold load. destruct (decide (k < Z.to_nat n)%nat).
  - rewrite !lookup_take_lt, !lookup_drop by done.
    destruct (decide (Z.to_nat off' + k < length d)%nat).
    + rewrite lookup_store by done. rewrite decide_False by lia. done.
    + rewrite !lookup_ge_None_2; [done|lia|rewrite length_store; lia].
  - by rewrite !lookup_take_ge by lia.
Qed.

Lemma encode_int_length v : length (encode_int v) = 4%nat.
Proof. reflexivity. Qed.

Lemma decode_encode_int v :
  -2147483648 ≤ v < 2147483648 → decode_int (encode_int v) = v.
Proof.
  intros Hv. unfold decode_int, encode_int, byte_at. simpl.
  rewrite !Z.mod_mod by lia.
  assert (v / 65536 = v / 256 / 256) as -> by (rewrite Z.div_div by lia; done).
  assert (v / 16777216 = v / 256 / 256 / 256) as ->
    by (rewrite !Z.div_div by lia; done).
  case_decide; Z.to_euclidean_division_equations; lia.
Qed.

(** A 32-bit field is a function of its four bytes. *)
Lemma load_int_bytes off d :
  0 ≤ off →
  load_int off d
  = decode_int [byte_at off d; byte_at (off + 1) d; byte_at (off + 2) d;
                byte_at (off + 3) d].
Proof.
  intros Hoff. unfold load_int, decode_int.
  rewrite !byte_at_load by lia.
  replace (off + 0) with off by lia. reflexivity.
Qed.

Lemma decode_int_range bs : -2147483648 ≤ decode_int bs < 2147483648.
Proof.
  unfold decode_int.
  pose proof (Z.mod_pos_bound (byte_at 0 bs) 256 ltac:(lia)).
  pose proof (Z.mod_pos_bound (byte_at 1 bs) 256 ltac:(lia)).
  pose proof (Z.mod_pos_bound (byte_at 2 bs) 256 ltac:(lia)).
  pose proof (Z.mod_pos_bound (byte_at 3 bs) 256 ltac:(lia)).
  case_decide; lia.
Qed.

Lemma load_int_store_int off v d :
  0 ≤ off → off + 4 ≤ Z.of_nat (length d) →
  -2147483648 ≤ v < 2147483648 →
  load_int off (store_int off v d) = v.
Proof.
  intros Hoff Hfit Hv. unfold load_int, store_int.
  change 4 with (Z.of_nat (length (encode_int v))).
  rewrite load_store_same by (rewrite ?encode_int_length; lia).
  by apply decode_encode_int.
Qed.

Lemma load_int_store_disjoint off bs off' d :
  0 ≤ off → 0 ≤ off' →
  off' + 4 ≤ off ∨ off + Z.of_nat (length bs) ≤ off' →
  load_int off' (store off bs d) = load_int off' d.
Proof.
  intros. unfold load_int. by rewrite load_store_disjoint by lia.
Qed.

End memory.

Section bitmap.

Implicit Types (d : list Z) (bm i j : Z).

Lemma bit_ix_range i : 0 ≤ Bitmap.bit_ix i ≤ 7.
Proof. unfold Bitmap.bit_ix. pose proof (Z.mod_pos_bound i 8). lia. Qed.

Lemma same_bit i j :
  i / 8 = j / 8 → Bitmap.bit_ix i = Bitmap.bit_ix j → i = j.
Proof.
  unfold Bitmap.bit_ix. intros Hb Hk.
  rewrite (Z.div_mod i 8), (Z.div_mod j 8) by lia. lia.
Qed.

Lemma length_bitmap_set bm i d : length (Bitmap.set bm i d) = length d.
Proof. apply length_store. Qed.

Lemma length_bitmap_reset bm i d : length (Bitmap.reset bm i d) = length d.
Proof. apply length_store. Qed.

Lemma is_set_set bm i j d :
  0 ≤ bm → 0 ≤ i → 0 ≤ j → bm + i / 8 < Z.of_nat (length d) →
  Bitmap.is_set bm j (Bitmap.set bm i d)
  = if decide (i = j) then true else Bitmap.is_set bm j d.
Proof.
  intros Hbm Hi Hj Hfit. unfold Bitmap.is_set, Bitmap.set, Bitmap.bucket.
  pose proof (Z.div_pos i 8 Hi ltac:(lia)). pose proof (Z.div_pos j 8 Hj ltac:(lia)).
  destruct (decide (i / 8 = j / 8)) as [Hb|Hb].
  - rewrite <- Hb. rewrite byte_at_store by lia.
    rewrite decide_True by (simpl; lia). replace (bm + i / 8 - (bm + i / 8)) with 0 by lia.
    unfold byte_at at 1. simpl.
    rewrite Z.setbit_eqb by apply bit_ix_range.
    destruct (decide (i = j)) as [->|Hij].
    + by rewrite Z.eqb_refl.
    + rewrite (proj2 (Z.eqb_neq _ _)); [done|].
      intros Hk. by apply Hij, same_bit.
  - rewrite byte_at_store_outside by (simpl; lia).
    rewrite decide_False; [done|]. by intros ->.
Qed.

Lemma is_set_reset bm i j d :
  0 ≤ bm → 0 ≤ i → 0 ≤ j → bm + i / 8 < Z.of_nat (length d) →
  Bitmap.is_set bm j (Bitmap.reset bm i d)
  = if decide (i = j) then false else Bitmap.is_set bm j d.
Proof.
  intros Hbm Hi Hj Hfit. unfold Bitmap.is_set, Bitmap.reset, Bitmap.bucket.
  pose proof (Z.div_pos i 8 Hi ltac:(lia)). pose proof (Z.div_pos j 8 Hj ltac:(lia)).
  destruct (decide (i / 8 = j / 8)) as [Hb|Hb].
  - rewrite <- Hb. rewrite byte_at_store by lia.
    rewrite decide_True by (simpl; lia). replace (bm + i / 8 - (bm + i / 8)) with 0 by lia.
    unfold byte_at at 1. simpl.
    rewrite Z.clearbit_eqb.
    destruct (decide (i = j)) as [->|Hij].
    + rewrite Z.eqb_refl. apply andb_false_r.
    + rewrite (proj2 (Z.eqb_neq _ _)); [apply andb_true_r|].
      intros Hk. by apply Hij, same_bit.
  - rewrite byte_at_store_outside by (simpl; lia).
    rewrite decide_False; [done|]. by intros ->.
Qed.

(** [search] finds the first position from [i] on whose bit is [bit]. *)
Lemma search_spec bit bm max_n d (k : nat) : ∀ i,
  Z.of_nat k = max_n - i →
  Bitmap.search k bit bm max_n i d
  = default max_n (head (filter (λ j, Bitmap.is_set bm j d = bit) (seqZ i (Z.of_nat k)))).
Proof.
  induction k as [|k IH]; intros i Hk; [done|].
  simpl Bitmap.search. rewrite decide_True by lia.
  rewrite seqZ_cons by lia. rewrite filter_cons.
  destruct (decide (Bitmap.is_set bm i d = bit)) as [Hb|Hb].
  - by rewrite bool_decide_eq_true_2.
  - rewrite bool_decide_eq_false_2 by done.
    rewrite IH by lia.
    replace (Z.succ i) with (i + 1) by lia.
    replace (Z.pred (Z.of_nat (S k))) with (Z.of_nat k) by lia. done.
Qed.

Lemma next_bit_spec bit bm max_n curr d :
  Bitmap.next_bit bit bm max_n curr d
  = default max_n
      (head (filter (λ j, Bitmap.is_set bm j d = bit)
               (seqZ (curr + 1) (max_n - (curr + 1))))).
Proof.
  unfold Bitmap.next_bit.
  destruct (decide (curr + 1 ≤ max_n)).
  - rewrite search_spec by lia. by rewrite Z2Nat.id by lia.
  - replace (Z.to_nat (max_n - (curr + 1))) with 0%nat by lia.
    rewrite seqZ_nil by lia. done.
Qed.

End bitmap.

Section page_layout.

Context (h : RmFileHdr) (Hh : hdr_ok h).
Implicit Types (d buf : list Z) (i j v : Z).

Lemma bucket_range i :
  0 ≤ i < num_records_per_page h →
  sizeof_RmPageHdr ≤ Bitmap.bucket PageHandle.bitmap i
  < sizeof_RmPageHdr + bitmap_size h.
Proof.
  intros Hi. destruct Hh. unfold Bitmap.bucket, PageHandle.bitmap, sizeof_RmPageHdr.
  pose proof (Z.div_pos i 8 ltac:(lia) ltac:(lia)).
  assert (i / 8 < bitmap_size h) by (apply Z.div_lt_upper_bound; lia). lia.
Qed.

Lemma slot_range i :
  0 ≤ i < num_records_per_page h →
  sizeof_RmPageHdr + bitmap_size h ≤ PageHandle.get_slot h i
  ∧ PageHandle.get_slot h i + record_size h ≤ PAGE_SIZE.
Proof.
  intros Hi. destruct Hh.
  unfold PageHandle.get_slot, PageHandle.slots, PageHandle.bitmap in *.
  split; [nia|]. 
  assert (i * record_size h + record_size h ≤ num_records_per_page h * record_size h)
    by nia. lia.
Qed.

Lemma bitmap_size_nonneg : 0 ≤ bitmap_size h.
Proof. destruct Hh. lia. Qed.

Lemma page_sized_length d : page_sized d → Z.of_nat (length d) = PAGE_SIZE.
Proof. unfold page_sized. intros ->. unfold PAGE_SIZE. lia. Qed.

Lemma is_set_store_outside off bs i d :
  0 ≤ off → 0 ≤ i →
  ¬ (off ≤ Bitmap.bucket PageHandle.bitmap i < off + Z.of_nat (length bs)) →
  Bitmap.is_set PageHandle.bitmap i (store off bs d)
  = Bitmap.is_set PageHandle.bitmap i d.
Proof.
  intros Hoff Hi Hout. unfold Bitmap.is_set.
  rewrite byte_at_store_outside; [done| |done|done].
  unfold Bitmap.bucket, PageHandle.bitmap, sizeof_RmPageHdr.
  pose proof (Z.div_pos i 8 ltac:(lia) ltac:(lia)). lia.
Qed.

(** Writing a record into slot [i]. *)
Lemma memcpy_slot_length i buf d :
  length (memcpy_to (PageHandle.get_slot h i) buf (record_size h) d) = length d.
Proof. apply length_store. Qed.

Lemma memcpy_slot_num_records i buf d :
  0 ≤ i < num_records_per_page h →
  PageHandle.num_records (memcpy_to (PageHandle.get_slot h i) buf (record_size h) d)
  = PageHandle.num_records d.
Proof.
  intros Hi. pose proof (slot_range i Hi). pose proof bitmap_size_nonneg.
  unfold PageHandle.num_records, memcpy_to, OFFSET_NUM_RECORDS, sizeof_RmPageHdr in *.
  apply load_int_store_disjoint; lia.
Qed.

Lemma memcpy_slot_next_free i buf d :
  0 ≤ i < num_records_per_page h →
  PageHandle.next_free_page_no
    (memcpy_to (PageHandle.get_slot h i) buf (record_size h) d)
  = PageHandle.next_free_page_no d.
Proof.
  intros Hi. pose proof (slot_range i Hi). pose proof bitmap_size_nonneg.
  unfold PageHandle.next_free_page_no, memcpy_to, OFFSET_NEXT_FREE_PAGE_NO,
    sizeof_RmPageHdr in *.
  apply load_int_store_disjoint; lia.
Qed.

Lemma memcpy_slot_is_set i j buf d :
  0 ≤ i < num_records_per_page h → 0 ≤ j < num_records_per_page h →
  Bitmap.is_set PageHandle.bitmap j
    (memcpy_to (PageHandle.get_slot h i) buf (record_size h) d)
  = Bitmap.is_set PageHandle.bitmap j d.
Proof.
  intros Hi Hj. pose proof (slot_range i Hi). pose proof (bucket_range j Hj).
  pose proof bitmap_size_nonneg. unfold sizeof_RmPageHdr in *.
  unfold memcpy_to. apply is_set_store_outside; lia.
Qed.

Lemma memcpy_slot_load i buf d :
  page_sized d → 0 ≤ i < num_records_per_page h →
  length buf = Z.to_nat (record_size h) →
  load (PageHandle.get_slot h i) (record_size h)
    (memcpy_to (PageHandle.get_slot h i) buf (record_size h) d) = buf.
Proof.
  intros Hd%page_sized_length Hi Hbuf. pose proof (slot_range i Hi).
  pose proof bitmap_size_nonneg. destruct Hh. unfold sizeof_RmPageHdr in *.
  unfold memcpy_to. rewrite resize_all_alt by done.
  assert (record_size h = Z.of_nat (length buf)) as Hrs by lia.
  rewrite Hrs at 1. apply load_store_same; lia.
Qed.

(** Setting and clearing the bit of slot [i]. *)
Lemma bitmap_set_num_records i d :
  0 ≤ i < num_records_per_page h →
  PageHandle.num_records (Bitmap.set PageHandle.bitmap i d) = PageHandle.num_records d.
Proof.
  intros Hi. pose proof (bucket_range i Hi).
  unfold PageHandle.num_records, Bitmap.set, OFFSET_NUM_RECORDS, sizeof_RmPageHdr in *.
  apply load_int_store_disjoint; simpl; lia.
Qed.

Lemma bitmap_reset_num_records i d :
  0 ≤ i < num_records_per_page h →
  PageHandle.num_records (Bitmap.reset PageHandle.bitmap i d) = PageHandle.num_records d.
Proof.
  intros Hi. pose proof (bucket_range i Hi).
  unfold PageHandle.num_records, Bitmap.reset, OFFSET_NUM_RECORDS, sizeof_RmPageHdr in *.
  apply load_int_store_disjoint; simpl; lia.
Qed.

Lemma bitmap_set_next_free i d :
  0 ≤ i < num_records_per_page h →
  PageHandle.next_free_page_no (Bitmap.set PageHandle.bitmap i d)
  = PageHandle.next_free_page_no d.
Proof.
  intros Hi. pose proof (bucket_range i Hi).
  unfold PageHandle.next_free_page_no, Bitmap.set, OFFSET_NEXT_FREE_PAGE_NO,
    sizeof_RmPageHdr in *.
  apply load_int_store_disjoint; simpl; lia.
Qed.

Lemma bitmap_reset_next_free i d :
  0 ≤ i < num_records_per_page h →
  PageHandle.next_free_page_no (Bitmap.reset PageHandle.bitmap i d)
  = PageHandle.next_free_page_no d.
Proof.
  intros Hi. pose proof (bucket_range i Hi).
  unfold PageHandle.next_free_page_no, Bitmap.reset, OFFSET_NEXT_FREE_PAGE_NO,
    sizeof_RmPageHdr in *.
  apply load_int_store_disjoint; simpl; lia.
Qed.

Lemma bitmap_set_is_set i j d :
  page_sized d → 0 ≤ i < num_records_per_page h → 0 ≤ j →
  Bitmap.is_set PageHandle.bitmap j (Bitmap.set PageHandle.bitmap i d)
  = if decide (i = j) then true else Bitmap.is_set PageHandle.bitmap j d.
Proof.
  intros Hd%page_sized_length Hi Hj. pose proof (bucket_range i Hi).
  destruct Hh. unfold Bitmap.bucket, PageHandle.bitmap, sizeof_RmPageHdr in *.
  apply is_set_set; lia.
Qed.

Lemma bitmap_reset_is_set i j d :
  page_sized d → 0 ≤ i < num_records_per_page h → 0 ≤ j →
  Bitmap.is_set PageHandle.bitmap j (Bitmap.reset PageHandle.bitmap i d)
  = if decide (i = j) then false else Bitmap.is_set PageHandle.bitmap j d.
Proof.
  intros Hd%page_sized_length Hi Hj. pose proof (bucket_range i Hi).
  destruct Hh. unfold Bitmap.bucket, PageHandle.bitmap, sizeof_RmPageHdr in *.
  apply is_set_reset; lia.
Qed.

Lemma bitmap_set_load i j d :
  0 ≤ i < num_records_per_page h → 0 ≤ j < num_records_per_page h →
  load (PageHandle.get_slot h j) (record_size h) (Bitmap.set PageHandle.bitmap i d)
  = load (PageHandle.get_slot h j) (record_size h) d.
Proof.
  intros Hi Hj. pose proof (bucket_range i Hi). pose proof (slot_range j Hj).
  destruct Hh. unfold sizeof_RmPageHdr in *.
  unfold Bitmap.set. apply load_store_disjoint; simpl; lia.
Qed.

(** The two fields of the page header. *)
Lemma set_num_records_length v d : length (PageHandle.set_num_records v d) = length d.
Proof. apply length_store. Qed.

Lemma set_next_free_length v d :
  length (PageHandle.set_next_free_page_no v d) = length d.
Proof. apply length_store. Qed.

Lemma num_records_set v d :
  page_sized d → -2147483648 ≤ v < 2147483648 →
  PageHandle.num_records (PageHandle.set_num_records v d) = v.
Proof.
  intros Hd%page_sized_length Hv. unfold PageHandle.num_records, PageHandle.set_num_records.
  apply load_int_store_int; unfold OFFSET_NUM_RECORDS, PAGE_SIZE in *; lia.
Qed.

Lemma next_free_set v d :
  page_sized d → -2147483648 ≤ v < 2147483648 →
  PageHandle.next_free_page_no (PageHandle.set_next_free_page_no v d) = v.
Proof.
  intros Hd%page_sized_length Hv.
  unfold PageHandle.next_free_page_no, PageHandle.set_next_free_page_no.
  apply load_int_store_int; unfold OFFSET_NEXT_FREE_PAGE_NO, PAGE_SIZE in *; lia.
Qed.

Lemma num_records_set_next_free v d :
  PageHandle.num_records (PageHandle.set_next_free_page_no v d)
  = PageHandle.num_records d.
Proof.
  unfold PageHandle.num_records, PageHandle.set_next_free_page_no, store_int.
  apply load_int_store_disjoint; unfold OFFSET_NUM_RECORDS, OFFSET_NEXT_FREE_PAGE_NO;
    simpl; lia.
Qed.

Lemma next_free_set_num_records v d :
  PageHandle.next_free_page_no (PageHandle.set_num_records v d)
  = PageHandle.next_free_page_no d.
Proof.
  unfold PageHandle.next_free_page_no, PageHandle.set_num_records, store_int.
  apply load_int_store_disjoint; unfold OFFSET_NUM_RECORDS, OFFSET_NEXT_FREE_PAGE_NO;
    simpl; lia.
Qed.

Lemma is_set_set_num_records v j d :
  0 ≤ j →
  Bitmap.is_set PageHandle.bitmap j (PageHandle.set_num_records v d)
  = Bitmap.is_set PageHandle.bitmap j d.
Proof.
  intros Hj. unfold PageHandle.set_num_records, store_int.
  pose proof (Z.div_pos j 8 ltac:(lia) ltac:(lia)).
  apply is_set_store_outside;
    unfold OFFSET_NUM_RECORDS, Bitmap.bucket, PageHandle.bitmap, sizeof_RmPageHdr;
    simpl; lia.
Qed.

Lemma is_set_set_next_free v j d :
  0 ≤ j →
  Bitmap.is_set PageHandle.bitmap j (PageHandle.set_next_free_page_no v d)
  = Bitmap.is_set PageHandle.bitmap j d.
Proof.
  intros Hj. unfold PageHandle.set_next_free_page_no, store_int.
  pose proof (Z.div_pos j 8 ltac:(lia) ltac:(lia)).
  apply is_set_store_outside;
    unfold OFFSET_NEXT_FREE_PAGE_NO, Bitmap.bucket, PageHandle.bitmap, sizeof_RmPageHdr;
    simpl; lia.
Qed.

End page_layout.

Section disk.

Implicit Types (d : DiskManager) (pid q : Z * Z).

Lemma read_page_sized pid d : page_sized (Disk.read_page pid d).
Proof. unfold page_sized, Disk.read_page. apply length_resize. Qed.

Lemma read_write_same pid bytes d :
  page_sized bytes → Disk.read_page pid (Disk.write_page pid bytes d) = bytes.
Proof.
  intros Hb. unfold Disk.read_page at 1, Disk.write_page. simpl.
  rewrite lookup_insert_eq. simpl.
  rewrite resize_app_le by (rewrite Hb; lia).
  by apply resize_all_alt.
Qed.

Lemma read_write_other pid q bytes d :
  pid ≠ q → Disk.read_page q (Disk.write_page pid bytes d) = Disk.read_page q d.
Proof.
  intros Hne. unfold Disk.read_page at 1, Disk.write_page. simpl.
  by rewrite lookup_insert_ne.
Qed.

Lemma next_page_no_write x pid bytes d :
  Disk.next_page_no x (Disk.write_page pid bytes d) = Disk.next_page_no x d.
Proof. reflexivity. Qed.

Lemma next_page_no_write_if x (c : bool) pid bytes d :
  Disk.next_page_no x (if c then Disk.write_page pid bytes d else d)
  = Disk.next_page_no x d.
Proof. by destruct c. Qed.

Lemma allocate_page_spec x d n d' :
  Disk.allocate_page x d = (n, d') → n ≠ INVALID_PAGE_ID →
  n = Disk.next_page_no x d
  ∧ Disk.next_page_no x d' = n + 1
  ∧ (∀ y, y ≠ x → Disk.next_page_no y d' = Disk.next_page_no y d)
  ∧ (∀ q, Disk.read_page q d' = Disk.read_page q d).
Proof.
  unfold Disk.allocate_page. destruct (disk_room d) as [|room].
  - intros [= <- <-] Hn. done.
  - intros [= <- <-] _. split; [done|]. unfold Disk.next_page_no. simpl.
    split; [by rewrite lookup_insert_eq|]. split; [|done].
    intros y Hy. by rewrite lookup_insert_ne.
Qed.

End disk.

Section rebound_facts.

Implicit Types (b : BufferPoolManager) (f g v : frame_id_t) (pid q : Z * Z).

Lemma last_elem_of (l : list frame_id_t) x : last l = Some x → x ∈ l.
Proof. intros [l' ->]%last_Some. set_solver. Qed.

Lemma chosen_victim_range b v :
  bpm_ok b → chosen_victim b v → (v < length (pages_ b))%nat.
Proof.
  intros Hok [Hh|[_ Hl]].
  - apply (ok_free b Hok). destruct (free_list_ b); [done|]. injection Hh as ->.
    set_solver.
  - apply (ok_replacer b Hok). apply (ok_lru b Hok). by apply last_elem_of.
Qed.

(** A victim that is bound is the frame of its own page-table entry. *)
Lemma victim_entry b v :
  bpm_ok b → (v < length (pages_ b))%nat →
  ∀ q g, page_table_ b !! q = Some g →
    (g = v ↔ page_no (id_ (frame b v)) ≠ INVALID_PAGE_ID ∧ q = id_ (frame b v)).
Proof.
  intros Hok Hv q g Hq. destruct (ok_table b Hok q g Hq) as (Hg & Hid & Hvalid).
  split.
  - intros ->. by rewrite Hid.
  - intros [Hb ->]. pose proof (ok_bound b Hok v Hv Hb) as Hv'. congruence.
Qed.

Section with_rebound.

Context (b b' : BufferPoolManager) (v : frame_id_t) (pid : Z * Z)
        (X : list Z) (D : bool).
Context (Hok : bpm_ok b) (Hrb : rebound b v pid X D b').

Let Hv : (v < length (pages_ b))%nat := chosen_victim_range b v Hok (rb_victim _ _ _ _ _ _ Hrb).

Lemma rebound_length : length (pages_ b') = length (pages_ b).
Proof. rewrite (rb_pages _ _ _ _ _ _ Hrb). apply length_insert. Qed.

Lemma rebound_frame_self : frame b' v = mkPage pid X D 1.
Proof.
  unfold frame. rewrite (rb_pages _ _ _ _ _ _ Hrb).
  by apply list_lookup_total_insert_eq.
Qed.

Lemma rebound_frame_other g : g ≠ v → frame b' g = frame b g.
Proof.
  intros Hg. unfold frame. rewrite (rb_pages _ _ _ _ _ _ Hrb).
  by apply list_lookup_total_insert_ne.
Qed.

Lemma rebound_table_self : page_table_ b' !! pid = Some v.
Proof. rewrite (rb_table _ _ _ _ _ _ Hrb). apply lookup_insert_eq. Qed.

(** The entries of the other pages: those of [b] but the victim's. *)
Lemma rebound_table_other q :
  q ≠ pid →
  page_table_ b' !! q
  = if bool_decide (page_no (id_ (frame b v)) ≠ INVALID_PAGE_ID ∧ q = id_ (frame b v))
    then None else page_table_ b !! q.
Proof.
  intros Hq. rewrite (rb_table _ _ _ _ _ _ Hrb), lookup_insert_ne by done.
  destruct (decide (page_no (id_ (frame b v)) ≠ INVALID_PAGE_ID)) as [Hb|Hb].
  - rewrite bool_decide_eq_true_2 by done.
    destruct (decide (q = id_ (frame b v))) as [->|Hne].
    + rewrite bool_decide_eq_true_2 by done. apply lookup_delete_eq.
    + rewrite bool_decide_eq_false_2 by tauto. by apply lookup_delete_ne.
  - rewrite bool_decide_eq_false_2 by done.
    by rewrite bool_decide_eq_false_2 by tauto.
Qed.

Lemma rebound_table_other_Some q g :
  q ≠ pid → page_table_ b' !! q = Some g ↔ page_table_ b !! q = Some g ∧ g ≠ v.
Proof.
  intros Hq. rewrite rebound_table_other by done. case_bool_decide as Hc.
  - split; [done|]. intros [Hg Hne]. exfalso. apply Hne.
    by apply (victim_entry b v Hok Hv q g Hg).
  - split; [|tauto]. intros Hg. split; [done|]. intros ->.
    apply Hc. by apply (victim_entry b v Hok Hv q v Hg).
Qed.

Lemma rebound_bpm_ok : bpm_ok b'.
Proof.
  pose proof (rb_fresh _ _ _ _ _ _ Hrb) as Hfresh.
  assert (∀ q g, page_table_ b' !! q = Some g →
            (q = pid ∧ g = v) ∨ (q ≠ pid ∧ page_table_ b !! q = Some g ∧ g ≠ v)) as Hcase.
  { intros q g Hq. destruct (decide (q = pid)) as [->|Hne].
    - left. rewrite rebound_table_self in Hq. by injection Hq.
    - right. split; [done|]. by apply rebound_table_other_Some. }
  split.
  - intros f p. rewrite (rb_pages _ _ _ _ _ _ Hrb).
    intros [(-> & <- & _)|(_ & Hf)]%list_lookup_insert_Some.
    + apply (rb_sized _ _ _ _ _ _ Hrb).
    + by apply (ok_data b Hok f).
  - intros q g Hq. rewrite rebound_length.
    destruct (Hcase q g Hq) as [[-> ->]|(Hne & Hg & Hgv)].
    + rewrite rebound_frame_self. split; [done|]. split; [done|].
      apply (rb_valid _ _ _ _ _ _ Hrb).
    + rewrite rebound_frame_other by done. by apply (ok_table b Hok).
  - intros f. rewrite rebound_length. intros Hf Hb.
    destruct (decide (f = v)) as [->|Hne].
    + rewrite rebound_frame_self. apply rebound_table_self.
    + rewrite rebound_frame_other in * by done.
      pose proof (ok_bound b Hok f Hf Hb) as Hin.
      apply rebound_table_other_Some; [|done]. intros Heq.
      rewrite Heq in Hin. congruence.
  - apply (rb_lru _ _ _ _ _ _ Hrb).
  - intros g [Hg Hgv]%(rb_replacer _ _ _ _ _ _ Hrb).
    destruct (ok_replacer b Hok g Hg) as (Hr & Hin & Hpin).
    rewrite rebound_length, rebound_frame_other by done.
    split; [done|]. split; [|done].
    apply rebound_table_other_Some; [|done]. intros Heq.
    rewrite Heq in Hin. congruence.
  - rewrite (rb_free _ _ _ _ _ _ Hrb). destruct (ok_free b Hok) as [Hnd Hmem].
    destruct (free_list_ b) as [|x fl] eqn:Hfl; simpl.
    + split; [constructor|set_solver].
    + apply NoDup_cons in Hnd as [Hx Hnd]. split; [done|].
      intros f Hf. rewrite rebound_length.
      assert (f ≠ v) as Hne.
      { pose proof (rb_victim _ _ _ _ _ _ Hrb) as Hvic.
        destruct Hvic as [Hh|[Hnil Hlast]]; [|congruence].
        rewrite Hfl in Hh. injection Hh as Hxv. intros Hfv. apply Hx.
        by rewrite Hxv, <- Hfv. }
      rewrite rebound_frame_other by done. apply Hmem. set_solver.
  - intros q g Hq. destruct (Hcase q g Hq) as [[-> ->]|(Hne & Hg & Hgv)].
    + apply (rb_alloc _ _ _ _ _ _ Hrb).
    + pose proof (ok_alloc b Hok q g Hg). pose proof (rb_next _ _ _ _ _ _ Hrb (fd q)).
      lia.
  - intros f. destruct (decide (f = v)) as [->|Hne].
    + by rewrite rebound_frame_self.
    + rewrite rebound_frame_other by done. apply (ok_pins b Hok).
Qed.

Lemma rebound_view_self : page_view b' pid = X.
Proof.
  unfold page_view. rewrite rebound_table_self.
  by rewrite rebound_frame_self.
Qed.

(** The other data pages look the same: the victim's page went to disk if
    it was dirty, and was equal to its disk copy if it was not. *)
Lemma rebound_view_other q :
  clean_synced b → q ≠ pid → RM_FIRST_RECORD_PAGE ≤ page_no q →
  page_view b' q = page_view b q.
Proof.
  intros Hcs Hq Hdata. unfold page_view.
  rewrite rebound_table_other by done.
  rewrite (rb_read _ _ _ _ _ _ Hrb).
  case_bool_decide as Hc.
  - destruct Hc as [Hb ->].
    pose proof (ok_bound b Hok v Hv Hb) as Hin. rewrite Hin.
    destruct (is_dirty_ (frame b v)) eqn:Hd.
    + by rewrite bool_decide_eq_true_2.
    + rewrite bool_decide_eq_false_2 by (intros (_ & ? & _); done).
      symmetry. by apply Hcs.
  - destruct (page_table_ b !! q) as [g|] eqn:Hg.
    + assert (g ≠ v) as Hgv.
      { intros ->. apply Hc. by apply (victim_entry b v Hok Hv q v Hg). }
      by rewrite rebound_frame_other by done.
    + rewrite bool_decide_eq_false_2; [done|]. intros (Hb & _ & ->).
      pose proof (ok_bound b Hok v Hv Hb). congruence.
Qed.

Lemma rebound_clean_synced :
  clean_synced b →
  (D = false → RM_FIRST_RECORD_PAGE ≤ page_no pid →
   X = Disk.read_page pid (disk_manager_ b')) →
  clean_synced b'.
Proof.
  intros Hcs HX q g Hq Hclean Hdata.
  destruct (decide (q = pid)) as [->|Hne].
  - rewrite rebound_table_self in Hq. injection Hq as <-.
    rewrite rebound_frame_self in *. simpl in *. auto.
  - apply rebound_table_other_Some in Hq as [Hg Hgv]; [|done].
    rewrite rebound_frame_other in * by done.
    rewrite (rb_read _ _ _ _ _ _ Hrb).
    rewrite bool_decide_eq_false_2; [by apply Hcs|].
    intros (Hb & _ & ->). pose proof (ok_bound b Hok v Hv Hb). congruence.
Qed.

Lemma rebound_in_table g :
  in_table b' g ↔ g = v ∨ (in_table b g ∧ g ≠ v).
Proof.
  split.
  - intros [q Hq]. destruct (decide (q = pid)) as [->|Hne].
    + rewrite rebound_table_self in Hq. left. congruence.
    + apply rebound_table_other_Some in Hq as [Hg Hgv]; [|done].
      right. split; [by exists q|done].
  - intros [->|[[q Hq] Hgv]].
    + exists pid. apply rebound_table_self.
    + exists q. apply rebound_table_other_Some; [|done].
      intros ->. rewrite (rb_fresh _ _ _ _ _ _ Hrb) in Hq. done.
Qed.

Lemma rebound_quiet : quiet_but b None → quiet_but b' (Some v).
Proof.
  intros Hq f. rewrite rebound_length. intros Hf.
  destruct (Hq f Hf) as (Hone & Hexcl & Hpin & Hrep & _).
  rewrite (rb_free _ _ _ _ _ _ Hrb), rebound_in_table, (rb_replacer _ _ _ _ _ _ Hrb).
  destruct (ok_free b Hok) as [Hnd Hmem].
  assert (v ∉ tail (free_list_ b)) as Hvt.
  { pose proof (rb_victim _ _ _ _ _ _ Hrb) as Hvic.
    destruct Hvic as [Hh|[Hnil Hlast]].
    - destruct (free_list_ b) as [|x fl]; [done|]. injection Hh as Hxv.
      apply NoDup_cons in Hnd as [Hx _]. simpl. by rewrite <- Hxv.
    - rewrite Hnil. set_solver. }
  assert (∀ x, x ∈ tail (free_list_ b) → x ∈ free_list_ b) as Htl.
  { intros x. destruct (free_list_ b); set_solver. }
  assert (f ∈ free_list_ b → f ≠ v → f ∈ tail (free_list_ b)) as Hfree.
  { intros Hin Hne. pose proof (rb_victim _ _ _ _ _ _ Hrb) as Hvic.
    destruct Hvic as [Hh|[Hnil Hlast]].
    - destruct (free_list_ b) as [|x fl]; [done|]. injection Hh as Hxv.
      simpl. apply elem_of_cons in Hin as [->|]; [congruence|done].
    - rewrite Hnil in Hin. set_solver. }
  destruct (decide (f = v)) as [->|Hne].
  - split; [by right; left|]. split; [tauto|]. split.
    + intros _. rewrite rebound_frame_self.
      by rewrite decide_True.
    + split; [|by intros; left]. split; [tauto|]. intros [_ Hn]. done.
  - split; [destruct Hone; [left; auto|right; right; done]|].
    split; [intros [Hin [?|[? _]]]; [done|apply Hexcl; auto]|].
    split.
    + intros [?|[Hin _]]; [done|].
      rewrite rebound_frame_other by done.
      rewrite decide_False by congruence. specialize (Hpin Hin).
      by rewrite decide_False in Hpin.
    + split; [|congruence]. rewrite Hrep. split.
      * intros [[Hin _] _]. split; [by right|congruence].
      * intros [[?|[Hin _]] _]; [done|]. split; [|done]. split; [done|congruence].
Qed.

End with_rebound.

End rebound_facts.

(** With nothing pinned, a non-empty pool always has a victim. *)
Lemma quiet_has_victim b :
  bpm_ok b → quiet_but b None → (0 < length (pages_ b))%nat →
  ∃ v, chosen_victim b v.
Proof.
  intros Hok Hq Hlen. unfold chosen_victim.
  destruct (free_list_ b) as [|x fl] eqn:Hfl; [|by exists x; left].
  destruct (Hq 0%nat Hlen) as (Hone & _ & _ & Hrep & _).
  rewrite Hfl in Hone. destruct Hone as [?|Hin]; [set_solver|].
  assert (0%nat ∈ LRUlist_ (replacer_ b)) as Hl.
  { apply (ok_lru b Hok), Hrep. split; [done|congruence]. }
  destruct (last (LRUlist_ (replacer_ b))) as [v|] eqn:Hlast.
  - exists v. by right.
  - apply last_None in Hlast. rewrite Hlast in Hl. set_solver.
Qed.

Section pool_operations.

Implicit Types (b : BufferPoolManager) (f g v : frame_id_t) (pid q : Z * Z).

(** The state [find_victim_page] leaves when it hands out [v]. *)
Lemma find_victim_page_chosen b v :
  chosen_victim b v →
  ∃ rep, BPM.find_victim_page b
         = (Some v, mkBPM (pages_ b) (page_table_ b) (tail (free_list_ b)) rep
                      (disk_manager_ b))
         ∧ (∀ g, g ≠ v → g ∈ LRUhash_ rep ↔ g ∈ LRUhash_ (replacer_ b))
         ∧ (∀ g, g ∈ LRUhash_ rep → g ∈ LRUhash_ (replacer_ b))
         ∧ (lru_wf (replacer_ b) → lru_wf rep).
Proof.
  unfold BPM.find_victim_page. intros [Hh|[Hfl Hl]].
  - destruct (free_list_ b) as [|x fl] eqn:E; [done|]. injection Hh as ->.
    exists (replacer_ b). done.
  - rewrite Hfl. simpl. unfold LRU.victim. rewrite Hl.
    eexists. split; [unfold with_replacer; by rewrite Hfl|].
    simpl. split; [set_solver|]. split; [set_solver|].
    intros Hwf. pose proof (lru_wf_victim _ Hwf) as Hwf'.
    unfold LRU.victim in Hwf'. by rewrite Hl in Hwf'.
Qed.

Lemma find_victim_page_none b :
  (∀ v, ¬ chosen_victim b v) → BPM.find_victim_page b = (None, b).
Proof.
  intros Hno. unfold BPM.find_victim_page, chosen_victim in *.
  destruct (free_list_ b) as [|x fl] eqn:Hfl.
  - unfold LRU.victim. destruct (last (LRUlist_ (replacer_ b))) as [v|] eqn:Hl.
    + exfalso. apply (Hno v). by right.
    + by destruct b.
  - exfalso. apply (Hno x). by left.
Qed.

Lemma chosen_victim_dec b : (∃ v, chosen_victim b v) ∨ (∀ v, ¬ chosen_victim b v).
Proof.
  unfold chosen_victim. destruct (free_list_ b) as [|x fl].
  - destruct (last (LRUlist_ (replacer_ b))) as [v|].
    + left. exists v. by right.
    + right. intros v [?|[_ ?]]; done.
  - left. exists x. by left.
Qed.

(** The write-back done by [update_page], seen from the disk's readers. *)
Lemma write_back_read b v d0 q :
  bpm_ok b → (v < length (pages_ b))%nat →
  (∀ q, Disk.read_page q d0 = Disk.read_page q (disk_manager_ b)) →
  Disk.read_page q
    (if bool_decide (page_no (id_ (frame b v)) ≠ INVALID_PAGE_ID) && is_dirty_ (frame b v)
     then Disk.write_page (id_ (frame b v)) (data_ (frame b v)) d0 else d0)
  = if bool_decide (page_no (id_ (frame b v)) ≠ INVALID_PAGE_ID
                    ∧ is_dirty_ (frame b v) = true ∧ q = id_ (frame b v))
    then data_ (frame b v) else Disk.read_page q (disk_manager_ b).
Proof.
  intros Hok Hv Hd0.
  assert (page_sized (data_ (frame b v))) as Hsz.
  { apply (ok_data b Hok v). by apply frame_lookup. }
  case_bool_decide as Hb; simpl.
  - destruct (is_dirty_ (frame b v)) eqn:Hd.
    + destruct (decide (q = id_ (frame b v))) as [->|Hne].
      * rewrite bool_decide_eq_true_2 by done. by apply read_write_same.
      * rewrite bool_decide_eq_false_2 by tauto.
        rewrite read_write_other by done. apply Hd0.
    + rewrite bool_decide_eq_false_2 by (intros (_ & ? & _); done). apply Hd0.
  - rewrite bool_decide_eq_false_2 by tauto. apply Hd0.
Qed.

(** [fetch_page] on a miss, with victim [v]. *)
Lemma fetch_page_miss b pid v :
  bpm_ok b → page_table_ b !! pid = None →
  page_no pid ≠ INVALID_PAGE_ID →
  page_no pid < Disk.next_page_no (fd pid) (disk_manager_ b) →
  chosen_victim b v →
  ∃ b', BPM.fetch_page pid b = (Some v, b')
        ∧ rebound b v pid (Disk.read_page pid (disk_manager_ b')) false b'
        ∧ ∃ (c : bool) w bytes,
            disk_manager_ b'
            = if c then Disk.write_page w bytes (disk_manager_ b) else disk_manager_ b.
Proof.
  intros Hok Hm Hvalid Halloc Hv.
  pose proof (chosen_victim_range b v Hok Hv) as Hrange.
  destruct (find_victim_page_chosen b v Hv) as (rep & Hfind & Hrep & Hsub & Hwf).
  unfold BPM.fetch_page. rewrite Hm, Hfind.
  set (b0 := mkBPM (pages_ b) (page_table_ b) (tail (free_list_ b)) rep (disk_manager_ b)).
  destruct (update_page_valid b0 v pid Hvalid) as (Hd & Hpt & Hps & Hfl & Hr).
  change (frame b0 v) with (frame b v) in Hd, Hpt, Hps.
  change (disk_manager_ b0) with (disk_manager_ b) in Hd.
  change (page_table_ b0) with (page_table_ b) in Hpt.
  change (pages_ b0) with (pages_ b) in Hps.
  change (free_list_ b0) with (tail (free_list_ b)) in Hfl.
  change (replacer_ b0) with rep in Hr.
  set (b1 := BPM.update_page v pid v b0) in *.
  eexists. split; [reflexivity|].
  split; [|simpl; rewrite Hd; eauto].
  split; simpl; try done.
  - apply read_page_sized.
  - unfold frame. simpl. rewrite !list_insert_insert_eq, Hps.
    rewrite list_insert_insert_eq.
    rewrite !list_lookup_total_insert_eq by (rewrite ?length_insert; done).
    done.
  - rewrite Hr. apply lru_wf_pin, Hwf, (ok_lru b Hok).
  - intros g. rewrite Hr. destruct (decide (g = v)) as [->|Hne].
    + split; [intros Hin; by apply pin_not_in in Hin|tauto].
    + rewrite pin_other by done. rewrite Hrep by done. tauto.
  - intros q. rewrite Hd. by apply write_back_read.
  - intros x. by rewrite Hd, next_page_no_write_if.
  - by rewrite Hd, next_page_no_write_if.
Qed.

(** [fetch_page] on a hit. *)
Lemma fetch_page_hit b pid f :
  page_table_ b !! pid = Some f →
  BPM.fetch_page pid b
  = (Some f, with_replacer (LRU.pin f (replacer_ b))
               (set_frame f (set_pin_count (pin_count_ (frame b f) + 1) (frame b f)) b)).
Proof. intros Hf. unfold BPM.fetch_page. by rewrite Hf. Qed.

Lemma fetch_page_no_victim b pid :
  page_table_ b !! pid = None → (∀ v, ¬ chosen_victim b v) →
  BPM.fetch_page pid b = (None, b).
Proof.
  intros Hm Hno. unfold BPM.fetch_page. by rewrite Hm, find_victim_page_none.
Qed.

(** [new_page] when a victim is found and the allocation succeeds. *)
Lemma new_page_success b x y v n d1 :
  bpm_ok b → chosen_victim b v →
  Disk.allocate_page x (disk_manager_ b) = (n, d1) → n ≠ INVALID_PAGE_ID →
  ∃ b', BPM.new_page (x, y) b = (Some v, (x, n), b')
        ∧ rebound b v (x, n) zero_page false b'
        ∧ Disk.next_page_no x (disk_manager_ b') = n + 1
        ∧ (∀ z, z ≠ x → Disk.next_page_no z (disk_manager_ b')
                        = Disk.next_page_no z (disk_manager_ b))
        ∧ disk_room (disk_manager_ b') = disk_room d1.
Proof.
  intros Hok Hv Halloc Hn.
  pose proof (chosen_victim_range b v Hok Hv) as Hrange.
  destruct (allocate_page_spec _ _ _ _ Halloc Hn) as (Hnext & Hnext' & Hothers & Hread).
  destruct (find_victim_page_chosen b v Hv) as (rep & Hfind & Hrep & Hsub & Hwf).
  unfold BPM.new_page. rewrite Hfind. simpl fd. simpl disk_manager_. rewrite Halloc.
  rewrite decide_False by done.
  set (b0 := with_disk d1 (mkBPM (pages_ b) (page_table_ b) (tail (free_list_ b)) rep
                             (disk_manager_ b))).
  assert (page_no (x, n) ≠ INVALID_PAGE_ID) as Hvalid by done.
  destruct (update_page_valid b0 v (x, n) Hvalid) as (Hd & Hpt & Hps & Hfl & Hr).
  change (frame b0 v) with (frame b v) in Hd, Hpt, Hps.
  change (disk_manager_ b0) with d1 in Hd.
  change (page_table_ b0) with (page_table_ b) in Hpt.
  change (pages_ b0) with (pages_ b) in Hps.
  change (free_list_ b0) with (tail (free_list_ b)) in Hfl.
  change (replacer_ b0) with rep in Hr.
  set (b1 := BPM.update_page v (x, n) v b0) in *.
  eexists. split; [reflexivity|].
  assert (∀ z, Disk.next_page_no z (disk_manager_ b1) = Disk.next_page_no z d1) as Hnx.
  { intros z. by rewrite Hd, next_page_no_write_if. }
  split; [|split; [|split]].
  - split; simpl; try done.
    + destruct (page_table_ b !! (x, n)) as [g|] eqn:Hg; [|done].
      pose proof (ok_alloc b Hok _ _ Hg) as Hlt. simpl in Hlt. lia.
    + unfold frame. simpl. rewrite Hps.
      rewrite list_insert_insert_eq.
      rewrite !list_lookup_total_insert_eq by (rewrite ?length_insert; done).
      done.
    + rewrite Hr. apply lru_wf_pin, Hwf, (ok_lru b Hok).
    + intros g. rewrite Hr. destruct (decide (g = v)) as [->|Hne].
      * split; [intros Hin; by apply pin_not_in in Hin|tauto].
      * rewrite pin_other by done. rewrite Hrep by done. tauto.
    + intros q. rewrite Hd. by apply write_back_read.
    + intros z. rewrite Hnx. destruct (decide (z = x)) as [->|Hz].
      * lia.
      * by rewrite Hothers.
    + rewrite Hnx. lia.
  - simpl. by rewrite Hnx.
  - intros z Hz. simpl. rewrite Hnx. by apply Hothers.
  - simpl. rewrite Hd. by destruct (_ && _).
Qed.

End pool_operations.

Section touched_facts.

Context (b b' : BufferPoolManager) (f : frame_id_t) (p : Page) (r' : LRUReplacer).
Context (Hok : bpm_ok b) (Htc : touched b f p r' b').

Lemma touched_length : length (pages_ b') = length (pages_ b).
Proof. rewrite (tc_pages _ _ _ _ _ Htc). apply length_insert. Qed.

Lemma touched_frame_self : frame b' f = p.
Proof.
  unfold frame. rewrite (tc_pages _ _ _ _ _ Htc).
  apply list_lookup_total_insert_eq, (tc_range _ _ _ _ _ Htc).
Qed.

Lemma touched_frame_other g : g ≠ f → frame b' g = frame b g.
Proof.
  intros Hg. unfold frame. rewrite (tc_pages _ _ _ _ _ Htc).
  by apply list_lookup_total_insert_ne.
Qed.

Lemma touched_frame_id g : id_ (frame b' g) = id_ (frame b g).
Proof.
  destruct (decide (g = f)) as [->|Hne].
  - rewrite touched_frame_self. apply (tc_id _ _ _ _ _ Htc).
  - by rewrite touched_frame_other.
Qed.

Lemma touched_in_table g : in_table b' g ↔ in_table b g.
Proof. unfold in_table. by rewrite (tc_table _ _ _ _ _ Htc). Qed.

Lemma touched_bpm_ok :
  lru_wf r' → 0 ≤ pin_count_ p →
  (∀ g, g ∈ LRUhash_ r' →
     (g ∈ LRUhash_ (replacer_ b) ∧ g ≠ f)
     ∨ (g = f ∧ pin_count_ p = 0 ∧ page_table_ b !! id_ p = Some f)) →
  bpm_ok b'.
Proof.
  intros Hwf Hpins Hrep. split.
  - intros g q. rewrite (tc_pages _ _ _ _ _ Htc).
    intros [(-> & <- & _)|(_ & Hg)]%list_lookup_insert_Some.
    + apply (tc_sized _ _ _ _ _ Htc).
    + by apply (ok_data b Hok g).
  - intros q g. rewrite (tc_table _ _ _ _ _ Htc), touched_length, touched_frame_id.
    apply (ok_table b Hok).
  - intros g. rewrite (tc_table _ _ _ _ _ Htc), touched_length, touched_frame_id.
    apply (ok_bound b Hok).
  - by rewrite (tc_replacer _ _ _ _ _ Htc).
  - intros g. rewrite (tc_replacer _ _ _ _ _ Htc), (tc_table _ _ _ _ _ Htc),
      touched_length, touched_frame_id.
    intros [[Hg Hne]|(-> & Hpin & Hin)]%Hrep.
    + rewrite touched_frame_other by done. by apply (ok_replacer b Hok).
    + rewrite touched_frame_self. split; [apply (tc_range _ _ _ _ _ Htc)|].
      split; [|done]. by rewrite <- (tc_id _ _ _ _ _ Htc).
  - rewrite (tc_free _ _ _ _ _ Htc). destruct (ok_free b Hok) as [Hnd Hmem].
    split; [done|]. intros g Hg. rewrite touched_length, touched_frame_id.
    by apply Hmem.
  - intros q g. rewrite (tc_table _ _ _ _ _ Htc), (tc_disk _ _ _ _ _ Htc).
    apply (ok_alloc b Hok).
  - intros g. destruct (decide (g = f)) as [->|Hne].
    + by rewrite touched_frame_self.
    + rewrite touched_frame_other by done. apply (ok_pins b Hok).
Qed.

Lemma touched_view_self pid :
  page_table_ b !! pid = Some f → page_view b' pid = data_ p.
Proof.
  intros Hin. unfold page_view. rewrite (tc_table _ _ _ _ _ Htc), Hin.
  by rewrite touched_frame_self.
Qed.

Lemma touched_view_other q :
  q ≠ id_ p → page_view b' q = page_view b q.
Proof.
  intros Hq. unfold page_view.
  rewrite (tc_table _ _ _ _ _ Htc), (tc_disk _ _ _ _ _ Htc).
  destruct (page_table_ b !! q) as [g|] eqn:Hg; [|done].
  rewrite touched_frame_other; [done|]. intros ->.
  destruct (ok_table b Hok q f Hg) as (_ & Hid & _).
  rewrite (tc_id _ _ _ _ _ Htc) in Hq. congruence.
Qed.

Lemma touched_clean_synced :
  clean_synced b →
  (is_dirty_ p = false →
   is_dirty_ (frame b f) = false ∧ data_ p = data_ (frame b f)) →
  clean_synced b'.
Proof.
  intros Hcs Hp q g. rewrite (tc_table _ _ _ _ _ Htc), (tc_disk _ _ _ _ _ Htc).
  intros Hg Hclean Hdata. destruct (decide (g = f)) as [->|Hne].
  - rewrite touched_frame_self in *. destruct (Hp Hclean) as [Hc ->].
    by apply Hcs.
  - rewrite touched_frame_other in * by done. by apply Hcs.
Qed.

(** The three ways a frame is touched, and the pool invariant. *)
Lemma touched_quiet_pin :
  quiet_but b None → in_table b f → pin_count_ p = 1 →
  (∀ g, g ∈ LRUhash_ r' ↔ g ∈ LRUhash_ (replacer_ b) ∧ g ≠ f) →
  quiet_but b' (Some f).
Proof.
  intros Hq Hin Hpin Hrep g. rewrite touched_length. intros Hg.
  destruct (Hq g Hg) as (Hone & Hexcl & Hpins & Hr & _).
  rewrite (tc_free _ _ _ _ _ Htc), touched_in_table, (tc_replacer _ _ _ _ _ Htc), Hrep, Hr.
  split; [done|]. split; [done|]. split.
  - intros Hing. destruct (decide (g = f)) as [->|Hne].
    + rewrite touched_frame_self. by rewrite decide_True.
    + rewrite touched_frame_other by done. rewrite decide_False by congruence.
      specialize (Hpins Hing). by rewrite decide_False in Hpins.
  - split; [|by intros [= ->]]. split.
    + intros [[? _] ?]. split; [done|congruence].
    + intros [? Hne]. split; [done|]. congruence.
Qed.

Lemma touched_quiet_unpin :
  quiet_but b (Some f) → pin_count_ p = 0 →
  (∀ g, g ∈ LRUhash_ r' ↔ g ∈ LRUhash_ (replacer_ b) ∨ g = f) →
  quiet_but b' None.
Proof.
  intros Hq Hpin Hrep g. rewrite touched_length. intros Hg.
  destruct (Hq g Hg) as (Hone & Hexcl & Hpins & Hr & Hheld).
  rewrite (tc_free _ _ _ _ _ Htc), touched_in_table, (tc_replacer _ _ _ _ _ Htc), Hrep, Hr.
  split; [done|]. split; [done|]. split.
  - intros Hing. rewrite decide_False by done. destruct (decide (g = f)) as [->|Hne].
    + by rewrite touched_frame_self.
    + rewrite touched_frame_other by done.
      specialize (Hpins Hing). by rewrite decide_False in Hpins by congruence.
  - split; [|done]. split.
    + intros [[? _]| ->]; [done|]. split; [by apply Hheld|done].
    + intros [Hing _]. destruct (decide (g = f)) as [->|Hne]; [by right|].
      left. split; [done|congruence].
Qed.

Lemma touched_quiet_same P :
  quiet_but b P → pin_count_ p = pin_count_ (frame b f) → r' = replacer_ b →
  quiet_but b' P.
Proof.
  intros Hq Hpin Hr' g. rewrite touched_length. intros Hg.
  destruct (Hq g Hg) as (Hone & Hexcl & Hpins & Hr & Hheld).
  rewrite (tc_free _ _ _ _ _ Htc), touched_in_table, (tc_replacer _ _ _ _ _ Htc), Hr'.
  split; [done|]. split; [done|]. split; [|done].
  intros Hing. destruct (decide (g = f)) as [->|Hne].
  - rewrite touched_frame_self, Hpin. by apply Hpins.
  - rewrite touched_frame_other by done. by apply Hpins.
Qed.

End touched_facts.

Section pool_posts.

Implicit Types (b : BufferPoolManager) (f g v : frame_id_t) (pid q : Z * Z).

Lemma frame_sized b f :
  bpm_ok b → (f < length (pages_ b))%nat → page_sized (data_ (frame b f)).
Proof. intros Hok Hf. apply (ok_data b Hok f). by apply frame_lookup. Qed.

Lemma unpin_other f g r : g ∈ LRUhash_ (LRU.unpin f r) ↔ g ∈ LRUhash_ r ∨ g = f.
Proof. unfold LRU.unpin. case_decide; simpl; set_solver. Qed.

Lemma pin_elem f g r : g ∈ LRUhash_ (LRU.pin f r) ↔ g ∈ LRUhash_ r ∧ g ≠ f.
Proof. unfold LRU.pin. case_decide; simpl; set_solver. Qed.

(** What [fetch_page] guarantees for an allocated page. *)
Lemma fetch_page_post b pid r b' :
  bpm_ok b → clean_synced b →
  page_no pid ≠ INVALID_PAGE_ID →
  page_no pid < Disk.next_page_no (fd pid) (disk_manager_ b) →
  BPM.fetch_page pid b = (r, b') →
  bpm_ok b' ∧ clean_synced b'
  ∧ (∀ q, RM_FIRST_RECORD_PAGE ≤ page_no q → page_view b' q = page_view b q)
  ∧ (∀ x, Disk.next_page_no x (disk_manager_ b')
          = Disk.next_page_no x (disk_manager_ b))
  ∧ disk_room (disk_manager_ b') = disk_room (disk_manager_ b)
  ∧ length (pages_ b') = length (pages_ b)
  ∧ match r with
    | Some f => page_table_ b' !! pid = Some f ∧ pin_count_ (frame b' f) > 0
    | None => b' = b
    end
  ∧ (quiet_but b None → (0 < length (pages_ b))%nat →
     ∃ f, r = Some f ∧ quiet_but b' (Some f)).
Proof.
  intros Hok Hcs Hvalid Halloc Hfetch.
  destruct (page_table_ b !! pid) as [f|] eqn:Hpt.
  - (* hit *)
    rewrite (fetch_page_hit _ _ _ Hpt) in Hfetch. injection Hfetch as <- <-.
    destruct (ok_table b Hok pid f Hpt) as (Hf & Hid & _).
    pose proof (ok_pins b Hok f) as Hpin.
    set (p := set_pin_count (pin_count_ (frame b f) + 1) (frame b f)).
    set (b' := with_replacer _ _).
    assert (touched b f p (LRU.pin f (replacer_ b)) b') as Htc.
    { split; try done. exact (frame_sized b f Hok Hf). }
    split.
    { eapply touched_bpm_ok; [done|done| |simpl; lia|].
      - apply lru_wf_pin, (ok_lru b Hok).
      - intros g [Hg Hne]%pin_elem. by left. }
    split; [by eapply touched_clean_synced|].
    split.
    { intros q _. destruct (decide (q = pid)) as [->|Hne].
      - rewrite (touched_view_self _ _ _ _ _ Htc pid Hpt).
        unfold page_view. by rewrite Hpt.
      - eapply touched_view_other; [done|done|]. simpl. congruence. }
    split; [done|]. split; [done|]. split; [by eapply touched_length|].
    split.
    { split; [done|]. rewrite (touched_frame_self _ _ _ _ _ Htc). simpl. lia. }
    intros Hq _. exists f. split; [done|].
    eapply touched_quiet_pin; [done|done|by exists pid| |].
    + destruct (Hq f Hf) as (_ & _ & Hpins & _). simpl.
      rewrite Hpins by (by exists pid). done.
    + intros g. apply pin_elem.
  - (* miss *)
    destruct (chosen_victim_dec b) as [[v Hv]|Hno].
    + destruct (fetch_page_miss b pid v Hok Hpt Hvalid Halloc Hv)
        as (b1 & Heq & Hrb & c & w & bytes & Hdisk).
      rewrite Heq in Hfetch. injection Hfetch as <- <-.
      assert (Disk.read_page pid (disk_manager_ b1)
              = Disk.read_page pid (disk_manager_ b)) as Hrd.
      { rewrite (rb_read _ _ _ _ _ _ Hrb).
        rewrite bool_decide_eq_false_2; [done|]. intros (Hb & _ & ->).
        pose proof (chosen_victim_range b v Hok Hv) as Hrange.
        pose proof (ok_bound b Hok v Hrange Hb). congruence. }
      split; [by eapply rebound_bpm_ok|].
      split; [by eapply rebound_clean_synced|].
      split.
      { intros q Hdata. destruct (decide (q = pid)) as [->|Hne].
        - rewrite (rebound_view_self _ _ _ _ _ _ Hok Hrb).
          unfold page_view. by rewrite Hpt.
        - by eapply rebound_view_other. }
      split; [intros x; rewrite Hdisk; by destruct c|].
      split; [rewrite Hdisk; by destruct c|].
      split; [by eapply rebound_length|].
      split.
      { split; [by eapply rebound_table_self|].
        rewrite (rebound_frame_self _ _ _ _ _ _ Hok Hrb). simpl. lia. }
      intros Hq _. exists v. split; [done|]. by eapply rebound_quiet.
    + rewrite (fetch_page_no_victim _ _ Hpt Hno) in Hfetch. injection Hfetch as <- <-.
      split; [done|]. split; [done|]. split; [done|]. split; [done|].
      split; [done|]. split; [done|]. split; [done|].
      intros Hq Hlen. destruct (quiet_has_victim b Hok Hq Hlen) as [v Hv].
      by destruct (Hno v).
Qed.

(** What [unpin_page] guarantees for a page held in frame [f]. *)
Lemma unpin_page_post b pid f is_dirty :
  bpm_ok b → page_table_ b !! pid = Some f → pin_count_ (frame b f) > 0 →
  ∃ b', BPM.unpin_page pid is_dirty b = (true, b')
        ∧ bpm_ok b'
        ∧ (clean_synced b → clean_synced b')
        ∧ (∀ q, page_view b' q = page_view b q)
        ∧ disk_manager_ b' = disk_manager_ b
        ∧ page_table_ b' = page_table_ b
        ∧ length (pages_ b') = length (pages_ b)
        ∧ (quiet_but b (Some f) → quiet_but b' None)
        ∧ is_dirty_ (frame b' f) = is_dirty_ (frame b f) || is_dirty.
Proof.
  intros Hok Hpt Hpin. rewrite (unpin_page_pinned _ _ _ _ Hpt Hpin).
  eexists. split; [reflexivity|]. cbv zeta.
  destruct (ok_table b Hok pid f Hpt) as (Hf & Hid & _).
  set (p := mkPage _ _ _ _).
  set (r' := if decide (pin_count_ (frame b f) = 1)
             then LRU.unpin f (replacer_ b) else replacer_ b).
  set (b' := if decide (pin_count_ (frame b f) = 1) then _ else _).
  assert (touched b f p r' b') as Htc.
  { subst b' r'. case_decide; split; try done; exact (frame_sized b f Hok Hf). }
  assert (∀ g, g ∈ LRUhash_ (replacer_ b) → g ≠ f) as Hnotf.
  { intros g Hg ->. destruct (ok_replacer b Hok f Hg) as (_ & _ & ?). lia. }
  split.
  { eapply touched_bpm_ok; [done|done| |simpl; lia|].
    - subst r'. case_decide; [apply lru_wf_unpin|]; apply (ok_lru b Hok).
    - intros g. subst r'. case_decide as Hone.
      + intros [Hg| ->]%unpin_other; [left; split; [done|by apply Hnotf]|].
        right. split; [done|]. simpl. split; [lia|]. by rewrite Hid.
      + intros Hg. left. split; [done|by apply Hnotf]. }
  split.
  { intros Hcs. eapply touched_clean_synced; [done|done|]. simpl.
    intros [-> _]%orb_false_elim. done. }
  split.
  { intros q. destruct (decide (q = pid)) as [->|Hne].
    - rewrite (touched_view_self _ _ _ _ _ Htc pid Hpt).
      unfold page_view. by rewrite Hpt.
    - eapply touched_view_other; [done|done|]. simpl. congruence. }
  split; [apply (tc_disk _ _ _ _ _ Htc)|].
  split; [apply (tc_table _ _ _ _ _ Htc)|].
  split; [by eapply touched_length|].
  split; [|by rewrite (touched_frame_self _ _ _ _ _ Htc)].
  intros Hq. destruct (Hq f Hf) as (_ & _ & Hpins & _).
  rewrite decide_True in Hpins by done. specialize (Hpins ltac:(by exists pid)).
  eapply touched_quiet_unpin; [done|done|simpl; lia|].
  intros g. subst r'. rewrite decide_True by done. apply unpin_other.
Qed.

End pool_posts.

(* ================================================================= *)
(** * The record file handle: proofs *)

Section handle_steps.

Implicit Types (s : RmFileHandle) (f : frame_id_t) (p : Z).

Local Notation bpm := buffer_pool_manager_.

Lemma with_bpm_same s : with_bpm (bpm s) s = s.
Proof. by destruct s. Qed.

Lemma fetch_page_handle_range s p :
  p ≤ RM_FILE_HDR_PAGE ∨ p >= num_pages (file_hdr_ s) →
  Rm.fetch_page_handle p s = (inl (PageNotExistError p), s).
Proof.
  intros Hp. unfold Rm.fetch_page_handle, bind, get_fh. simpl.
  by rewrite decide_True.
Qed.

Lemma fetch_page_handle_call s p :
  RM_FILE_HDR_PAGE < p < num_pages (file_hdr_ s) →
  Rm.fetch_page_handle p s
  = (match fst (BPM.fetch_page (fd_ s, p) (bpm s)) with
     | None => inl RMDBError
     | Some f => inr f
     end,
     with_bpm (snd (BPM.fetch_page (fd_ s, p) (bpm s))) s).
Proof.
  intros Hp. unfold Rm.fetch_page_handle, bind, get_fh, call_bpm. simpl.
  rewrite decide_False by lia.
  destruct (BPM.fetch_page (fd_ s, p) (bpm s)) as [[f|] b']; reflexivity.
Qed.

Lemma unpin_call s f is_dirty :
  unpin f is_dirty s
  = (inr tt, with_bpm (snd (BPM.unpin_page (id_ (frame (bpm s) f)) is_dirty (bpm s))) s).
Proof.
  unfold unpin, bind, get_page_id, call_bpm, ret. simpl.
  by destruct (BPM.unpin_page _ _ _).
Qed.

Lemma hdr_ok_set_first_free v h : hdr_ok h → hdr_ok (set_first_free_page_no v h).
Proof. intros []. by split. Qed.

Lemma hdr_ok_set_num_pages v h : hdr_ok h → hdr_ok (set_num_pages v h).
Proof. intros []. by split. Qed.

(** Header-only changes keep the invariant when they keep the layout. *)
Lemma fh_ok_with_hdr s h' :
  fh_ok s → hdr_ok h' → num_pages h' = num_pages (file_hdr_ s) →
  -2147483648 ≤ first_free_page_no h' ≤ 2147483647 →
  fh_ok (with_hdr h' s).
Proof.
  intros [] Hh Hn Hfree. split; simpl; try done; rewrite ?Hn; done.
Qed.

(** What [fetch_page_handle] guarantees. *)
Lemma fetch_page_handle_post s p r s' :
  fh_ok s → Rm.fetch_page_handle p s = (r, s') →
  fd_ s' = fd_ s ∧ file_hdr_ s' = file_hdr_ s ∧ fh_ok s'
  ∧ (∀ q, RM_FIRST_RECORD_PAGE ≤ page_no q →
          page_view (bpm s') q = page_view (bpm s) q)
  ∧ length (pages_ (bpm s')) = length (pages_ (bpm s))
  ∧ disk_room (disk_manager_ (bpm s')) = disk_room (disk_manager_ (bpm s))
  ∧ match r with
    | inr f => RM_FILE_HDR_PAGE < p < num_pages (file_hdr_ s)
               ∧ page_table_ (bpm s') !! (fd_ s, p) = Some f
               ∧ pin_count_ (frame (bpm s') f) > 0
    | inl _ => s' = s
    end
  ∧ (quiet_but (bpm s) None → (0 < length (pages_ (bpm s)))%nat →
     RM_FILE_HDR_PAGE < p < num_pages (file_hdr_ s) →
     ∃ f, r = inr f ∧ quiet_but (bpm s') (Some f)).
Proof.
  intros Hok Hfetch.
  destruct (decide (p ≤ RM_FILE_HDR_PAGE ∨ p >= num_pages (file_hdr_ s))) as [Hp|Hp].
  - rewrite fetch_page_handle_range in Hfetch by done. injection Hfetch as <- <-.
    do 7 (split; [done|]). intros _ _ ?. lia.
  - assert (RM_FILE_HDR_PAGE < p < num_pages (file_hdr_ s)) as Hin by lia.
    rewrite fetch_page_handle_call in Hfetch by done. injection Hfetch as <- <-.
    destruct (BPM.fetch_page (fd_ s, p) (bpm s)) as [o b'] eqn:Hf.
    destruct Hok as [Hh Hpages Hnext Hroom Hfree Hbpm Hsync].
    unfold RM_FILE_HDR_PAGE in Hin.
    destruct (fetch_page_post (bpm s) (fd_ s, p) o b' Hbpm Hsync) as
      (Hbpm' & Hsync' & Hview & Hnx & Hrm & Hlen & Hres & Hquiet); [simpl..|done|].
    { unfold INVALID_PAGE_ID. lia. }
    { rewrite Hnext. lia. }
    simpl. split; [done|]. split; [done|]. split.
    { split; simpl; try done.
      - by rewrite Hnx.
      - by rewrite Hrm. }
    split; [done|]. split; [done|]. split; [done|]. split.
    { destruct o as [f|]; [done|]. subst b'. apply with_bpm_same. }
    intros Hq Hl _. destruct (Hquiet Hq Hl) as (f & -> & Hq'). by exists f.
Qed.

End handle_steps.

Section handle_modify.

Implicit Types (s : RmFileHandle) (f : frame_id_t) (p : Z) (g : list Z → list Z).

Local Notation bpm := buffer_pool_manager_.

Lemma poke_eq f g s : poke f g s = (inr tt, touch f g s).
Proof. reflexivity. Qed.

Lemma mark_dirty_eq f s : mark_dirty f s = (inr tt, dirtied f s).
Proof. reflexivity. Qed.

Lemma touch_frame f g s :
  (f < length (pages_ (bpm s)))%nat →
  frame (bpm (touch f g s)) f = set_data (g (data_ (frame (bpm s) f))) (frame (bpm s) f).
Proof. intros Hf. unfold touch, poke. simpl. by apply frame_set_frame_eq. Qed.

Lemma touch_length f g s :
  length (pages_ (bpm (touch f g s))) = length (pages_ (bpm s)).
Proof. unfold touch, poke. simpl. apply length_insert. Qed.

Lemma touch_hdr f g s : file_hdr_ (touch f g s) = file_hdr_ s.
Proof. reflexivity. Qed.

Lemma touch_touch f g1 g2 s :
  (f < length (pages_ (bpm s)))%nat →
  touch f g2 (touch f g1 s) = touch f (λ d, g2 (g1 d)) s.
Proof.
  intros Hf. unfold touch, poke, with_bpm, set_frame, with_pages, frame. simpl.
  rewrite list_lookup_total_insert_eq by done. rewrite list_insert_insert_eq.
  reflexivity.
Qed.

Lemma dirtied_touch f g s :
  (f < length (pages_ (bpm s)))%nat →
  dirtied f (touch f g s) = modify f g s.
Proof.
  intros Hf. unfold dirtied, mark_dirty, BPM.mark_dirty, modify, touch, poke,
    with_bpm, set_frame, with_pages, frame. simpl.
  rewrite list_lookup_total_insert_eq by done. rewrite list_insert_insert_eq.
  reflexivity.
Qed.

Lemma modify_with_hdr f g h s :
  modify f g (with_hdr h s) = with_hdr h (modify f g s).
Proof. reflexivity. Qed.

Lemma modify_frame f g s :
  (f < length (pages_ (bpm s)))%nat →
  frame (bpm (modify f g s)) f
  = mkPage (id_ (frame (bpm s) f)) (g (data_ (frame (bpm s) f))) true
      (pin_count_ (frame (bpm s) f)).
Proof. intros Hf. unfold modify. simpl. by apply frame_set_frame_eq. Qed.

(** What a change of the held page's bytes, marked dirty, guarantees. *)
Lemma modify_post s f p g :
  fh_ok s → page_table_ (bpm s) !! (fd_ s, p) = Some f →
  pin_count_ (frame (bpm s) f) > 0 →
  page_sized (g (data_ (frame (bpm s) f))) →
  let s1 := modify f g s in
  fd_ s1 = fd_ s ∧ file_hdr_ s1 = file_hdr_ s ∧ fh_ok s1
  ∧ page_table_ (bpm s1) !! (fd_ s, p) = Some f
  ∧ pin_count_ (frame (bpm s1) f) = pin_count_ (frame (bpm s) f)
  ∧ page_view (bpm s1) (fd_ s, p) = g (page_view (bpm s) (fd_ s, p))
  ∧ (∀ q, q ≠ (fd_ s, p) → page_view (bpm s1) q = page_view (bpm s) q)
  ∧ length (pages_ (bpm s1)) = length (pages_ (bpm s))
  ∧ disk_manager_ (bpm s1) = disk_manager_ (bpm s)
  ∧ (∀ P, quiet_but (bpm s) P → quiet_but (bpm s1) P).
Proof.
  intros Hok Hpt Hpin Hsz s1. destruct Hok as [Hh Hpages Hnext Hroom Hfree Hbpm Hsync].
  destruct (ok_table _ Hbpm _ _ Hpt) as (Hf & Hid & _).
  set (b := bpm s) in *.
  set (pg := mkPage (id_ (frame b f)) (g (data_ (frame b f))) true (pin_count_ (frame b f))).
  assert (touched b f pg (replacer_ b) (bpm s1)) as Htc by (by split).
  assert (bpm_ok (bpm s1)) as Hbpm'.
  { eapply touched_bpm_ok; [done|done|apply (ok_lru _ Hbpm)|simpl; lia|].
    intros x Hx. left. split; [done|]. intros ->.
    destruct (ok_replacer _ Hbpm f Hx) as (_ & _ & ?). lia. }
  split; [done|]. split; [done|]. split.
  { split; try done. eapply touched_clean_synced; [done|done|]. done. }
  split; [done|]. split; [by rewrite (touched_frame_self _ _ _ _ _ Htc)|].
  split.
  { rewrite (touched_view_self _ _ _ _ _ Htc _ Hpt). unfold page_view.
    fold b. by rewrite Hpt. }
  split.
  { intros q Hq. eapply touched_view_other; [done|done|]. simpl. congruence. }
  split; [by eapply touched_length|]. split; [done|].
  intros P HP. by eapply touched_quiet_same.
Qed.

(** What [unpin] guarantees for the held page. *)
Lemma unpin_post s f p is_dirty :
  fh_ok s → page_table_ (bpm s) !! (fd_ s, p) = Some f →
  pin_count_ (frame (bpm s) f) > 0 →
  let s' := snd (unpin f is_dirty s) in
  fst (unpin f is_dirty s) = inr tt
  ∧ fd_ s' = fd_ s ∧ file_hdr_ s' = file_hdr_ s ∧ fh_ok s'
  ∧ (∀ q, page_view (bpm s') q = page_view (bpm s) q)
  ∧ length (pages_ (bpm s')) = length (pages_ (bpm s))
  ∧ disk_manager_ (bpm s') = disk_manager_ (bpm s)
  ∧ (quiet_but (bpm s) (Some f) → quiet_but (bpm s') None)
  ∧ page_table_ (bpm s') = page_table_ (bpm s)
  ∧ is_dirty_ (frame (bpm s') f) = is_dirty_ (frame (bpm s) f) || is_dirty.
Proof.
  intros Hok Hpt Hpin s'. subst s'. rewrite unpin_call. simpl.
  destruct Hok as [Hh Hpages Hnext Hroom Hfree Hbpm Hsync].
  destruct (ok_table _ Hbpm _ _ Hpt) as (Hf & Hid & _). rewrite Hid.
  destruct (unpin_page_post (bpm s) (fd_ s, p) f is_dirty Hbpm Hpt Hpin)
    as (b' & -> & Hbpm' & Hsync' & Hview & Hdisk & Htab & Hlen & Hquiet & Hdirty).
  simpl. split; [done|]. split; [done|]. split; [done|]. split.
  { split; simpl; try done; rewrite ?Hdisk; auto. }
  done.
Qed.

End handle_modify.

Section handle_equations.

Implicit Types (s : RmFileHandle) (f : frame_id_t) (rid : Rid) (buf : list Z).

Local Notation bpm := buffer_pool_manager_.

Local Arguments touch : simpl never.
Local Arguments dirtied : simpl never.
Local Arguments modify : simpl never.
Local Arguments unpin : simpl never.

Lemma unpin_eq f is_dirty s : unpin f is_dirty s = (inr tt, snd (unpin f is_dirty s)).
Proof. by rewrite unpin_call. Qed.

Lemma modify_ext f g g' s :
  g (data_ (frame (bpm s) f)) = g' (data_ (frame (bpm s) f)) →
  modify f g s = modify f g' s.
Proof. intros Hg. unfold modify. by rewrite Hg. Qed.

Lemma insert_record_at_eq rid buf s f s1 :
  Rm.fetch_page_handle (rpage_no rid) s = (inr f, s1) →
  (f < length (pages_ (bpm s1)))%nat →
  Rm.insert_record_at rid buf s
  = if decide (slot_no rid < 0 ∨ slot_no rid >= num_records_per_page (file_hdr_ s1))
    then (inl RMDBError, snd (unpin f false s1))
    else (inr tt,
          snd (unpin f true
                 (modify f (insert_at_bytes (file_hdr_ s1) (slot_no rid) buf) s1))).
Proof.
  intros Hfetch Hf. unfold Rm.insert_record_at, bind. rewrite Hfetch.
  unfold get_fh, peek, throw. case_decide.
  - by rewrite unpin_eq.
  - rewrite poke_eq.
    destruct (Bitmap.is_set PageHandle.bitmap (slot_no rid) (data_ (frame (bpm s1) f)))
      eqn:Hset; unfold negb; cbv beta iota.
    + rewrite poke_eq, mark_dirty_eq. rewrite touch_touch, dirtied_touch by done.
      rewrite unpin_eq. do 3 f_equal. apply modify_ext.
      unfold insert_at_bytes. by rewrite Hset.
    + unfold bind. rewrite !poke_eq. rewrite mark_dirty_eq.
      rewrite !touch_touch, dirtied_touch by (rewrite ?touch_length; done).
      rewrite unpin_eq. do 3 f_equal. apply modify_ext.
      unfold insert_at_bytes. by rewrite Hset.
Qed.

Lemma touch_modify f g g0 s :
  (f < length (pages_ (bpm s)))%nat →
  touch f g (modify f g0 s) = modify f (λ d, g (g0 d)) s.
Proof.
  intros Hf. unfold modify, touch, poke, with_bpm, set_frame, with_pages, frame. simpl.
  rewrite list_lookup_total_insert_eq by done. rewrite list_insert_insert_eq.
  reflexivity.
Qed.

Lemma dirtied_modify f g s :
  (f < length (pages_ (bpm s)))%nat →
  dirtied f (modify f g s) = modify f g s.
Proof.
  intros Hf. unfold dirtied, mark_dirty, BPM.mark_dirty, modify, with_bpm, set_frame,
    with_pages, frame. simpl.
  rewrite list_lookup_total_insert_eq by done. rewrite list_insert_insert_eq.
  reflexivity.
Qed.

Lemma modify_length f g s :
  length (pages_ (bpm (modify f g s))) = length (pages_ (bpm s)).
Proof. unfold modify. simpl. apply length_insert. Qed.

Lemma modify_id f g s :
  (f < length (pages_ (bpm s)))%nat →
  id_ (frame (bpm (modify f g s)) f) = id_ (frame (bpm s) f).
Proof. intros Hf. by rewrite modify_frame. Qed.

Lemma get_record_eq rid s f s1 :
  Rm.fetch_page_handle (rpage_no rid) s = (inr f, s1) →
  Rm.get_record rid s
  = if decide (slot_no rid < 0 ∨ slot_no rid >= num_records_per_page (file_hdr_ s1))
    then (inl RMDBError, snd (unpin f false s1))
    else if Bitmap.is_set PageHandle.bitmap (slot_no rid) (data_ (frame (bpm s1) f))
    then (inr (load (PageHandle.get_slot (file_hdr_ s1) (slot_no rid))
                 (record_size (file_hdr_ s1)) (data_ (frame (bpm s1) f))),
          snd (unpin f false s1))
    else (inl (RecordNotFoundError (rpage_no rid) (slot_no rid)),
          snd (unpin f false s1)).
Proof.
  intros Hfetch. unfold Rm.get_record, bind. rewrite Hfetch.
  unfold get_fh, peek, throw, ret. case_decide.
  - by rewrite unpin_eq.
  - destruct (Bitmap.is_set _ _ _); unfold negb; cbv beta iota; by rewrite unpin_eq.
Qed.

Lemma update_record_eq rid buf s f s1 :
  Rm.fetch_page_handle (rpage_no rid) s = (inr f, s1) →
  (f < length (pages_ (bpm s1)))%nat →
  Rm.update_record rid buf s
  = if decide (slot_no rid < 0 ∨ slot_no rid >= num_records_per_page (file_hdr_ s1))
    then (inl RMDBError, snd (unpin f false s1))
    else if Bitmap.is_set PageHandle.bitmap (slot_no rid) (data_ (frame (bpm s1) f))
    then (inr tt,
          snd (unpin f true
                 (modify f (update_bytes (file_hdr_ s1) (slot_no rid) buf) s1)))
    else (inl (RecordNotFoundError (rpage_no rid) (slot_no rid)),
          snd (unpin f false s1)).
Proof.
  intros Hfetch Hf. unfold Rm.update_record, bind. rewrite Hfetch.
  unfold get_fh, peek, throw, ret. case_decide.
  - by rewrite unpin_eq.
  - destruct (Bitmap.is_set _ _ _); unfold negb; cbv beta iota.
    + rewrite poke_eq, mark_dirty_eq, dirtied_touch by done. by rewrite unpin_eq.
    + by rewrite unpin_eq.
Qed.

Lemma release_page_handle_modify f g s :
  (f < length (pages_ (bpm s)))%nat →
  Rm.release_page_handle f (modify f g s)
  = (inr tt,
     with_hdr (set_first_free_page_no (page_no (id_ (frame (bpm s) f))) (file_hdr_ s))
       (modify f (λ d, PageHandle.set_next_free_page_no
                         (first_free_page_no (file_hdr_ s)) (g d)) s)).
Proof.
  intros Hf. unfold Rm.release_page_handle, bind, get_fh, get_page_id, put_hdr.
  rewrite poke_eq, mark_dirty_eq. rewrite touch_modify by done.
  rewrite modify_id by done.
  change (with_hdr ?h (modify f ?g' s)) with (modify f g' (with_hdr h s)).
  rewrite dirtied_modify by done. reflexivity.
Qed.

Lemma delete_record_eq rid s f s1 :
  Rm.fetch_page_handle (rpage_no rid) s = (inr f, s1) →
  (f < length (pages_ (bpm s1)))%nat →
  let h := file_hdr_ s1 in
  let d := data_ (frame (bpm s1) f) in
  Rm.delete_record rid s
  = if decide (slot_no rid < 0 ∨ slot_no rid >= num_records_per_page h)
    then (inl RMDBError, snd (unpin f false s1))
    else if Bitmap.is_set PageHandle.bitmap (slot_no rid) d
    then (inr tt,
          snd (unpin f true
                 (if bool_decide (PageHandle.num_records d = num_records_per_page h)
                     && bool_decide (PageHandle.num_records (delete_bytes (slot_no rid) d)
                                     < num_records_per_page h)
                  then with_hdr (set_first_free_page_no (page_no (id_ (frame (bpm s1) f))) h)
                         (modify f (λ d, PageHandle.set_next_free_page_no
                                           (first_free_page_no h)
                                           (delete_bytes (slot_no rid) d)) s1)
                  else modify f (delete_bytes (slot_no rid)) s1)))
    else (inl (RecordNotFoundError (rpage_no rid) (slot_no rid)),
          snd (unpin f false s1)).
Proof.
  intros Hfetch Hf h d. unfold Rm.delete_record, bind. rewrite Hfetch.
  unfold get_fh, peek, throw, ret. fold h. case_decide.
  - by rewrite unpin_eq.
  - fold d. destruct (Bitmap.is_set _ _ d); unfold negb; cbv beta iota.
    + rewrite !poke_eq, mark_dirty_eq.
      rewrite touch_touch, dirtied_touch by (rewrite ?touch_length; done).
      fold (delete_bytes (slot_no rid)).
      rewrite modify_frame by done. simpl data_. fold d.
      destruct (bool_decide _ && bool_decide _).
      * rewrite release_page_handle_modify by done. by rewrite unpin_eq.
      * by rewrite unpin_eq.
    + by rewrite unpin_eq.
Qed.

End handle_equations.

Section popcount_facts.

Implicit Types (d : list Z) (i j n : Z).

Lemma filter_length_ext {A} (P Q : A → Prop) `{!∀ x, Decision (P x)}
    `{!∀ x, Decision (Q x)} (l : list A) :
  (∀ x, x ∈ l → P x ↔ Q x) → length (filter P l) = length (filter Q l).
Proof.
  induction l as [|x l IH]; intros Hext; [done|].
  rewrite !filter_cons.
  assert (length (filter P l) = length (filter Q l)) as Hl
    by (apply IH; intros y Hy; apply Hext; set_solver).
  destruct (decide (P x)) as [HP|HP]; destruct (decide (Q x)) as [HQ|HQ]; simpl;
    try lia; exfalso; [apply HQ|apply HP]; apply (Hext x); set_solver.
Qed.

(** Turning the predicate on at one element of a duplicate-free list adds
    one to the count. *)
Lemma filter_length_flip {A} `{!EqDecision A} (P Q : A → Prop)
    `{!∀ x, Decision (P x)} `{!∀ x, Decision (Q x)} (l : list A) (a : A) :
  NoDup l → a ∈ l → ¬ P a → Q a → (∀ x, x ∈ l → x ≠ a → P x ↔ Q x) →
  length (filter Q l) = S (length (filter P l)).
Proof.
  induction l as [|x l IH]; intros Hnd Ha HP HQ Hext; [set_solver|].
  apply NoDup_cons in Hnd as [Hx Hnd]. rewrite !filter_cons.
  destruct (decide (x = a)) as [->|Hne].
  - rewrite decide_True by done. rewrite decide_False by done. simpl. f_equal.
    apply filter_length_ext. intros y Hy. symmetry. apply Hext; [set_solver|].
    by intros ->.
  - assert (a ∈ l) as Hal by set_solver.
    assert (∀ y, y ∈ l → y ≠ a → P y ↔ Q y) as Hext'
      by (intros y Hy; apply Hext; set_solver).
    specialize (IH Hnd Hal HP HQ Hext').
    assert (P x ↔ Q x) as Hx' by (apply Hext; [set_solver|done]).
    destruct (decide (P x)) as [HPx|HPx]; destruct (decide (Q x)) as [HQx|HQx]; simpl;
      try lia; tauto.
Qed.

Lemma popcount_ext d d' n :
  (∀ j, 0 ≤ j < n → Bitmap.is_set PageHandle.bitmap j d'
                    = Bitmap.is_set PageHandle.bitmap j d) →
  popcount d' n = popcount d n.
Proof.
  intros Hext. unfold popcount, set_slots. f_equal.
  apply filter_length_ext. intros j Hj%elem_of_seqZ. rewrite Hext by lia. done.
Qed.

Lemma popcount_range d n : 0 ≤ n → 0 ≤ popcount d n ≤ n.
Proof.
  intros Hn. unfold popcount, set_slots. split; [lia|].
  pose proof (length_filter (λ i, Bitmap.is_set PageHandle.bitmap i d = true) (seqZ 0 n)) as Hle.
  rewrite length_seqZ in Hle. lia.
Qed.

Lemma popcount_flip d d' n i :
  0 ≤ i < n →
  Bitmap.is_set PageHandle.bitmap i d = false →
  Bitmap.is_set PageHandle.bitmap i d' = true →
  (∀ j, 0 ≤ j < n → j ≠ i → Bitmap.is_set PageHandle.bitmap j d'
                            = Bitmap.is_set PageHandle.bitmap j d) →
  popcount d' n = popcount d n + 1.
Proof.
  intros Hi Hoff Hon Hext. unfold popcount, set_slots.
  rewrite (filter_length_flip
             (λ j, Bitmap.is_set PageHandle.bitmap j d = true)
             (λ j, Bitmap.is_set PageHandle.bitmap j d' = true)
             (seqZ 0 n) i).
  - lia.
  - apply NoDup_seqZ.
  - apply elem_of_seqZ. lia.
  - congruence.
  - done.
  - intros j Hj%elem_of_seqZ Hne. rewrite Hext by lia. done.
Qed.

End popcount_facts.

Section page_bytes.

Context (h : RmFileHdr) (Hh : hdr_ok h).
Implicit Types (d buf : list Z) (i j v : Z).

Lemma nrpp_int : num_records_per_page h ≤ 32768.
Proof.
  destruct Hh. unfold sizeof_RmPageHdr, PAGE_SIZE in *.
  assert (0 ≤ num_records_per_page h * record_size h) by nia. lia.
Qed.

Lemma num_records_range d : -2147483648 ≤ PageHandle.num_records d < 2147483648.
Proof. apply decode_int_range. Qed.

Lemma consistent_range d :
  page_consistent h d → 0 ≤ PageHandle.num_records d ≤ num_records_per_page h.
Proof.
  unfold page_consistent. intros ->. apply popcount_range. by destruct Hh.
Qed.

Lemma set_num_records_load v i d :
  0 ≤ i < num_records_per_page h →
  load (PageHandle.get_slot h i) (record_size h) (PageHandle.set_num_records v d)
  = load (PageHandle.get_slot h i) (record_size h) d.
Proof.
  intros Hi. pose proof (slot_range h Hh i Hi). pose proof (bitmap_size_nonneg h Hh).
  destruct Hh. unfold PageHandle.set_num_records, store_int, OFFSET_NUM_RECORDS,
    sizeof_RmPageHdr in *.
  apply load_store_disjoint; simpl; lia.
Qed.

Lemma popcount_set_num_records v d n :
  popcount (PageHandle.set_num_records v d) n = popcount d n.
Proof. apply popcount_ext. intros j Hj. apply is_set_set_num_records. lia. Qed.

Lemma popcount_set_next_free v d n :
  popcount (PageHandle.set_next_free_page_no v d) n = popcount d n.
Proof. apply popcount_ext. intros j Hj. apply is_set_set_next_free. lia. Qed.

Lemma popcount_memcpy i buf d :
  0 ≤ i < num_records_per_page h →
  popcount (memcpy_to (PageHandle.get_slot h i) buf (record_size h) d)
    (num_records_per_page h)
  = popcount d (num_records_per_page h).
Proof. intros Hi. apply popcount_ext. intros j Hj. by apply memcpy_slot_is_set. Qed.

(** [update_record]'s bytes. *)
Lemma update_bytes_sized i buf d : page_sized d → page_sized (update_bytes h i buf d).
Proof. unfold page_sized, update_bytes. by rewrite memcpy_slot_length. Qed.

Lemma update_bytes_consistent i buf d :
  0 ≤ i < num_records_per_page h →
  page_consistent h d → page_consistent h (update_bytes h i buf d).
Proof.
  intros Hi Hc. unfold page_consistent, update_bytes.
  rewrite memcpy_slot_num_records, popcount_memcpy by done. done.
Qed.

(** The positional insert's bytes. *)
Lemma insert_at_bytes_sized i buf d :
  page_sized d → page_sized (insert_at_bytes h i buf d).
Proof.
  unfold page_sized, insert_at_bytes. intros Hd.
  destruct (Bitmap.is_set _ _ d);
    rewrite ?set_num_records_length, length_bitmap_set, memcpy_slot_length; done.
Qed.

Lemma insert_at_bytes_is_set i j buf d :
  page_sized d → 0 ≤ i < num_records_per_page h → 0 ≤ j < num_records_per_page h →
  Bitmap.is_set PageHandle.bitmap j (insert_at_bytes h i buf d)
  = if decide (i = j) then true else Bitmap.is_set PageHandle.bitmap j d.
Proof.
  intros Hd Hi Hj. unfold insert_at_bytes.
  assert (page_sized (memcpy_to (PageHandle.get_slot h i) buf (record_size h) d)) as Hd1
    by (unfold page_sized; by rewrite memcpy_slot_length).
  destruct (Bitmap.is_set _ i d); rewrite ?is_set_set_num_records by lia;
    rewrite (bitmap_set_is_set h Hh) by (done || lia);
    by rewrite (memcpy_slot_is_set h Hh).
Qed.

Lemma insert_at_bytes_load i buf d :
  page_sized d → 0 ≤ i < num_records_per_page h →
  length buf = Z.to_nat (record_size h) →
  load (PageHandle.get_slot h i) (record_size h) (insert_at_bytes h i buf d) = buf.
Proof.
  intros Hd Hi Hbuf. unfold insert_at_bytes.
  destruct (Bitmap.is_set _ i d); rewrite ?set_num_records_load by done;
    rewrite (bitmap_set_load h Hh) by done; by apply memcpy_slot_load.
Qed.

Lemma insert_at_bytes_consistent i buf d :
  page_sized d → 0 ≤ i < num_records_per_page h →
  page_consistent h d → page_consistent h (insert_at_bytes h i buf d).
Proof.
  intros Hd Hi Hc. pose proof (consistent_range d Hc) as Hr. pose proof nrpp_int.
  unfold page_consistent in *. unfold insert_at_bytes.
  set (d1 := memcpy_to (PageHandle.get_slot h i) buf (record_size h) d).
  assert (page_sized d1) as Hd1 by (unfold page_sized, d1; by rewrite memcpy_slot_length).
  assert (PageHandle.num_records (Bitmap.set PageHandle.bitmap i d1)
          = PageHandle.num_records d) as Hn.
  { rewrite (bitmap_set_num_records h Hh) by done.
    by apply memcpy_slot_num_records. }
  destruct (Bitmap.is_set PageHandle.bitmap i d) eqn:Hset.
  - rewrite Hn, Hc. symmetry. apply popcount_ext. intros j Hj.
    rewrite (bitmap_set_is_set h Hh) by (done || lia).
    unfold d1. rewrite (memcpy_slot_is_set h Hh) by done.
    case_decide; [by subst|done].
  - rewrite num_records_set; [|by unfold page_sized; rewrite length_bitmap_set|lia].
    rewrite popcount_set_num_records, Hn, Hc. symmetry.
    apply (popcount_flip _ _ _ i); [done|done| |].
    + rewrite (bitmap_set_is_set h Hh) by (done || lia). by rewrite decide_True.
    + intros j Hj Hne. rewrite (bitmap_set_is_set h Hh) by (done || lia).
      rewrite decide_False by done. unfold d1. by apply memcpy_slot_is_set.
Qed.

(** Writing the same record into the same slot again changes nothing. *)
Lemma store_same off bs d :
  0 ≤ off → off + Z.of_nat (length bs) ≤ Z.of_nat (length d) →
  load off (Z.of_nat (length bs)) d = bs → store off bs d = d.
Proof.
  intros Hoff Hfit Hload. apply list_eq. intros k.
  destruct (decide (k < length d)%nat).
  - rewrite lookup_store by done. case_decide as Hin; [|done].
    rewrite <- Hload at 1. rewrite lookup_load by lia. f_equal. lia.
  - rewrite !lookup_ge_None_2; [done|lia|rewrite length_store; lia].
Qed.

Lemma setbit_same b k : 0 ≤ k → Z.testbit b k = true → Z.setbit b k = b.
Proof.
  intros Hk Hb. apply Z.bits_inj'. intros m Hm. rewrite Z.setbit_eqb by done.
  destruct (Z.eqb_spec k m) as [->|]; [by rewrite Hb|done].
Qed.

Lemma bitmap_set_same i d :
  page_sized d → 0 ≤ i < num_records_per_page h →
  Bitmap.is_set PageHandle.bitmap i d = true →
  Bitmap.set PageHandle.bitmap i d = d.
Proof.
  intros Hd%page_sized_length Hi Hset. pose proof (bucket_range h Hh i Hi) as Hb.
  destruct Hh. unfold sizeof_RmPageHdr in *.
  unfold Bitmap.set. unfold Bitmap.is_set in Hset.
  rewrite setbit_same by (done || apply bit_ix_range).
  set (bk := Bitmap.bucket PageHandle.bitmap i) in *.
  apply store_same; [lia|simpl length; lia|].
  apply list_eq. intros [|k].
  - rewrite lookup_load by (simpl length; lia). rewrite Nat.add_0_r. unfold byte_at.
    destruct (d !! Z.to_nat bk) eqn:E; [done|].
    apply lookup_ge_None in E. lia.
  - apply lookup_ge_None_2. unfold load. rewrite length_take. simpl length. lia.
Qed.

Lemma insert_at_bytes_idem i buf d :
  page_sized d → 0 ≤ i < num_records_per_page h →
  insert_at_bytes h i buf (insert_at_bytes h i buf d) = insert_at_bytes h i buf d.
Proof.
  intros Hd Hi. set (D := insert_at_bytes h i buf d).
  assert (page_sized D) as HD by (by apply insert_at_bytes_sized).
  assert (Bitmap.is_set PageHandle.bitmap i D = true) as Hset.
  { unfold D. rewrite insert_at_bytes_is_set by done. by rewrite decide_True. }
  unfold insert_at_bytes at 1. rewrite Hset.
  assert (memcpy_to (PageHandle.get_slot h i) buf (record_size h) D = D) as ->.
  { pose proof (slot_range h Hh i Hi). pose proof (bitmap_size_nonneg h Hh).
    pose proof (page_sized_length _ HD). destruct Hh. unfold sizeof_RmPageHdr in *.
    unfold memcpy_to. apply store_same; rewrite ?length_resize; try lia.
    rewrite Z2Nat.id by lia.
    unfold D. rewrite <- (insert_at_bytes_load i (resize (Z.to_nat (record_size h)) 0 buf) d)
      by (done || by rewrite length_resize).
    f_equal. unfold insert_at_bytes, memcpy_to.
    by rewrite resize_idemp. }
  by apply bitmap_set_same.
Qed.

End page_bytes.

Section pipelines.

Implicit Types (s : RmFileHandle) (f : frame_id_t) (p : Z) (g : list Z → list Z).

Local Notation bpm := buffer_pool_manager_.

Lemma unpin_with_hdr f is_dirty h s :
  snd (unpin f is_dirty (with_hdr h s)) = with_hdr h (snd (unpin f is_dirty s)).
Proof. by rewrite !unpin_call. Qed.

(** After a successful [fetch_page_handle], the frame's bytes are the
    page's view. *)
Lemma held_data s p f s1 :
  fh_ok s → Rm.fetch_page_handle p s = (inr f, s1) →
  data_ (frame (bpm s1) f) = page_view (bpm s) (fd_ s, p)
  ∧ id_ (frame (bpm s1) f) = (fd_ s, p)
  ∧ (f < length (pages_ (bpm s1)))%nat
  ∧ page_sized (data_ (frame (bpm s1) f)).
Proof.
  intros Hok Hfetch.
  destruct (fetch_page_handle_post s p _ _ Hok Hfetch)
    as (Hfd & Hhdr & Hok1 & Hview & Hlen & Hroom & (Hp & Hpt & Hpin) & _).
  destruct (ok_table _ (fo_bpm _ Hok1) _ _ Hpt) as (Hf & Hid & _).
  split.
  - rewrite <- Hview by (simpl; unfold RM_FIRST_RECORD_PAGE, RM_FILE_HDR_PAGE in *; lia).
    unfold page_view. by rewrite Hpt.
  - split; [done|]. split; [done|]. apply frame_sized; [apply Hok1|done].
Qed.

(** fetch; unpin without a change. *)
Lemma fetch_unpin_post s p f s1 is_dirty :
  fh_ok s → Rm.fetch_page_handle p s = (inr f, s1) →
  let s2 := snd (unpin f is_dirty s1) in
  fd_ s2 = fd_ s ∧ file_hdr_ s2 = file_hdr_ s ∧ fh_ok s2
  ∧ (∀ q, RM_FIRST_RECORD_PAGE ≤ page_no q →
          page_view (bpm s2) q = page_view (bpm s) q)
  ∧ length (pages_ (bpm s2)) = length (pages_ (bpm s))
  ∧ disk_room (disk_manager_ (bpm s2)) = disk_room (disk_manager_ (bpm s))
  ∧ (quiet_but (bpm s1) (Some f) → quiet_but (bpm s2) None).
Proof.
  intros Hok Hfetch s2.
  destruct (fetch_page_handle_post s p _ _ Hok Hfetch)
    as (Hfd & Hhdr & Hok1 & Hview & Hlen & Hroom & (Hp & Hpt & Hpin) & _).
  rewrite <- Hfd in Hpt.
  destruct (unpin_post s1 f p is_dirty Hok1 Hpt Hpin)
    as (_ & Hfd2 & Hhdr2 & Hok2 & Hview2 & Hlen2 & Hdisk2 & Hq2 & _).
  fold s2 in Hfd2, Hhdr2, Hok2, Hview2, Hlen2, Hdisk2, Hq2.
  split; [congruence|]. split; [congruence|]. split; [done|].
  split; [intros q Hq; by rewrite Hview2, Hview|].
  split; [congruence|]. split; [by rewrite Hdisk2|]. done.
Qed.

(** fetch; change the bytes by [g]; mark dirty; unpin. *)
Lemma fetch_modify_unpin_post s p f s1 g is_dirty :
  fh_ok s → Rm.fetch_page_handle p s = (inr f, s1) →
  page_sized (g (page_view (bpm s) (fd_ s, p))) →
  let s2 := snd (unpin f is_dirty (modify f g s1)) in
  fd_ s2 = fd_ s ∧ file_hdr_ s2 = file_hdr_ s ∧ fh_ok s2
  ∧ page_view (bpm s2) (fd_ s, p) = g (page_view (bpm s) (fd_ s, p))
  ∧ (∀ q, RM_FIRST_RECORD_PAGE ≤ page_no q → q ≠ (fd_ s, p) →
          page_view (bpm s2) q = page_view (bpm s) q)
  ∧ length (pages_ (bpm s2)) = length (pages_ (bpm s))
  ∧ disk_room (disk_manager_ (bpm s2)) = disk_room (disk_manager_ (bpm s))
  ∧ (quiet_but (bpm s1) (Some f) → quiet_but (bpm s2) None)
  ∧ page_table_ (bpm s2) !! (fd_ s, p) = Some f
  ∧ is_dirty_ (frame (bpm s2) f) = true.
Proof.
  intros Hok Hfetch Hsz s2.
  destruct (held_data s p f s1 Hok Hfetch) as (Hdata & Hid & Hf & Hsized).
  destruct (fetch_page_handle_post s p _ _ Hok Hfetch)
    as (Hfd & Hhdr & Hok1 & Hview & Hlen & Hroom & (Hp & Hpt & Hpin) & _).
  rewrite <- Hfd in Hpt. rewrite <- Hdata in Hsz.
  destruct (modify_post s1 f p g Hok1 Hpt Hpin Hsz)
    as (Hfdm & Hhdrm & Hokm & Hptm & Hpinm & Hviewm & Hothm & Hlenm & Hdiskm & Hqm).
  set (sm := modify f g s1) in *.
  rewrite <- Hfdm in Hptm. rewrite <- Hpinm in Hpin.
  destruct (unpin_post sm f p is_dirty Hokm Hptm Hpin)
    as (_ & Hfd2 & Hhdr2 & Hok2 & Hview2 & Hlen2 & Hdisk2 & Hq2 & Hpt2 & Hdirty2).
  fold s2 in Hfd2, Hhdr2, Hok2, Hview2, Hlen2, Hdisk2, Hq2, Hpt2, Hdirty2.
  split; [congruence|]. split; [congruence|]. split; [done|].
  split.
  { rewrite Hview2. rewrite <- Hfd, Hviewm. f_equal. unfold page_view at 1.
    rewrite Hpt. rewrite Hdata. by rewrite Hfd. }
  split.
  { intros q Hq Hne. rewrite Hview2, Hothm by congruence. by apply Hview. }
  split; [congruence|]. split; [by rewrite Hdisk2, Hdiskm|].
  split; [intros Hq; apply Hq2, Hqm, Hq|].
  split; [rewrite Hpt2; congruence|].
  rewrite Hdirty2. unfold sm. by rewrite modify_frame.
Qed.

End pipelines.

Section idempotence.

Implicit Types (s : RmFileHandle) (f : frame_id_t) (p : Z) (g : list Z → list Z).

Local Notation bpm := buffer_pool_manager_.

Lemma pin_absent f r : f ∉ LRUhash_ r → LRU.pin f r = r.
Proof. intros Hf. unfold LRU.pin. by rewrite decide_False. Qed.

Lemma pin_unpin_cancel f r : f ∉ LRUhash_ r → LRU.pin f (LRU.unpin f r) = r.
Proof.
  intros Hf. unfold LRU.unpin. rewrite decide_False by done.
  unfold LRU.pin. simpl. rewrite decide_True by set_solver. simpl.
  rewrite decide_True by done. destruct r as [l H m]. simpl in *. f_equal.
  set_solver.
Qed.

(** The pool after [unpin_page] on a frame pinned [k > 0] times whose page
    was changed to [D] and marked dirty; fetching the page again, setting the
    same bytes and unpinning gives the same pool. *)
Lemma refetch_same b f pid D :
  bpm_ok b → page_table_ b !! pid = Some f → pin_count_ (frame b f) > 0 →
  let held D' b0 := set_frame f (mkPage pid D' true (pin_count_ (frame b0 f))) b0 in
  let b2 := snd (BPM.unpin_page pid true (held D b)) in
  BPM.fetch_page pid b2
  = (Some f, snd (BPM.fetch_page pid b2))
  ∧ snd (BPM.unpin_page pid true (held D (snd (BPM.fetch_page pid b2)))) = b2
  ∧ id_ (frame (snd (BPM.fetch_page pid b2)) f) = pid
  ∧ data_ (frame (snd (BPM.fetch_page pid b2)) f) = D
  ∧ (f < length (pages_ (snd (BPM.fetch_page pid b2))))%nat.
Proof.
  intros Hok Hpt Hpin held b2.
  destruct (ok_table b Hok pid f Hpt) as (Hf & Hid & _).
  assert (f ∉ LRUhash_ (replacer_ b)) as Hnr.
  { intros Hin. destruct (ok_replacer b Hok f Hin) as (_ & _ & ?). lia. }
  set (k := pin_count_ (frame b f)) in *.
  assert (frame (held D b) f = mkPage pid D true k) as Hfr
    by (unfold held; by rewrite frame_set_frame_eq).
  assert (b2 = mkBPM (<[f := mkPage pid D true (k - 1)]> (pages_ b)) (page_table_ b)
                 (free_list_ b)
                 (if decide (k = 1) then LRU.unpin f (replacer_ b) else replacer_ b)
                 (disk_manager_ b)) as Hb2.
  { subst b2. rewrite (unpin_page_pinned _ _ _ f) by (rewrite ?Hfr; simpl; done || lia).
    cbv zeta. rewrite Hfr. simpl. unfold held, set_frame, with_pages, with_replacer.
    simpl. rewrite list_insert_insert_eq. by case_decide. }
  assert (page_table_ b2 !! pid = Some f) as Hpt2 by (by rewrite Hb2).
  rewrite (fetch_page_hit _ _ _ Hpt2). split; [done|]. simpl snd.
  set (b3 := with_replacer _ _).
  assert (frame b2 f = mkPage pid D true (k - 1)) as Hfr2.
  { rewrite Hb2. unfold frame. simpl. by rewrite list_lookup_total_insert_eq. }
  assert (b3 = mkBPM (<[f := mkPage pid D true k]> (pages_ b)) (page_table_ b)
                 (free_list_ b) (replacer_ b) (disk_manager_ b)) as Hb3.
  { subst b3. rewrite Hfr2. rewrite Hb2. unfold set_frame, with_pages, with_replacer.
    simpl. rewrite list_insert_insert_eq. f_equal.
    - f_equal. unfold set_pin_count. simpl. f_equal. lia.
    - case_decide; [by apply pin_unpin_cancel|by apply pin_absent]. }
  assert (frame b3 f = mkPage pid D true k) as Hfr3.
  { rewrite Hb3. unfold frame. simpl. by rewrite list_lookup_total_insert_eq. }
  assert (held D b3 = b3) as ->.
  { unfold held. rewrite Hfr3. simpl. rewrite <- Hfr3 at 1. apply set_frame_same. }
  assert (page_table_ b3 !! pid = Some f) as Hpt3 by (by rewrite Hb3).
  assert (f < length (pages_ b3))%nat as Hlen3
    by (rewrite Hb3; simpl; by rewrite length_insert).
  split; [|by rewrite Hfr3].
  rewrite (unpin_page_pinned _ _ _ f) by (rewrite ?Hfr3; simpl; done || lia).
  cbv zeta. rewrite Hfr3. simpl. rewrite Hb2, Hb3.
  unfold set_frame, with_pages, with_replacer. simpl.
  destruct (decide (k = 1)); simpl; rewrite list_insert_insert_eq;
    rewrite ?pin_unpin_cancel, ?pin_absent by done; done.
Qed.

End idempotence.

(** C10.  For a page that exists and a slot in range, a second
    [insert_record(rid, buf)] right after the first returns the same result
    and leaves exactly the state the first one left: pool, replacer, disk
    and file header, hence the page's bitmap, [num_records] and
    [next_free_page_no] and [first_free_page_no]; the first call itself never
    changes the file header. *)
Theorem insert_record_at_idempotent (s : RmFileHandle) (rid : Rid) (buf : list Z) :
  fh_ok s →
  RM_FILE_HDR_PAGE < rpage_no rid < num_pages (file_hdr_ s) →
  0 ≤ slot_no rid < num_records_per_page (file_hdr_ s) →
  let r1 := Rm.insert_record_at rid buf s in
  Rm.insert_record_at rid buf (snd r1) = r1
  ∧ file_hdr_ (snd r1) = file_hdr_ s.
Proof.
  intros Hok Hp Hslot r1. subst r1.
  destruct (Rm.fetch_page_handle (rpage_no rid) s) as [[e|f] s1] eqn:Hfetch.
  - destruct (fetch_page_handle_post s _ _ _ Hok Hfetch) as (_ & _ & _ & _ & _ & _ & -> & _).
    assert (Rm.insert_record_at rid buf s = (inl e, s)) as Heq.
    { unfold Rm.insert_record_at, bind. by rewrite Hfetch. }
    rewrite Heq. simpl. by rewrite Heq.
  - destruct (held_data s _ f s1 Hok Hfetch) as (Hdata & Hid & Hf & Hsized).
    destruct (fetch_page_handle_post s _ _ _ Hok Hfetch)
      as (Hfd & Hhdr & Hok1 & Hview & Hlen & Hroom & (_ & Hpt & Hpin) & _).
    rewrite (insert_record_at_eq rid buf s f s1 Hfetch Hf).
    rewrite Hhdr. rewrite decide_False by lia.
    set (G := insert_at_bytes (file_hdr_ s) (slot_no rid) buf).
    set (pid := (fd_ s, rpage_no rid)) in *.
    set (b1 := buffer_pool_manager_ s1) in *.
    set (D := G (data_ (frame b1 f))).
    assert (G D = D) as Hidem
      by (apply insert_at_bytes_idem; [apply Hok|done|done]).
    destruct (refetch_same b1 f pid D (fo_bpm _ Hok1) Hpt Hpin)
      as (Hre & Hback & Hid3 & Hdata3 & Hf3).
    cbv zeta in Hre, Hback.
    assert (buffer_pool_manager_ (modify f G s1)
            = set_frame f (mkPage pid D true (pin_count_ (frame b1 f))) b1) as Hm.
    { unfold modify. simpl. fold b1. by rewrite Hid. }
    set (s2 := snd (unpin f true (modify f G s1))).
    assert (s2 = with_bpm (snd (BPM.unpin_page pid true
                                  (set_frame f (mkPage pid D true (pin_count_ (frame b1 f))) b1)))
                   s1) as Hs2.
    { subst s2. rewrite unpin_call. rewrite Hm.
      rewrite frame_set_frame_eq by done. reflexivity. }
    set (b2 := snd (BPM.unpin_page pid true _)) in *.
    simpl snd. simpl fst. split; [|by rewrite Hs2].
    assert (Rm.fetch_page_handle (rpage_no rid) s2
            = (inr f, with_bpm (snd (BPM.fetch_page pid b2)) s2)) as Hfetch2.
    { rewrite fetch_page_handle_call by (rewrite Hs2; simpl; by rewrite Hhdr).
      rewrite Hs2. simpl. rewrite Hfd. fold pid. by rewrite Hre. }
    rewrite (insert_record_at_eq rid buf s2 f _ Hfetch2) by done.
    rewrite decide_False by (rewrite Hs2; simpl; rewrite Hhdr; lia).
    f_equal. rewrite unpin_call.
    assert (file_hdr_ (with_bpm (snd (BPM.fetch_page pid b2)) s2) = file_hdr_ s) as ->
      by (rewrite Hs2; simpl; done).
    fold G. unfold modify. simpl.
    rewrite Hid3, Hdata3, Hidem. rewrite frame_set_frame_eq by done. simpl.
    rewrite Hback. rewrite Hs2. reflexivity.
Qed.

Section fresh_states.

(** A handle over an empty pool: the state after [open_file] on a new pool. *)
Lemma fh_ok_fresh (x : Z) (h : RmFileHdr) (n : nat) (d : DiskManager) :
  hdr_ok h → 1 ≤ num_pages h → Disk.next_page_no x d = num_pages h →
  num_pages h + Z.of_nat (disk_room d) ≤ 2147483647 →
  -2147483648 ≤ first_free_page_no h ≤ 2147483647 →
  fh_ok (mkFH x h (BPM.create n d)).
Proof.
  intros Hh Hp Hnext Hroom Hfree. split; simpl; try done.
  apply bpm_ok_create.
Qed.

Lemma quiet_create (n : nat) (d : DiskManager) : quiet_but (BPM.create n d) None.
Proof.
  intros f Hf. simpl in Hf. rewrite length_replicate in Hf.
  assert (¬ in_table (BPM.create n d) f) as Hnt.
  { intros [pid Hpid]. simpl in Hpid. by rewrite lookup_empty in Hpid. }
  split; [left; simpl; apply elem_of_seq; lia|]. split; [tauto|].
  split; [tauto|]. split; [|done]. simpl. set_solver.
Qed.

Lemma hdr_ok_example : hdr_ok (mkFileHdr 8 2 4 (-1) 1).
Proof. split; simpl; unfold sizeof_RmPageHdr, PAGE_SIZE; lia. Qed.

End fresh_states.

Lemma insert_record_at_idempotent_witness :
  let s := mkFH 3 (mkFileHdr 8 2 4 (-1) 1) (BPM.create 2 (mkDisk ∅ {[ 3 := 2 ]} 10)) in
  let rid := mkRid 1 2 in
  let buf := [1; 2; 3; 4; 5; 6; 7; 8] in
  let r1 := Rm.insert_record_at rid buf s in
  Rm.insert_record_at rid buf (snd r1) = r1 ∧ file_hdr_ (snd r1) = file_hdr_ s.
Proof.
  apply (insert_record_at_idempotent
           (mkFH 3 (mkFileHdr 8 2 4 (-1) 1) (BPM.create 2 (mkDisk ∅ {[ 3 := 2 ]} 10)))
           (mkRid 1 2) [1; 2; 3; 4; 5; 6; 7; 8]).
  - apply fh_ok_fresh; [apply hdr_ok_example|simpl; lia|reflexivity|simpl; lia|simpl; lia].
  - simpl. unfold RM_FILE_HDR_PAGE. lia.
  - simpl. lia.
Defined.

Section delete_bytes_facts.

Context (h : RmFileHdr) (Hh : hdr_ok h).
Implicit Types (d : list Z) (i j v : Z).

Lemma delete_bytes_sized i d : page_sized d → page_sized (delete_bytes i d).
Proof.
  unfold page_sized, delete_bytes. intros Hd.
  by rewrite set_num_records_length, length_bitmap_reset.
Qed.

Lemma delete_bytes_is_set i j d :
  page_sized d → 0 ≤ i < num_records_per_page h → 0 ≤ j →
  Bitmap.is_set PageHandle.bitmap j (delete_bytes i d)
  = if decide (i = j) then false else Bitmap.is_set PageHandle.bitmap j d.
Proof.
  intros Hd Hi Hj. unfold delete_bytes.
  rewrite is_set_set_num_records by done. by apply (bitmap_reset_is_set h Hh).
Qed.

Lemma delete_bytes_num_records i d :
  page_sized d → 0 ≤ i < num_records_per_page h →
  -2147483648 < PageHandle.num_records d →
  PageHandle.num_records (delete_bytes i d) = PageHandle.num_records d - 1.
Proof.
  intros Hd Hi Hn. unfold delete_bytes.
  rewrite (bitmap_reset_num_records h Hh) by done.
  pose proof (num_records_range d).
  apply num_records_set; [|lia]. unfold page_sized. by rewrite length_bitmap_reset.
Qed.

Lemma delete_bytes_next_free i d :
  0 ≤ i < num_records_per_page h →
  PageHandle.next_free_page_no (delete_bytes i d) = PageHandle.next_free_page_no d.
Proof.
  intros Hi. unfold delete_bytes. rewrite next_free_set_num_records.
  by apply (bitmap_reset_next_free h Hh).
Qed.

Lemma delete_bytes_consistent i d :
  page_sized d → 0 ≤ i < num_records_per_page h →
  Bitmap.is_set PageHandle.bitmap i d = true →
  page_consistent h d → page_consistent h (delete_bytes i d).
Proof.
  intros Hd Hi Hset Hc. pose proof (consistent_range h Hh d Hc) as Hr.
  unfold page_consistent in *.
  rewrite delete_bytes_num_records by (done || lia). rewrite Hc.
  rewrite (popcount_flip (delete_bytes i d) d (num_records_per_page h) i); [lia|done| |done|].
  - rewrite delete_bytes_is_set by (done || lia). by rewrite decide_True.
  - intros j Hj Hne. rewrite delete_bytes_is_set by (done || lia).
    by rewrite decide_False.
Qed.

(** Linking a page in front of the free list. *)
Lemma set_next_free_sized v d :
  page_sized d → page_sized (PageHandle.set_next_free_page_no v d).
Proof. unfold page_sized. by rewrite set_next_free_length. Qed.

Lemma set_next_free_consistent v d :
  page_consistent h d → page_consistent h (PageHandle.set_next_free_page_no v d).
Proof.
  unfold page_consistent. by rewrite num_records_set_next_free, popcount_set_next_free.
Qed.

End delete_bytes_facts.

(** C6.  [delete_record(rid)] on an existing page whose header count says
    it is full, for a slot in range whose bit is set: the bit of the slot is
    cleared and no other, [num_records] is one less, the page's
    [next_free_page_no] is the old [first_free_page_no], the new
    [first_free_page_no] is the page's [page_no], and the page is cached and
    dirty.  This is what a call that returns normally has done; and in a
    pool that has a frame, keeps the pool invariant and holds no pinned page
    ([quiet_but _ None]) the call does return normally. *)
Theorem delete_record_releases_full_page (s : RmFileHandle) (rid : Rid) :
  fh_ok s →
  RM_FILE_HDR_PAGE < rpage_no rid < num_pages (file_hdr_ s) →
  0 ≤ slot_no rid < num_records_per_page (file_hdr_ s) →
  let h := file_hdr_ s in
  let pid := (fd_ s, rpage_no rid) in
  let d := page_view (buffer_pool_manager_ s) pid in
  Bitmap.is_set PageHandle.bitmap (slot_no rid) d = true →
  PageHandle.num_records d = num_records_per_page h →
  let r := Rm.delete_record rid s in
  let s' := snd r in
  let d' := page_view (buffer_pool_manager_ s') pid in
  (fst r = inr tt →
     Bitmap.is_set PageHandle.bitmap (slot_no rid) d' = false
     ∧ (∀ j, 0 ≤ j → j ≠ slot_no rid →
          Bitmap.is_set PageHandle.bitmap j d' = Bitmap.is_set PageHandle.bitmap j d)
     ∧ PageHandle.num_records d' = PageHandle.num_records d - 1
     ∧ PageHandle.next_free_page_no d' = first_free_page_no h
     ∧ first_free_page_no (file_hdr_ s') = rpage_no rid
     ∧ (∃ f, page_table_ (buffer_pool_manager_ s') !! pid = Some f
             ∧ is_dirty_ (frame (buffer_pool_manager_ s') f) = true))
  ∧ (quiet_but (buffer_pool_manager_ s) None →
     (0 < length (pages_ (buffer_pool_manager_ s)))%nat →
     fst r = inr tt ∧ quiet_but (buffer_pool_manager_ s') None)
  ∧ fh_ok s'.
Proof.
  intros Hok Hp Hslot h pid d Hset Hfull r s' d'.
  pose proof (fo_hdr _ Hok) as Hh. fold h in Hh, Hp, Hslot.
  pose proof (nrpp_int h Hh) as Hnr.
  destruct (Rm.fetch_page_handle (rpage_no rid) s) as [[e|f] s1] eqn:Hfetch.
  - (* the pool had no frame to give *)
    destruct (fetch_page_handle_post s _ _ _ Hok Hfetch)
      as (_ & _ & _ & _ & _ & _ & -> & Hq).
    assert (r = (inl e, s)) as Hr.
    { subst r. unfold Rm.delete_record, bind. by rewrite Hfetch. }
    subst s'. rewrite Hr. simpl. split; [done|]. split; [|done].
    intros Hquiet Hlen. destruct (Hq Hquiet Hlen Hp) as (f & ? & _). done.
  - destruct (held_data s _ f s1 Hok Hfetch) as (Hdata & Hid & Hf & Hsized).
    destruct (fetch_page_handle_post s _ _ _ Hok Hfetch)
      as (Hfd & Hhdr & Hok1 & Hview & Hlen & Hroom & (_ & Hpt & Hpin) & Hq).
    fold pid d in Hdata. rewrite Hdata in Hsized.
    assert (PageHandle.num_records (delete_bytes (slot_no rid) d)
            = num_records_per_page h - 1) as Hdec.
    { rewrite (delete_bytes_num_records h Hh) by (done || lia). lia. }
    set (G := λ x, PageHandle.set_next_free_page_no (first_free_page_no h)
                     (delete_bytes (slot_no rid) x)).
    assert (r = (inr tt,
                 with_hdr (set_first_free_page_no (rpage_no rid) h)
                   (snd (unpin f true (modify f G s1))))) as Hr.
    { subst r. rewrite (delete_record_eq rid s f s1 Hfetch Hf). cbv zeta.
      rewrite Hhdr, Hdata. fold h. rewrite decide_False by lia. rewrite Hset.
      rewrite Hfull, Hdec. rewrite bool_decide_eq_true_2 by done.
      rewrite bool_decide_eq_true_2 by lia. simpl andb. cbv iota.
      rewrite unpin_with_hdr. rewrite Hid. reflexivity. }
    assert (page_sized (G d)) as HG.
    { unfold G. by apply set_next_free_sized, delete_bytes_sized. }
    destruct (fetch_modify_unpin_post s _ f s1 G true Hok Hfetch HG)
      as (Hfd2 & Hhdr2 & Hok2 & Hview2 & Hoth2 & Hlen2 & Hroom2 & Hq2 & Hpt2 & Hdirty2).
    set (s2 := snd (unpin f true (modify f G s1))) in *.
    fold pid in Hview2, Hpt2. fold d in Hview2.
    assert (s' = with_hdr (set_first_free_page_no (rpage_no rid) h) s2) as Hs'
      by (subst s'; by rewrite Hr).
    assert (d' = G d) as Hd' by (subst d'; rewrite Hs'; exact Hview2).
    split; [|split].
    + intros _. rewrite Hd'. unfold G.
      split.
      { rewrite is_set_set_next_free by lia.
        rewrite (delete_bytes_is_set h Hh) by (done || lia). by rewrite decide_True. }
      split.
      { intros j Hj Hne. rewrite is_set_set_next_free by lia.
        rewrite (delete_bytes_is_set h Hh) by (done || lia).
        by rewrite decide_False. }
      split.
      { rewrite num_records_set_next_free.
        rewrite (delete_bytes_num_records h Hh) by (done || lia). done. }
      split.
      { apply next_free_set; [by apply delete_bytes_sized|].
        pose proof (fo_free _ Hok). fold h in H. lia. }
      split; [by rewrite Hs'|].
      exists f. rewrite Hs'. simpl. done.
    + intros Hquiet Hlen0. split; [by subst r; rewrite Hr|].
      rewrite Hs'. simpl. apply Hq2.
      destruct (Hq Hquiet Hlen0 Hp) as (f' & [= <-] & Hq1). done.
    + rewrite Hs'. apply fh_ok_with_hdr; [done|by apply hdr_ok_set_first_free| |].
      * simpl. by rewrite Hhdr2.
      * simpl. pose proof (fo_room _ Hok) as Hrm. fold h in Hrm.
        unfold RM_FILE_HDR_PAGE in Hp. lia.
Qed.

Lemma hdr_ok_one_slot : hdr_ok (mkFileHdr 8 2 1 (-1) 1).
Proof. split; simpl; unfold sizeof_RmPageHdr, PAGE_SIZE; lia. Qed.

Lemma delete_record_releases_full_page_witness :
  let full_page := [1; 0; 0; 0; 255; 255; 255; 255; 128] in
  let s := mkFH 3 (mkFileHdr 8 2 1 (-1) 1)
             (BPM.create 1 (mkDisk {[ (3, 1) := full_page ]} {[ 3 := 2 ]} 10)) in
  let rid := mkRid 1 0 in
  let r := Rm.delete_record rid s in
  let d' := page_view (buffer_pool_manager_ (snd r)) (3, 1) in
  fst r = inr tt
  ∧ Bitmap.is_set PageHandle.bitmap 0 d' = false
  ∧ PageHandle.num_records d' = 0
  ∧ PageHandle.next_free_page_no d' = -1
  ∧ first_free_page_no (file_hdr_ (snd r)) = 1.
Proof.
  intros full_page s rid r d'.
  destruct (delete_record_releases_full_page s rid) as (Hpost & Hrun & _).
  - apply fh_ok_fresh; [apply hdr_ok_one_slot|simpl; lia|reflexivity|simpl; lia|simpl; lia].
  - simpl. unfold RM_FILE_HDR_PAGE. lia.
  - simpl. lia.
  - by vm_compute.
  - by vm_compute.
  - destruct Hrun as [Hr _]; [apply quiet_create|simpl; lia|].
    destruct (Hpost Hr) as (H1 & _ & H3 & H4 & H5 & _).
    split; [exact Hr|]. split; [exact H1|]. split; [exact H3|].
    split; [exact H4|]. exact H5.
Defined.

(* ================================================================= *)
(** * Pages as [create_new_page_handle] and [insert_record] leave them *)

Section new_page_bytes_facts.

Context (h : RmFileHdr) (Hh : hdr_ok h).
Implicit Types (d buf : list Z) (i j : Z).

Lemma filter_none {A} (P : A → Prop) `{!∀ x, Decision (P x)} (l : list A) :
  (∀ x, x ∈ l → ¬ P x) → filter P l = [].
Proof.
  induction l as [|a l IH]; intros Hl; [done|].
  rewrite filter_cons_False by (apply Hl; set_solver).
  apply IH. intros x Hx. apply Hl. set_solver.
Qed.

Lemma byte_at_zeros (n : nat) i : byte_at i (replicate n 0) = 0.
Proof.
  unfold byte_at. destruct (replicate n 0 !! Z.to_nat i) as [x|] eqn:E; [|done].
  by apply lookup_replicate in E as [-> _].
Qed.

Lemma byte_at_outside i d : Z.of_nat (length d) ≤ i → byte_at i d = 0.
Proof. intros Hi. unfold byte_at. rewrite lookup_ge_None_2; [done|lia]. Qed.

Lemma new_page_bytes_sized : page_sized (new_page_bytes h).
Proof.
  unfold page_sized, new_page_bytes, Bitmap.init, memset0.
  rewrite length_store, set_next_free_length, set_num_records_length.
  exact (length_replicate _ _).
Qed.

Lemma byte_at_new_page i :
  sizeof_RmPageHdr ≤ i → byte_at i (new_page_bytes h) = 0.
Proof.
  unfold sizeof_RmPageHdr. intros Hi.
  destruct (decide (i < Z.of_nat (length (new_page_bytes h)))) as [Hin|Hout];
    [|apply byte_at_outside; lia].
  unfold new_page_bytes, Bitmap.init, memset0, PageHandle.bitmap, sizeof_RmPageHdr in *.
  rewrite length_store in Hin.
  rewrite byte_at_store by lia. case_decide; [apply byte_at_zeros|].
  unfold PageHandle.set_next_free_page_no, PageHandle.set_num_records, store_int,
    OFFSET_NEXT_FREE_PAGE_NO, OFFSET_NUM_RECORDS.
  rewrite !byte_at_store_outside by (simpl length; lia).
  apply byte_at_zeros.
Qed.

Lemma new_page_bytes_is_set j :
  0 ≤ j → Bitmap.is_set PageHandle.bitmap j (new_page_bytes h) = false.
Proof.
  intros Hj. unfold Bitmap.is_set. rewrite byte_at_new_page; [apply Z.testbit_0_l|].
  unfold Bitmap.bucket, PageHandle.bitmap.
  pose proof (Z.div_pos j 8 ltac:(lia) ltac:(lia)). lia.
Qed.

Lemma new_page_bytes_num_records : PageHandle.num_records (new_page_bytes h) = 0.
Proof.
  unfold new_page_bytes, Bitmap.init, memset0, PageHandle.num_records.
  unfold PageHandle.bitmap, sizeof_RmPageHdr, OFFSET_NUM_RECORDS.
  rewrite load_int_store_disjoint by (lia || (left; lia)).
  change (load_int 0 ?x) with (PageHandle.num_records x).
  rewrite num_records_set_next_free. apply num_records_set; [|lia].
  exact (length_replicate _ _).
Qed.

Lemma new_page_bytes_next_free :
  PageHandle.next_free_page_no (new_page_bytes h) = RM_NO_PAGE.
Proof.
  unfold new_page_bytes, Bitmap.init, memset0, PageHandle.next_free_page_no.
  unfold PageHandle.bitmap, sizeof_RmPageHdr, OFFSET_NEXT_FREE_PAGE_NO.
  rewrite load_int_store_disjoint by (lia || (left; lia)).
  change (load_int 4 ?x) with (PageHandle.next_free_page_no x).
  apply next_free_set; [|unfold RM_NO_PAGE; lia].
  unfold page_sized. rewrite set_num_records_length. exact (length_replicate _ _).
Qed.

Lemma new_page_bytes_set_slots n : set_slots (new_page_bytes h) n = [].
Proof.
  unfold set_slots. apply filter_none. intros x Hx%elem_of_seqZ.
  rewrite new_page_bytes_is_set by lia. done.
Qed.

Lemma new_page_bytes_consistent : page_consistent h (new_page_bytes h).
Proof.
  unfold page_consistent, popcount.
  by rewrite new_page_bytes_num_records, new_page_bytes_set_slots.
Qed.

(** The slot [insert_record] picks: none, or the lowest free one. *)
Lemma first_bit_cases d :
  let slot := Bitmap.first_bit false PageHandle.bitmap (num_records_per_page h) d in
  slot = num_records_per_page h
  ∨ (0 ≤ slot < num_records_per_page h
     ∧ Bitmap.is_set PageHandle.bitmap slot d = false
     ∧ ∀ j, 0 ≤ j < slot → Bitmap.is_set PageHandle.bitmap j d = true).
Proof.
  intros slot. subst slot. unfold Bitmap.first_bit. rewrite next_bit_spec.
  replace (-1 + 1) with 0 by lia. rewrite Z.sub_0_r.
  set (n := num_records_per_page h). clearbody n. clear Hh.
  destruct (decide (0 ≤ n)) as [Hn|Hn];
    [|left; by rewrite (seqZ_nil 0 n) by lia].
  rewrite <- (Z2Nat.id n) at 1 3 by done.
  assert (∀ (k : nat) (a : Z),
    let r := default (a + Z.of_nat k)
               (head (filter (λ j, Bitmap.is_set PageHandle.bitmap j d = false)
                        (seqZ a (Z.of_nat k)))) in
    r = a + Z.of_nat k
    ∨ (a ≤ r < a + Z.of_nat k ∧ Bitmap.is_set PageHandle.bitmap r d = false
       ∧ ∀ j, a ≤ j < r → Bitmap.is_set PageHandle.bitmap j d = true)) as Hgen.
  { induction k as [|k IH]; intros a r; [by left|].
    subst r. rewrite seqZ_cons by lia.
    replace (Z.pred (Z.of_nat (S k))) with (Z.of_nat k) by lia.
    destruct (Bitmap.is_set PageHandle.bitmap a d) eqn:Ea.
    - rewrite filter_cons_False by (by rewrite Ea).
      specialize (IH (Z.succ a)). simpl in IH.
      replace (Z.succ a + Z.of_nat k) with (a + Z.of_nat (S k)) in IH by lia.
      destruct IH as [IH|(IH1 & IH2 & IH3)]; [by left|right].
      split; [lia|]. split; [done|]. intros j Hj.
      destruct (decide (j = a)) as [->|Hne]; [done|]. apply IH3. lia.
    - rewrite filter_cons_True by done. simpl. right.
      split; [lia|]. split; [done|]. intros j Hj. lia. }
  specialize (Hgen (Z.to_nat n) 0). simpl in Hgen.
  rewrite !Z2Nat.id in * by done. exact Hgen.
Qed.

Lemma insert_bytes_unset i buf d :
  Bitmap.is_set PageHandle.bitmap i d = false →
  insert_bytes h i buf d = insert_at_bytes h i buf d.
Proof. intros Hset. unfold insert_bytes, insert_at_bytes. by rewrite Hset. Qed.

Lemma insert_bytes_num_records i buf d :
  page_sized d → 0 ≤ i < num_records_per_page h →
  PageHandle.num_records (insert_bytes h i buf d) = PageHandle.num_records d + 1
  ∨ PageHandle.num_records d = 2147483647.
Proof.
  intros Hd Hi. pose proof (num_records_range d) as Hr.
  destruct (decide (PageHandle.num_records d = 2147483647)) as [|Hne]; [by right|left].
  unfold insert_bytes. rewrite num_records_set.
  - by rewrite (bitmap_set_num_records h), memcpy_slot_num_records.
  - unfold page_sized. unfold Bitmap.set. rewrite length_store, memcpy_slot_length. done.
  - rewrite (bitmap_set_num_records h), memcpy_slot_num_records by done. lia.
Qed.

Lemma insert_bytes_next_free i buf d :
  0 ≤ i < num_records_per_page h →
  PageHandle.next_free_page_no (insert_bytes h i buf d)
  = PageHandle.next_free_page_no d.
Proof.
  intros Hi. unfold insert_bytes.
  by rewrite next_free_set_num_records, (bitmap_set_next_free h), memcpy_slot_next_free.
Qed.

End new_page_bytes_facts.

(* ================================================================= *)
(** * [create_new_page_handle] and [create_page_handle] *)

Section new_page_handle.

Implicit Types (s : RmFileHandle) (f v : frame_id_t) (b : BufferPoolManager).

Local Notation bpm := buffer_pool_manager_.

Local Arguments touch : simpl never.
Local Arguments dirtied : simpl never.
Local Arguments modify : simpl never.
Local Arguments unpin : simpl never.

(** Pools that differ in the free list and the replacer only show the same
    pages. *)
Lemma same_store_view b b1 q :
  pages_ b1 = pages_ b → page_table_ b1 = page_table_ b →
  disk_manager_ b1 = disk_manager_ b →
  page_view b1 q = page_view b q.
Proof. intros Hp Ht Hd. unfold page_view, frame. by rewrite Hp, Ht, Hd. Qed.

Lemma same_store_synced b b1 :
  pages_ b1 = pages_ b → page_table_ b1 = page_table_ b →
  disk_manager_ b1 = disk_manager_ b →
  clean_synced b → clean_synced b1.
Proof.
  intros Hp Ht Hd Hcs q g. unfold frame. rewrite Hp, Ht, Hd. apply Hcs.
Qed.

(** The pool [new_page] leaves when it returns [nullptr]. *)
Lemma new_page_failure b x y :
  bpm_ok b →
  (∀ v, ¬ chosen_victim b v) ∨ disk_room (disk_manager_ b) = 0%nat →
  ∃ b1, BPM.new_page (x, y) b = (None, (x, y), b1)
        ∧ pages_ b1 = pages_ b ∧ page_table_ b1 = page_table_ b
        ∧ disk_manager_ b1 = disk_manager_ b ∧ bpm_ok b1.
Proof.
  intros Hok Hcase. unfold BPM.new_page.
  destruct (chosen_victim_dec b) as [[v Hv]|Hno].
  - destruct Hcase as [Hno|Hroom]; [by destruct (Hno v)|].
    destruct (find_victim_page_chosen b v Hv) as (rep & -> & Hrep & Hsub & Hwf).
    simpl. unfold Disk.allocate_page. rewrite Hroom.
    rewrite decide_True by done.
    eexists. split; [reflexivity|]. simpl. do 3 (split; [by destruct (disk_manager_ b)|]).
    destruct Hok as [Hdata Htab Hbound Hlru Hrepl Hfree Halloc Hpins].
    split; simpl; try done.
    + by apply Hwf.
    + intros g Hg. apply Hsub in Hg. by apply Hrepl.
    + destruct Hfree as [Hnd Hin]. destruct (free_list_ b) as [|a fl]; [done|].
      simpl. split; [by apply NoDup_cons in Hnd as [_ ?]|].
      intros g Hg. apply Hin. set_solver.
  - rewrite find_victim_page_none by done. by exists b.
Qed.

Lemma create_new_page_handle_failure s :
  fh_ok s →
  (∀ v, ¬ chosen_victim (bpm s) v) ∨ disk_room (disk_manager_ (bpm s)) = 0%nat →
  ∃ b1, Rm.create_new_page_handle s = (inl RMDBError, with_bpm b1 s)
        ∧ pages_ b1 = pages_ (bpm s) ∧ page_table_ b1 = page_table_ (bpm s)
        ∧ disk_manager_ b1 = disk_manager_ (bpm s)
        ∧ fh_ok (with_bpm b1 s).
Proof.
  intros Hok Hcase.
  destruct (new_page_failure (bpm s) (fd_ s) INVALID_PAGE_ID (fo_bpm _ Hok) Hcase)
    as (b1 & Hnew & Hp & Ht & Hd & Hok1).
  exists b1. split.
  - unfold Rm.create_new_page_handle, bind, get_fh, call_bpm. simpl.
    by rewrite Hnew.
  - do 3 (split; [done|]). destruct Hok as [Hh Hpages Hnext Hroom Hfree Hbpm Hsync].
    split; simpl; rewrite ?Hd; try done.
    by apply (same_store_synced (bpm s)).
Qed.

(** The handle [create_new_page_handle] returns: the victim frame, bound
    to the file's next page with the bytes of an empty data page, dirty and
    pinned once. *)
Lemma create_new_page_handle_success s v :
  fh_ok s → chosen_victim (bpm s) v →
  disk_room (disk_manager_ (bpm s)) ≠ 0%nat →
  let h := file_hdr_ s in
  let n := num_pages h in
  ∃ b1, Rm.create_new_page_handle s = (inr v, mkFH (fd_ s) (set_num_pages (n + 1) h) b1)
        ∧ rebound (bpm s) v (fd_ s, n) (new_page_bytes h) true b1
        ∧ Disk.next_page_no (fd_ s) (disk_manager_ b1) = n + 1
        ∧ S (disk_room (disk_manager_ b1)) = disk_room (disk_manager_ (bpm s)).
Proof.
  intros Hok Hv Hroom h n.
  pose proof (fo_next _ Hok) as Hnext. pose proof (fo_pages _ Hok) as Hpages.
  fold h in Hnext, Hpages. fold n in Hnext, Hpages.
  destruct (Disk.allocate_page (fd_ s) (disk_manager_ (bpm s))) as [m d1] eqn:Halloc.
  assert (m = n ∧ S (disk_room d1) = disk_room (disk_manager_ (bpm s))) as [-> Hd1].
  { unfold Disk.allocate_page in Halloc.
    destruct (disk_room (disk_manager_ (bpm s))) as [|room]; [done|].
    injection Halloc as <- <-. by rewrite Hnext. }
  assert (n ≠ INVALID_PAGE_ID) as Hvalid by (unfold INVALID_PAGE_ID; lia).
  destruct (new_page_success (bpm s) (fd_ s) INVALID_PAGE_ID v n d1
              (fo_bpm _ Hok) Hv Halloc Hvalid)
    as (b' & Hnew & Hrb & Hnx & _ & Hrm).
  pose proof (chosen_victim_range _ _ (fo_bpm _ Hok) Hv) as Hlt.
  pose proof (rebound_length _ _ _ _ _ _ Hrb) as Hlen.
  pose proof (rebound_frame_self _ _ _ _ _ _ (fo_bpm _ Hok) Hrb) as Hself.
  exists (set_frame v (mkPage (fd_ s, n) (new_page_bytes h) true 1) b').
  split; [|split; [|split]].
  - unfold Rm.create_new_page_handle, bind, get_fh, call_bpm. cbv beta iota.
    rewrite Hnew. cbv beta iota. rewrite !poke_eq.
    change (page_no (fd_ s, n)) with n. fold h. fold n.
    rewrite decide_True by lia.
    unfold put_hdr. rewrite mark_dirty_eq. unfold ret.
    rewrite !touch_touch by (rewrite ?touch_length; simpl; lia).
    change (with_hdr ?h' (touch v ?g ?s0)) with (touch v g (with_hdr h' s0)).
    rewrite dirtied_touch by (simpl; lia).
    unfold modify. simpl. rewrite Hself. simpl. reflexivity.
  - destruct Hrb as [H1 H2 H3 H4 H5 H6 H7 H8 H9 H10 H11 H12]. split; simpl; try done.
    + apply new_page_bytes_sized.
    + rewrite H5. by rewrite list_insert_insert_eq.
  - done.
  - simpl. by rewrite Hrm.
Qed.

End new_page_handle.

Section page_handle_posts.

Implicit Types (s : RmFileHandle) (f v : frame_id_t) (b : BufferPoolManager).

Local Notation bpm := buffer_pool_manager_.

(** What [create_page_handle] guarantees, on both of its paths. *)
Lemma create_page_handle_post s r s1 :
  fh_ok s → Rm.create_page_handle s = (r, s1) →
  fd_ s1 = fd_ s ∧ fh_ok s1
  ∧ length (pages_ (bpm s1)) = length (pages_ (bpm s))
  ∧ match r with
    | inl _ =>
        file_hdr_ s1 = file_hdr_ s
        ∧ ∀ q, RM_FIRST_RECORD_PAGE ≤ page_no q →
               page_view (bpm s1) q = page_view (bpm s) q
    | inr f =>
        ∃ p, page_table_ (bpm s1) !! (fd_ s, p) = Some f
             ∧ pin_count_ (frame (bpm s1) f) > 0
             ∧ RM_FILE_HDR_PAGE < p < num_pages (file_hdr_ s1)
             ∧ (∀ q, RM_FIRST_RECORD_PAGE ≤ page_no q →
                     q ≠ (fd_ s, num_pages (file_hdr_ s)) →
                     page_view (bpm s1) q = page_view (bpm s) q)
             ∧ (quiet_but (bpm s) None → quiet_but (bpm s1) (Some f))
             ∧ ((first_free_page_no (file_hdr_ s) ≠ RM_NO_PAGE
                 ∧ p = first_free_page_no (file_hdr_ s)
                 ∧ file_hdr_ s1 = file_hdr_ s)
                ∨ (first_free_page_no (file_hdr_ s) = RM_NO_PAGE
                   ∧ p = num_pages (file_hdr_ s)
                   ∧ file_hdr_ s1 = set_num_pages (p + 1) (file_hdr_ s)
                   ∧ page_view (bpm s1) (fd_ s, p) = new_page_bytes (file_hdr_ s)))
    end.
Proof.
  intros Hok Hcreate. unfold Rm.create_page_handle, bind, get_fh in Hcreate.
  cbv beta iota in Hcreate. case_decide as Hfree.
  - destruct (fetch_page_handle_post s _ r s1 Hok Hcreate)
      as (Hfd & Hhdr & Hok1 & Hview & Hlen & _ & Hres & Hquiet).
    do 3 (split; [done|]). destruct r as [e|f]; [by subst|].
    destruct Hres as (Hp & Hpt & Hpin).
    exists (first_free_page_no (file_hdr_ s)).
    split; [done|]. split; [done|]. split; [by rewrite Hhdr|].
    split; [by intros q Hq _; apply Hview|]. split; [|left; done].
    intros Hq. destruct (ok_table _ (fo_bpm _ Hok1) _ _ Hpt) as (Hf & _).
    destruct (Hquiet Hq ltac:(lia) Hp) as (f' & [= <-] & Hq'). done.
  - destruct (chosen_victim_dec (bpm s)) as [[v Hv]|Hno].
    + destruct (decide (disk_room (disk_manager_ (bpm s)) = 0%nat)) as [Hroom|Hroom].
      * destruct (create_new_page_handle_failure s Hok (or_intror Hroom))
          as (b1 & Heq & Hp & Ht & Hd & Hok1).
        rewrite Heq in Hcreate. injection Hcreate as <- <-.
        split; [done|]. split; [done|]. split; [simpl; by rewrite Hp|].
        split; [done|]. intros q _. by apply same_store_view.
      * destruct (create_new_page_handle_success s v Hok Hv Hroom)
          as (b1 & Heq & Hrb & Hnext & Hrm).
        rewrite Heq in Hcreate. injection Hcreate as <- <-.
        pose proof (fo_bpm _ Hok) as Hbpm.
        destruct Hok as [Hh Hpages Hnx Hrooms Hfr _ Hsync].
        split; [done|]. split.
        { split; simpl; try done.
          - by apply hdr_ok_set_num_pages.
          - lia.
          - lia.
          - by eapply rebound_bpm_ok.
          - eapply rebound_clean_synced; [done..|]. done. }
        split; [simpl; by eapply rebound_length|].
        exists (num_pages (file_hdr_ s)). simpl.
        split; [by eapply rebound_table_self|].
        split; [rewrite (rebound_frame_self _ _ _ _ _ _ Hbpm Hrb); simpl; lia|].
        split; [unfold RM_FILE_HDR_PAGE; lia|].
        split; [intros q Hq Hne; by eapply rebound_view_other|].
        split; [by eapply rebound_quiet|]. right.
        split; [done|]. split; [done|]. split; [done|].
        by eapply rebound_view_self.
    + destruct (create_new_page_handle_failure s Hok (or_introl Hno))
        as (b1 & Heq & Hp & Ht & Hd & Hok1).
      rewrite Heq in Hcreate. injection Hcreate as <- <-.
      split; [done|]. split; [done|]. split; [simpl; by rewrite Hp|].
      split; [done|]. intros q _. by apply same_store_view.
Qed.

End page_handle_posts.

Section insert_record_steps.

Implicit Types (s : RmFileHandle) (f v : frame_id_t) (buf : list Z).

Local Notation bpm := buffer_pool_manager_.

Local Arguments touch : simpl never.
Local Arguments dirtied : simpl never.
Local Arguments modify : simpl never.
Local Arguments unpin : simpl never.

Lemma same_layout_refl h : same_layout h h.
Proof. by split. Qed.

Lemma same_layout_trans h1 h2 h3 :
  same_layout h1 h2 → same_layout h2 h3 → same_layout h1 h3.
Proof. unfold same_layout. intros (? & ? & ?) (? & ? & ?). split_and!; congruence. Qed.

Lemma same_layout_consistent h h' d :
  same_layout h h' → page_consistent h d → page_consistent h' d.
Proof. unfold page_consistent. by intros (_ & -> & _). Qed.

Lemma same_layout_insert_bytes h h' i buf d :
  same_layout h h' → insert_bytes h' i buf d = insert_bytes h i buf d.
Proof.
  unfold insert_bytes, PageHandle.get_slot, PageHandle.slots.
  by intros (-> & _ & ->).
Qed.

Lemma same_layout_get_slot h h' i :
  same_layout h h' → PageHandle.get_slot h' i = PageHandle.get_slot h i.
Proof.
  unfold PageHandle.get_slot, PageHandle.slots. by intros (-> & _ & ->).
Qed.

(** What writing the file header through the disk manager guarantees. *)
Lemma flush_hdr_post s h' :
  fh_ok s → hdr_ok h' → num_pages h' = num_pages (file_hdr_ s) →
  -2147483648 ≤ first_free_page_no h' ≤ 2147483647 →
  let s1 := flush_hdr h' s in
  fh_ok s1
  ∧ (∀ q, RM_FIRST_RECORD_PAGE ≤ page_no q →
          page_view (bpm s1) q = page_view (bpm s) q)
  ∧ (∀ P, quiet_but (bpm s) P → quiet_but (bpm s1) P).
Proof.
  intros [Hh Hpages Hnext Hroom Hfree Hbpm Hsync] Hh' Hn Hfree' s1.
  assert (∀ q, RM_FIRST_RECORD_PAGE ≤ page_no q →
            Disk.read_page q (disk_manager_ (bpm s1))
            = Disk.read_page q (disk_manager_ (bpm s))) as Hread.
  { intros q Hq. simpl. apply read_write_other. intros <-. simpl in Hq.
    unfold RM_FIRST_RECORD_PAGE, RM_FILE_HDR_PAGE in Hq. lia. }
  split; [|split].
  - split; [done|simpl; lia|simpl; by rewrite Hn|simpl; by rewrite Hn|done| |].
    + destruct Hbpm. by split.
    + intros q g Hq Hclean Hdata.
      change (data_ (frame (bpm s) g) = Disk.read_page q (disk_manager_ (bpm s1))).
      rewrite (Hread q Hdata). by apply Hsync.
  - intros q Hq. unfold page_view. rewrite (Hread q Hq). done.
  - intros P HP. exact HP.
Qed.

(** [insert_record] after its call of [create_page_handle]. *)
Lemma insert_record_eq buf s f s1 :
  Rm.create_page_handle s = (inr f, s1) → (f < length (pages_ (bpm s1)))%nat →
  let h := file_hdr_ s1 in
  let d := data_ (frame (bpm s1) f) in
  let slot := Bitmap.first_bit false PageHandle.bitmap (num_records_per_page h) d in
  let p := page_no (id_ (frame (bpm s1) f)) in
  let d' := insert_bytes h slot buf d in
  Rm.insert_record buf s
  = if decide (slot = num_records_per_page h
               ∨ PageHandle.num_records d >= num_records_per_page h)
    then (inl RMDBError, snd (unpin f false s1))
    else (inr (mkRid p slot),
          snd (unpin f true
                 (if bool_decide (PageHandle.num_records d' = num_records_per_page h
                                  ∧ first_free_page_no h = p)
                  then flush_hdr
                         (set_first_free_page_no (PageHandle.next_free_page_no d') h)
                         (modify f (insert_bytes h slot buf) s1)
                  else modify f (insert_bytes h slot buf) s1))).
Proof.
  intros Hcreate Hf h d slot p d'. unfold Rm.insert_record, bind. rewrite Hcreate.
  unfold get_fh, peek, throw. cbv beta iota zeta. fold h d slot. case_decide as Hfull.
  - by rewrite unpin_eq.
  - rewrite !poke_eq, mark_dirty_eq.
    rewrite !touch_touch, dirtied_touch by (rewrite ?touch_length; done).
    change (modify f _ s1) with (modify f (insert_bytes h slot buf) s1).
    unfold get_page_id. rewrite modify_frame by done.
    cbn [data_ id_ page_no snd]. fold d. fold d'. fold p.
    unfold put_hdr, call_bpm, ret. cbn [bpm with_hdr].
    case_bool_decide as Hc.
    + destruct Hc as [Hc1 Hc2]. rewrite !decide_True by done.
      by rewrite unpin_eq.
    + destruct (decide (PageHandle.num_records d' = num_records_per_page h)) as [Hc1|Hc1];
        [rewrite decide_False by tauto|]; by rewrite unpin_eq.
Qed.

Lemma insert_record_full buf s f s1 :
  Rm.create_page_handle s = (inr f, s1) → (f < length (pages_ (bpm s1)))%nat →
  let h := file_hdr_ s1 in
  let d := data_ (frame (bpm s1) f) in
  let slot := Bitmap.first_bit false PageHandle.bitmap (num_records_per_page h) d in
  slot = num_records_per_page h ∨ PageHandle.num_records d >= num_records_per_page h →
  Rm.insert_record buf s = (inl RMDBError, snd (unpin f false s1)).
Proof.
  intros Hcreate Hf h d slot Hfull.
  rewrite (insert_record_eq buf s f s1 Hcreate Hf). cbv zeta.
  fold h. fold d. fold slot. by rewrite decide_True.
Qed.

Lemma insert_record_ok buf s f s1 :
  Rm.create_page_handle s = (inr f, s1) → (f < length (pages_ (bpm s1)))%nat →
  let h := file_hdr_ s1 in
  let d := data_ (frame (bpm s1) f) in
  let slot := Bitmap.first_bit false PageHandle.bitmap (num_records_per_page h) d in
  let p := page_no (id_ (frame (bpm s1) f)) in
  let d' := insert_bytes h slot buf d in
  ¬ (slot = num_records_per_page h
     ∨ PageHandle.num_records d >= num_records_per_page h) →
  Rm.insert_record buf s
  = (inr (mkRid p slot),
     snd (unpin f true
            (if bool_decide (PageHandle.num_records d' = num_records_per_page h
                             ∧ first_free_page_no h = p)
             then flush_hdr
                    (set_first_free_page_no (PageHandle.next_free_page_no d') h)
                    (modify f (insert_bytes h slot buf) s1)
             else modify f (insert_bytes h slot buf) s1))).
Proof.
  intros Hcreate Hf h d slot p d' Hfull.
  rewrite (insert_record_eq buf s f s1 Hcreate Hf). cbv zeta.
  fold h. fold d. fold slot. by rewrite decide_False.
Qed.

Lemma next_free_range d :
  -2147483648 ≤ PageHandle.next_free_page_no d < 2147483648.
Proof. unfold PageHandle.next_free_page_no, load_int. apply decode_int_range. Qed.

End insert_record_steps.

Section insert_record_posts.

Implicit Types (s : RmFileHandle) (f v : frame_id_t) (buf : list Z).

Local Notation bpm := buffer_pool_manager_.

(** What [insert_record] guarantees on each of its exits. *)
Lemma insert_record_post buf s r s' :
  fh_ok s → Rm.insert_record buf s = (r, s') →
  let h := file_hdr_ s in
  fd_ s' = fd_ s ∧ fh_ok s'
  ∧ length (pages_ (bpm s')) = length (pages_ (bpm s))
  ∧ same_layout h (file_hdr_ s') ∧ num_pages h ≤ num_pages (file_hdr_ s')
  ∧ (file_consistent s → file_consistent s')
  ∧ match r with
    | inl _ => True
    | inr rid =>
        ∃ d f,
          RM_FILE_HDR_PAGE < rpage_no rid < num_pages (file_hdr_ s')
          ∧ 0 ≤ slot_no rid < num_records_per_page h
          ∧ page_sized d
          ∧ Bitmap.is_set PageHandle.bitmap (slot_no rid) d = false
          ∧ (∀ j, 0 ≤ j < slot_no rid → Bitmap.is_set PageHandle.bitmap j d = true)
          ∧ page_view (bpm s') (fd_ s, rpage_no rid) = insert_bytes h (slot_no rid) buf d
          ∧ page_table_ (bpm s') !! (fd_ s, rpage_no rid) = Some f
          ∧ (∀ q, RM_FIRST_RECORD_PAGE ≤ page_no q → q ≠ (fd_ s, rpage_no rid) →
                  q ≠ (fd_ s, num_pages h) →
                  page_view (bpm s') q = page_view (bpm s) q)
          ∧ (quiet_but (bpm s) None → quiet_but (bpm s') None)
          ∧ ((first_free_page_no h ≠ RM_NO_PAGE
              ∧ rpage_no rid = first_free_page_no h
              ∧ d = page_view (bpm s) (fd_ s, rpage_no rid)
              ∧ num_pages (file_hdr_ s') = num_pages h)
             ∨ (first_free_page_no h = RM_NO_PAGE
                ∧ rpage_no rid = num_pages h
                ∧ d = new_page_bytes h
                ∧ file_hdr_ s' = set_num_pages (num_pages h + 1) h))
    end.
Proof.
  intros Hok Hins h. subst h.
  destruct (Rm.create_page_handle s) as [rc s1] eqn:Hcreate.
  destruct (create_page_handle_post s rc s1 Hok Hcreate) as (Hfd1 & Hok1 & Hlen1 & Hres).
  destruct rc as [e|f].
  { unfold Rm.insert_record, bind in Hins. rewrite Hcreate in Hins.
    apply pair_equal_spec in Hins as [<- <-]. destruct Hres as [Hhdr Hview].
    split; [done|]. split; [done|]. split; [done|].
    split; [rewrite Hhdr; apply same_layout_refl|].
    split; [rewrite Hhdr; lia|]. split; [|done].
    intros Hc q Hq. rewrite Hhdr in *. rewrite Hfd1.
    rewrite Hview by (simpl; lia). by apply Hc. }
  destruct Hres as (p & Hpt & Hpin & Hp & Hview & Hquiet & Hcase).
  assert (same_layout (file_hdr_ s) (file_hdr_ s1) ∧ num_pages (file_hdr_ s) ≤ num_pages (file_hdr_ s1)
          ∧ first_free_page_no (file_hdr_ s1) = first_free_page_no (file_hdr_ s))
    as (Hlay1 & Hnp1 & Hff1).
  { destruct Hcase as [(_ & _ & Hh1)|(_ & Hpn & Hh1 & _)]; rewrite Hh1.
    - split; [apply same_layout_refl|]. split; [lia|done].
    - split; [by split|]. split; [simpl; lia|done]. }
  destruct (ok_table _ (fo_bpm _ Hok1) _ _ Hpt) as (Hf & Hid & _).
  set (d1 := data_ (frame (bpm s1) f)) in *.
  assert (d1 = page_view (bpm s1) (fd_ s, p)) as Hd1.
  { unfold page_view. by rewrite Hpt. }
  assert (file_consistent s →
          ∀ q, RM_FIRST_RECORD_PAGE ≤ q < num_pages (file_hdr_ s1) →
               page_consistent (file_hdr_ s) (page_view (bpm s1) (fd_ s, q))) as Hc1.
  { intros Hc q Hq. destruct Hcase as [(_ & _ & Hh1)|(_ & Hpn & Hh1 & Hnew)].
    - rewrite Hh1 in Hq. rewrite Hview; [by apply Hc|simpl; lia|].
      intros [= Heq]. lia.
    - destruct (decide (q = p)) as [->|Hne].
      + rewrite Hnew. apply new_page_bytes_consistent, Hok.
      + rewrite Hh1 in Hq. simpl in Hq. rewrite Hview; [apply Hc; lia|simpl; lia|].
        intros [= Heq]. lia. }
  set (slot := Bitmap.first_bit false PageHandle.bitmap
                 (num_records_per_page (file_hdr_ s1)) d1).
  rewrite <- Hfd1 in Hpt.
  assert (hdr_ok (file_hdr_ s1)) as Hh1 by apply Hok1.
  destruct (decide (slot = num_records_per_page (file_hdr_ s1)
                    ∨ PageHandle.num_records d1 >= num_records_per_page (file_hdr_ s1)))
    as [Hfull|Hfull].
  { rewrite (insert_record_full buf s f s1 Hcreate Hf Hfull) in Hins.
    apply pair_equal_spec in Hins as [<- <-].
    destruct (unpin_post s1 f p false Hok1 Hpt Hpin)
      as (_ & Hfd2 & Hhdr2 & Hok2 & Hview2 & Hlen2 & _ & Hq2 & _).
    split; [by rewrite Hfd2|]. split; [done|]. split; [by rewrite Hlen2|].
    split; [by rewrite Hhdr2|]. split; [rewrite Hhdr2; lia|]. split; [|done].
    intros Hc q Hq. rewrite Hhdr2 in *. rewrite Hview2, Hfd2, Hfd1.
    apply (same_layout_consistent (file_hdr_ s)); [done|]. by apply Hc1. }
  rewrite (insert_record_ok buf s f s1 Hcreate Hf Hfull) in Hins.
  rewrite Hid in Hins. change (page_no (fd_ s, p)) with p in Hins.
  fold d1 in Hins. fold slot in Hins.
  pose proof (first_bit_cases (file_hdr_ s1) d1) as Hslot. cbv zeta in Hslot.
  fold slot in Hslot. destruct Hslot as [Hs|(Hs1 & Hs2 & Hs3)]; [tauto|].
  assert (page_sized d1) as Hsz1 by (apply frame_sized; [apply Hok1|done]).
  assert (page_sized (insert_bytes (file_hdr_ s1) slot buf d1)) as Hsz'.
  { rewrite insert_bytes_unset by done. by apply insert_at_bytes_sized. }
  destruct (modify_post s1 f p (insert_bytes (file_hdr_ s1) slot buf) Hok1 Hpt Hpin Hsz')
    as (Hfdm & Hhdrm & Hokm & Hptm & Hpinm & Hviewm & Hothm & Hlenm & Hdiskm & Hqm).
  set (sm := modify f (insert_bytes (file_hdr_ s1) slot buf) s1) in *.
  set (d' := insert_bytes (file_hdr_ s1) slot buf d1) in *.
  set (s2 := if bool_decide (PageHandle.num_records d' = num_records_per_page (file_hdr_ s1)
                             ∧ first_free_page_no (file_hdr_ s1) = p)
             then flush_hdr (set_first_free_page_no (PageHandle.next_free_page_no d')
                               (file_hdr_ s1)) sm
             else sm) in *.
  assert (fd_ s2 = fd_ s1 ∧ fh_ok s2
          ∧ pages_ (bpm s2) = pages_ (bpm sm)
          ∧ page_table_ (bpm s2) = page_table_ (bpm sm)
          ∧ (∀ q, RM_FIRST_RECORD_PAGE ≤ page_no q →
                  page_view (bpm s2) q = page_view (bpm sm) q)
          ∧ (∀ P, quiet_but (bpm sm) P → quiet_but (bpm s2) P)
          ∧ same_layout (file_hdr_ s1) (file_hdr_ s2)
          ∧ num_pages (file_hdr_ s2) = num_pages (file_hdr_ s1)
          ∧ (first_free_page_no (file_hdr_ s1) ≠ p → file_hdr_ s2 = file_hdr_ s1))
    as (Hfd2 & Hok2 & Hpages2 & Htab2 & Hview2 & Hq2 & Hlay2 & Hnp2 & Hsame2).
  { clear Hins. subst s2. case_bool_decide as Hc.
    - pose proof (next_free_range d') as Hnf.
      destruct (flush_hdr_post sm
                  (set_first_free_page_no (PageHandle.next_free_page_no d') (file_hdr_ s1)))
        as (Hokf & Hviewf & Hqf); [done|by apply hdr_ok_set_first_free|by rewrite Hhdrm|
                                   simpl; lia|].
      split; [exact Hfdm|]. split; [exact Hokf|]. split; [reflexivity|].
      split; [reflexivity|]. split; [exact Hviewf|]. split; [exact Hqf|].
      split; [by split|]. split; [done|].
      intros Hne. tauto.
    - split; [done|]. split; [done|]. split; [done|]. split; [done|].
      split; [done|]. split; [done|]. rewrite Hhdrm.
      split; [apply same_layout_refl|]. done. }
  apply pair_equal_spec in Hins as [<- <-].
  assert (page_table_ (bpm s2) !! (fd_ s2, p) = Some f) as Hpt2.
  { rewrite Htab2, Hfd2. done. }
  assert (pin_count_ (frame (bpm s2) f) > 0) as Hpin2.
  { unfold frame. rewrite Hpages2. fold (frame (bpm sm) f). lia. }
  destruct (unpin_post s2 f p true Hok2 Hpt2 Hpin2)
    as (_ & Hfd3 & Hhdr3 & Hok3 & Hview3 & Hlen3 & _ & Hq3 & Htab3 & _).
  set (s3 := snd (unpin f true s2)) in *.
  assert (length (pages_ (bpm s2)) = length (pages_ (bpm sm))) as Hlen2
    by (by rewrite Hpages2).
  assert (page_view (bpm s3) (fd_ s, p) = insert_bytes (file_hdr_ s) slot buf d1) as Hviewp.
  { rewrite Hview3, Hview2 by (unfold RM_FIRST_RECORD_PAGE, RM_FILE_HDR_PAGE in *; simpl; lia).
    rewrite <- Hfd1, Hviewm. rewrite Hfd1, <- Hd1.
    by apply same_layout_insert_bytes. }
  assert (∀ q, RM_FIRST_RECORD_PAGE ≤ page_no q → q ≠ (fd_ s, p) →
               page_view (bpm s3) q = page_view (bpm s1) q) as Hoth3.
  { intros q Hq Hne. rewrite Hview3, Hview2 by done. apply Hothm. by rewrite Hfd1. }
  split; [by rewrite Hfd3, Hfd2|]. split; [done|].
  split; [by rewrite Hlen3, Hlen2, Hlenm|].
  split; [rewrite Hhdr3; by apply (same_layout_trans _ (file_hdr_ s1))|].
  split; [rewrite Hhdr3; lia|]. split.
  { intros Hc q Hq. rewrite Hhdr3, Hnp2 in Hq. rewrite Hfd3, Hfd2, Hfd1.
    apply (same_layout_consistent (file_hdr_ s)).
    { rewrite Hhdr3. by apply (same_layout_trans _ (file_hdr_ s1)). }
    destruct (decide (q = p)) as [->|Hne].
    - rewrite Hviewp, (insert_bytes_unset (file_hdr_ s)) by done.
      destruct Hlay1 as (Hl1 & Hl2 & Hl3).
      apply insert_at_bytes_consistent; [apply Hok|done|lia|].
      rewrite Hd1. by apply Hc1.
    - rewrite Hoth3; [by apply Hc1|simpl; lia|]. intros [= Heq]. done. }
  exists d1, f. simpl rpage_no. simpl slot_no.
  destruct Hlay1 as (Hl1 & Hl2 & Hl3).
  split; [rewrite Hhdr3, Hnp2; done|]. split; [lia|]. split; [done|].
  split; [done|]. split; [done|]. split; [done|].
  split; [rewrite Htab3, Htab2, <- Hfd1; done|].
  split; [intros q Hq Hne1 Hne2; rewrite Hoth3 by done; by apply Hview|].
  split; [intros Hq; by apply Hq3, Hq2, Hqm, Hquiet|].
  destruct Hcase as [(Hfree & Hpf & Hh1')|(Hfree & Hpn & Hh1' & Hnew)].
  - left. split; [done|]. split; [done|]. split.
    + rewrite Hd1. apply Hview; [simpl; unfold RM_FIRST_RECORD_PAGE, RM_FILE_HDR_PAGE in *; lia|].
      intros [= Heq]. rewrite Hh1' in Hp. lia.
    + rewrite Hhdr3, Hnp2. by rewrite Hh1'.
  - right. split; [done|]. split; [done|]. split; [by rewrite Hd1|].
    rewrite Hhdr3, Hsame2; [by rewrite Hh1', Hpn|].
    rewrite Hff1, Hfree.
    unfold RM_NO_PAGE, RM_FILE_HDR_PAGE in *. lia.
Qed.

End insert_record_posts.

(* ================================================================= *)
(** * What the record operations guarantee *)

Section record_posts.

Implicit Types (s : RmFileHandle) (f v : frame_id_t) (buf : list Z) (rid : Rid).

Local Notation bpm := buffer_pool_manager_.

(** A cached page is always fetched. *)
Lemma fetch_page_handle_cached s p f :
  RM_FILE_HDR_PAGE < p < num_pages (file_hdr_ s) →
  page_table_ (bpm s) !! (fd_ s, p) = Some f →
  ∃ s1, Rm.fetch_page_handle p s = (inr f, s1).
Proof.
  intros Hp Hpt. rewrite fetch_page_handle_call by done.
  rewrite (fetch_page_hit _ _ _ Hpt). simpl. by eexists.
Qed.

(** The only exception of [fetch_page_handle] on a page of the file. *)
Lemma fetch_page_handle_error s p e s1 :
  RM_FILE_HDR_PAGE < p < num_pages (file_hdr_ s) →
  Rm.fetch_page_handle p s = (inl e, s1) → e = RMDBError.
Proof.
  intros Hp. rewrite fetch_page_handle_call by done.
  destruct (fst (BPM.fetch_page (fd_ s, p) (bpm s))); intros [= <- _]; done.
Qed.

Lemma get_record_post s rid r s' :
  fh_ok s → Rm.get_record rid s = (r, s') →
  let h := file_hdr_ s in
  let p := rpage_no rid in
  let d := page_view (bpm s) (fd_ s, p) in
  fd_ s' = fd_ s ∧ file_hdr_ s' = h ∧ fh_ok s'
  ∧ (∀ q, RM_FIRST_RECORD_PAGE ≤ page_no q → page_view (bpm s') q = page_view (bpm s) q)
  ∧ length (pages_ (bpm s')) = length (pages_ (bpm s))
  ∧ (p ≤ RM_FILE_HDR_PAGE ∨ p >= num_pages h → r = inl (PageNotExistError p) ∧ s' = s)
  ∧ (RM_FILE_HDR_PAGE < p < num_pages h →
     (r = inl RMDBError ∧ s' = s) ∨ r = get_record_result h rid d)
  ∧ (RM_FILE_HDR_PAGE < p < num_pages h →
     (∃ f, page_table_ (bpm s) !! (fd_ s, p) = Some f) → r = get_record_result h rid d)
  ∧ (quiet_but (bpm s) None →
     quiet_but (bpm s') None
     ∧ ((0 < length (pages_ (bpm s)))%nat → RM_FILE_HDR_PAGE < p < num_pages h →
        r = get_record_result h rid d)).
Proof.
  intros Hok Hget h p d. subst h p d.
  destruct (decide (rpage_no rid ≤ RM_FILE_HDR_PAGE
                    ∨ rpage_no rid >= num_pages (file_hdr_ s))) as [Hout|Hin].
  { unfold Rm.get_record, bind in Hget.
    rewrite (fetch_page_handle_range _ _ Hout) in Hget.
    apply pair_equal_spec in Hget as [<- <-].
    do 5 (split; [done|]). split; [done|]. split; [lia|]. split; [lia|].
    intros Hq. split; [done|]. lia. }
  assert (RM_FILE_HDR_PAGE < rpage_no rid < num_pages (file_hdr_ s)) as Hp by lia.
  destruct (Rm.fetch_page_handle (rpage_no rid) s) as [[e|f] s1] eqn:Hfetch.
  { destruct (fetch_page_handle_post s _ _ _ Hok Hfetch)
      as (_ & _ & _ & _ & _ & _ & -> & Hquiet).
    pose proof (fetch_page_handle_error _ _ _ _ Hp Hfetch) as ->.
    unfold Rm.get_record, bind in Hget. rewrite Hfetch in Hget.
    apply pair_equal_spec in Hget as [<- <-].
    do 5 (split; [done|]). split; [lia|]. split; [by left|]. split.
    - intros _ [f Hpt]. destruct (fetch_page_handle_cached s _ f Hp Hpt) as [s2 Heq].
      rewrite Heq in Hfetch. done.
    - intros Hq. split; [done|]. intros Hlen _.
      destruct (Hquiet Hq Hlen Hp) as (f & Hf & _). done. }
  destruct (held_data s _ f s1 Hok Hfetch) as (Hdata & Hid & Hf & Hsized).
  destruct (fetch_page_handle_post s _ _ _ Hok Hfetch)
    as (Hfd1 & Hhdr1 & Hok1 & _ & Hlen1 & _ & _ & Hquiet).
  destruct (fetch_unpin_post s _ f s1 false Hok Hfetch)
    as (Hfd2 & Hhdr2 & Hok2 & Hview2 & Hlen2 & _ & Hq2).
  rewrite (get_record_eq rid s f s1 Hfetch) in Hget.
  rewrite Hhdr1, Hdata in Hget.
  assert (r = get_record_result (file_hdr_ s) rid (page_view (bpm s) (fd_ s, rpage_no rid))
          ∧ s' = snd (unpin f false s1)) as [-> ->].
  { unfold get_record_result.
    destruct (decide (slot_no rid < 0
                      ∨ slot_no rid >= num_records_per_page (file_hdr_ s))) as [Hs|Hs].
    - by apply pair_equal_spec in Hget as [<- <-].
    - destruct (Bitmap.is_set _ _ _); by apply pair_equal_spec in Hget as [<- <-]. }
  do 5 (split; [done|]). split; [lia|]. split; [by right|]. split; [done|].
  intros Hq. split; [|done]. apply Hq2.
  destruct (Hquiet Hq ltac:(lia) Hp) as (f' & [= <-] & Hq'). done.
Qed.

Lemma fetch_quiet s p f s1 :
  fh_ok s → Rm.fetch_page_handle p s = (inr f, s1) →
  quiet_but (bpm s) None → quiet_but (bpm s1) (Some f).
Proof.
  intros Hok Hfetch Hq.
  destruct (held_data s p f s1 Hok Hfetch) as (_ & _ & Hf & _).
  destruct (fetch_page_handle_post s p _ _ Hok Hfetch)
    as (_ & _ & _ & _ & Hlen & _ & (Hp & _) & Hquiet).
  destruct (Hquiet Hq ltac:(lia) Hp) as (f' & [= <-] & Hq'). done.
Qed.

Lemma same_pages_refl s : same_pages s s.
Proof. by split. Qed.

Lemma same_pages_consistent s s' :
  same_pages s s' → same_layout (file_hdr_ s) (file_hdr_ s') →
  num_pages (file_hdr_ s') = num_pages (file_hdr_ s) →
  file_consistent s → file_consistent s'.
Proof.
  intros (Hfd & _ & Hview) Hlay Hn Hc q Hq. rewrite Hn in Hq.
  rewrite Hfd, Hview by (simpl; lia).
  apply (same_layout_consistent (file_hdr_ s)); [done|]. by apply Hc.
Qed.

Lemma page_written_consistent s s' p d' :
  page_written s s' p d' → same_layout (file_hdr_ s) (file_hdr_ s') →
  num_pages (file_hdr_ s') = num_pages (file_hdr_ s) →
  page_consistent (file_hdr_ s) d' →
  file_consistent s → file_consistent s'.
Proof.
  intros (Hfd & _ & Hview & _ & Hoth) Hlay Hn Hd' Hc q Hq. rewrite Hn in Hq.
  rewrite Hfd. apply (same_layout_consistent (file_hdr_ s)); [done|].
  destruct (decide (q = p)) as [->|Hne].
  - by rewrite Hview.
  - rewrite Hoth; [by apply Hc|simpl; lia|]. intros [= Heq]. done.
Qed.

(** An exit that unpins the fetched page without a change. *)
Lemma fetch_unpin_exit s p f s1 :
  fh_ok s → Rm.fetch_page_handle p s = (inr f, s1) →
  let s' := snd (unpin f false s1) in
  fh_ok s' ∧ file_hdr_ s' = file_hdr_ s ∧ same_pages s s'
  ∧ (quiet_but (bpm s) None → quiet_but (bpm s') None).
Proof.
  intros Hok Hfetch s'.
  destruct (fetch_unpin_post s p f s1 false Hok Hfetch)
    as (Hfd2 & Hhdr2 & Hok2 & Hview2 & Hlen2 & _ & Hq2).
  split; [done|]. split; [done|]. split; [by split|].
  intros Hq. by apply Hq2, (fetch_quiet s p).
Qed.

(** The exit that changes the fetched page by [g] and unpins it dirty. *)
Lemma fetch_modify_exit s p f s1 g :
  fh_ok s → Rm.fetch_page_handle p s = (inr f, s1) →
  page_sized (g (page_view (bpm s) (fd_ s, p))) →
  let s' := snd (unpin f true (modify f g s1)) in
  fh_ok s' ∧ file_hdr_ s' = file_hdr_ s
  ∧ page_written s s' p (g (page_view (bpm s) (fd_ s, p)))
  ∧ (quiet_but (bpm s) None → quiet_but (bpm s') None).
Proof.
  intros Hok Hfetch Hsz s'.
  destruct (fetch_modify_unpin_post s p f s1 g true Hok Hfetch Hsz)
    as (Hfd2 & Hhdr2 & Hok2 & Hview2 & Hoth2 & Hlen2 & _ & Hq2 & Hpt2 & _).
  split; [done|]. split; [done|]. split.
  { split; [done|]. split; [done|]. split; [done|]. split; [by exists f|done]. }
  intros Hq. by apply Hq2, (fetch_quiet s p).
Qed.

Lemma update_record_post s rid buf r s' :
  fh_ok s → Rm.update_record rid buf s = (r, s') →
  let h := file_hdr_ s in
  let p := rpage_no rid in
  let d := page_view (bpm s) (fd_ s, p) in
  fh_ok s' ∧ file_hdr_ s' = h
  ∧ (quiet_but (bpm s) None → quiet_but (bpm s') None)
  ∧ (file_consistent s → file_consistent s')
  ∧ match r with
    | inl _ => same_pages s s'
    | inr _ =>
        RM_FILE_HDR_PAGE < p < num_pages h
        ∧ 0 ≤ slot_no rid < num_records_per_page h
        ∧ Bitmap.is_set PageHandle.bitmap (slot_no rid) d = true
        ∧ page_written s s' p (update_bytes h (slot_no rid) buf d)
    end.
Proof.
  intros Hok Hop h p d. subst h p d.
  destruct (Rm.fetch_page_handle (rpage_no rid) s) as [[e|f] s1] eqn:Hfetch.
  { destruct (fetch_page_handle_post s _ _ _ Hok Hfetch)
      as (_ & _ & _ & _ & _ & _ & -> & _).
    unfold Rm.update_record, bind in Hop. rewrite Hfetch in Hop.
    apply pair_equal_spec in Hop as [<- <-].
    do 4 (split; [done|]). apply same_pages_refl. }
  destruct (held_data s _ f s1 Hok Hfetch) as (Hdata & Hid & Hf & Hsized).
  destruct (fetch_page_handle_post s _ _ _ Hok Hfetch)
    as (_ & Hhdr1 & _ & _ & _ & _ & (Hp & _) & _).
  rewrite (update_record_eq rid buf s f s1 Hfetch Hf) in Hop.
  rewrite Hhdr1, Hdata in Hop. rewrite Hdata in Hsized.
  destruct (fetch_unpin_exit s _ f s1 Hok Hfetch) as (Hok' & Hhdr' & Hsame & Hq').
  assert (file_consistent s → file_consistent (snd (unpin f false s1))) as Hc'.
  { apply same_pages_consistent; [done|rewrite Hhdr'; apply same_layout_refl|by rewrite Hhdr']. }
  destruct (decide (slot_no rid < 0
                    ∨ slot_no rid >= num_records_per_page (file_hdr_ s))) as [Hs|Hs].
  { by apply pair_equal_spec in Hop as [<- <-]. }
  destruct (Bitmap.is_set PageHandle.bitmap (slot_no rid)
              (page_view (bpm s) (fd_ s, rpage_no rid))) eqn:Hset;
    [|by apply pair_equal_spec in Hop as [<- <-]].
  apply pair_equal_spec in Hop as [<- <-].
  assert (page_sized (update_bytes (file_hdr_ s) (slot_no rid) buf
                        (page_view (bpm s) (fd_ s, rpage_no rid)))) as Hsz
    by (by apply update_bytes_sized).
  destruct (fetch_modify_exit s _ f s1 _ Hok Hfetch Hsz) as (Hok2 & Hhdr2 & Hw & Hq2).
  split; [done|]. split; [done|]. split; [done|]. split; [|split; [done|]; split; [lia|done]].
  intros Hc. eapply page_written_consistent;
    [done|rewrite Hhdr2; apply same_layout_refl|by rewrite Hhdr2| |done].
  apply update_bytes_consistent; [apply Hok|lia|]. apply Hc.
  unfold RM_FIRST_RECORD_PAGE, RM_FILE_HDR_PAGE in *. lia.
Qed.

Lemma insert_record_at_post s rid buf r s' :
  fh_ok s → Rm.insert_record_at rid buf s = (r, s') →
  let h := file_hdr_ s in
  let p := rpage_no rid in
  let d := page_view (bpm s) (fd_ s, p) in
  fh_ok s' ∧ file_hdr_ s' = h
  ∧ (quiet_but (bpm s) None → quiet_but (bpm s') None)
  ∧ (file_consistent s → file_consistent s')
  ∧ match r with
    | inl _ => same_pages s s'
    | inr _ =>
        RM_FILE_HDR_PAGE < p < num_pages h
        ∧ 0 ≤ slot_no rid < num_records_per_page h
        ∧ page_sized d
        ∧ page_written s s' p (insert_at_bytes h (slot_no rid) buf d)
    end.
Proof.
  intros Hok Hop h p d. subst h p d.
  destruct (Rm.fetch_page_handle (rpage_no rid) s) as [[e|f] s1] eqn:Hfetch.
  { destruct (fetch_page_handle_post s _ _ _ Hok Hfetch)
      as (_ & _ & _ & _ & _ & _ & -> & _).
    unfold Rm.insert_record_at, bind in Hop. rewrite Hfetch in Hop.
    apply pair_equal_spec in Hop as [<- <-].
    do 4 (split; [done|]). apply same_pages_refl. }
  destruct (held_data s _ f s1 Hok Hfetch) as (Hdata & Hid & Hf & Hsized).
  destruct (fetch_page_handle_post s _ _ _ Hok Hfetch)
    as (_ & Hhdr1 & _ & _ & _ & _ & (Hp & _) & _).
  rewrite (insert_record_at_eq rid buf s f s1 Hfetch Hf) in Hop.
  rewrite Hhdr1 in Hop. rewrite Hdata in Hsized.
  destruct (fetch_unpin_exit s _ f s1 Hok Hfetch) as (Hok' & Hhdr' & Hsame & Hq').
  assert (file_consistent s → file_consistent (snd (unpin f false s1))) as Hc'.
  { apply same_pages_consistent; [done|rewrite Hhdr'; apply same_layout_refl|by rewrite Hhdr']. }
  destruct (decide (slot_no rid < 0
                    ∨ slot_no rid >= num_records_per_page (file_hdr_ s))) as [Hs|Hs].
  { by apply pair_equal_spec in Hop as [<- <-]. }
  apply pair_equal_spec in Hop as [<- <-].
  assert (page_sized (insert_at_bytes (file_hdr_ s) (slot_no rid) buf
                        (page_view (bpm s) (fd_ s, rpage_no rid)))) as Hsz
    by (by apply insert_at_bytes_sized).
  destruct (fetch_modify_exit s _ f s1 _ Hok Hfetch Hsz) as (Hok2 & Hhdr2 & Hw & Hq2).
  split; [done|]. split; [done|]. split; [done|].
  split; [|split; [done|]; split; [lia|done]].
  intros Hc. eapply page_written_consistent;
    [done|rewrite Hhdr2; apply same_layout_refl|by rewrite Hhdr2| |done].
  apply insert_at_bytes_consistent; [apply Hok|done|lia|]. apply Hc.
  unfold RM_FIRST_RECORD_PAGE, RM_FILE_HDR_PAGE in *. lia.
Qed.

Lemma delete_record_post s rid r s' :
  fh_ok s → Rm.delete_record rid s = (r, s') →
  let h := file_hdr_ s in
  let p := rpage_no rid in
  let d := page_view (bpm s) (fd_ s, p) in
  let released := bool_decide (PageHandle.num_records d = num_records_per_page h) in
  fh_ok s'
  ∧ (quiet_but (bpm s) None → quiet_but (bpm s') None)
  ∧ (file_consistent s → file_consistent s')
  ∧ match r with
    | inl _ => file_hdr_ s' = h ∧ same_pages s s'
    | inr _ =>
        RM_FILE_HDR_PAGE < p < num_pages h
        ∧ 0 ≤ slot_no rid < num_records_per_page h
        ∧ Bitmap.is_set PageHandle.bitmap (slot_no rid) d = true
        ∧ page_sized d
        ∧ file_hdr_ s' = (if released then set_first_free_page_no p h else h)
        ∧ page_written s s' p
            (if released
             then PageHandle.set_next_free_page_no (first_free_page_no h)
                    (delete_bytes (slot_no rid) d)
             else delete_bytes (slot_no rid) d)
    end.
Proof.
  intros Hok Hop h p d released. subst h p d released.
  destruct (Rm.fetch_page_handle (rpage_no rid) s) as [[e|f] s1] eqn:Hfetch.
  { destruct (fetch_page_handle_post s _ _ _ Hok Hfetch)
      as (_ & _ & _ & _ & _ & _ & -> & _).
    unfold Rm.delete_record, bind in Hop. rewrite Hfetch in Hop.
    apply pair_equal_spec in Hop as [<- <-].
    do 3 (split; [done|]). split; [done|]. apply same_pages_refl. }
  destruct (held_data s _ f s1 Hok Hfetch) as (Hdata & Hid & Hf & Hsized).
  destruct (fetch_page_handle_post s _ _ _ Hok Hfetch)
    as (_ & Hhdr1 & _ & _ & _ & _ & (Hp & _) & _).
  rewrite (delete_record_eq rid s f s1 Hfetch Hf) in Hop. cbv zeta in Hop.
  rewrite Hhdr1, Hdata, Hid in Hop. rewrite Hdata in Hsized.
  change (page_no (fd_ s, rpage_no rid)) with (rpage_no rid) in Hop.
  destruct (fetch_unpin_exit s _ f s1 Hok Hfetch) as (Hok' & Hhdr' & Hsame & Hq').
  assert (file_consistent s → file_consistent (snd (unpin f false s1))) as Hc'.
  { apply same_pages_consistent; [done|rewrite Hhdr'; apply same_layout_refl|by rewrite Hhdr']. }
  pose proof (fo_hdr _ Hok) as Hh.
  destruct (decide (slot_no rid < 0
                    ∨ slot_no rid >= num_records_per_page (file_hdr_ s))) as [Hs|Hs].
  { by apply pair_equal_spec in Hop as [<- <-]. }
  set (d := page_view (bpm s) (fd_ s, rpage_no rid)) in *.
  destruct (Bitmap.is_set PageHandle.bitmap (slot_no rid) d) eqn:Hset;
    [|by apply pair_equal_spec in Hop as [<- <-]].
  assert (RM_FIRST_RECORD_PAGE ≤ rpage_no rid < num_pages (file_hdr_ s)) as Hp'
    by (unfold RM_FIRST_RECORD_PAGE, RM_FILE_HDR_PAGE in *; lia).
  assert (page_sized (delete_bytes (slot_no rid) d)) as Hsz
    by (by apply delete_bytes_sized).
  destruct (decide (PageHandle.num_records d = num_records_per_page (file_hdr_ s)))
    as [Hfull|Hnf].
  - rewrite (bool_decide_eq_true_2 _ Hfull).
    rewrite (bool_decide_eq_true_2 _ Hfull) in Hop.
    rewrite bool_decide_eq_true_2 in Hop.
    2:{ rewrite (delete_bytes_num_records (file_hdr_ s)) by (done || lia).
        pose proof (hok_nrpp _ Hh). lia. }
    simpl andb in Hop. cbv iota in Hop. rewrite unpin_with_hdr in Hop.
    apply pair_equal_spec in Hop as [<- <-].
    set (G := λ x, PageHandle.set_next_free_page_no (first_free_page_no (file_hdr_ s))
                     (delete_bytes (slot_no rid) x)).
    assert (page_sized (G d)) as HG by (by apply set_next_free_sized).
    destruct (fetch_modify_exit s _ f s1 G Hok Hfetch HG) as (Hok2 & Hhdr2 & Hw & Hq2).
    split.
    { apply fh_ok_with_hdr; [done|by apply hdr_ok_set_first_free|simpl; by rewrite Hhdr2|].
      simpl. pose proof (fo_room _ Hok). unfold RM_FILE_HDR_PAGE in Hp. lia. }
    split; [exact Hq2|]. split.
    { intros Hc. eapply (page_written_consistent s _ (rpage_no rid) (G d));
        [exact Hw|by split|done| |done].
      apply set_next_free_consistent, (delete_bytes_consistent _ Hh); [done|lia|done|].
      by apply Hc. }
    split; [done|]. split; [lia|]. split; [done|]. split; [done|]. split; [done|].
    exact Hw.
  - rewrite (bool_decide_eq_false_2 _ Hnf).
    rewrite (bool_decide_eq_false_2 _ Hnf) in Hop.
    simpl andb in Hop. cbv iota in Hop.
    apply pair_equal_spec in Hop as [<- <-].
    destruct (fetch_modify_exit s _ f s1 (delete_bytes (slot_no rid)) Hok Hfetch Hsz)
      as (Hok2 & Hhdr2 & Hw & Hq2).
    split; [done|]. split; [done|]. split.
    { intros Hc. eapply page_written_consistent;
        [done|rewrite Hhdr2; apply same_layout_refl|by rewrite Hhdr2| |done].
      apply (delete_bytes_consistent _ Hh); [done|lia|done|]. by apply Hc. }
    split; [done|]. split; [lia|]. split; [done|]. split; [done|]. done.
Qed.

End record_posts.

(* ================================================================= *)
(** * Reading back what the record operations wrote *)

Section read_back.

Implicit Types (s : RmFileHandle) (f v : frame_id_t) (buf d : list Z) (rid : Rid)
  (h : RmFileHdr).

Local Notation bpm := buffer_pool_manager_.

Lemma get_record_result_layout h h' rid d :
  same_layout h h' → get_record_result h' rid d = get_record_result h rid d.
Proof.
  intros Hlay. unfold get_record_result.
  rewrite (same_layout_get_slot h h') by done.
  destruct Hlay as (-> & -> & _). done.
Qed.

Lemma get_record_result_insert_at h rid buf d :
  hdr_ok h → page_sized d → 0 ≤ slot_no rid < num_records_per_page h →
  length buf = Z.to_nat (record_size h) →
  get_record_result h rid (insert_at_bytes h (slot_no rid) buf d) = inr buf.
Proof.
  intros Hh Hd Hs Hlen. unfold get_record_result.
  rewrite decide_False by lia.
  rewrite (insert_at_bytes_is_set h Hh) by done. rewrite decide_True by done.
  by rewrite (insert_at_bytes_load h Hh).
Qed.

Lemma get_record_result_update h rid buf d :
  hdr_ok h → page_sized d → 0 ≤ slot_no rid < num_records_per_page h →
  Bitmap.is_set PageHandle.bitmap (slot_no rid) d = true →
  length buf = Z.to_nat (record_size h) →
  get_record_result h rid (update_bytes h (slot_no rid) buf d) = inr buf.
Proof.
  intros Hh Hd Hs Hset Hlen. unfold get_record_result, update_bytes.
  rewrite decide_False by lia.
  rewrite (memcpy_slot_is_set h Hh) by done. rewrite Hset.
  by rewrite (memcpy_slot_load h Hh).
Qed.

Lemma get_record_result_delete h rid d :
  hdr_ok h → page_sized d → 0 ≤ slot_no rid < num_records_per_page h →
  get_record_result h rid (delete_bytes (slot_no rid) d)
  = inl (RecordNotFoundError (rpage_no rid) (slot_no rid)).
Proof.
  intros Hh Hd Hs. unfold get_record_result.
  rewrite decide_False by lia.
  rewrite (delete_bytes_is_set h Hh) by (done || lia). by rewrite decide_True.
Qed.

Lemma get_record_result_released h rid (v : Z) d :
  hdr_ok h → page_sized d → 0 ≤ slot_no rid < num_records_per_page h →
  get_record_result h rid
    (PageHandle.set_next_free_page_no v (delete_bytes (slot_no rid) d))
  = inl (RecordNotFoundError (rpage_no rid) (slot_no rid)).
Proof.
  intros Hh Hd Hs. unfold get_record_result.
  rewrite decide_False by lia. rewrite is_set_set_next_free by lia.
  rewrite (delete_bytes_is_set h Hh) by (done || lia). by rewrite decide_True.
Qed.

(** [get_record] on a cached page. *)
Lemma get_record_cached s rid f :
  fh_ok s → RM_FILE_HDR_PAGE < rpage_no rid < num_pages (file_hdr_ s) →
  page_table_ (bpm s) !! (fd_ s, rpage_no rid) = Some f →
  fst (Rm.get_record rid s)
  = get_record_result (file_hdr_ s) rid (page_view (bpm s) (fd_ s, rpage_no rid)).
Proof.
  intros Hok Hp Hpt.
  destruct (Rm.get_record rid s) as [r s2] eqn:Hget.
  destruct (get_record_post s rid r s2 Hok Hget) as (_ & _ & _ & _ & _ & _ & _ & Hc & _).
  simpl. apply Hc; [done|]. by exists f.
Qed.

(** [get_record] on a page that an operation left cached with bytes [d']. *)
Lemma get_record_written s s' rid d' :
  fh_ok s' → page_written s s' (rpage_no rid) d' →
  RM_FILE_HDR_PAGE < rpage_no rid < num_pages (file_hdr_ s') →
  fst (Rm.get_record rid s') = get_record_result (file_hdr_ s') rid d'.
Proof.
  intros Hok (Hfd & _ & Hview & [f Hpt] & _) Hp.
  rewrite <- Hfd in Hpt, Hview.
  rewrite (get_record_cached s' rid f) by done. by rewrite Hview.
Qed.

End read_back.

(** X1.  [get_record(rid)] is a read: on every exit the header and every
    data page are as before and the handle's invariant holds.  A page number
    outside [(RM_FILE_HDR_PAGE, num_pages)] throws [PageNotExistError] before
    the pool is touched.  Otherwise the call throws [RMDBError] with nothing
    changed (the pool had no frame to give), or its result is decided by the
    page's bytes: [RMDBError] for a slot number outside
    [[0, num_records_per_page)], [RecordNotFoundError] for a slot whose bit is
    clear, else the [record_size] bytes of the slot.  The second case is the
    one taken when the page is cached, and when the pool has a frame and is
    in a state [quiet_but _ None]: the pool invariant holds (every frame is
    in exactly one of the free list and the page table, and in the replacer
    exactly when it is in the page table) and no cached page is pinned; the
    pool is then in such a state afterwards too. *)
Theorem get_record_spec (s : RmFileHandle) (rid : Rid) :
  fh_ok s →
  let h := file_hdr_ s in
  let p := rpage_no rid in
  let d := page_view (buffer_pool_manager_ s) (fd_ s, p) in
  let r := fst (Rm.get_record rid s) in
  let s' := snd (Rm.get_record rid s) in
  fh_ok s' ∧ file_hdr_ s' = h ∧ same_pages s s'
  ∧ (p ≤ RM_FILE_HDR_PAGE ∨ p >= num_pages h → r = inl (PageNotExistError p) ∧ s' = s)
  ∧ (RM_FILE_HDR_PAGE < p < num_pages h →
     (r = inl RMDBError ∧ s' = s) ∨ r = get_record_result h rid d)
  ∧ (RM_FILE_HDR_PAGE < p < num_pages h →
     (∃ f, page_table_ (buffer_pool_manager_ s) !! (fd_ s, p) = Some f) →
     r = get_record_result h rid d)
  ∧ (quiet_but (buffer_pool_manager_ s) None →
     quiet_but (buffer_pool_manager_ s') None
     ∧ ((0 < length (pages_ (buffer_pool_manager_ s)))%nat →
        RM_FILE_HDR_PAGE < p < num_pages h → r = get_record_result h rid d)).
Proof.
  intros Hok h p d r s'. subst h p d r s'.
  destruct (Rm.get_record rid s) as [r s'] eqn:Hget.
  destruct (get_record_post s rid r s' Hok Hget)
    as (Hfd & Hhdr & Hok' & Hview & Hlen & Hrest).
  simpl. split; [done|]. split; [done|]. split; [by split|]. exact Hrest.
Qed.

Lemma get_record_spec_witness :
  let full_page := [1; 0; 0; 0; 255; 255; 255; 255; 128; 7; 7; 7; 7; 7; 7; 7; 7] in
  let s := mkFH 3 (mkFileHdr 8 2 1 (-1) 1)
             (BPM.create 1 (mkDisk {[ (3, 1) := full_page ]} {[ 3 := 2 ]} 10)) in
  fst (Rm.get_record (mkRid 1 0) s) = inr [7; 7; 7; 7; 7; 7; 7; 7]
  ∧ fst (Rm.get_record (mkRid 2 0) s) = inl (PageNotExistError 2).
Proof.
  intros full_page s.
  assert (fh_ok s) as Hok.
  { apply fh_ok_fresh; [apply hdr_ok_one_slot|simpl; lia|reflexivity|simpl; lia|simpl; lia]. }
  split.
  - destruct (get_record_spec s (mkRid 1 0) Hok) as (_ & _ & _ & _ & _ & _ & Hq).
    destruct (Hq (quiet_create _ _)) as [_ Hr].
    rewrite Hr; [by vm_compute|simpl; lia|simpl; unfold RM_FILE_HDR_PAGE; lia].
  - destruct (get_record_spec s (mkRid 2 0) Hok) as (_ & _ & _ & Hout & _).
    apply Hout. right. simpl. lia.
Defined.

(** C3.  Round trip of [insert_record] and [get_record]: when
    [insert_record(buf)] with a buffer of [record_size] bytes returns the
    Rid [r], a following [get_record(r)] returns exactly the bytes of
    [buf]. *)
Theorem insert_get_round_trip (s s' : RmFileHandle) (buf : list Z) (r : Rid) :
  fh_ok s → 0 < record_size (file_hdr_ s) →
  length buf = Z.to_nat (record_size (file_hdr_ s)) →
  Rm.insert_record buf s = (inr r, s') →
  fst (Rm.get_record r s') = inr buf.
Proof.
  intros Hok _ Hlen Hins.
  destruct (insert_record_post buf s _ _ Hok Hins)
    as (Hfd & Hok' & _ & Hlay & _ & _ & d & f & Hp & Hs & Hd & Hset & _ & Hview & Hpt & Hoth & _).
  pose proof (fo_hdr _ Hok) as Hh.
  rewrite <- Hfd in Hpt, Hview.
  rewrite (get_record_cached s' r f) by done. rewrite Hview.
  rewrite (get_record_result_layout (file_hdr_ s)) by done.
  rewrite insert_bytes_unset by done.
  by apply get_record_result_insert_at.
Qed.

Lemma hdr_ok_four_slots (n ff : Z) : hdr_ok (mkFileHdr 8 n 4 ff 1).
Proof. split; simpl; unfold sizeof_RmPageHdr, PAGE_SIZE; lia. Qed.

Lemma insert_get_round_trip_witness :
  let s := mkFH 3 (mkFileHdr 8 1 4 (-1) 1) (BPM.create 2 (mkDisk ∅ {[ 3 := 1 ]} 10)) in
  let buf := [1; 2; 3; 4; 5; 6; 7; 8] in
  fst (Rm.get_record (mkRid 1 0) (snd (Rm.insert_record buf s))) = inr buf.
Proof.
  intros s buf.
  apply (insert_get_round_trip s (snd (Rm.insert_record buf s)) buf (mkRid 1 0)).
  - apply fh_ok_fresh; [apply hdr_ok_four_slots|simpl; lia|reflexivity|simpl; lia|simpl; lia].
  - simpl. lia.
  - reflexivity.
  - by vm_compute.
Defined.

(** X3.  Round trip of [update_record] and [get_record]: after
    [update_record(rid, buf)] returned, with a buffer of [record_size]
    bytes, [get_record(rid)] returns exactly the bytes of [buf].  The update
    changes the slot's bytes only: the file header, the page's
    [num_records] and [next_free_page_no] and every bit of its bitmap are
    as before. *)
Theorem update_get_round_trip (s s' : RmFileHandle) (rid : Rid) (buf : list Z) :
  fh_ok s → length buf = Z.to_nat (record_size (file_hdr_ s)) →
  Rm.update_record rid buf s = (inr tt, s') →
  let d := page_view (buffer_pool_manager_ s) (fd_ s, rpage_no rid) in
  let d' := page_view (buffer_pool_manager_ s') (fd_ s, rpage_no rid) in
  fst (Rm.get_record rid s') = inr buf
  ∧ file_hdr_ s' = file_hdr_ s
  ∧ PageHandle.num_records d' = PageHandle.num_records d
  ∧ PageHandle.next_free_page_no d' = PageHandle.next_free_page_no d
  ∧ ∀ j, 0 ≤ j < num_records_per_page (file_hdr_ s) →
         Bitmap.is_set PageHandle.bitmap j d' = Bitmap.is_set PageHandle.bitmap j d.
Proof.
  intros Hok Hlen Hop d d'.
  destruct (update_record_post s rid buf _ _ Hok Hop)
    as (Hok' & Hhdr & _ & _ & Hp & Hs & Hset & Hw).
  pose proof (fo_hdr _ Hok) as Hh.
  assert (page_sized d) as Hd.
  { unfold d, page_view. destruct (page_table_ _ !! _) as [g|] eqn:Hg.
    - apply frame_sized; [apply Hok|]. by apply (ok_table _ (fo_bpm _ Hok) _ _ Hg).
    - apply read_page_sized. }
  assert (d' = update_bytes (file_hdr_ s) (slot_no rid) buf d) as ->
    by (by destruct Hw as (_ & _ & ? & _)).
  split.
  { rewrite (get_record_written s s' rid _ Hok' Hw) by (by rewrite Hhdr).
    rewrite Hhdr. by apply get_record_result_update. }
  split; [done|]. unfold update_bytes.
  split; [by apply memcpy_slot_num_records|].
  split; [by apply memcpy_slot_next_free|].
  intros j Hj. by apply memcpy_slot_is_set.
Qed.

Lemma update_get_round_trip_witness :
  let page := [1; 0; 0; 0; 255; 255; 255; 255; 128; 7; 7; 7; 7; 7; 7; 7; 7] in
  let s := mkFH 3 (mkFileHdr 8 2 1 (-1) 1)
             (BPM.create 1 (mkDisk {[ (3, 1) := page ]} {[ 3 := 2 ]} 10)) in
  let buf := [1; 2; 3; 4; 5; 6; 7; 8] in
  fst (Rm.get_record (mkRid 1 0) (snd (Rm.update_record (mkRid 1 0) buf s))) = inr buf.
Proof.
  intros page s buf.
  apply (update_get_round_trip s (snd (Rm.update_record (mkRid 1 0) buf s)) (mkRid 1 0) buf).
  - apply fh_ok_fresh; [apply hdr_ok_one_slot|simpl; lia|reflexivity|simpl; lia|simpl; lia].
  - reflexivity.
  - by vm_compute.
Defined.

(** X4.  Round trip of the positional [insert_record(rid, buf)] and
    [get_record]: after the insert returned, with a buffer of
    [record_size] bytes, [get_record(rid)] returns exactly the bytes of
    [buf], whether the slot was free or taken before; the file header is
    unchanged. *)
Theorem insert_at_get_round_trip (s s' : RmFileHandle) (rid : Rid) (buf : list Z) :
  fh_ok s → length buf = Z.to_nat (record_size (file_hdr_ s)) →
  Rm.insert_record_at rid buf s = (inr tt, s') →
  fst (Rm.get_record rid s') = inr buf ∧ file_hdr_ s' = file_hdr_ s.
Proof.
  intros Hok Hlen Hop.
  destruct (insert_record_at_post s rid buf _ _ Hok Hop)
    as (Hok' & Hhdr & _ & _ & Hp & Hs & Hd & Hw).
  pose proof (fo_hdr _ Hok) as Hh. split; [|done].
  rewrite (get_record_written s s' rid _ Hok' Hw) by (by rewrite Hhdr).
  rewrite Hhdr. by apply get_record_result_insert_at.
Qed.

Lemma insert_at_get_round_trip_witness :
  let s := mkFH 3 (mkFileHdr 8 2 4 (-1) 1) (BPM.create 2 (mkDisk ∅ {[ 3 := 2 ]} 10)) in
  let buf := [1; 2; 3; 4; 5; 6; 7; 8] in
  fst (Rm.get_record (mkRid 1 2) (snd (Rm.insert_record_at (mkRid 1 2) buf s))) = inr buf.
Proof.
  intros s buf.
  apply (insert_at_get_round_trip s (snd (Rm.insert_record_at (mkRid 1 2) buf s))
           (mkRid 1 2) buf).
  - apply fh_ok_fresh; [apply hdr_ok_four_slots|simpl; lia|reflexivity|simpl; lia|simpl; lia].
  - reflexivity.
  - by vm_compute.
Defined.

(** X5.  A deleted record is gone: after [delete_record(rid)] returned,
    [get_record(rid)] throws [RecordNotFoundError(rid.page_no, rid.slot_no)]. *)
Theorem delete_then_get_not_found (s s' : RmFileHandle) (rid : Rid) :
  fh_ok s → Rm.delete_record rid s = (inr tt, s') →
  fst (Rm.get_record rid s') = inl (RecordNotFoundError (rpage_no rid) (slot_no rid)).
Proof.
  intros Hok Hop.
  destruct (delete_record_post s rid _ _ Hok Hop)
    as (Hok' & _ & _ & Hp & Hs & Hset & Hd & Hhdr & Hw).
  pose proof (fo_hdr _ Hok) as Hh.
  assert (same_layout (file_hdr_ s) (file_hdr_ s')
          ∧ num_pages (file_hdr_ s') = num_pages (file_hdr_ s)) as [Hlay Hn].
  { rewrite Hhdr. by destruct (bool_decide _). }
  rewrite (get_record_written s s' rid _ Hok' Hw) by (by rewrite Hn).
  rewrite (get_record_result_layout (file_hdr_ s)) by done.
  destruct (bool_decide _).
  - by apply get_record_result_released.
  - by apply get_record_result_delete.
Qed.

Lemma delete_then_get_not_found_witness :
  let page := [1; 0; 0; 0; 255; 255; 255; 255; 128; 7; 7; 7; 7; 7; 7; 7; 7] in
  let s := mkFH 3 (mkFileHdr 8 2 1 (-1) 1)
             (BPM.create 1 (mkDisk {[ (3, 1) := page ]} {[ 3 := 2 ]} 10)) in
  fst (Rm.get_record (mkRid 1 0) (snd (Rm.delete_record (mkRid 1 0) s)))
  = inl (RecordNotFoundError 1 0).
Proof.
  intros page s.
  apply (delete_then_get_not_found s (snd (Rm.delete_record (mkRid 1 0) s)) (mkRid 1 0)).
  - apply fh_ok_fresh; [apply hdr_ok_one_slot|simpl; lia|reflexivity|simpl; lia|simpl; lia].
  - by vm_compute.
Defined.

(* ================================================================= *)
(** * Sequences of record operations *)

Section record_runs.

Implicit Types (s : RmFileHandle) (buf d : list Z) (rid : Rid).

Local Notation bpm := buffer_pool_manager_.

Lemma run_record_op_post o s :
  fh_ok s →
  fh_ok (run_record_op o s)
  ∧ (file_consistent s → file_consistent (run_record_op o s))
  ∧ (quiet_but (bpm s) None → (∀ buf, o ≠ RInsert buf) →
     quiet_but (bpm (run_record_op o s)) None).
Proof.
  intros Hok. destruct o as [buf|rid buf|rid|rid buf|rid]; simpl.
  - destruct (Rm.insert_record buf s) as [r s'] eqn:Hop.
    destruct (insert_record_post buf s r s' Hok Hop) as (_ & Hok' & _ & _ & _ & Hc & _).
    split; [done|]. split; [done|]. intros _ Hne. by destruct (Hne buf).
  - destruct (Rm.insert_record_at rid buf s) as [r s'] eqn:Hop.
    destruct (insert_record_at_post s rid buf r s' Hok Hop) as (Hok' & _ & Hq & Hc & _).
    split; [done|]. split; [done|]. intros Hquiet _. by apply Hq.
  - destruct (Rm.delete_record rid s) as [r s'] eqn:Hop.
    destruct (delete_record_post s rid r s' Hok Hop) as (Hok' & Hq & Hc & _).
    split; [done|]. split; [done|]. intros Hquiet _. by apply Hq.
  - destruct (Rm.update_record rid buf s) as [r s'] eqn:Hop.
    destruct (update_record_post s rid buf r s' Hok Hop) as (Hok' & _ & Hq & Hc & _).
    split; [done|]. split; [done|]. intros Hquiet _. by apply Hq.
  - destruct (Rm.get_record rid s) as [r s'] eqn:Hop.
    destruct (get_record_post s rid r s' Hok Hop)
      as (Hfd & Hhdr & Hok' & Hview & Hlen & _ & _ & _ & Hq).
    simpl. split; [done|]. split.
    + apply same_pages_consistent; [by split|rewrite Hhdr; apply same_layout_refl|
                                    by rewrite Hhdr].
    + intros Hquiet _. by apply Hq.
Qed.

End record_runs.

(** X6.  The record operations keep every data page's [num_records] equal to
    the number of set bits among the first [num_records_per_page] bits of
    its bitmap: if this holds for every data page of the file, it holds
    again after any sequence of [insert_record(buf)],
    [insert_record(rid, buf)], [delete_record], [update_record] and
    [get_record] calls (with buffers of [record_size] bytes), whichever of
    them return and whichever throw; the handle's invariant holds again as
    well. *)
Theorem record_ops_keep_num_records (s : RmFileHandle) (ops : list RecordOp) :
  fh_ok s → 0 < record_size (file_hdr_ s) → Forall (op_ok (file_hdr_ s)) ops →
  file_consistent s →
  fh_ok (run_record_ops ops s) ∧ file_consistent (run_record_ops ops s).
Proof.
  intros Hok _ _. revert s Hok. induction ops as [|o ops IH]; intros s Hok Hc; [done|].
  destruct (run_record_op_post o s Hok) as (Hok' & Hc' & _).
  simpl. apply IH; [done|by apply Hc'].
Qed.

Lemma record_ops_keep_num_records_witness :
  let s := mkFH 3 (mkFileHdr 8 1 4 (-1) 1) (BPM.create 2 (mkDisk ∅ {[ 3 := 1 ]} 10)) in
  let ops := [RInsert [1; 2; 3; 4; 5; 6; 7; 8]; RInsertAt (mkRid 1 3) [8; 7; 6; 5; 4; 3; 2; 1];
              RDelete (mkRid 1 0); RUpdate (mkRid 1 3) [0; 0; 0; 0; 0; 0; 0; 9];
              RGet (mkRid 1 3)] in
  file_consistent (run_record_ops ops s).
Proof.
  intros s ops. apply (record_ops_keep_num_records s ops).
  - apply fh_ok_fresh; [apply hdr_ok_four_slots|simpl; lia|reflexivity|simpl; lia|simpl; lia].
  - simpl. lia.
  - repeat constructor.
  - intros p Hp. simpl in Hp. unfold RM_FIRST_RECORD_PAGE in Hp. lia.
Defined.

(** C5.  For every data page of a record file, [num_records] in the page
    header equals the number of set bits among the first
    [num_records_per_page] bits of the page's bitmap, after any sequence of
    [insert_record(buf)], positional [insert_record(rid, buf)],
    [delete_record], [update_record] (and [get_record]) calls with buffers
    of [record_size] bytes, whichever of them return and whichever throw:
    this holds for a file that started without data pages
    ([num_pages = 1]), and for a file all of whose data pages had the
    property before the calls. *)
Theorem num_records_is_popcount (s : RmFileHandle) (ops : list RecordOp) :
  fh_ok s → 0 < record_size (file_hdr_ s) → Forall (op_ok (file_hdr_ s)) ops →
  num_pages (file_hdr_ s) = 1 ∨ file_consistent s →
  let s' := run_record_ops ops s in
  ∀ p, RM_FIRST_RECORD_PAGE ≤ p < num_pages (file_hdr_ s') →
    PageHandle.num_records (page_view (buffer_pool_manager_ s') (fd_ s', p))
    = popcount (page_view (buffer_pool_manager_ s') (fd_ s', p))
        (num_records_per_page (file_hdr_ s')).
Proof.
  intros Hok _ _ Hstart s'.
  assert (file_consistent s) as Hc.
  { destruct Hstart as [Hnew|Hc]; [|done]. intros p Hp. rewrite Hnew in Hp.
    unfold RM_FIRST_RECORD_PAGE in Hp. lia. }
  clear Hstart.
  assert (fh_ok s' ∧ file_consistent s') as [_ Hc'].
  { subst s'. revert s Hok Hc.
    induction ops as [|o ops IH]; intros s Hok Hc; [done|].
    destruct (run_record_op_post o s Hok) as (Hok' & Hc' & _).
    simpl. apply IH; [done|by apply Hc']. }
  exact Hc'.
Qed.

Lemma num_records_is_popcount_witness :
  let s := mkFH 3 (mkFileHdr 8 1 4 (-1) 1) (BPM.create 2 (mkDisk ∅ {[ 3 := 1 ]} 10)) in
  let ops := [RInsert [1; 2; 3; 4; 5; 6; 7; 8]; RInsertAt (mkRid 1 2) [8; 7; 6; 5; 4; 3; 2; 1];
              RInsertAt (mkRid 1 2) [0; 0; 0; 0; 0; 0; 0; 0]; RDelete (mkRid 1 0);
              RDelete (mkRid 1 0); RUpdate (mkRid 1 2) [0; 0; 0; 0; 0; 0; 0; 9];
              RInsert [1; 1; 1; 1; 1; 1; 1; 1]] in
  let s' := run_record_ops ops s in
  num_pages (file_hdr_ s') = 3
  ∧ PageHandle.num_records (page_view (buffer_pool_manager_ s') (3, 1))
    = popcount (page_view (buffer_pool_manager_ s') (3, 1)) 4.
Proof.
  intros s ops s'. split; [by vm_compute|].
  apply (num_records_is_popcount s ops).
  - apply fh_ok_fresh; [apply hdr_ok_four_slots|simpl; lia|reflexivity|simpl; lia|simpl; lia].
  - simpl. lia.
  - repeat constructor.
  - by left.
  - by vm_compute.
Defined.

Section free_list_facts.

Implicit Types (s : RmFileHandle) (buf d : list Z) (rid : Rid).

Local Notation bpm := buffer_pool_manager_.

Lemma create_page_handle_fetch s :
  first_free_page_no (file_hdr_ s) ≠ RM_NO_PAGE →
  Rm.create_page_handle s = Rm.fetch_page_handle (first_free_page_no (file_hdr_ s)) s.
Proof.
  intros Hne. unfold Rm.create_page_handle, bind, get_fh. cbv beta iota.
  by rewrite decide_True.
Qed.

Lemma view_sized s q : fh_ok s → page_sized (page_view (bpm s) q).
Proof.
  intros Hok. unfold page_view. destruct (page_table_ _ !! _) as [g|] eqn:Hg.
  - apply frame_sized; [apply Hok|]. by apply (ok_table _ (fo_bpm _ Hok) _ _ Hg).
  - apply read_page_sized.
Qed.

End free_list_facts.

Lemma insert_record_new_page_post (s s' : RmFileHandle) (buf : list Z) (r : Rid) :
  fh_ok s →
  first_free_page_no (file_hdr_ s) = RM_NO_PAGE →
  Rm.insert_record buf s = (inr r, s') →
  let h := file_hdr_ s in
  let d' := page_view (buffer_pool_manager_ s') (fd_ s, num_pages h) in
  r = mkRid (num_pages h) 0
  ∧ file_hdr_ s' = set_num_pages (num_pages h + 1) h
  ∧ PageHandle.num_records d' = 1
  ∧ PageHandle.next_free_page_no d' = RM_NO_PAGE
  ∧ (∀ j, 0 ≤ j < num_records_per_page h →
          Bitmap.is_set PageHandle.bitmap j d' = bool_decide (j = 0))
  ∧ (∀ q, RM_FIRST_RECORD_PAGE ≤ page_no q → q ≠ (fd_ s, num_pages h) →
          page_view (buffer_pool_manager_ s') q = page_view (buffer_pool_manager_ s) q).
Proof.
  intros Hok Hfree Hins h d'. subst h d'.
  destruct (insert_record_post buf s _ _ Hok Hins)
    as (Hfd & Hok' & _ & Hlay & _ & _ & d & f & Hp & Hs & Hd & Hset & Hlow & Hview & Hpt
        & Hoth & _ & Hcase).
  destruct Hcase as [(Hne & _)|(_ & Hpn & -> & Hhdr)]; [done|].
  pose proof (fo_hdr _ Hok) as Hh.
  assert (slot_no r = 0) as Hslot.
  { destruct (decide (slot_no r = 0)) as [|Hne]; [done|].
    pose proof (Hlow 0 ltac:(lia)) as H0.
    rewrite new_page_bytes_is_set in H0 by lia. done. }
  rewrite Hpn, Hslot in Hview.
  split; [destruct r; simpl in *; by subst|]. split; [done|].
  rewrite Hview.
  split.
  { destruct (insert_bytes_num_records (file_hdr_ s) Hh 0 buf (new_page_bytes (file_hdr_ s)))
      as [->| Hmax]; [done|lia| |].
    - by rewrite new_page_bytes_num_records.
    - rewrite new_page_bytes_num_records in Hmax. done. }
  split.
  { rewrite (insert_bytes_next_free (file_hdr_ s) Hh) by lia.
    apply new_page_bytes_next_free. }
  split.
  { intros j Hj. rewrite insert_bytes_unset by (apply new_page_bytes_is_set; lia).
    rewrite (insert_at_bytes_is_set (file_hdr_ s) Hh) by (done || lia).
    rewrite new_page_bytes_is_set by lia.
    destruct (decide (0 = j)) as [<-|Hne].
    - by rewrite bool_decide_eq_true_2.
    - by rewrite bool_decide_eq_false_2. }
  intros q Hq Hne. apply Hoth; [done| |done]. by rewrite Hpn.
Qed.


(** X7.  With an empty free-page list ([first_free_page_no = RM_NO_PAGE]),
    an [insert_record(buf)] that returns has put the record into slot 0 of a
    page it has just allocated: the Rid is [(num_pages, 0)], [num_pages] has
    grown by one, the new page holds one record, has bit 0 set and no other
    and [next_free_page_no = RM_NO_PAGE], every other data page is as
    before, and [first_free_page_no] is still [RM_NO_PAGE].  (The new page
    is not put on the free-page list, so the next insert allocates a page
    again.) *)
Theorem insert_record_takes_new_page (s s' : RmFileHandle) (buf : list Z) (r : Rid) :
  fh_ok s → 0 < record_size (file_hdr_ s) →
  first_free_page_no (file_hdr_ s) = RM_NO_PAGE →
  Rm.insert_record buf s = (inr r, s') →
  let h := file_hdr_ s in
  let d' := page_view (buffer_pool_manager_ s') (fd_ s, num_pages h) in
  r = mkRid (num_pages h) 0
  ∧ file_hdr_ s' = set_num_pages (num_pages h + 1) h
  ∧ PageHandle.num_records d' = 1
  ∧ PageHandle.next_free_page_no d' = RM_NO_PAGE
  ∧ (∀ j, 0 ≤ j < num_records_per_page h →
          Bitmap.is_set PageHandle.bitmap j d' = bool_decide (j = 0))
  ∧ (∀ q, RM_FIRST_RECORD_PAGE ≤ page_no q → q ≠ (fd_ s, num_pages h) →
          page_view (buffer_pool_manager_ s') q = page_view (buffer_pool_manager_ s) q).
Proof.
  intros Hok _ Hfree Hins. exact (insert_record_new_page_post s s' buf r Hok Hfree Hins).
Qed.

Lemma insert_record_takes_new_page_witness :
  let s := mkFH 3 (mkFileHdr 8 1 4 (-1) 1) (BPM.create 2 (mkDisk ∅ {[ 3 := 1 ]} 10)) in
  let buf := [1; 2; 3; 4; 5; 6; 7; 8] in
  file_hdr_ (snd (Rm.insert_record buf s)) = mkFileHdr 8 2 4 (-1) 1.
Proof.
  intros s buf.
  destruct (insert_record_takes_new_page s (snd (Rm.insert_record buf s)) buf (mkRid 1 0))
    as (_ & Hhdr & _).
  - apply fh_ok_fresh; [apply hdr_ok_four_slots|simpl; lia|reflexivity|simpl; lia|simpl; lia].
  - simpl. lia.
  - reflexivity.
  - by vm_compute.
  - exact Hhdr.
Defined.

(** X8.  [create_page_handle] hands out the page at [first_free_page_no]
    without looking at its capacity, so when that page is full (every one of
    its [num_records_per_page] bits is set, or its [num_records] is not
    below [num_records_per_page]) [insert_record(buf)] throws [RMDBError];
    the header and every data page are left as they were. *)
Theorem insert_record_full_head_throws (s : RmFileHandle) (buf : list Z) :
  fh_ok s →
  let h := file_hdr_ s in
  let p := first_free_page_no h in
  let d := page_view (buffer_pool_manager_ s) (fd_ s, p) in
  RM_FILE_HDR_PAGE < p < num_pages h →
  (∀ j, 0 ≤ j < num_records_per_page h → Bitmap.is_set PageHandle.bitmap j d = true)
  ∨ PageHandle.num_records d >= num_records_per_page h →
  let r := Rm.insert_record buf s in
  fst r = inl RMDBError ∧ fh_ok (snd r) ∧ file_hdr_ (snd r) = h ∧ same_pages s (snd r).
Proof.
  intros Hok h p d Hp Hfull r. subst h p d r.
  assert (first_free_page_no (file_hdr_ s) ≠ RM_NO_PAGE) as Hne
    by (unfold RM_NO_PAGE, RM_FILE_HDR_PAGE in *; lia).
  pose proof (create_page_handle_fetch s Hne) as Hcreate.
  destruct (Rm.fetch_page_handle (first_free_page_no (file_hdr_ s)) s)
    as [[e|f] s1] eqn:Hfetch.
  - destruct (fetch_page_handle_post s _ _ _ Hok Hfetch)
      as (_ & _ & _ & _ & _ & _ & -> & _).
    pose proof (fetch_page_handle_error _ _ _ _ Hp Hfetch) as ->.
    unfold Rm.insert_record, bind. rewrite Hcreate. simpl.
    do 3 (split; [done|]). apply same_pages_refl.
  - destruct (held_data s _ f s1 Hok Hfetch) as (Hdata & Hid & Hf & Hsized).
    destruct (fetch_page_handle_post s _ _ _ Hok Hfetch)
      as (_ & Hhdr1 & _ & _ & _ & _ & _ & _).
    destruct (fetch_unpin_exit s _ f s1 Hok Hfetch) as (Hok' & Hhdr' & Hsame & _).
    rewrite (insert_record_full buf s f s1 Hcreate Hf); [done|].
    rewrite Hhdr1, Hdata.
    destruct Hfull as [Hall|Hnum]; [left|by right].
    destruct (first_bit_cases (file_hdr_ s)
                (page_view (buffer_pool_manager_ s)
                   (fd_ s, first_free_page_no (file_hdr_ s))))
      as [Heq|(Hr & Hunset & _)]; [done|].
    rewrite Hall in Hunset by done. done.
Qed.

Lemma insert_record_full_head_throws_witness :
  let page := [1; 0; 0; 0; 255; 255; 255; 255; 128; 7; 7; 7; 7; 7; 7; 7; 7] in
  let s := mkFH 3 (mkFileHdr 8 2 1 1 1)
             (BPM.create 1 (mkDisk {[ (3, 1) := page ]} {[ 3 := 2 ]} 10)) in
  fst (Rm.insert_record [1; 2; 3; 4; 5; 6; 7; 8] s) = inl RMDBError.
Proof.
  intros page s.
  destruct (insert_record_full_head_throws s [1; 2; 3; 4; 5; 6; 7; 8]) as (Hr & _).
  - apply fh_ok_fresh; [|simpl; lia|reflexivity|simpl; lia|simpl; lia].
    split; simpl; unfold sizeof_RmPageHdr, PAGE_SIZE; lia.
  - simpl. unfold RM_FILE_HDR_PAGE. lia.
  - right. by vm_compute.
  - exact Hr.
Defined.

(** C7, at a failing input.  [create_page_handle] does not re-check the
    capacity of the page at [first_free_page_no].  In a new file with one
    record per page: two [insert_record] calls fill pages 1 and 2; deleting
    both records puts the pages on the free-page list, page 2 at the head
    and page 1 behind it; the positional [insert_record((1, 0), buf)] fills
    page 1 while it is not the head; the next [insert_record] fills page 2
    and makes page 1 the head.  Every call returned.  Now the head page is
    full, [create_page_handle] returns it as it is (no unset bit among its
    [num_records_per_page] bits), and [insert_record] throws [RMDBError] for
    want of a free slot, although a new page could be allocated. *)
Theorem create_page_handle_returns_full_head :
  let s0 := mkFH 3 (mkFileHdr 8 1 1 (-1) 1) (BPM.create 2 (mkDisk ∅ {[ 3 := 1 ]} 10)) in
  let buf := [1; 2; 3; 4; 5; 6; 7; 8] in
  let s1 := snd (Rm.insert_record buf s0) in
  let s2 := snd (Rm.insert_record buf s1) in
  let s3 := snd (Rm.delete_record (mkRid 1 0) s2) in
  let s4 := snd (Rm.delete_record (mkRid 2 0) s3) in
  let s5 := snd (Rm.insert_record_at (mkRid 1 0) buf s4) in
  let s6 := snd (Rm.insert_record buf s5) in
  let h := file_hdr_ s6 in
  let handed := Rm.create_page_handle s6 in
  (fst (Rm.insert_record buf s0) = inr (mkRid 1 0)
   ∧ fst (Rm.insert_record buf s1) = inr (mkRid 2 0)
   ∧ fst (Rm.delete_record (mkRid 1 0) s2) = inr tt
   ∧ fst (Rm.delete_record (mkRid 2 0) s3) = inr tt
   ∧ first_free_page_no (file_hdr_ s4) = 2
   ∧ PageHandle.next_free_page_no (page_view (buffer_pool_manager_ s4) (3, 2)) = 1
   ∧ fst (Rm.insert_record_at (mkRid 1 0) buf s4) = inr tt
   ∧ fst (Rm.insert_record buf s5) = inr (mkRid 2 0))
  ∧ first_free_page_no h = 1
  ∧ (∃ ph, fst handed = inr ph
           ∧ id_ (frame (buffer_pool_manager_ (snd handed)) ph) = (3, 1)
           ∧ PageHandle.num_records (data_ (frame (buffer_pool_manager_ (snd handed)) ph))
             = num_records_per_page h
           ∧ Bitmap.first_bit false PageHandle.bitmap (num_records_per_page h)
               (data_ (frame (buffer_pool_manager_ (snd handed)) ph))
             = num_records_per_page h)
  ∧ fst (Rm.insert_record buf s6) = inl RMDBError
  ∧ disk_room (disk_manager_ (buffer_pool_manager_ s6)) = 8%nat.
Proof.
  intros s0 buf s1 s2 s3 s4 s5 s6 h handed.
  split; [by vm_compute|]. split; [by vm_compute|].
  split; [exists 0%nat; by vm_compute|]. by vm_compute.
Qed.

(** X9.  [delete_record(rid)] on a page that was not full leaves the
    free-page list alone: when it returns, the file header (so
    [first_free_page_no]) and the page's [next_free_page_no] are as before;
    the slot's bit is cleared, no other bit changes, and [num_records] has
    gone down by one. *)
Theorem delete_record_keeps_free_list (s s' : RmFileHandle) (rid : Rid) :
  fh_ok s → Rm.delete_record rid s = (inr tt, s') →
  let h := file_hdr_ s in
  let d := page_view (buffer_pool_manager_ s) (fd_ s, rpage_no rid) in
  let d' := page_view (buffer_pool_manager_ s') (fd_ s, rpage_no rid) in
  page_consistent h d →
  PageHandle.num_records d ≠ num_records_per_page h →
  file_hdr_ s' = h
  ∧ PageHandle.next_free_page_no d' = PageHandle.next_free_page_no d
  ∧ PageHandle.num_records d' = PageHandle.num_records d - 1
  ∧ Bitmap.is_set PageHandle.bitmap (slot_no rid) d' = false
  ∧ (∀ j, 0 ≤ j → j ≠ slot_no rid →
          Bitmap.is_set PageHandle.bitmap j d' = Bitmap.is_set PageHandle.bitmap j d).
Proof.
  intros Hok Hop h d d' Hcons Hnf. subst h d d'.
  destruct (delete_record_post s rid _ _ Hok Hop)
    as (Hok' & _ & _ & Hp & Hs & Hset & Hd & Hhdr & Hw).
  pose proof (fo_hdr _ Hok) as Hh.
  rewrite (bool_decide_eq_false_2 _ Hnf) in Hhdr, Hw.
  destruct Hw as (_ & _ & -> & _).
  pose proof (consistent_range _ Hh _ Hcons) as Hrange.
  split; [done|]. split; [by apply (delete_bytes_next_free (file_hdr_ s) Hh)|].
  split; [apply (delete_bytes_num_records (file_hdr_ s) Hh); (done || lia)|].
  split.
  - rewrite (delete_bytes_is_set (file_hdr_ s) Hh) by (done || lia). by rewrite decide_True.
  - intros j Hj Hne. rewrite (delete_bytes_is_set (file_hdr_ s) Hh) by (done || lia).
    by rewrite decide_False.
Qed.

Lemma delete_record_keeps_free_list_witness :
  let page := [1; 0; 0; 0; 255; 255; 255; 255; 128; 7; 7; 7; 7; 7; 7; 7; 7] in
  let s := mkFH 3 (mkFileHdr 8 2 4 1 1)
             (BPM.create 1 (mkDisk {[ (3, 1) := page ]} {[ 3 := 2 ]} 10)) in
  file_hdr_ (snd (Rm.delete_record (mkRid 1 0) s)) = mkFileHdr 8 2 4 1 1.
Proof.
  intros page s.
  destruct (delete_record_keeps_free_list s (snd (Rm.delete_record (mkRid 1 0) s)) (mkRid 1 0))
    as (Hhdr & _).
  - apply fh_ok_fresh; [apply hdr_ok_four_slots|simpl; lia|reflexivity|simpl; lia|simpl; lia].
  - by vm_compute.
  - by vm_compute.
  - by vm_compute.
  - exact Hhdr.
Defined.

(* ================================================================= *)
(** * The record scan *)

Section scan_lists.

Implicit Types (s : RmFileHandle) (d : list Z) (r : Rid) (p slot n j : Z).

Local Notation bpm := buffer_pool_manager_.

Lemma next_bit_after_slots d n slot :
  Bitmap.next_bit true PageHandle.bitmap n slot d
  = default n (head (after_slots d n slot)).
Proof. by rewrite next_bit_spec. Qed.

Lemma elem_of_after_slots d n slot j :
  j ∈ after_slots d n slot
  ↔ slot < j < n ∧ Bitmap.is_set PageHandle.bitmap j d = true.
Proof.
  unfold after_slots. rewrite list_elem_of_filter, elem_of_seqZ. split.
  - intros [? ?]. split; [lia|done].
  - intros [? ?]. split; [done|lia].
Qed.

Lemma filter_seqZ_cons (P : Z → Prop) `{!∀ x, Decision (P x)} (k : nat) :
  ∀ a j js, filter P (seqZ a (Z.of_nat k)) = j :: js →
    a ≤ j < a + Z.of_nat k
    ∧ filter P (seqZ (j + 1) (a + Z.of_nat k - (j + 1))) = js.
Proof.
  induction k as [|k IH]; intros a j js; [done|].
  rewrite seqZ_cons by lia.
  replace (Z.pred (Z.of_nat (S k))) with (Z.of_nat k) by lia.
  destruct (decide (P a)) as [Ha|Ha].
  - rewrite filter_cons_True by done. intros [= <- <-]. split; [lia|].
    f_equal. f_equal. lia.
  - rewrite filter_cons_False by done. intros Heq.
    destruct (IH _ _ _ Heq) as [Hj Hjs]. split; [lia|].
    rewrite <- Hjs. f_equal. f_equal. lia.
Qed.

Lemma after_slots_cons d n slot j js :
  after_slots d n slot = j :: js →
  slot < j < n ∧ after_slots d n j = js.
Proof.
  unfold after_slots. intros Heq.
  destruct (decide (0 ≤ n - (slot + 1))) as [Hn|Hn];
    [|by rewrite seqZ_nil in Heq by lia].
  rewrite <- (Z2Nat.id (n - (slot + 1))) in Heq by done.
  apply filter_seqZ_cons in Heq as [Hj Hjs]. rewrite Z2Nat.id in * by done.
  split; [lia|]. rewrite <- Hjs. f_equal. f_equal. lia.
Qed.

Lemma filter_seqZ_sorted (P : Z → Prop) `{!∀ x, Decision (P x)} (k : nat) :
  ∀ a, StronglySorted Z.lt (filter P (seqZ a (Z.of_nat k))).
Proof.
  induction k as [|k IH]; intros a; [constructor|].
  rewrite seqZ_cons by lia.
  replace (Z.pred (Z.of_nat (S k))) with (Z.of_nat k) by lia.
  destruct (decide (P a)) as [Ha|Ha].
  - rewrite filter_cons_True by done. constructor; [apply IH|].
    apply Forall_forall. intros x [_ Hx%elem_of_seqZ]%list_elem_of_filter. lia.
  - rewrite filter_cons_False by done. apply IH.
Qed.

Lemma after_slots_sorted d n slot : StronglySorted Z.lt (after_slots d n slot).
Proof.
  unfold after_slots.
  destruct (decide (0 ≤ n - (slot + 1))) as [Hn|Hn];
    [|rewrite seqZ_nil by lia; constructor].
  rewrite <- (Z2Nat.id (n - (slot + 1))) by done.
  apply filter_seqZ_sorted.
Qed.

(** What the list [rids_after] holds. *)
Lemma elem_of_rids_after s (k : nat) : ∀ p slot r,
  r ∈ rids_after s p slot k
  ↔ (rpage_no r = p ∧ slot < slot_no r ∨ p < rpage_no r)
    ∧ rpage_no r < p + Z.of_nat k
    ∧ slot_no r < num_records_per_page (file_hdr_ s)
    ∧ (p < rpage_no r → 0 ≤ slot_no r)
    ∧ Bitmap.is_set PageHandle.bitmap (slot_no r)
        (page_view (bpm s) (fd_ s, rpage_no r)) = true.
Proof.
  induction k as [|k IH]; intros p slot r; simpl.
  - split; [by intros ?%elem_of_nil|]. lia.
  - rewrite elem_of_app, list_elem_of_fmap, IH. split.
    + intros [(j & -> & Hj%elem_of_after_slots)|Hr]; simpl.
      * split; [left; lia|]. split; [lia|]. split; [lia|]. split; [lia|]. tauto.
      * destruct Hr as ([[-> ?]|?] & ? & ? & ? & ?);
          (split; [right; lia|]); (split; [lia|]); (split; [done|]);
          (split; [lia|done]).
    + intros ([[Hp Hs]|Hp] & Hk & Hn & H0 & Hset).
      * left. exists (slot_no r). split; [destruct r; simpl in *; by subst|].
        apply elem_of_after_slots. rewrite <- Hp. split; [lia|done].
      * right. split; [|split; [lia|]; split; [done|]; split; [lia|done]].
        destruct (decide (rpage_no r = p + 1)) as [Heq|Hne]; [left|right; lia].
        split; [done|]. lia.
Qed.

Lemma rids_after_sorted s (k : nat) : ∀ p slot,
  StronglySorted rid_lt (rids_after s p slot k).
Proof.
  induction k as [|k IH]; intros p slot; simpl; [constructor|].
  apply StronglySorted_app_2.
  - intros x y (j & -> & _)%list_elem_of_fmap Hy%elem_of_rids_after.
    left. simpl. lia.
  - apply (StronglySorted_fmap _ Z.lt); [|apply after_slots_sorted].
    intros x y Hxy. right. simpl. lia.
  - apply IH.
Qed.

(** The Rids after the first of the list are the rest of the list. *)
Lemma rids_after_cons s (k : nat) : ∀ p slot r tl,
  rids_after s p slot k = r :: tl →
  ∃ k' : nat, rids_after s (rpage_no r) (slot_no r) k' = tl
              ∧ Z.of_nat k' = Z.of_nat k - (rpage_no r - p)
              ∧ p ≤ rpage_no r.
Proof.
  induction k as [|k IH]; intros p slot r tl; simpl; [done|].
  destruct (after_slots (page_view (bpm s) (fd_ s, p))
              (num_records_per_page (file_hdr_ s)) slot) as [|j js] eqn:Hslots.
  - simpl. intros Heq. destruct (IH _ _ _ _ Heq) as (k' & Htl & Hk' & Hp).
    exists k'. split; [done|]. lia.
  - simpl. intros [= <- <-]. apply after_slots_cons in Hslots as [Hj Hjs].
    exists (S k). simpl. rewrite Hjs. split; [done|]. lia.
Qed.

(** Handles that show the same pages list the same Rids. *)
Lemma rids_after_ext s s' (k : nat) :
  same_pages s s' → file_hdr_ s' = file_hdr_ s →
  ∀ p slot, RM_FIRST_RECORD_PAGE ≤ p →
    rids_after s' p slot k = rids_after s p slot k.
Proof.
  intros (Hfd & _ & Hview) Hhdr. induction k as [|k IH]; intros p slot Hp; [done|].
  simpl. rewrite Hfd, Hhdr, Hview by done. rewrite IH by lia. done.
Qed.

End scan_lists.

Section scan_steps.

Implicit Types (s fh : RmFileHandle) (d : list Z) (r : Rid) (p slot n j : Z).

Local Notation bpm := buffer_pool_manager_.

Lemma same_pages_trans s1 s2 s3 :
  same_pages s1 s2 → same_pages s2 s3 → same_pages s1 s3.
Proof.
  intros (Hfd1 & Hlen1 & Hv1) (Hfd2 & Hlen2 & Hv2).
  split; [by rewrite Hfd2|]. split; [by rewrite Hlen2|].
  intros q Hq. by rewrite Hv2, Hv1.
Qed.

Lemma next_loop_S (k : nat) hdr r fh :
  Scan.next_loop (S k) hdr r fh
  = if decide (rpage_no r < num_pages hdr ∧ rpage_no r >= RM_FIRST_RECORD_PAGE) then
      match Rm.fetch_page_handle (rpage_no r) fh with
      | (inl e, fh1) => (Some e, r, fh1)
      | (inr ph, fh1) =>
          let d := data_ (frame (bpm fh1) ph) in
          let next_slot :=
            Bitmap.next_bit true PageHandle.bitmap (num_records_per_page hdr)
              (slot_no r) d in
          let fh2 := snd (unpin ph false fh1) in
          if decide (next_slot < num_records_per_page hdr) then
            (None, mkRid (rpage_no r) next_slot, fh2)
          else Scan.next_loop k hdr (mkRid (rpage_no r + 1) (-1)) fh2
      end
    else (None, mkRid RM_NO_PAGE (-1), fh).
Proof. reflexivity. Qed.

(** The loop of [next]: it stops at the first record after the cursor, or
    at the end, and leaves the file as it was with no page pinned. *)
Lemma next_loop_spec (k : nat) : ∀ p slot fh,
  fh_ok fh → quiet_but (bpm fh) None → (0 < length (pages_ (bpm fh)))%nat →
  RM_FIRST_RECORD_PAGE ≤ p → k = Z.to_nat (num_pages (file_hdr_ fh) - p) →
  ∃ fh', Scan.next_loop k (file_hdr_ fh) (mkRid p slot) fh
         = (None, default rid_end (head (rids_after fh p slot k)), fh')
         ∧ fh_ok fh' ∧ file_hdr_ fh' = file_hdr_ fh ∧ same_pages fh fh'
         ∧ quiet_but (bpm fh') None.
Proof.
  induction k as [|k IH]; intros p slot fh Hok Hquiet Hlen Hp Hk.
  { exists fh. split; [done|]. do 2 (split; [done|]). split; [apply same_pages_refl|done]. }
  rewrite next_loop_S. cbn [rpage_no slot_no].
  rewrite decide_True by lia.
  assert (RM_FILE_HDR_PAGE < p < num_pages (file_hdr_ fh)) as Hin
    by (unfold RM_FIRST_RECORD_PAGE, RM_FILE_HDR_PAGE in *; lia).
  destruct (Rm.fetch_page_handle p fh) as [[e|f] fh1] eqn:Hfetch.
  { destruct (fetch_page_handle_post fh _ _ _ Hok Hfetch)
      as (_ & _ & _ & _ & _ & _ & _ & Hq).
    destruct (Hq Hquiet Hlen Hin) as (f & Hf & _). done. }
  destruct (held_data fh _ f fh1 Hok Hfetch) as (Hdata & _).
  destruct (fetch_unpin_exit fh _ f fh1 Hok Hfetch) as (Hok2 & Hhdr2 & Hsame2 & Hq2).
  cbv zeta. rewrite Hdata, next_bit_after_slots.
  set (fh2 := snd (unpin f false fh1)) in *.
  cbn [rids_after].
  destruct (after_slots (page_view (bpm fh) (fd_ fh, p))
              (num_records_per_page (file_hdr_ fh)) slot) as [|j js] eqn:Hslots.
  - simpl. rewrite decide_False by lia.
    destruct (IH (p + 1) (-1) fh2 Hok2 (Hq2 Hquiet)) as (fh' & Heq & Hok' & Hhdr' & Hsame' & Hq');
      [destruct Hsame2 as (_ & Hl & _); lia|lia|rewrite Hhdr2; lia|].
    exists fh'. rewrite Hhdr2 in Heq. rewrite Heq.
    rewrite (rids_after_ext fh fh2) by (done || lia).
    split; [done|]. split; [done|]. split; [by rewrite Hhdr', Hhdr2|].
    split; [by apply (same_pages_trans _ fh2)|done].
  - apply after_slots_cons in Hslots as [Hj _].
    simpl. rewrite decide_True by lia.
    exists fh2. split; [done|]. split; [done|]. split; [done|]. split; [done|].
    by apply Hq2.
Qed.

Lemma next_spec fh p slot :
  fh_ok fh → quiet_but (bpm fh) None → (0 < length (pages_ (bpm fh)))%nat →
  RM_FIRST_RECORD_PAGE ≤ p →
  ∃ fh', Scan.next (mkScan (Some fh) (mkRid p slot))
         = (None,
            mkScan (Some fh')
              (default rid_end
                 (head (rids_after fh p slot
                          (Z.to_nat (num_pages (file_hdr_ fh) - p))))))
         ∧ fh_ok fh' ∧ file_hdr_ fh' = file_hdr_ fh ∧ same_pages fh fh'
         ∧ quiet_but (bpm fh') None.
Proof.
  intros Hok Hquiet Hlen Hp.
  destruct (next_loop_spec _ p slot fh Hok Hquiet Hlen Hp eq_refl)
    as (fh' & Heq & Hrest).
  exists fh'. split; [|done].
  unfold Scan.next, Scan.is_end. cbn [rid_ rpage_no file_handle_].
  rewrite decide_False by (unfold RM_NO_PAGE, RM_FIRST_RECORD_PAGE in *; lia).
  rewrite bool_decide_eq_false_2 by (unfold RM_NO_PAGE, RM_FIRST_RECORD_PAGE in *; lia).
  by rewrite Heq.
Qed.

Lemma scan_from_end fuel fh :
  scan_from fuel (mkScan (Some fh) rid_end) = Done ([], mkScan (Some fh) rid_end).
Proof. by destruct fuel. Qed.

Lemma scan_from_S fuel sc :
  Scan.is_end sc = false →
  scan_from (S fuel) sc
  = match Scan.next sc with
    | (Some e, _) => Threw e
    | (None, sc') =>
        match scan_from fuel sc' with
        | Done (rids, sc'') => Done (Scan.rid sc :: rids, sc'')
        | Threw e => Threw e
        | OutOfFuel => OutOfFuel
        end
    end.
Proof. intros Hend. simpl. by rewrite Hend. Qed.

(** The loop of a full scan from a record: it visits that record and the
    records after it. *)
Lemma scan_from_spec (rest : list Rid) : ∀ fuel fh r,
  fh_ok fh → quiet_but (bpm fh) None → (0 < length (pages_ (bpm fh)))%nat →
  RM_FIRST_RECORD_PAGE ≤ rpage_no r →
  rids_after fh (rpage_no r) (slot_no r)
    (Z.to_nat (num_pages (file_hdr_ fh) - rpage_no r)) = rest →
  (length rest < fuel)%nat →
  ∃ fh', scan_from fuel (mkScan (Some fh) r) = Done (r :: rest, mkScan (Some fh') rid_end)
         ∧ fh_ok fh' ∧ file_hdr_ fh' = file_hdr_ fh ∧ same_pages fh fh'
         ∧ quiet_but (bpm fh') None.
Proof.
  induction rest as [|r1 tl IH]; intros fuel fh r Hok Hquiet Hlen Hp Hrest Hfuel.
  - destruct fuel as [|fuel]; [simpl in Hfuel; lia|].
    destruct (next_spec fh (rpage_no r) (slot_no r) Hok Hquiet Hlen Hp)
      as (fh' & Hnext & Hgood).
    rewrite Hrest in Hnext. simpl in Hnext.
    exists fh'. split; [|done]. rewrite scan_from_S.
    + destruct r. simpl in *. rewrite Hnext. by rewrite scan_from_end.
    + unfold Scan.is_end. simpl.
      rewrite decide_False by (unfold RM_NO_PAGE, RM_FIRST_RECORD_PAGE in *; lia).
      apply bool_decide_eq_false_2. unfold RM_NO_PAGE, RM_FIRST_RECORD_PAGE in *. lia.
  - destruct fuel as [|fuel]; [simpl in Hfuel; lia|].
    destruct (next_spec fh (rpage_no r) (slot_no r) Hok Hquiet Hlen Hp)
      as (fh' & Hnext & Hok' & Hhdr' & Hsame' & Hq').
    rewrite Hrest in Hnext. simpl in Hnext.
    destruct (rids_after_cons _ _ _ _ _ _ Hrest) as (k' & Htl & Hk' & Hp1).
    assert (k' = Z.to_nat (num_pages (file_hdr_ fh) - rpage_no r1)) as Hk1.
    { destruct (Z.to_nat (num_pages (file_hdr_ fh) - rpage_no r)) as [|k0] eqn:Hk0;
        [done|]. lia. }
    destruct (IH fuel fh' r1) as (fh'' & Hscan & Hok'' & Hhdr'' & Hsame'' & Hq'');
      [done|done|destruct Hsame' as (_ & Hl & _); lia|lia| |simpl in Hfuel; lia|].
    { rewrite Hhdr', <- Hk1. rewrite (rids_after_ext fh fh') by (done || lia). done. }
    exists fh''. split.
    + rewrite scan_from_S.
      * destruct r. simpl in *. rewrite Hnext. by rewrite Hscan.
      * unfold Scan.is_end. simpl.
        rewrite decide_False by (unfold RM_NO_PAGE, RM_FIRST_RECORD_PAGE in *; lia).
        apply bool_decide_eq_false_2. unfold RM_NO_PAGE, RM_FIRST_RECORD_PAGE in *. lia.
    + split; [done|]. split; [by rewrite Hhdr''|].
      split; [by apply (same_pages_trans _ fh')|done].
Qed.

Lemma full_scan_spec fh fuel :
  fh_ok fh → quiet_but (bpm fh) None → (0 < length (pages_ (bpm fh)))%nat →
  (length (live_rids fh) ≤ fuel)%nat →
  ∃ fh', full_scan fuel fh = Done (live_rids fh, mkScan (Some fh') rid_end)
         ∧ fh_ok fh' ∧ file_hdr_ fh' = file_hdr_ fh ∧ same_pages fh fh'
         ∧ quiet_but (bpm fh') None.
Proof.
  intros Hok Hquiet Hlen Hfuel.
  destruct (next_spec fh RM_FIRST_RECORD_PAGE (-1) Hok Hquiet Hlen ltac:(done))
    as (fh' & Hnext & Hok' & Hhdr' & Hsame' & Hq').
  fold (live_rids fh) in Hnext.
  unfold full_scan, Scan.create. rewrite Hnext.
  destruct (live_rids fh) as [|r0 tl] eqn:Hlive.
  - exists fh'. simpl. by rewrite scan_from_end.
  - simpl. unfold live_rids in Hlive.
    destruct (rids_after_cons _ _ _ _ _ _ Hlive) as (k' & Htl & Hk' & Hp1).
    assert (k' = Z.to_nat (num_pages (file_hdr_ fh) - rpage_no r0)) as Hk1.
    { destruct (Z.to_nat (num_pages (file_hdr_ fh) - RM_FIRST_RECORD_PAGE)) as [|k0] eqn:Hk0;
        [done|]. lia. }
    destruct (scan_from_spec tl fuel fh' r0) as (fh'' & Hscan & Hok'' & Hhdr'' & Hsame'' & Hq'');
      [done|done|destruct Hsame' as (_ & Hl & _); lia|lia| |simpl in Hfuel; lia|].
    { rewrite Hhdr', <- Hk1. rewrite (rids_after_ext fh fh') by (done || lia). done. }
    exists fh''. split; [done|]. split; [done|]. split; [by rewrite Hhdr''|].
    split; [by apply (same_pages_trans _ fh')|done].
Qed.

End scan_steps.

Section scan_after_inserts.

Implicit Types (s fh : RmFileHandle) (d buf : list Z) (r : Rid) (p slot n j : Z).

Local Notation bpm := buffer_pool_manager_.







End scan_after_inserts.

(** X10.  A full scan (construct [RmScan], then read [rid()] and call
    [next()] until [is_end()]) over a file whose pool has a frame and is in
    a state [quiet_but _ None] (the pool invariant holds: every frame is in
    exactly one of the free list and the page table, and in the replacer
    exactly when it is in the page table; and no cached page is pinned)
    returns, given fuel for as many steps as there are records, exactly
    the records of the file: the Rids [(p, i)] with [p] a
    data page of the file, [0 <= i < num_records_per_page] and bit [i] of
    page [p] set, each once, in strictly increasing (page_no, slot_no)
    order.  The cursor then holds [(RM_NO_PAGE, -1)] (so [is_end()] is
    true; on a file without records this is the state right after
    construction), and the scan has left the header and every data page as
    they were and the pool in a state [quiet_but _ None] again. *)
Theorem full_scan_visits_live_records (fh : RmFileHandle) (fuel : nat) :
  fh_ok fh → quiet_but (buffer_pool_manager_ fh) None →
  (0 < length (pages_ (buffer_pool_manager_ fh)))%nat →
  (length (live_rids fh) ≤ fuel)%nat →
  (∃ fh', full_scan fuel fh = Done (live_rids fh, mkScan (Some fh') rid_end)
          ∧ Scan.is_end (mkScan (Some fh') rid_end) = true
          ∧ file_hdr_ fh' = file_hdr_ fh ∧ same_pages fh fh'
          ∧ quiet_but (buffer_pool_manager_ fh') None)
  ∧ (∀ r, r ∈ live_rids fh
          ↔ RM_FIRST_RECORD_PAGE ≤ rpage_no r < num_pages (file_hdr_ fh)
            ∧ 0 ≤ slot_no r < num_records_per_page (file_hdr_ fh)
            ∧ Bitmap.is_set PageHandle.bitmap (slot_no r)
                (page_view (buffer_pool_manager_ fh) (fd_ fh, rpage_no r)) = true)
  ∧ StronglySorted rid_lt (live_rids fh).
Proof.
  intros Hok Hquiet Hlen Hfuel. split; [|split].
  - destruct (full_scan_spec fh fuel Hok Hquiet Hlen Hfuel)
      as (fh' & Hscan & _ & Hhdr & Hsame & Hq).
    exists fh'. done.
  - intros r. unfold live_rids. rewrite elem_of_rids_after.
    unfold RM_FIRST_RECORD_PAGE. split.
    + intros (Hp & Hk & Hn & H0 & Hset). split; [lia|]. split; [lia|done].
    + intros (Hp & Hs & Hset). split; [lia|]. split; [lia|]. split; [lia|].
      split; [lia|done].
  - apply rids_after_sorted.
Qed.

Lemma full_scan_visits_live_records_witness :
  let page := [1; 0; 0; 0; 255; 255; 255; 255; 128; 7; 7; 7; 7; 7; 7; 7; 7] in
  let s := mkFH 3 (mkFileHdr 8 2 1 (-1) 1)
             (BPM.create 1 (mkDisk {[ (3, 1) := page ]} {[ 3 := 2 ]} 10)) in
  ∃ sc, full_scan 1 s = Done ([mkRid 1 0], sc).
Proof.
  intros page s.
  destruct (full_scan_visits_live_records s 1) as ((fh' & Hscan & _) & _).
  - apply fh_ok_fresh; [apply hdr_ok_one_slot|simpl; lia|reflexivity|simpl; lia|simpl; lia].
  - apply quiet_create.
  - simpl. lia.
  - vm_compute. lia.
  - eexists. rewrite Hscan. f_equal.
Defined.






(* ================================================================= *)
(** * The pool invariant along the pool's operations *)

Section pool_invariant_steps.

Implicit Types (b : BufferPoolManager) (f g v : frame_id_t) (pid q : Z * Z) (p : Page).

Lemma touched_pool_inv b b' f p r' :
  touched b f p r' b' → pool_inv b →
  (∀ g, g ≠ f → g ∈ LRUhash_ r' ↔ g ∈ LRUhash_ (replacer_ b)) →
  (f ∈ LRUhash_ r' ↔ in_table b f ∧ pin_count_ p = 0) →
  pool_inv b'.
Proof.
  intros Htc Hinv Hoth Hself g. rewrite (touched_length _ _ _ _ _ Htc). intros Hg.
  destruct (Hinv g Hg) as (Hone & Hexcl & Hrep).
  rewrite (tc_free _ _ _ _ _ Htc), (touched_in_table _ _ _ _ _ Htc),
    (tc_replacer _ _ _ _ _ Htc).
  split; [done|]. split; [done|].
  destruct (decide (g = f)) as [->|Hne].
  - by rewrite (touched_frame_self _ _ _ _ _ Htc).
  - rewrite (touched_frame_other _ _ _ _ _ Htc) by done. by rewrite Hoth.
Qed.

Lemma rebound_pool_inv b b' v pid X D :
  bpm_ok b → rebound b v pid X D b' → pool_inv b → pool_inv b'.
Proof.
  intros Hok Hrb Hinv f. rewrite (rebound_length _ _ _ _ _ _ Hrb). intros Hf.
  destruct (Hinv f Hf) as (Hone & Hexcl & Hrep).
  rewrite (rb_free _ _ _ _ _ _ Hrb), (rebound_in_table _ _ _ _ _ _ Hok Hrb),
    (rb_replacer _ _ _ _ _ _ Hrb).
  destruct (ok_free b Hok) as [Hnd Hmem].
  pose proof (rb_victim _ _ _ _ _ _ Hrb) as Hvic.
  assert (v ∉ tail (free_list_ b)) as Hvt.
  { destruct Hvic as [Hh|[Hnil Hlast]].
    - destruct (free_list_ b) as [|x fl]; [done|]. injection Hh as Hxv.
      apply NoDup_cons in Hnd as [Hx _]. simpl. by rewrite <- Hxv.
    - rewrite Hnil. apply not_elem_of_nil. }
  assert (∀ x, x ∈ tail (free_list_ b) → x ∈ free_list_ b) as Htl.
  { intros x Hx. destruct (free_list_ b); [done|]. by right. }
  assert (f ∈ free_list_ b → f ≠ v → f ∈ tail (free_list_ b)) as Hfree.
  { intros Hin Hne. destruct Hvic as [Hh|[Hnil Hlast]].
    - destruct (free_list_ b) as [|x fl]; [done|]. injection Hh as Hxv.
      simpl. apply elem_of_cons in Hin as [->|]; [congruence|done].
    - rewrite Hnil in Hin. by apply elem_of_nil in Hin. }
  destruct (decide (f = v)) as [->|Hne].
  - split; [by right; left|]. split; [tauto|].
    rewrite (rebound_frame_self _ _ _ _ _ _ Hok Hrb). simpl. split.
    + intros [_ ?]. done.
    + intros [_ ?]. done.
  - rewrite (rebound_frame_other _ _ _ _ _ _ Hrb) by done.
    split; [destruct Hone; [left; auto|right; right; done]|].
    split; [intros [Hin [?|[? _]]]; [done|apply Hexcl; auto]|].
    rewrite Hrep. split.
    + intros [[Hin Hpin] _]. split; [by right|done].
    + intros [[?|[Hin _]] Hpin]; [done|]. split; [|done]. done.
Qed.

Lemma with_disk_bpm_ok b d' :
  bpm_ok b →
  (∀ x, Disk.next_page_no x d' = Disk.next_page_no x (disk_manager_ b)) →
  bpm_ok (with_disk d' b).
Proof.
  intros [Hdata Htab Hbound Hlru Hrepl Hfree Halloc Hpins] Hnext.
  split; try done. intros q g Hq. simpl. rewrite Hnext. by apply (Halloc q g).
Qed.

(** Writing a frame back and clearing its dirty flag. *)
Lemma flush_frame_inv b f d' :
  bpm_ok b →
  (∀ x, Disk.next_page_no x d' = Disk.next_page_no x (disk_manager_ b)) →
  let b' := set_frame f (set_dirty false (frame b f)) (with_disk d' b) in
  bpm_ok b' ∧ (pool_inv b → pool_inv b').
Proof.
  intros Hok Hnext b'. pose proof (with_disk_bpm_ok b d' Hok Hnext) as Hok1.
  destruct (decide (f < length (pages_ b))%nat) as [Hf|Hf].
  - assert (touched (with_disk d' b) f (set_dirty false (frame b f)) (replacer_ b) b')
      as Htc.
    { split; try done. apply (frame_sized b f Hok Hf). }
    split.
    + apply (touched_bpm_ok _ _ _ _ _ Hok1 Htc); [apply Hok|apply (ok_pins b Hok)|].
      intros g Hg. destruct (decide (g = f)) as [->|Hne]; [right|by left].
      destruct (ok_replacer b Hok f Hg) as (_ & Hin & Hpin). done.
    + intros Hinv. apply (touched_pool_inv _ _ _ _ _ Htc); [done|done|].
      simpl. destruct (Hinv f Hf) as (_ & _ & Hrep). exact Hrep.
  - assert (b' = with_disk d' b) as ->; [|done].
    unfold b', set_frame, with_pages. rewrite list_insert_ge by (simpl; lia).
    by destruct b.
Qed.

Lemma fetch_page_inv b pid :
  bpm_ok b → page_no pid ≠ INVALID_PAGE_ID →
  page_no pid < Disk.next_page_no (fd pid) (disk_manager_ b) →
  bpm_ok (snd (BPM.fetch_page pid b))
  ∧ (pool_inv b → pool_inv (snd (BPM.fetch_page pid b))).
Proof.
  intros Hok Hvalid Halloc.
  destruct (page_table_ b !! pid) as [f|] eqn:Hpt.
  - rewrite (fetch_page_hit _ _ _ Hpt). simpl.
    destruct (ok_table b Hok _ _ Hpt) as (Hf & Hid & _).
    pose proof (ok_pins b Hok f) as Hpin.
    set (p := set_pin_count (pin_count_ (frame b f) + 1) (frame b f)).
    set (b' := with_replacer _ _).
    assert (touched b f p (LRU.pin f (replacer_ b)) b') as Htc.
    { split; try done. apply (frame_sized b f Hok Hf). }
    split.
    + apply (touched_bpm_ok _ _ _ _ _ Hok Htc);
        [apply lru_wf_pin, Hok|simpl; lia|].
      intros g Hg%pin_elem. by left.
    + intros Hinv. apply (touched_pool_inv _ _ _ _ _ Htc); [done| |].
      * intros g Hne. rewrite pin_elem. tauto.
      * rewrite pin_elem. simpl. split; [tauto|]. intros [_ ?]. lia.
  - destruct (chosen_victim_dec b) as [[v Hv]|Hno].
    + destruct (fetch_page_miss b pid v Hok Hpt Hvalid Halloc Hv) as (b' & -> & Hrb & _).
      simpl. split; [by eapply rebound_bpm_ok|intros Hinv; by eapply rebound_pool_inv].
    + by rewrite (fetch_page_no_victim _ _ Hpt Hno).
Qed.

Lemma unpin_page_inv b pid is_dirty :
  bpm_ok b →
  bpm_ok (snd (BPM.unpin_page pid is_dirty b))
  ∧ (pool_inv b → pool_inv (snd (BPM.unpin_page pid is_dirty b))).
Proof.
  intros Hok.
  destruct (page_table_ b !! pid) as [f|] eqn:Hpt;
    [|by rewrite (unpin_page_absent _ _ _ Hpt)].
  destruct (decide (pin_count_ (frame b f) ≤ 0)) as [Hle|Hgt];
    [by rewrite (unpin_page_not_pinned _ _ _ _ Hpt Hle)|].
  rewrite (unpin_page_pinned _ is_dirty _ _ Hpt) by lia. cbv zeta. simpl snd.
  destruct (ok_table b Hok _ _ Hpt) as (Hf & Hid & _).
  assert (f ∉ LRUhash_ (replacer_ b)) as Hnot.
  { intros Hin. destruct (ok_replacer b Hok f Hin) as (_ & _ & ?). lia. }
  set (p := mkPage (id_ (frame b f)) (data_ (frame b f))
              (is_dirty_ (frame b f) || is_dirty) (pin_count_ (frame b f) - 1)).
  set (r' := if decide (pin_count_ (frame b f) = 1)
             then LRU.unpin f (replacer_ b) else replacer_ b).
  set (b' := if decide (pin_count_ (frame b f) = 1) then _ else _).
  assert (touched b f p r' b') as Htc.
  { unfold b', r'. destruct (decide (pin_count_ (frame b f) = 1));
      (split; try done; apply (frame_sized b f Hok Hf)). }
  assert (∀ g, g ∈ LRUhash_ r'
               ↔ g ∈ LRUhash_ (replacer_ b)
                 ∨ (g = f ∧ pin_count_ (frame b f) = 1)) as Hr'.
  { intros g. unfold r'. destruct (decide (pin_count_ (frame b f) = 1)).
    - rewrite unpin_other. tauto.
    - tauto. }
  split.
  - apply (touched_bpm_ok _ _ _ _ _ Hok Htc).
    + unfold r'. destruct (decide _); [apply lru_wf_unpin|]; apply Hok.
    + simpl. lia.
    + intros g [Hg|[-> Hone]]%Hr'.
      * left. split; [done|]. by intros ->.
      * right. split; [done|]. simpl. split; [lia|]. by rewrite Hid.
  - intros Hinv. apply (touched_pool_inv _ _ _ _ _ Htc); [done| |].
    + intros g Hne. rewrite Hr'. tauto.
    + rewrite Hr'. simpl. split.
      * intros [?|[_ ?]]; [done|]. split; [by exists pid|lia].
      * intros [_ ?]. right. split; [done|lia].
Qed.

Lemma flush_page_inv b pid :
  bpm_ok b →
  bpm_ok (snd (BPM.flush_page pid b))
  ∧ (pool_inv b → pool_inv (snd (BPM.flush_page pid b))).
Proof.
  intros Hok. unfold BPM.flush_page.
  destruct (page_table_ b !! pid) as [f|] eqn:Hpt; [|done]. simpl.
  by apply flush_frame_inv.
Qed.

Lemma new_page_inv b x y :
  bpm_ok b →
  ((∃ v, chosen_victim b v) →
   fst (Disk.allocate_page x (disk_manager_ b)) ≠ INVALID_PAGE_ID) →
  bpm_ok (snd (BPM.new_page (x, y) b))
  ∧ (pool_inv b → pool_inv (snd (BPM.new_page (x, y) b))).
Proof.
  intros Hok Halloc.
  destruct (chosen_victim_dec b) as [[v Hv]|Hno].
  - destruct (Disk.allocate_page x (disk_manager_ b)) as [n d1] eqn:Hal.
    specialize (Halloc (ex_intro _ v Hv)). simpl in Halloc.
    destruct (new_page_success b x y v n d1 Hok Hv Hal Halloc) as (b' & -> & Hrb & _).
    simpl. split; [by eapply rebound_bpm_ok|intros Hinv; by eapply rebound_pool_inv].
  - unfold BPM.new_page. by rewrite (find_victim_page_none _ Hno).
Qed.

(** Unbinding an unpinned frame and putting it on the free list, the
    second half of [delete_page]. *)
Lemma unbind_inv b pid f :
  bpm_ok b → page_table_ b !! pid = Some f →
  let b2 := with_page_table (delete pid (page_table_ b)) b in
  let p2 := frame b2 f in
  let b3 := set_frame f
              (reset_memory (set_dirty false (set_pin_count 0
                 (set_id (fd (id_ p2), INVALID_PAGE_ID) p2)))) b2 in
  let b4 := with_replacer (LRU.pin f (replacer_ b3)) b3 in
  let b' := with_free_list (free_list_ b4 ++ [f]) b4 in
  bpm_ok b' ∧ (pool_inv b → pool_inv b').
Proof.
  intros Hok Hpt b2 p2 b3 b4 b'.
  destruct (ok_table b Hok _ _ Hpt) as (Hf & Hid & Hvalid).
  set (P := mkPage (fd pid, INVALID_PAGE_ID) zero_page false 0).
  assert (pages_ b' = <[f := P]> (pages_ b)) as Hpages.
  { unfold b', b4, b3, p2, b2, P. simpl. unfold reset_memory, frame. simpl.
    unfold frame in Hid. by rewrite Hid. }
  assert (length (pages_ b') = length (pages_ b)) as Hlen
    by (rewrite Hpages; apply length_insert).
  assert (frame b' f = P) as Hself.
  { unfold frame. rewrite Hpages. by apply list_lookup_total_insert_eq. }
  assert (∀ g, g ≠ f → frame b' g = frame b g) as Hother.
  { intros g Hg. unfold frame. rewrite Hpages. by apply list_lookup_total_insert_ne. }
  assert (∀ q g, page_table_ b' !! q = Some g
                 ↔ page_table_ b !! q = Some g ∧ g ≠ f) as Htab.
  { intros q g. change (page_table_ b') with (delete pid (page_table_ b)).
    rewrite lookup_delete_Some. split.
    - intros [Hne Hq]. split; [done|]. intros ->.
      destruct (ok_table b Hok _ _ Hq) as (_ & Hid' & _). congruence.
    - intros [Hq Hne]. split; [|done]. intros <-. congruence. }
  assert (∀ g, in_table b' g ↔ in_table b g ∧ g ≠ f) as Hin.
  { intros g. unfold in_table. split.
    - intros [q [Hq Hne]%Htab]. split; [by exists q|done].
    - intros [[q Hq] Hne]. exists q. by apply Htab. }
  assert (∀ g, g ∈ LRUhash_ (replacer_ b') ↔ g ∈ LRUhash_ (replacer_ b) ∧ g ≠ f) as Hrep.
  { intros g. change (replacer_ b') with (LRU.pin f (replacer_ b)). apply pin_elem. }
  assert (f ∉ free_list_ b) as Hnotfree.
  { intros Hfr. destruct (ok_free b Hok) as [_ Hmem].
    destruct (Hmem f Hfr) as [_ Hinv']. rewrite Hid in Hinv'. done. }
  split.
  - split.
    + intros g q. rewrite Hpages.
      intros [(-> & <- & _)|(_ & Hg)]%list_lookup_insert_Some.
      * exact (length_replicate _ _).
      * by apply (ok_data b Hok g).
    + intros q g [Hq Hne]%Htab. rewrite Hlen, Hother by done.
      by apply (ok_table b Hok).
    + intros g Hg. rewrite Hlen in Hg. destruct (decide (g = f)) as [->|Hne].
      * rewrite Hself. simpl. done.
      * rewrite Hother by done. intros Hb. apply Htab. split; [|done].
        by apply (ok_bound b Hok).
    + apply lru_wf_pin, Hok.
    + intros g [Hg Hne]%Hrep. rewrite Hlen, Hother by done.
      destruct (ok_replacer b Hok g Hg) as (Hl & Hq & Hpin).
      split; [done|]. split; [|done]. by apply Htab.
    + change (free_list_ b') with (free_list_ b ++ [f]).
      destruct (ok_free b Hok) as [Hnd Hmem]. split.
      * apply NoDup_app. split; [done|]. split; [|apply NoDup_singleton].
        intros g Hg ->%list_elem_of_singleton. done.
      * intros g [Hg| ->%list_elem_of_singleton]%elem_of_app; rewrite Hlen.
        -- rewrite Hother by (by intros ->). by apply Hmem.
        -- by rewrite Hself.
    + intros q g [Hq _]%Htab. by apply (ok_alloc b Hok q g).
    + intros g. destruct (decide (g = f)) as [->|Hne].
      * by rewrite Hself.
      * rewrite Hother by done. apply (ok_pins b Hok).
  - intros Hinv g. rewrite Hlen. intros Hg.
    destruct (Hinv g Hg) as (Hone & Hexcl & Hr).
    change (free_list_ b') with (free_list_ b ++ [f]).
    rewrite elem_of_app, list_elem_of_singleton, Hin, Hrep.
    destruct (decide (g = f)) as [->|Hne].
    + split; [by left; right|]. split; [tauto|]. split; [tauto|]. intros [[_ ?] _]. done.
    + rewrite Hother by done. split; [tauto|]. split; [tauto|]. rewrite Hr. tauto.
Qed.

Lemma delete_page_inv b pid :
  bpm_ok b →
  bpm_ok (snd (BPM.delete_page pid b))
  ∧ (pool_inv b → pool_inv (snd (BPM.delete_page pid b))).
Proof.
  intros Hok. unfold BPM.delete_page.
  destruct (page_table_ b !! pid) as [f|] eqn:Hpt; [|done].
  destruct (decide (pin_count_ (frame b f) > 0)) as [Hpin|Hpin]; [done|].
  cbv zeta. simpl snd.
  set (b1 := if is_dirty_ (frame b f) then _ else b).
  assert (bpm_ok b1 ∧ (pool_inv b → pool_inv b1) ∧ page_table_ b1 = page_table_ b)
    as (Hok1 & Hinv1 & Htab1).
  { unfold b1. destruct (is_dirty_ (frame b f)); [|done].
    destruct (flush_frame_inv b f
                (Disk.write_page (id_ (frame b f)) (data_ (frame b f)) (disk_manager_ b))
                Hok ltac:(done)) as [Hok' Hinv'].
    done. }
  destruct (unbind_inv b1 pid f Hok1) as [Hok2 Hinv2]; [by rewrite Htab1|].
  split; [done|]. intros Hinv. by apply Hinv2, Hinv1.
Qed.

Lemma flush_all_step_inv x b entry :
  bpm_ok b →
  bpm_ok (BPM.flush_all_step x b entry)
  ∧ (pool_inv b → pool_inv (BPM.flush_all_step x b entry)).
Proof.
  intros Hok. destruct entry as [q g]. unfold BPM.flush_all_step.
  destruct (decide (fd q = x)); [|done].
  destruct (is_dirty_ (frame b g)); [|done].
  by apply flush_frame_inv.
Qed.

Lemma flush_all_pages_inv x b :
  bpm_ok b →
  bpm_ok (BPM.flush_all_pages x b)
  ∧ (pool_inv b → pool_inv (BPM.flush_all_pages x b)).
Proof.
  unfold BPM.flush_all_pages. generalize (map_to_list (page_table_ b)).
  intros l. revert b. induction l as [|e l IH]; intros b Hok; [done|].
  simpl. destruct (flush_all_step_inv x b e Hok) as [Hok' Hinv'].
  destruct (IH _ Hok') as [Hok2 Hinv2]. split; [done|]. intros Hinv. by apply Hinv2, Hinv'.
Qed.

Lemma run_pool_op_inv b o :
  bpm_ok b → pool_op_ok b o →
  bpm_ok (run_pool_op o b) ∧ (pool_inv b → pool_inv (run_pool_op o b)).
Proof.
  intros Hok Hop. destruct o as [pid|pid d|pid|x|pid|x]; simpl.
  - destruct Hop as [Hvalid Halloc]. by apply fetch_page_inv.
  - by apply unpin_page_inv.
  - by apply flush_page_inv.
  - by apply new_page_inv.
  - by apply delete_page_inv.
  - by apply flush_all_pages_inv.
Qed.

Lemma run_pool_ops_inv ops : ∀ b,
  bpm_ok b → pool_ops_ok b ops →
  bpm_ok (run_pool_ops ops b) ∧ (pool_inv b → pool_inv (run_pool_ops ops b)).
Proof.
  induction ops as [|o ops IH]; intros b Hok Hops; [done|].
  destruct Hops as [Hop Hrest].
  destruct (run_pool_op_inv b o Hok Hop) as [Hok' Hinv'].
  destruct (IH _ Hok' Hrest) as [Hok2 Hinv2].
  simpl. split; [done|]. intros Hinv. by apply Hinv2, Hinv'.
Qed.

End pool_invariant_steps.

(** X12.  The pool invariant along the pool's operations: starting from a
    well-formed pool in which every frame is in exactly one of the free list
    and the page table, and is in the replacer exactly when it is in the
    page table with pin count 0 (the constructor's pool is one), this holds
    again after any sequence of [fetch_page] (of allocated pages),
    [unpin_page], [flush_page], [new_page] (whose allocation is not refused
    once a frame was taken), [delete_page] and [flush_all_pages] calls. *)
Theorem pool_ops_keep_invariant (b : BufferPoolManager) (ops : list PoolOp) :
  bpm_ok b → pool_inv b → pool_ops_ok b ops →
  bpm_ok (run_pool_ops ops b) ∧ pool_inv (run_pool_ops ops b).
Proof.
  intros Hok Hinv Hops. destruct (run_pool_ops_inv ops b Hok Hops) as [Hok' Hinv'].
  split; [done|by apply Hinv'].
Qed.

Lemma pool_ops_keep_invariant_witness :
  let b := BPM.create 2 (mkDisk ∅ {[ 3 := 1 ]} 10) in
  let ops := [PNew 3; PUnpin (3, 1) true; PNew 3; PFetch (3, 1); PFlush (3, 2);
              PUnpin (3, 1) false; PFlushAll 3; PDelete (3, 1); PNew 3] in
  pool_inv (run_pool_ops ops b).
Proof.
  intros b ops. apply (pool_ops_keep_invariant b ops).
  - apply bpm_ok_create.
  - apply pool_inv_create.
  - vm_compute. repeat split; (done || lia || (intros _; discriminate) || idtac).
Defined.

(* ================================================================= *)
(** * The pool is a transparent cache *)

Section pool_views.

Implicit Types (b : BufferPoolManager) (f g v : frame_id_t) (pid q : Z * Z) (p : Page).

Lemma keeps_pages_refl b : all_synced b → disk_fresh (disk_manager_ b) → keeps_pages b b.
Proof. intros Hs Hd. split; [done|]. split; [done|]. split; [intros x; lia|done]. Qed.

Lemma keeps_pages_trans b1 b2 b3 :
  keeps_pages b1 b2 → keeps_pages b2 b3 → keeps_pages b1 b3.
Proof.
  intros (_ & _ & Hn1 & Hv1) (Hs & Hd & Hn2 & Hv2).
  split; [done|]. split; [done|]. split.
  - intros x. specialize (Hn1 x). specialize (Hn2 x). lia.
  - intros q Hq. rewrite Hv2, Hv1; [done|done|]. specialize (Hn1 (fd q)). lia.
Qed.

(** A frame handed out and bound to another page. *)
Lemma rebound_keeps b b' v pid X :
  bpm_ok b → all_synced b → disk_fresh (disk_manager_ b) →
  rebound b v pid X false b' →
  (page_no pid < Disk.next_page_no (fd pid) (disk_manager_ b) →
   X = Disk.read_page pid (disk_manager_ b)) →
  (Disk.next_page_no (fd pid) (disk_manager_ b) ≤ page_no pid →
   X = zero_page
   ∧ ∀ q, Disk.next_page_no (fd q) (disk_manager_ b') ≤ page_no q →
          Disk.next_page_no (fd q) (disk_manager_ b) ≤ page_no q ∧ q ≠ pid) →
  (page_no pid < Disk.next_page_no (fd pid) (disk_manager_ b) →
   ∀ x, Disk.next_page_no x (disk_manager_ b') = Disk.next_page_no x (disk_manager_ b)) →
  keeps_pages b b'.
Proof.
  intros Hok Hs Hd Hrb Hold Hnew Hsame.
  pose proof (chosen_victim_range b v Hok (rb_victim _ _ _ _ _ _ Hrb)) as Hv.
  pose proof (rb_fresh _ _ _ _ _ _ Hrb) as Hfresh.
  assert (∀ q, page_table_ b !! q = None →
               Disk.read_page q (disk_manager_ b') = Disk.read_page q (disk_manager_ b))
    as Hread.
  { intros q Hq. rewrite (rb_read _ _ _ _ _ _ Hrb).
    rewrite bool_decide_eq_false_2; [done|]. intros (Hb & _ & ->).
    pose proof (ok_bound b Hok v Hv Hb). congruence. }
  assert (∀ q g, page_table_ b !! q = Some g → g ≠ v →
               Disk.read_page q (disk_manager_ b') = Disk.read_page q (disk_manager_ b))
    as Hread'.
  { intros q g Hq Hg. rewrite (rb_read _ _ _ _ _ _ Hrb).
    rewrite bool_decide_eq_false_2; [done|]. intros (Hb & _ & ->).
    pose proof (ok_bound b Hok v Hv Hb). congruence. }
  assert (X = Disk.read_page pid (disk_manager_ b)) as HX.
  { destruct (decide (page_no pid < Disk.next_page_no (fd pid) (disk_manager_ b)))
      as [Hlt|Hge]; [by apply Hold|].
    destruct Hnew as [-> _]; [lia|]. symmetry. apply Hd. lia. }
  assert (∀ q, q ≠ pid → page_view b' q = page_view b q) as Hother.
  { intros q Hq. unfold page_view.
    rewrite (rebound_table_other _ _ _ _ _ _ Hrb) by done.
    case_bool_decide as Hc.
    - destruct Hc as [Hb ->].
      pose proof (ok_bound b Hok v Hv Hb) as Hin. rewrite Hin.
      rewrite (rb_read _ _ _ _ _ _ Hrb).
      destruct (is_dirty_ (frame b v)) eqn:Hdirty.
      + by rewrite bool_decide_eq_true_2.
      + rewrite bool_decide_eq_false_2 by (intros (_ & ? & _); done).
        symmetry. by apply Hs.
    - destruct (page_table_ b !! q) as [g|] eqn:Hg.
      + assert (g ≠ v) as Hgv.
        { intros ->. apply Hc. by apply (victim_entry b v Hok Hv q v Hg). }
        by rewrite (rebound_frame_other _ _ _ _ _ _ Hrb) by done.
      + by apply Hread. }
  split; [|split; [|split]].
  - intros q g Hq Hclean. destruct (decide (q = pid)) as [->|Hne].
    + rewrite (rebound_table_self _ _ _ _ _ _ Hrb) in Hq. injection Hq as <-.
      rewrite (rebound_frame_self _ _ _ _ _ _ Hok Hrb). simpl.
      rewrite HX. symmetry. by apply Hread.
    + apply (rebound_table_other_Some _ _ _ _ _ _ Hok Hrb) in Hq as [Hg Hgv]; [|done].
      rewrite (rebound_frame_other _ _ _ _ _ _ Hrb) in * by done.
      rewrite (Hread' q g) by done. by apply Hs.
  - intros q Hq.
    destruct (decide (page_no pid < Disk.next_page_no (fd pid) (disk_manager_ b)))
      as [Hlt|Hge].
    + rewrite (Hsame Hlt) in Hq.
      destruct (page_table_ b !! q) as [g|] eqn:Hg.
      * pose proof (ok_alloc b Hok q g Hg). lia.
      * rewrite Hread by done. by apply Hd.
    + destruct Hnew as [_ Hnew]; [lia|]. destruct (Hnew q Hq) as [Hq' Hne].
      destruct (page_table_ b !! q) as [g|] eqn:Hg.
      * pose proof (ok_alloc b Hok q g Hg). lia.
      * rewrite Hread by done. by apply Hd.
  - apply (rb_next _ _ _ _ _ _ Hrb).
  - intros q Hq. destruct (decide (q = pid)) as [->|Hne]; [|by apply Hother].
    rewrite (rebound_view_self _ _ _ _ _ _ Hok Hrb). unfold page_view.
    by rewrite Hfresh.
Qed.

(** A change of pin counts, dirty flags and replacer only, where no flag
    is cleared. *)
Lemma marked_keeps b b' :
  page_table_ b' = page_table_ b → disk_manager_ b' = disk_manager_ b →
  (∀ g, data_ (frame b' g) = data_ (frame b g)) →
  (∀ g, is_dirty_ (frame b' g) = false → is_dirty_ (frame b g) = false) →
  all_synced b → disk_fresh (disk_manager_ b) → keeps_pages b b'.
Proof.
  intros Ht Hdk Hdata Hdirty Hs Hd. split; [|split; [|split]].
  - intros q g Hq Hclean. rewrite Ht in Hq. rewrite Hdata, Hdk.
    apply Hs; [done|]. by apply Hdirty.
  - by rewrite Hdk.
  - intros x. rewrite Hdk. lia.
  - intros q _. unfold page_view. rewrite Ht, Hdk.
    destruct (page_table_ b !! q); [apply Hdata|done].
Qed.

(** Writing a cached frame back and clearing its dirty flag. *)
Lemma flush_frame_keeps b pid f :
  bpm_ok b → all_synced b → disk_fresh (disk_manager_ b) →
  page_table_ b !! pid = Some f →
  keeps_pages b
    (set_frame f (set_dirty false (frame b f))
       (with_disk (Disk.write_page (id_ (frame b f)) (data_ (frame b f)) (disk_manager_ b))
          b)).
Proof.
  intros Hok Hs Hd Hpt.
  destruct (ok_table b Hok _ _ Hpt) as (Hf & Hid & Hvalid).
  pose proof (frame_sized b f Hok Hf) as Hsz.
  rewrite Hid.
  set (b' := set_frame _ _ _).
  assert (∀ g, data_ (frame b' g) = data_ (frame b g)) as Hdata.
  { intros g. destruct (decide (f = g)) as [<-|Hne].
    - unfold b'. by rewrite frame_set_frame_eq.
    - unfold b'. by rewrite frame_set_frame_ne. }
  split; [|split; [|split]].
  - intros q g Hq Hclean. change (page_table_ b') with (page_table_ b) in Hq.
    rewrite Hdata. simpl.
    destruct (decide (q = pid)) as [->|Hne].
    + assert (g = f) as -> by congruence. by rewrite read_write_same.
    + rewrite read_write_other by done.
      assert (f ≠ g) as Hfg.
      { intros <-. destruct (ok_table b Hok _ _ Hq) as (_ & Hid' & _). congruence. }
      unfold b' in Hclean. rewrite frame_set_frame_ne in Hclean by done.
      by apply Hs.
  - intros q Hq. simpl in *. rewrite read_write_other; [by apply Hd|].
    intros <-. pose proof (ok_alloc b Hok _ _ Hpt).
    rewrite next_page_no_write in Hq. lia.
  - intros x. simpl. rewrite next_page_no_write. lia.
  - intros q _. unfold page_view. change (page_table_ b') with (page_table_ b).
    destruct (page_table_ b !! q) as [g|] eqn:Hq; [apply Hdata|].
    simpl. rewrite read_write_other; [done|]. intros <-. congruence.
Qed.

Lemma fetch_page_keeps b pid :
  bpm_ok b → all_synced b → disk_fresh (disk_manager_ b) →
  page_no pid ≠ INVALID_PAGE_ID →
  page_no pid < Disk.next_page_no (fd pid) (disk_manager_ b) →
  keeps_pages b (snd (BPM.fetch_page pid b)).
Proof.
  intros Hok Hs Hd Hvalid Halloc.
  destruct (page_table_ b !! pid) as [f|] eqn:Hpt.
  - rewrite (fetch_page_hit _ _ _ Hpt). simpl.
    apply marked_keeps; try done.
    + intros g. simpl. change (frame (with_replacer ?r ?x) g) with (frame x g).
      destruct (decide (f = g)) as [<-|Hne].
      * destruct (decide (f < length (pages_ b))%nat).
        -- by rewrite frame_set_frame_eq.
        -- unfold frame, set_frame. simpl. by rewrite list_insert_ge by lia.
      * by rewrite frame_set_frame_ne.
    + intros g. change (frame (with_replacer ?r ?x) g) with (frame x g).
      destruct (decide (f = g)) as [<-|Hne].
      * destruct (decide (f < length (pages_ b))%nat).
        -- by rewrite frame_set_frame_eq.
        -- unfold frame, set_frame. simpl. by rewrite list_insert_ge by lia.
      * by rewrite frame_set_frame_ne.
  - destruct (chosen_victim_dec b) as [[v Hv]|Hno].
    + destruct (fetch_page_miss b pid v Hok Hpt Hvalid Halloc Hv)
        as (b' & -> & Hrb & c & w & bytes & Hdisk).
      simpl. apply (rebound_keeps b b' v pid _ Hok Hs Hd Hrb).
      * intros _. rewrite (rb_read _ _ _ _ _ _ Hrb).
        rewrite bool_decide_eq_false_2; [done|]. intros (Hb & _ & ->).
        pose proof (chosen_victim_range b v Hok Hv) as Hrange.
        pose proof (ok_bound b Hok v Hrange Hb). congruence.
      * intros ?. lia.
      * intros _ x. rewrite Hdisk. by destruct c.
    + rewrite (fetch_page_no_victim _ _ Hpt Hno). by apply keeps_pages_refl.
Qed.

Lemma unpin_page_keeps b pid is_dirty :
  bpm_ok b → all_synced b → disk_fresh (disk_manager_ b) →
  keeps_pages b (snd (BPM.unpin_page pid is_dirty b)).
Proof.
  intros Hok Hs Hd.
  destruct (page_table_ b !! pid) as [f|] eqn:Hpt;
    [|rewrite (unpin_page_absent _ _ _ Hpt); by apply keeps_pages_refl].
  destruct (decide (pin_count_ (frame b f) ≤ 0)) as [Hle|Hgt];
    [rewrite (unpin_page_not_pinned _ _ _ _ Hpt Hle); by apply keeps_pages_refl|].
  rewrite (unpin_page_pinned _ is_dirty _ _ Hpt) by lia. cbv zeta. simpl snd.
  destruct (ok_table b Hok _ _ Hpt) as (Hf & Hid & _).
  set (p := mkPage _ _ _ _).
  assert (∀ g, frame (set_frame f p b) g = if decide (f = g) then p else frame b g) as Hfr.
  { intros g. destruct (decide (f = g)) as [<-|Hne].
    - by rewrite frame_set_frame_eq.
    - by rewrite frame_set_frame_ne. }
  apply marked_keeps; try done.
  - by destruct (decide (pin_count_ (frame b f) = 1)).
  - by destruct (decide (pin_count_ (frame b f) = 1)).
  - intros g.
    assert (frame (if decide (pin_count_ (frame b f) = 1)
                   then with_replacer (LRU.unpin f (replacer_ b)) (set_frame f p b)
                   else set_frame f p b) g = frame (set_frame f p b) g) as ->
      by (by destruct (decide (pin_count_ (frame b f) = 1))).
    rewrite Hfr. by destruct (decide (f = g)) as [<-|Hne].
  - intros g.
    assert (frame (if decide (pin_count_ (frame b f) = 1)
                   then with_replacer (LRU.unpin f (replacer_ b)) (set_frame f p b)
                   else set_frame f p b) g = frame (set_frame f p b) g) as ->
      by (by destruct (decide (pin_count_ (frame b f) = 1))).
    rewrite Hfr. destruct (decide (f = g)) as [<-|Hne]; [|done].
    simpl. by intros [? _]%orb_false_elim.
Qed.

Lemma flush_page_keeps b pid :
  bpm_ok b → all_synced b → disk_fresh (disk_manager_ b) →
  keeps_pages b (snd (BPM.flush_page pid b)).
Proof.
  intros Hok Hs Hd. unfold BPM.flush_page.
  destruct (page_table_ b !! pid) as [f|] eqn:Hpt; [|by apply keeps_pages_refl].
  simpl. by apply (flush_frame_keeps b pid f).
Qed.

Lemma new_page_keeps b x y :
  bpm_ok b → all_synced b → disk_fresh (disk_manager_ b) →
  ((∃ v, chosen_victim b v) →
   fst (Disk.allocate_page x (disk_manager_ b)) ≠ INVALID_PAGE_ID) →
  keeps_pages b (snd (BPM.new_page (x, y) b)).
Proof.
  intros Hok Hs Hd Halloc.
  destruct (chosen_victim_dec b) as [[v Hv]|Hno].
  - destruct (Disk.allocate_page x (disk_manager_ b)) as [n d1] eqn:Hal.
    specialize (Halloc (ex_intro _ v Hv)). simpl in Halloc.
    destruct (allocate_page_spec _ _ _ _ Hal Halloc) as (Hn & _).
    destruct (new_page_success b x y v n d1 Hok Hv Hal Halloc)
      as (b' & -> & Hrb & Hnext & Hothers & _).
    simpl. apply (rebound_keeps b b' v (x, n) _ Hok Hs Hd Hrb).
    + simpl. lia.
    + intros _. split; [done|]. intros [z m] Hq. simpl in Hq. simpl.
      destruct (decide (z = x)) as [->|Hz].
      * rewrite Hnext in Hq. split; [lia|]. intros [= ->]. lia.
      * rewrite Hothers in Hq by done. split; [done|]. by intros [= -> _].
    + simpl. lia.
  - unfold BPM.new_page. rewrite (find_victim_page_none _ Hno).
    by apply keeps_pages_refl.
Qed.

(** Unbinding a clean frame. *)
Lemma unbind_keeps b pid f :
  bpm_ok b → all_synced b → disk_fresh (disk_manager_ b) →
  page_table_ b !! pid = Some f → is_dirty_ (frame b f) = false →
  let b2 := with_page_table (delete pid (page_table_ b)) b in
  let p2 := frame b2 f in
  let b3 := set_frame f
              (reset_memory (set_dirty false (set_pin_count 0
                 (set_id (fd (id_ p2), INVALID_PAGE_ID) p2)))) b2 in
  let b4 := with_replacer (LRU.pin f (replacer_ b3)) b3 in
  let b' := with_free_list (free_list_ b4 ++ [f]) b4 in
  keeps_pages b b'.
Proof.
  intros Hok Hs Hd Hpt Hclean b2 p2 b3 b4 b'.
  destruct (ok_table b Hok _ _ Hpt) as (Hf & Hid & Hvalid).
  assert (∀ g, g ≠ f → frame b' g = frame b g) as Hother.
  { intros g Hg. unfold frame, b', b4, b3. simpl.
    by apply list_lookup_total_insert_ne. }
  assert (∀ q g, page_table_ b' !! q = Some g
                 ↔ page_table_ b !! q = Some g ∧ g ≠ f) as Htab.
  { intros q g. change (page_table_ b') with (delete pid (page_table_ b)).
    rewrite lookup_delete_Some. split.
    - intros [Hne Hq]. split; [done|]. intros ->.
      destruct (ok_table b Hok _ _ Hq) as (_ & Hid' & _). congruence.
    - intros [Hq Hne]. split; [|done]. intros <-. congruence. }
  split; [|split; [|split]].
  - intros q g [Hq Hne]%Htab. rewrite Hother by done. apply (Hs q g Hq).
  - done.
  - intros x. change (disk_manager_ b') with (disk_manager_ b). lia.
  - intros q _. unfold page_view.
    change (page_table_ b') with (delete pid (page_table_ b)).
    change (disk_manager_ b') with (disk_manager_ b).
    destruct (decide (q = pid)) as [->|Hne].
    + rewrite lookup_delete_eq, Hpt. symmetry. by apply Hs.
    + rewrite lookup_delete_ne by done.
      destruct (page_table_ b !! q) as [g|] eqn:Hq; [|done].
      rewrite Hother; [done|]. intros ->.
      destruct (ok_table b Hok _ _ Hq) as (_ & Hid' & _). congruence.
Qed.

Lemma delete_page_keeps b pid :
  bpm_ok b → all_synced b → disk_fresh (disk_manager_ b) →
  keeps_pages b (snd (BPM.delete_page pid b)).
Proof.
  intros Hok Hs Hd. unfold BPM.delete_page.
  destruct (page_table_ b !! pid) as [f|] eqn:Hpt; [|by apply keeps_pages_refl].
  destruct (decide (pin_count_ (frame b f) > 0)) as [Hpin|Hpin];
    [by apply keeps_pages_refl|].
  cbv zeta. simpl snd.
  destruct (ok_table b Hok _ _ Hpt) as (Hf & Hid & Hvalid).
  set (b1 := if is_dirty_ (frame b f) then _ else b).
  assert (bpm_ok b1 ∧ keeps_pages b b1 ∧ page_table_ b1 = page_table_ b
          ∧ is_dirty_ (frame b1 f) = false) as (Hok1 & Hk1 & Htab1 & Hclean1).
  { unfold b1. destruct (is_dirty_ (frame b f)) eqn:Hdirty.
    - split; [by apply flush_frame_inv|]. split; [by apply (flush_frame_keeps b pid f)|].
      split; [done|]. by rewrite frame_set_frame_eq.
    - split; [done|]. split; [by apply keeps_pages_refl|]. done. }
  apply (keeps_pages_trans _ b1); [done|].
  destruct Hk1 as (Hs1 & Hd1 & _).
  apply (unbind_keeps b1 pid f Hok1 Hs1 Hd1); [by rewrite Htab1|done].
Qed.

Lemma flush_all_fold_keeps x (l : list (Z * Z * frame_id_t)) : ∀ b,
  bpm_ok b → all_synced b → disk_fresh (disk_manager_ b) →
  (∀ q g, (q, g) ∈ l → page_table_ b !! q = Some g) →
  keeps_pages b (foldl (BPM.flush_all_step x) b l).
Proof.
  induction l as [|[q g] l IH]; intros b Hok Hs Hd Hl; [by apply keeps_pages_refl|].
  simpl foldl.
  assert (page_table_ b !! q = Some g) as Hq by (apply Hl; left).
  set (b1 := BPM.flush_all_step x b (q, g)).
  assert (keeps_pages b b1 ∧ page_table_ b1 = page_table_ b) as [Hk1 Htab1].
  { unfold b1, BPM.flush_all_step.
    destruct (decide (fd q = x)); [|split; [by apply keeps_pages_refl|done]].
    destruct (is_dirty_ (frame b g)); [|split; [by apply keeps_pages_refl|done]].
    split; [by apply (flush_frame_keeps b q g)|done]. }
  pose proof (flush_all_step_inv x b (q, g) Hok) as [Hok1 _]. fold b1 in Hok1.
  apply (keeps_pages_trans _ b1); [done|].
  destruct Hk1 as (Hs1 & Hd1 & _).
  apply IH; try done. intros q' g' Hin.
  change (page_table_ b1 !! q' = Some g'). rewrite Htab1. apply Hl. by right.
Qed.

Lemma flush_all_pages_keeps x b :
  bpm_ok b → all_synced b → disk_fresh (disk_manager_ b) →
  keeps_pages b (BPM.flush_all_pages x b).
Proof.
  intros Hok Hs Hd. apply flush_all_fold_keeps; try done.
  intros q g Hin. by apply elem_of_map_to_list in Hin.
Qed.

Lemma run_pool_op_keeps b o :
  bpm_ok b → all_synced b → disk_fresh (disk_manager_ b) → pool_op_ok b o →
  keeps_pages b (run_pool_op o b).
Proof.
  intros Hok Hs Hd Hop. destruct o as [pid|pid d|pid|x|pid|x]; simpl.
  - destruct Hop as [Hvalid Halloc]. by apply fetch_page_keeps.
  - by apply unpin_page_keeps.
  - by apply flush_page_keeps.
  - by apply new_page_keeps.
  - by apply delete_page_keeps.
  - by apply flush_all_pages_keeps.
Qed.

Lemma run_pool_ops_keeps ops : ∀ b,
  bpm_ok b → all_synced b → disk_fresh (disk_manager_ b) → pool_ops_ok b ops →
  keeps_pages b (run_pool_ops ops b).
Proof.
  induction ops as [|o ops IH]; intros b Hok Hs Hd Hops; [by apply keeps_pages_refl|].
  destruct Hops as [Hop Hrest].
  pose proof (run_pool_op_keeps b o Hok Hs Hd Hop) as Hk.
  destruct (run_pool_op_inv b o Hok Hop) as [Hok' _].
  apply (keeps_pages_trans _ (run_pool_op o b)); [done|].
  destruct Hk as (Hs' & Hd' & _). by apply IH.
Qed.

End pool_views.

(** X13.  The pool is a transparent cache.  In a well-formed pool whose
    clean frames match the disk, on a disk whose unallocated pages read as
    zeros, no sequence of [fetch_page] (of allocated pages), [unpin_page],
    [flush_page], [new_page] (not refused by the disk manager once a frame
    was taken), [delete_page] and [flush_all_pages] calls changes what a
    caller sees of any allocated page: the bytes of its frame if it is
    cached, else the bytes on disk.  In particular the bytes of a dirty
    frame survive its eviction and its deletion from the pool. *)
Theorem pool_ops_keep_pages (b : BufferPoolManager) (ops : list PoolOp) :
  bpm_ok b → all_synced b → disk_fresh (disk_manager_ b) → pool_ops_ok b ops →
  (∀ q, page_no q < Disk.next_page_no (fd q) (disk_manager_ b) →
        page_view (run_pool_ops ops b) q = page_view b q)
  ∧ all_synced (run_pool_ops ops b)
  ∧ disk_fresh (disk_manager_ (run_pool_ops ops b)).
Proof.
  intros Hok Hs Hd Hops.
  destruct (run_pool_ops_keeps ops b Hok Hs Hd Hops) as (Hs' & Hd' & _ & Hv).
  done.
Qed.

Lemma pool_ops_keep_pages_witness :
  let d := mkDisk {[ (3, 0) := [7; 7; 7] ]} {[ 3 := 1 ]} 10 in
  let b := BPM.create 1 d in
  let ops := [PFetch (3, 0); PUnpin (3, 0) true; PNew 3; PUnpin (3, 1) false;
              PFetch (3, 0); PUnpin (3, 0) false; PDelete (3, 0); PFlushAll 3] in
  page_view (run_pool_ops ops b) (3, 0) = page_view b (3, 0).
Proof.
  intros d b ops. apply (pool_ops_keep_pages b ops).
  - apply bpm_ok_create.
  - intros q g Hq. done.
  - intros [x n] Hq. unfold Disk.read_page. simpl.
    destruct (decide ((x, n) = (3, 0))) as [[= -> ->]|Hne].
    + vm_compute in Hq. done.
    + by rewrite lookup_singleton_ne.
  - vm_compute. repeat split; (done || lia || (intros _; discriminate) || idtac).
  - vm_compute. done.
Defined.

(* ================================================================= *)
(** * A write touches one record *)

Section slot_isolation.

Context (h : RmFileHdr) (Hh : hdr_ok h).
Implicit Types (d buf : list Z) (i j v : Z) (rid : Rid).

Lemma memcpy_slot_load_other i j buf d :
  0 ≤ i < num_records_per_page h → 0 ≤ j < num_records_per_page h → i ≠ j →
  load (PageHandle.get_slot h j) (record_size h)
    (memcpy_to (PageHandle.get_slot h i) buf (record_size h) d)
  = load (PageHandle.get_slot h j) (record_size h) d.
Proof.
  intros Hi Hj Hne. pose proof (slot_range h Hh i Hi). pose proof (slot_range h Hh j Hj).
  pose proof (bitmap_size_nonneg h Hh). destruct Hh. unfold sizeof_RmPageHdr in *.
  unfold memcpy_to. apply load_store_disjoint; try lia.
  rewrite length_resize. unfold PageHandle.get_slot.
  destruct (decide (i < j)); [right|left]; nia.
Qed.

Lemma bitmap_reset_load i j d :
  0 ≤ i < num_records_per_page h → 0 ≤ j < num_records_per_page h →
  load (PageHandle.get_slot h j) (record_size h) (Bitmap.reset PageHandle.bitmap i d)
  = load (PageHandle.get_slot h j) (record_size h) d.
Proof.
  intros Hi Hj. pose proof (bucket_range h Hh i Hi). pose proof (slot_range h Hh j Hj).
  destruct Hh. unfold sizeof_RmPageHdr in *.
  unfold Bitmap.reset. apply load_store_disjoint; simpl; lia.
Qed.

Lemma set_next_free_load v j d :
  0 ≤ j < num_records_per_page h →
  load (PageHandle.get_slot h j) (record_size h) (PageHandle.set_next_free_page_no v d)
  = load (PageHandle.get_slot h j) (record_size h) d.
Proof.
  intros Hj. pose proof (slot_range h Hh j Hj). pose proof (bitmap_size_nonneg h Hh).
  destruct Hh. unfold PageHandle.set_next_free_page_no, store_int,
    OFFSET_NEXT_FREE_PAGE_NO, sizeof_RmPageHdr in *.
  apply load_store_disjoint; simpl; lia.
Qed.

(** What [get_record] returns for the other slots of a page does not depend
    on the bytes a write to slot [i] changes. *)
Lemma get_record_result_insert_at_other rid i buf d :
  page_sized d → 0 ≤ i < num_records_per_page h → slot_no rid ≠ i →
  get_record_result h rid (insert_at_bytes h i buf d) = get_record_result h rid d.
Proof.
  intros Hd Hi Hne. unfold get_record_result. case_decide as Hr; [done|].
  rewrite (insert_at_bytes_is_set h Hh) by (done || lia).
  rewrite decide_False by done.
  destruct (Bitmap.is_set _ (slot_no rid) d); [|done]. f_equal.
  unfold insert_at_bytes.
  destruct (Bitmap.is_set _ i d); rewrite ?(set_num_records_load h Hh) by lia;
    rewrite (bitmap_set_load h Hh) by lia; apply memcpy_slot_load_other; lia.
Qed.

Lemma get_record_result_update_other rid i buf d :
  0 ≤ i < num_records_per_page h → slot_no rid ≠ i →
  get_record_result h rid (update_bytes h i buf d) = get_record_result h rid d.
Proof.
  intros Hi Hne. unfold get_record_result, update_bytes. case_decide as Hr; [done|].
  rewrite (memcpy_slot_is_set h Hh) by lia.
  destruct (Bitmap.is_set _ (slot_no rid) d); [|done]. f_equal.
  apply memcpy_slot_load_other; lia.
Qed.

Lemma get_record_result_delete_other rid i d :
  page_sized d → 0 ≤ i < num_records_per_page h → slot_no rid ≠ i →
  get_record_result h rid (delete_bytes i d) = get_record_result h rid d.
Proof.
  intros Hd Hi Hne. unfold get_record_result. case_decide as Hr; [done|].
  rewrite (delete_bytes_is_set h Hh) by (done || lia).
  rewrite decide_False by done.
  destruct (Bitmap.is_set _ (slot_no rid) d); [|done]. f_equal.
  unfold delete_bytes. rewrite (set_num_records_load h Hh) by lia.
  apply bitmap_reset_load; lia.
Qed.

Lemma get_record_result_next_free rid v d :
  get_record_result h rid (PageHandle.set_next_free_page_no v d)
  = get_record_result h rid d.
Proof.
  unfold get_record_result. case_decide as Hr; [done|].
  rewrite is_set_set_next_free by lia.
  destruct (Bitmap.is_set _ (slot_no rid) d); [|done]. f_equal.
  apply set_next_free_load; lia.
Qed.

End slot_isolation.

Section record_isolation.

Implicit Types (s : RmFileHandle) (buf d : list Z) (rid : Rid) (h : RmFileHdr).

Local Notation bpm := buffer_pool_manager_.

(** [get_record] on a pool that can always give a frame. *)
Lemma get_record_quiet s rid :
  fh_ok s → quiet_but (bpm s) None → (0 < length (pages_ (bpm s)))%nat →
  fst (Rm.get_record rid s)
  = if decide (RM_FILE_HDR_PAGE < rpage_no rid < num_pages (file_hdr_ s))
    then get_record_result (file_hdr_ s) rid (page_view (bpm s) (fd_ s, rpage_no rid))
    else inl (PageNotExistError (rpage_no rid)).
Proof.
  intros Hok Hq Hlen. destruct (Rm.get_record rid s) as [r s'] eqn:Hget.
  destruct (get_record_post s rid r s' Hok Hget)
    as (_ & _ & _ & _ & _ & Hout & _ & _ & Hquiet).
  simpl. case_decide as Hp.
  - by apply Hquiet.
  - apply Hout. lia.
Qed.

Lemma rid_other_slot rid rid' :
  rid' ≠ rid → rpage_no rid' = rpage_no rid → slot_no rid' ≠ slot_no rid.
Proof. destruct rid, rid'. simpl. intros Hne -> ->. done. Qed.

(** Reading [rid'] after a call that left the pages alone, or wrote to the
    page of [rid] bytes that read the same in the other slots. *)
Lemma isolated_read s s' rid rid' d' :
  fh_ok s → fh_ok s' →
  quiet_but (bpm s) None → quiet_but (bpm s') None →
  (0 < length (pages_ (bpm s)))%nat →
  same_layout (file_hdr_ s) (file_hdr_ s') →
  num_pages (file_hdr_ s') = num_pages (file_hdr_ s) →
  same_pages s s'
  ∨ (page_written s s' (rpage_no rid) d'
     ∧ ∀ r, slot_no r ≠ slot_no rid →
         get_record_result (file_hdr_ s) r d'
         = get_record_result (file_hdr_ s) r
             (page_view (bpm s) (fd_ s, rpage_no rid))) →
  rid' ≠ rid →
  fst (Rm.get_record rid' s') = fst (Rm.get_record rid' s).
Proof.
  intros Hok Hok' Hq Hq' Hlen Hlay Hnp Hcases Hne.
  assert (fd_ s' = fd_ s
          ∧ length (pages_ (bpm s')) = length (pages_ (bpm s))) as [Hfd Hlen'].
  { destruct Hcases as [(? & ? & _)|[(? & ? & _) _]]; done. }
  rewrite !get_record_quiet by (done || lia). rewrite Hnp.
  case_decide as Hp; [|done].
  rewrite (get_record_result_layout _ _ _ _ Hlay). rewrite Hfd.
  destruct Hcases as [(_ & _ & Hview)|[(_ & _ & Hself & _ & Hview) Hslots]].
  - rewrite Hview; [done|]. simpl. unfold RM_FIRST_RECORD_PAGE, RM_FILE_HDR_PAGE in *. lia.
  - destruct (decide (rpage_no rid' = rpage_no rid)) as [Heq|Hpne].
    + rewrite Heq, Hself. apply Hslots. by apply rid_other_slot.
    + rewrite Hview; [done| |].
      * simpl. unfold RM_FIRST_RECORD_PAGE, RM_FILE_HDR_PAGE in *. lia.
      * intros [=]. done.
Qed.

Lemma record_write_isolated_steps s o rid rid' :
  fh_ok s → quiet_but (bpm s) None → (0 < length (pages_ (bpm s)))%nat →
  written_rid o = Some rid → rid' ≠ rid →
  fst (Rm.get_record rid' (run_record_op o s)) = fst (Rm.get_record rid' s).
Proof.
  intros Hok Hq Hlen Ho Hne. pose proof (fo_hdr s Hok) as Hh.
  destruct o as [buf|rid0 buf|rid0|rid0 buf|rid0]; simpl in Ho; try done;
    injection Ho as ->; simpl.
  - destruct (Rm.insert_record_at rid buf s) as [r s'] eqn:Hop.
    destruct (insert_record_at_post s rid buf r s' Hok Hop) as (Hok' & Hhdr & Hq' & _ & Hr).
    simpl.
    apply (isolated_read s s' rid rid'
             (insert_at_bytes (file_hdr_ s) (slot_no rid) buf
                (page_view (bpm s) (fd_ s, rpage_no rid)))); try done.
    + by apply Hq'.
    + rewrite Hhdr. apply same_layout_refl.
    + by rewrite Hhdr.
    + destruct r as [e|u]; [by left|right].
      destruct Hr as (Hp & Hs & Hsz & Hw). split; [done|].
      intros r Hslot. by apply (get_record_result_insert_at_other _ Hh).
  - destruct (Rm.delete_record rid s) as [r s'] eqn:Hop.
    destruct (delete_record_post s rid r s' Hok Hop) as (Hok' & Hq' & _ & Hr).
    simpl.
    set (d := page_view (bpm s) (fd_ s, rpage_no rid)) in *.
    set (released := bool_decide (PageHandle.num_records d
                                  = num_records_per_page (file_hdr_ s))) in *.
    assert (file_hdr_ s' = file_hdr_ s
            ∨ file_hdr_ s' = set_first_free_page_no (rpage_no rid) (file_hdr_ s)) as Hhdr.
    { destruct r as [e|u]; [left; apply Hr|].
      destruct Hr as (_ & _ & _ & _ & -> & _). destruct released; auto. }
    apply (isolated_read s s' rid rid'
             (if released
              then PageHandle.set_next_free_page_no (first_free_page_no (file_hdr_ s))
                     (delete_bytes (slot_no rid) d)
              else delete_bytes (slot_no rid) d)); try done.
    + by apply Hq'.
    + by destruct Hhdr as [-> | ->].
    + by destruct Hhdr as [-> | ->].
    + destruct r as [e|u]; [left; apply Hr|right].
      destruct Hr as (Hp & Hs & Hset & Hsz & _ & Hw). split; [done|].
      intros r Hslot. destruct released.
      * rewrite get_record_result_next_free by done.
        by apply (get_record_result_delete_other _ Hh).
      * by apply (get_record_result_delete_other _ Hh).
  - destruct (Rm.update_record rid buf s) as [r s'] eqn:Hop.
    destruct (update_record_post s rid buf r s' Hok Hop) as (Hok' & Hhdr & Hq' & _ & Hr).
    simpl.
    apply (isolated_read s s' rid rid'
             (update_bytes (file_hdr_ s) (slot_no rid) buf
                (page_view (bpm s) (fd_ s, rpage_no rid)))); try done.
    + by apply Hq'.
    + rewrite Hhdr. apply same_layout_refl.
    + by rewrite Hhdr.
    + destruct r as [e|u]; [by left|right].
      destruct Hr as (Hp & Hs & Hset & Hw). split; [done|].
      intros r Hslot. by apply (get_record_result_update_other _ Hh).
Qed.

Lemma insert_record_keeps_records_steps s s' buf r :
  fh_ok s → quiet_but (bpm s) None → (0 < length (pages_ (bpm s)))%nat →
  Rm.insert_record buf s = (inr r, s') →
  (∀ rid x, fst (Rm.get_record rid s) = inr x → fst (Rm.get_record rid s') = inr x)
  ∧ (∀ x, fst (Rm.get_record r s) ≠ inr x).
Proof.
  intros Hok Hq Hlen Hop. pose proof (fo_hdr s Hok) as Hh.
  destruct (insert_record_post buf s (inr r) s' Hok Hop)
    as (Hfd & Hok' & Hlen' & Hlay & Hnp & _ & d & f & Hp' & Hslot & Hsz & Hunset & _
        & Hself & Hpt & Hothers & Hq' & Hcases).
  specialize (Hq' Hq).
  assert (∀ rid, slot_no rid = slot_no r →
            ∀ x, get_record_result (file_hdr_ s) rid d ≠ inr x) as Hfree.
  { intros rid Hs x. unfold get_record_result. rewrite Hs.
    case_decide; [done|]. by rewrite Hunset. }
  split.
  - intros rid x. rewrite !get_record_quiet by (done || lia).
    case_decide as Hp; [|done]. rewrite decide_True by lia.
    rewrite (get_record_result_layout _ _ _ _ Hlay). rewrite Hfd.
    destruct (decide (rpage_no rid = rpage_no r)) as [Heq|Hpne].
    + destruct Hcases as [(_ & _ & Hd & _)|(_ & Hnew & _)]; [|lia].
      rewrite Heq, Hself, <- Hd.
      destruct (decide (slot_no rid = slot_no r)) as [Hs|Hs].
      * intros Hx. by destruct (Hfree rid Hs x).
      * rewrite (insert_bytes_unset _ _ _ _ Hunset).
        by rewrite (get_record_result_insert_at_other _ Hh).
    + rewrite Hothers; [done| | |].
      * simpl. unfold RM_FIRST_RECORD_PAGE, RM_FILE_HDR_PAGE in *. lia.
      * intros [=]. done.
      * intros [=]. lia.
  - intros x. rewrite get_record_quiet by done.
    destruct Hcases as [(_ & _ & Hd & Hsame)|(_ & Hnew & _)].
    + case_decide; [|done]. rewrite <- Hd. by apply Hfree.
    + rewrite decide_False by lia. done.
Qed.

End record_isolation.

(** X14.  A write touches one record.  On a file whose pool has a frame
    and is in a state [quiet_but _ None] (the pool invariant holds: every
    frame is in exactly one of the free list and the page table, and in the
    replacer exactly when it is in the page table; and no cached page is
    pinned), after the positional [insert_record(rid, buf)],
    [delete_record(rid)] or [update_record(rid, buf)], whether it returned
    or threw, [get_record] of every other Rid returns what it returned
    before (the same bytes or the same exception). *)
Theorem record_write_isolated (s : RmFileHandle) (o : RecordOp) (rid rid' : Rid) :
  fh_ok s → quiet_but (buffer_pool_manager_ s) None →
  (0 < length (pages_ (buffer_pool_manager_ s)))%nat →
  written_rid o = Some rid → rid' ≠ rid →
  fst (Rm.get_record rid' (run_record_op o s)) = fst (Rm.get_record rid' s).
Proof. apply record_write_isolated_steps. Qed.

Lemma record_write_isolated_witness :
  let page := [2; 0; 0; 0; 255; 255; 255; 255; 192;
               1; 1; 1; 1; 1; 1; 1; 1; 2; 2; 2; 2; 2; 2; 2; 2] in
  let s := mkFH 3 (mkFileHdr 8 2 4 (-1) 1)
             (BPM.create 1 (mkDisk {[ (3, 1) := page ]} {[ 3 := 2 ]} 10)) in
  fst (Rm.get_record (mkRid 1 1) (run_record_op (RDelete (mkRid 1 0)) s))
  = fst (Rm.get_record (mkRid 1 1) s).
Proof.
  intros page s.
  apply (record_write_isolated s (RDelete (mkRid 1 0)) (mkRid 1 0) (mkRid 1 1)).
  - apply fh_ok_fresh; [apply hdr_ok_four_slots|simpl; lia|reflexivity|simpl; lia|simpl; lia].
  - apply quiet_create.
  - simpl. lia.
  - reflexivity.
  - intros [=].
Defined.

(** X15.  [insert_record(buf)] overwrites nothing.  On a file whose pool
    has a frame and is in a state [quiet_but _ None] (the pool invariant
    holds and no cached page is pinned), when [insert_record(buf)] returns Rid
    [r]: every record that [get_record] returned before is returned
    unchanged afterwards, and [r] was not the Rid of a record ([get_record(r)]
    threw before the call). *)
Theorem insert_record_keeps_records (s s' : RmFileHandle) (buf : list Z) (r : Rid) :
  fh_ok s → 0 < record_size (file_hdr_ s) →
  quiet_but (buffer_pool_manager_ s) None →
  (0 < length (pages_ (buffer_pool_manager_ s)))%nat →
  Rm.insert_record buf s = (inr r, s') →
  (∀ rid x, fst (Rm.get_record rid s) = inr x → fst (Rm.get_record rid s') = inr x)
  ∧ (∀ x, fst (Rm.get_record r s) ≠ inr x).
Proof. intros Hok _. by apply insert_record_keeps_records_steps. Qed.

Lemma insert_record_keeps_records_witness :
  let page := [2; 0; 0; 0; 255; 255; 255; 255; 192;
               1; 1; 1; 1; 1; 1; 1; 1; 2; 2; 2; 2; 2; 2; 2; 2] in
  let s := mkFH 3 (mkFileHdr 8 2 4 1 1)
             (BPM.create 1 (mkDisk {[ (3, 1) := page ]} {[ 3 := 2 ]} 10)) in
  let buf := [3; 3; 3; 3; 3; 3; 3; 3] in
  fst (Rm.insert_record buf s) = inr (mkRid 1 2)
  ∧ fst (Rm.get_record (mkRid 1 1) (snd (Rm.insert_record buf s)))
    = inr [2; 2; 2; 2; 2; 2; 2; 2].
Proof.
  intros page s buf. split; [by vm_compute|].
  apply (insert_record_keeps_records s (snd (Rm.insert_record buf s)) buf (mkRid 1 2)).
  - apply fh_ok_fresh; [apply hdr_ok_four_slots|simpl; lia|reflexivity|simpl; lia|simpl; lia].
  - simpl. lia.
  - apply quiet_create.
  - simpl. lia.
  - by vm_compute.
  - by vm_compute.
Defined.

(* ================================================================= *)
(** * When the pool has no frame to give *)

Section no_frame.

Implicit Types (b : BufferPoolManager) (f g v : frame_id_t) (pid q : Z * Z).

Lemma no_victim_iff_all_pinned b :
  bpm_ok b → pool_inv b → (∀ v, ¬ chosen_victim b v) ↔ all_pinned b.
Proof.
  intros Hok Hinv. split.
  - intros Hno f Hf.
    assert (free_list_ b = []) as Hfree.
    { destruct (free_list_ b) as [|x fl] eqn:Hfl; [done|].
      destruct (Hno x). left. by rewrite Hfl. }
    assert (LRUlist_ (replacer_ b) = []) as Hlist.
    { apply last_None. destruct (last (LRUlist_ (replacer_ b))) as [x|] eqn:Hl; [|done].
      destruct (Hno x). by right. }
    destruct (Hinv f Hf) as (Hone & _ & Hrep).
    assert (in_table b f) as Hin.
    { destruct Hone as [Hfr|?]; [|done]. rewrite Hfree in Hfr. by apply elem_of_nil in Hfr. }
    split; [done|].
    assert (f ∉ LRUhash_ (replacer_ b)) as Hnot.
    { intros Hh. apply (ok_lru b Hok) in Hh. rewrite Hlist in Hh.
      by apply elem_of_nil in Hh. }
    pose proof (ok_pins b Hok f) as Hpin.
    destruct (decide (pin_count_ (frame b f) = 0)) as [Hz|Hz]; [|lia].
    destruct Hnot. apply Hrep. done.
  - intros Hall v [Hh|[_ Hl]].
    + assert (v ∈ free_list_ b) as Hv.
      { destruct (free_list_ b) as [|x fl]; [done|]. injection Hh as ->. by left. }
      destruct (ok_free b Hok) as [_ Hmem]. destruct (Hmem v Hv) as [Hlt _].
      destruct (Hinv v Hlt) as (_ & Hexcl & _). apply Hexcl. split; [done|].
      by apply Hall.
    + apply last_elem_of in Hl. apply (ok_lru b Hok) in Hl.
      destruct (ok_replacer b Hok v Hl) as (Hlt & _ & Hpin).
      destruct (Hall v Hlt) as [_ ?]. lia.
Qed.

Lemma fetch_page_miss_victim b pid v :
  page_table_ b !! pid = None → chosen_victim b v →
  fst (BPM.fetch_page pid b) = Some v.
Proof.
  intros Hm Hv. destruct (find_victim_page_chosen b v Hv) as (rep & Hfind & _).
  unfold BPM.fetch_page. by rewrite Hm, Hfind.
Qed.

Lemma new_page_victim b x y v :
  chosen_victim b v →
  fst (fst (BPM.new_page (x, y) b))
  = if decide (fst (Disk.allocate_page x (disk_manager_ b)) = INVALID_PAGE_ID)
    then None else Some v.
Proof.
  intros Hv. destruct (find_victim_page_chosen b v Hv) as (rep & Hfind & _).
  unfold BPM.new_page. rewrite Hfind. simpl fd. simpl disk_manager_.
  destruct (Disk.allocate_page x (disk_manager_ b)) as [n d1]. simpl.
  by destruct (decide (n = INVALID_PAGE_ID)).
Qed.

Lemma no_frame_steps b pid x y :
  bpm_ok b → pool_inv b →
  (∀ f, page_table_ b !! pid = Some f → fst (BPM.fetch_page pid b) = Some f)
  ∧ (page_table_ b !! pid = None →
       (fst (BPM.fetch_page pid b) = None ↔ all_pinned b)
       ∧ (all_pinned b → BPM.fetch_page pid b = (None, b)))
  ∧ (fst (fst (BPM.new_page (x, y) b)) = None
       ↔ all_pinned b
         ∨ fst (Disk.allocate_page x (disk_manager_ b)) = INVALID_PAGE_ID)
  ∧ (all_pinned b → BPM.new_page (x, y) b = (None, (x, y), b)).
Proof.
  intros Hok Hinv. pose proof (no_victim_iff_all_pinned b Hok Hinv) as Hiff.
  split; [|split; [|split]].
  - intros f Hf. by rewrite (fetch_page_hit _ _ _ Hf).
  - intros Hm. split.
    + destruct (chosen_victim_dec b) as [[v Hv]|Hno].
      * rewrite (fetch_page_miss_victim b pid v Hm Hv). split; [done|].
        intros Hall. by destruct (proj2 Hiff Hall v).
      * rewrite (fetch_page_no_victim _ _ Hm Hno). simpl. split; [|done].
        intros _. by apply Hiff.
    + intros Hall. apply fetch_page_no_victim; [done|]. by apply Hiff.
  - destruct (chosen_victim_dec b) as [[v Hv]|Hno].
    + rewrite (new_page_victim b x y v Hv). case_decide as Ha.
      * split; [by right|done].
      * split; [done|]. intros [Hall|?]; [|done]. by destruct (proj2 Hiff Hall v).
    + unfold BPM.new_page. rewrite (find_victim_page_none _ Hno). simpl.
      split; [|done]. intros _. left. by apply Hiff.
  - intros Hall. unfold BPM.new_page.
    by rewrite (find_victim_page_none _ (proj2 Hiff Hall)).
Qed.

End no_frame.

(** X16.  The pool refuses a page only when every frame is pinned.  In a
    pool that satisfies the pool invariant: [fetch_page] of a cached page
    always returns its frame; [fetch_page] of a page that is not cached
    returns [nullptr] exactly when every frame holds a page with
    [pin_count_ > 0], and then changes nothing; [new_page] returns [nullptr]
    exactly in that case or when the disk manager's [allocate_page] returns
    [INVALID_PAGE_ID], and when every frame is pinned it allocates no page
    and leaves [*page_id] and the pool as they were. *)
Theorem no_frame_iff_all_pinned (b : BufferPoolManager) (pid : PageId) (x y : Z) :
  bpm_ok b → pool_inv b →
  (∀ f, page_table_ b !! pid = Some f → fst (BPM.fetch_page pid b) = Some f)
  ∧ (page_table_ b !! pid = None →
       (fst (BPM.fetch_page pid b) = None ↔ all_pinned b)
       ∧ (all_pinned b → BPM.fetch_page pid b = (None, b)))
  ∧ (fst (fst (BPM.new_page (x, y) b)) = None
       ↔ all_pinned b
         ∨ fst (Disk.allocate_page x (disk_manager_ b)) = INVALID_PAGE_ID)
  ∧ (all_pinned b → BPM.new_page (x, y) b = (None, (x, y), b)).
Proof. apply no_frame_steps. Qed.

Lemma no_frame_iff_all_pinned_witness :
  let b := run_pool_ops [PNew 3] (BPM.create 1 (mkDisk ∅ {[ 3 := 1 ]} 10)) in
  fst (BPM.fetch_page (3, 0) b) = None ↔ all_pinned b.
Proof.
  intros b.
  assert (bpm_ok b ∧ pool_inv b) as [Hok Hinv].
  { destruct (run_pool_ops_inv [PNew 3] (BPM.create 1 (mkDisk ∅ {[ 3 := 1 ]} 10)))
      as [Hok Hinv].
    - apply bpm_ok_create.
    - vm_compute. split; [|done]. intros _. discriminate.
    - split; [done|]. apply Hinv, pool_inv_create. }
  destruct (no_frame_iff_all_pinned b (3, 0) 3 0 Hok Hinv) as (_ & Hmiss & _).
  apply Hmiss. by vm_compute.
Defined.

(* ================================================================= *)
(** * Writing pages back: [flush_page] and [flush_all_pages] *)

Section flushing.

Implicit Types (b : BufferPoolManager) (f g : frame_id_t) (pid q : Z * Z) (p : Page).

Lemma set_dirty_clean p : is_dirty_ p = false → set_dirty false p = p.
Proof. destruct p. simpl. by intros ->. Qed.

Lemma set_dirty_twice p : set_dirty false (set_dirty false p) = set_dirty false p.
Proof. done. Qed.

(** The frame and the disk after a cached frame is written back. *)
Lemma flush_frame_shape b pid f :
  bpm_ok b → page_table_ b !! pid = Some f →
  let b' := set_frame f (set_dirty false (frame b f))
              (with_disk (Disk.write_page (id_ (frame b f)) (data_ (frame b f))
                            (disk_manager_ b)) b) in
  frame b' f = set_dirty false (frame b f)
  ∧ (∀ g, g ≠ f → frame b' g = frame b g)
  ∧ Disk.read_page pid (disk_manager_ b') = data_ (frame b f)
  ∧ (∀ q, q ≠ pid → Disk.read_page q (disk_manager_ b') = Disk.read_page q (disk_manager_ b)).
Proof.
  intros Hok Hpt b'. destruct (ok_table b Hok _ _ Hpt) as (Hf & Hid & _).
  pose proof (frame_sized b f Hok Hf) as Hsz.
  split; [by apply frame_set_frame_eq|].
  split; [intros g Hg; unfold b'; by rewrite frame_set_frame_ne|].
  simpl. rewrite Hid. split; [by apply read_write_same|].
  intros q Hq. by apply read_write_other.
Qed.

Lemma flush_page_steps b pid :
  bpm_ok b →
  (page_table_ b !! pid = None → BPM.flush_page pid b = (false, b))
  ∧ (∀ f, page_table_ b !! pid = Some f →
       let b' := snd (BPM.flush_page pid b) in
       fst (BPM.flush_page pid b) = true
       ∧ Disk.read_page pid (disk_manager_ b') = data_ (frame b f)
       ∧ (∀ q, q ≠ pid →
               Disk.read_page q (disk_manager_ b') = Disk.read_page q (disk_manager_ b))
       ∧ frame b' f = set_dirty false (frame b f)
       ∧ (∀ g, g ≠ f → frame b' g = frame b g)
       ∧ page_table_ b' = page_table_ b
       ∧ free_list_ b' = free_list_ b
       ∧ replacer_ b' = replacer_ b
       ∧ ∀ x, Disk.next_page_no x (disk_manager_ b')
              = Disk.next_page_no x (disk_manager_ b)).
Proof.
  intros Hok. unfold BPM.flush_page. split.
  - by intros ->.
  - intros f Hpt. rewrite Hpt. cbv zeta. simpl fst. simpl snd.
    destruct (flush_frame_shape b pid f Hok Hpt) as (Hself & Hother & Hread & Hreads).
    done.
Qed.

(** One turn of the loop of [flush_all_pages], on an entry of the page
    table. *)
Lemma flush_all_step_shape x b q0 g0 :
  bpm_ok b → page_table_ b !! q0 = Some g0 →
  let b1 := BPM.flush_all_step x b (q0, g0) in
  page_table_ b1 = page_table_ b ∧ free_list_ b1 = free_list_ b
  ∧ replacer_ b1 = replacer_ b
  ∧ (∀ z, Disk.next_page_no z (disk_manager_ b1) = Disk.next_page_no z (disk_manager_ b))
  ∧ (∀ g, frame b1 g = if decide (g = g0 ∧ fd q0 = x)
                       then set_dirty false (frame b g) else frame b g)
  ∧ (∀ q, Disk.read_page q (disk_manager_ b1)
          = if decide (q = q0 ∧ fd q0 = x ∧ is_dirty_ (frame b g0) = true)
            then data_ (frame b g0) else Disk.read_page q (disk_manager_ b)).
Proof.
  intros Hok Hpt b1. unfold b1, BPM.flush_all_step.
  destruct (decide (fd q0 = x)) as [Hx|Hx].
  - destruct (is_dirty_ (frame b g0)) eqn:Hdirty.
    + destruct (flush_frame_shape b q0 g0 Hok Hpt) as (Hself & Hother & Hread & Hreads).
      split; [done|]. split; [done|]. split; [done|]. split; [done|]. split.
      * intros g. case_decide as Hc.
        -- destruct Hc as [-> _]. exact Hself.
        -- apply Hother. intros ->. by apply Hc.
      * intros q. case_decide as Hc.
        -- destruct Hc as (-> & _). exact Hread.
        -- apply Hreads. intros ->. by apply Hc.
    + split; [done|]. split; [done|]. split; [done|]. split; [done|]. split.
      * intros g. case_decide as Hc; [|done]. destruct Hc as [-> _].
        by rewrite set_dirty_clean.
      * intros q. rewrite decide_False; [done|]. intros (_ & _ & ?). done.
  - split; [done|]. split; [done|]. split; [done|]. split; [done|]. split.
    + intros g. by rewrite decide_False by (intros [_ ?]; done).
    + intros q. by rewrite decide_False by (intros (_ & ? & _); done).
Qed.

Lemma flush_all_fold_shape x (l : list (Z * Z * frame_id_t)) : ∀ b,
  bpm_ok b → (∀ q g, (q, g) ∈ l → page_table_ b !! q = Some g) →
  let b' := foldl (BPM.flush_all_step x) b l in
  page_table_ b' = page_table_ b ∧ free_list_ b' = free_list_ b
  ∧ replacer_ b' = replacer_ b
  ∧ (∀ z, Disk.next_page_no z (disk_manager_ b') = Disk.next_page_no z (disk_manager_ b))
  ∧ (∀ g, frame b' g = frame b g ∨ frame b' g = set_dirty false (frame b g))
  ∧ (∀ q g, (q, g) ∈ l → fd q = x → frame b' g = set_dirty false (frame b g))
  ∧ (∀ g, (∀ q, (q, g) ∈ l → fd q ≠ x) → frame b' g = frame b g)
  ∧ (∀ q g, (q, g) ∈ l → fd q = x → is_dirty_ (frame b g) = true →
            Disk.read_page q (disk_manager_ b') = data_ (frame b g))
  ∧ (∀ q, (∀ g, (q, g) ∈ l → fd q = x → is_dirty_ (frame b g) = false) →
          Disk.read_page q (disk_manager_ b') = Disk.read_page q (disk_manager_ b)).
Proof.
  induction l as [|[q0 g0] l IH]; intros b Hok Hl.
  { simpl. repeat split; try done; try (by left).
    - intros q g Hin. by apply elem_of_nil in Hin.
    - intros q g Hin. by apply elem_of_nil in Hin. }
  assert (page_table_ b !! q0 = Some g0) as Hq0 by (apply Hl; left).
  destruct (ok_table b Hok _ _ Hq0) as (_ & Hid0 & _).
  cbv zeta.
  change (foldl (BPM.flush_all_step x) b ((q0, g0) :: l))
    with (foldl (BPM.flush_all_step x) (BPM.flush_all_step x b (q0, g0)) l).
  destruct (flush_all_step_shape x b q0 g0 Hok Hq0) as (Ht1 & Hf1 & Hr1 & Hn1 & HF1 & HD1).
  pose proof (flush_all_step_inv x b (q0, g0) Hok) as [Hok1 _].
  set (b1 := BPM.flush_all_step x b (q0, g0)) in *.
  assert (∀ q g, (q, g) ∈ l → page_table_ b1 !! q = Some g) as Hl1.
  { intros q g Hin. rewrite Ht1. apply Hl. by right. }
  destruct (IH b1 Hok1 Hl1) as (Ht & Hf & Hr & Hn & Hany & Hin & Hout & Hwr & Hkeep).
  set (b' := foldl (BPM.flush_all_step x) b1 l) in *.
  assert (∀ q g, (q, g) ∈ (q0, g0) :: l → g = g0 → q = q0) as Hsame.
  { intros q g Hqg ->. destruct (ok_table b Hok _ _ (Hl _ _ Hqg)) as (_ & Hid & _).
    congruence. }
  assert (∀ q g, (q, g) ∈ (q0, g0) :: l → q = q0 → g = g0) as Hsame'.
  { intros q g Hqg ->. pose proof (Hl _ _ Hqg). congruence. }
  split; [by rewrite Ht|]. split; [by rewrite Hf|]. split; [by rewrite Hr|].
  split; [intros z; by rewrite Hn|].
  split; [|split; [|split; [|split]]].
  - intros g. destruct (Hany g) as [-> | ->]; rewrite HF1;
      destruct (decide (g = g0 ∧ fd q0 = x)); [by right|by left|by right|by right].
  - intros q g Hqg Hx. destruct (decide (g = g0)) as [->|Hne].
    + pose proof (Hsame _ _ Hqg eq_refl) as ->.
      destruct (Hany g0) as [-> | ->]; rewrite HF1, decide_True by done; done.
    + apply elem_of_cons in Hqg as [[= -> ->]|Hqg]; [done|].
      rewrite (Hin q g Hqg Hx), HF1. by rewrite decide_False by (intros [? _]; done).
  - intros g Hg. rewrite Hout by (intros q Hq; apply Hg; by right).
    rewrite HF1. rewrite decide_False; [done|]. intros [-> Hx].
    apply (Hg q0); [by left|done].
  - intros q g Hqg Hx Hdirty. destruct (decide (q = q0)) as [->|Hne].
    + pose proof (Hsame' _ _ Hqg eq_refl) as ->.
      rewrite Hkeep.
      * by rewrite HD1, decide_True.
      * intros g Hin' _. assert (g = g0) as -> by (apply (Hsame' q0); [by right|done]).
        rewrite HF1, decide_True by done. done.
    + apply elem_of_cons in Hqg as [[= -> ->]|Hqg]; [done|].
      assert (g ≠ g0) as Hg by (intros ->; apply Hne, (Hsame q g0); [by right|done]).
      assert (frame b1 g = frame b g) as Hfr
        by (rewrite HF1; by rewrite decide_False by (intros [? _]; done)).
      rewrite (Hwr q g Hqg Hx) by (by rewrite Hfr). by rewrite Hfr.
  - intros q Hclean. rewrite Hkeep.
    + rewrite HD1. rewrite decide_False; [done|]. intros (-> & Hx & Hdirty).
      rewrite (Hclean g0) in Hdirty; [done|by left|done].
    + intros g Hin' Hx. rewrite HF1.
      destruct (decide (g = g0 ∧ fd q0 = x)); [done|].
      apply Hclean; [by right|done].
Qed.

Lemma flush_all_pages_steps b x :
  bpm_ok b →
  let b' := BPM.flush_all_pages x b in
  page_table_ b' = page_table_ b ∧ free_list_ b' = free_list_ b
  ∧ replacer_ b' = replacer_ b
  ∧ (∀ z, Disk.next_page_no z (disk_manager_ b') = Disk.next_page_no z (disk_manager_ b))
  ∧ (∀ q g, page_table_ b !! q = Some g → fd q = x →
       frame b' g = set_dirty false (frame b g)
       ∧ (is_dirty_ (frame b g) = true →
          Disk.read_page q (disk_manager_ b') = data_ (frame b g)))
  ∧ (∀ g, (∀ q, page_table_ b !! q = Some g → fd q ≠ x) → frame b' g = frame b g)
  ∧ (∀ q, (∀ g, page_table_ b !! q = Some g → fd q = x →
                is_dirty_ (frame b g) = false) →
          Disk.read_page q (disk_manager_ b') = Disk.read_page q (disk_manager_ b))
  ∧ (all_synced b →
     ∀ q g, page_table_ b !! q = Some g → fd q = x →
       Disk.read_page q (disk_manager_ b') = data_ (frame b' g)).
Proof.
  intros Hok b'.
  destruct (flush_all_fold_shape x (map_to_list (page_table_ b)) b Hok)
    as (Ht & Hf & Hr & Hn & _ & Hin & Hout & Hwr & Hkeep).
  { intros q g Hqg. by apply elem_of_map_to_list in Hqg. }
  fold (BPM.flush_all_pages x b) in *. fold b' in Ht, Hf, Hr, Hn, Hin, Hout, Hwr, Hkeep.
  split; [done|]. split; [done|]. split; [done|]. split; [done|].
  split; [|split; [|split]].
  - intros q g Hq Hx. apply elem_of_map_to_list in Hq. split; [by apply (Hin q)|].
    by apply Hwr.
  - intros g Hg. apply Hout. intros q Hq%elem_of_map_to_list. by apply (Hg q).
  - intros q Hclean. apply Hkeep. intros g Hq%elem_of_map_to_list. by apply (Hclean g).
  - intros Hs q g Hq Hx. pose proof Hq as Hq'. apply elem_of_map_to_list in Hq'.
    rewrite (Hin q g Hq' Hx). simpl.
    destruct (is_dirty_ (frame b g)) eqn:Hdirty.
    + by apply Hwr.
    + rewrite Hkeep; [symmetry; by apply Hs|].
      intros g' Hq2%elem_of_map_to_list _. by assert (g' = g) as -> by congruence.
Qed.

End flushing.

(** X17.  [flush_page(page_id)] returns false and changes nothing when the
    page is not in the page table.  Otherwise, pinned or not and dirty or
    not, it returns true, the disk then holds the frame's bytes for that
    page, the frame's dirty flag is cleared, and nothing else changes: the
    other frames, the other pages of the disk, the page table, the free
    list, the replacer and the files' page counts are as before. *)
Theorem flush_page_spec (b : BufferPoolManager) (pid : PageId) :
  bpm_ok b →
  (page_table_ b !! pid = None → BPM.flush_page pid b = (false, b))
  ∧ (∀ f, page_table_ b !! pid = Some f →
       let b' := snd (BPM.flush_page pid b) in
       fst (BPM.flush_page pid b) = true
       ∧ Disk.read_page pid (disk_manager_ b') = data_ (frame b f)
       ∧ (∀ q, q ≠ pid →
               Disk.read_page q (disk_manager_ b') = Disk.read_page q (disk_manager_ b))
       ∧ frame b' f = set_dirty false (frame b f)
       ∧ (∀ g, g ≠ f → frame b' g = frame b g)
       ∧ page_table_ b' = page_table_ b
       ∧ free_list_ b' = free_list_ b
       ∧ replacer_ b' = replacer_ b
       ∧ ∀ x, Disk.next_page_no x (disk_manager_ b')
              = Disk.next_page_no x (disk_manager_ b)).
Proof. apply flush_page_steps. Qed.

(** X18.  [flush_all_pages(fd)] writes back the dirty cached pages of file
    [fd] and no other: every cached page of [fd] ends not dirty, with its
    bytes, id and pin count unchanged, and if it was dirty the disk now holds
    its bytes; the frames of other files and the free frames are unchanged;
    a page of the disk changes only if it was a dirty cached page of [fd];
    page table, free list, replacer and page counts are unchanged.  When the
    clean frames matched the disk before, afterwards every cached page of
    [fd] has the same bytes on disk as in its frame. *)
Theorem flush_all_pages_spec (b : BufferPoolManager) (x : Z) :
  bpm_ok b →
  let b' := BPM.flush_all_pages x b in
  page_table_ b' = page_table_ b ∧ free_list_ b' = free_list_ b
  ∧ replacer_ b' = replacer_ b
  ∧ (∀ z, Disk.next_page_no z (disk_manager_ b') = Disk.next_page_no z (disk_manager_ b))
  ∧ (∀ q g, page_table_ b !! q = Some g → fd q = x →
       frame b' g = set_dirty false (frame b g)
       ∧ (is_dirty_ (frame b g) = true →
          Disk.read_page q (disk_manager_ b') = data_ (frame b g)))
  ∧ (∀ g, (∀ q, page_table_ b !! q = Some g → fd q ≠ x) → frame b' g = frame b g)
  ∧ (∀ q, (∀ g, page_table_ b !! q = Some g → fd q = x →
                is_dirty_ (frame b g) = false) →
          Disk.read_page q (disk_manager_ b') = Disk.read_page q (disk_manager_ b))
  ∧ (all_synced b →
     ∀ q g, page_table_ b !! q = Some g → fd q = x →
       Disk.read_page q (disk_manager_ b') = data_ (frame b' g)).
Proof. apply flush_all_pages_steps. Qed.

Section pool_witnesses.

(** The pools reached from the constructor's. *)
Lemma run_from_create n d ops :
  pool_ops_ok (BPM.create n d) ops →
  bpm_ok (run_pool_ops ops (BPM.create n d))
  ∧ pool_inv (run_pool_ops ops (BPM.create n d)).
Proof.
  intros Hops.
  destruct (run_pool_ops_inv ops (BPM.create n d) (bpm_ok_create n d) Hops) as [Hok Hinv].
  split; [done|]. apply Hinv, pool_inv_create.
Qed.

End pool_witnesses.

Lemma flush_page_spec_witness :
  let b := run_pool_ops [PNew 3; PUnpin (3, 1) true]
             (BPM.create 1 (mkDisk ∅ {[ 3 := 1 ]} 10)) in
  fst (BPM.flush_page (3, 1) b) = true
  ∧ Disk.read_page (3, 1) (disk_manager_ (snd (BPM.flush_page (3, 1) b)))
    = data_ (frame b 0)
  ∧ BPM.flush_page (3, 0) b = (false, b).
Proof.
  intros b.
  assert (bpm_ok b) as Hok.
  { apply run_from_create. vm_compute. split; [|done]. intros _. discriminate. }
  destruct (flush_page_spec b (3, 1) Hok) as [_ Hhit].
  destruct (Hhit 0%nat) as (Hret & Hread & _); [by vm_compute|].
  split; [done|]. split; [done|].
  destruct (flush_page_spec b (3, 0) Hok) as [Hmiss _].
  apply Hmiss. by vm_compute.
Defined.

Lemma flush_all_pages_spec_witness :
  let b := run_pool_ops [PNew 3; PUnpin (3, 1) true; PNew 4; PUnpin (4, 0) true]
             (BPM.create 2 (mkDisk ∅ {[ 3 := 1 ]} 10)) in
  let b' := BPM.flush_all_pages 3 b in
  page_table_ b' = page_table_ b
  ∧ Disk.read_page (3, 1) (disk_manager_ b') = data_ (frame b 0)
  ∧ frame b' 0 = set_dirty false (frame b 0).
Proof.
  intros b b'.
  assert (bpm_ok b) as Hok.
  { apply run_from_create. vm_compute.
    repeat split; (done || (intros _; discriminate) || idtac). }
  destruct (flush_all_pages_spec b 3 Hok) as (Ht & _ & _ & _ & Hin & _).
  destruct (Hin (3, 1) 0%nat) as [Hfr Hrd]; [by vm_compute|done|].
  split; [done|]. split; [|done]. apply Hrd. by vm_compute.
Defined.

(* ================================================================= *)
(** * [delete_page] and [new_page] *)

Section delete_and_new.

Implicit Types (b : BufferPoolManager) (f g : frame_id_t) (pid q : Z * Z) (p : Page).

Lemma delete_page_steps b pid :
  bpm_ok b →
  (page_table_ b !! pid = None → BPM.delete_page pid b = (true, b))
  ∧ (∀ f, page_table_ b !! pid = Some f → pin_count_ (frame b f) > 0 →
       BPM.delete_page pid b = (false, b))
  ∧ (∀ f, page_table_ b !! pid = Some f → pin_count_ (frame b f) = 0 →
       let b' := snd (BPM.delete_page pid b) in
       fst (BPM.delete_page pid b) = true
       ∧ page_table_ b' = delete pid (page_table_ b)
       ∧ free_list_ b' = free_list_ b ++ [f]
       ∧ frame b' f = mkPage (fd pid, INVALID_PAGE_ID) zero_page false 0
       ∧ (∀ g, g ≠ f → frame b' g = frame b g)
       ∧ (∀ g, g ∈ LRUhash_ (replacer_ b') ↔ g ∈ LRUhash_ (replacer_ b) ∧ g ≠ f)
       ∧ Disk.read_page pid (disk_manager_ b')
         = (if is_dirty_ (frame b f) then data_ (frame b f)
            else Disk.read_page pid (disk_manager_ b))
       ∧ (∀ q, q ≠ pid →
               Disk.read_page q (disk_manager_ b') = Disk.read_page q (disk_manager_ b))
       ∧ ∀ x, Disk.next_page_no x (disk_manager_ b')
              = Disk.next_page_no x (disk_manager_ b)).
Proof.
  intros Hok. unfold BPM.delete_page. split; [by intros ->|]. split.
  - intros f -> Hpin. by rewrite decide_True.
  - intros f Hpt Hpin. rewrite Hpt. rewrite decide_False by lia.
    cbv zeta. simpl fst. simpl snd.
    destruct (ok_table b Hok _ _ Hpt) as (Hf & Hid & _).
    destruct (flush_frame_shape b pid f Hok Hpt) as (Hself & Hother & Hread & Hreads).
    set (b1 := if is_dirty_ (frame b f) then _ else b).
    assert (page_table_ b1 = page_table_ b ∧ free_list_ b1 = free_list_ b
            ∧ replacer_ b1 = replacer_ b ∧ length (pages_ b1) = length (pages_ b)
            ∧ id_ (frame b1 f) = pid
            ∧ (∀ g, g ≠ f → frame b1 g = frame b g)
            ∧ Disk.read_page pid (disk_manager_ b1)
              = (if is_dirty_ (frame b f) then data_ (frame b f)
                 else Disk.read_page pid (disk_manager_ b))
            ∧ (∀ q, q ≠ pid →
                 Disk.read_page q (disk_manager_ b1) = Disk.read_page q (disk_manager_ b))
            ∧ ∀ x, Disk.next_page_no x (disk_manager_ b1)
                   = Disk.next_page_no x (disk_manager_ b))
      as (Ht1 & Hfl1 & Hr1 & Hlen1 & Hid1 & Hother1 & Hread1 & Hreads1 & Hn1).
    { unfold b1. destruct (is_dirty_ (frame b f)); [|done].
      split; [done|]. split; [done|]. split; [done|].
      split; [simpl; by rewrite length_insert|].
      split; [by rewrite Hself|]. done. }
    clearbody b1.
    split; [done|]. split; [simpl; by rewrite Ht1|]. split; [simpl; by rewrite Hfl1|].
    split; [|split; [|split; [|split; [done|split; [done|done]]]]].
    + unfold frame. simpl. rewrite list_lookup_total_insert_eq by lia.
      unfold reset_memory. simpl. unfold frame in Hid1. by rewrite Hid1.
    + intros g Hg. rewrite <- Hother1 by done. unfold frame. simpl.
      by rewrite list_lookup_total_insert_ne.
    + intros g. simpl. rewrite pin_elem, Hr1. done.
Qed.

Lemma new_page_steps b x y f pid' b' :
  bpm_ok b → BPM.new_page (x, y) b = (Some f, pid', b') →
  chosen_victim b f
  ∧ pid' = (x, Disk.next_page_no x (disk_manager_ b))
  ∧ page_table_ b !! pid' = None
  ∧ frame b' f = mkPage pid' zero_page false 1
  ∧ page_table_ b' !! pid' = Some f
  ∧ (∀ q, q ≠ pid' →
       page_table_ b' !! q
       = if bool_decide (page_no (id_ (frame b f)) ≠ INVALID_PAGE_ID ∧ q = id_ (frame b f))
         then None else page_table_ b !! q)
  ∧ (∀ g, g ≠ f → frame b' g = frame b g)
  ∧ (f ∉ LRUhash_ (replacer_ b')) ∧ (f ∉ free_list_ b')
  ∧ Disk.next_page_no x (disk_manager_ b') = Disk.next_page_no x (disk_manager_ b) + 1
  ∧ (∀ z, z ≠ x → Disk.next_page_no z (disk_manager_ b')
                  = Disk.next_page_no z (disk_manager_ b))
  ∧ (∀ q, Disk.read_page q (disk_manager_ b')
          = if bool_decide (page_no (id_ (frame b f)) ≠ INVALID_PAGE_ID
                            ∧ is_dirty_ (frame b f) = true ∧ q = id_ (frame b f))
            then data_ (frame b f) else Disk.read_page q (disk_manager_ b)).
Proof.
  intros Hok Hnew.
  destruct (chosen_victim_dec b) as [[v Hv]|Hno]; last first.
  { unfold BPM.new_page in Hnew. by rewrite (find_victim_page_none _ Hno) in Hnew. }
  destruct (Disk.allocate_page x (disk_manager_ b)) as [n d1] eqn:Hal.
  destruct (decide (n = INVALID_PAGE_ID)) as [Hn|Hn].
  { pose proof (new_page_victim b x y v Hv) as Hfst. rewrite Hnew, Hal in Hfst.
    simpl in Hfst. by rewrite decide_True in Hfst. }
  destruct (allocate_page_spec _ _ _ _ Hal Hn) as (Hnext & _).
  destruct (new_page_success b x y v n d1 Hok Hv Hal Hn)
    as (b2 & Heq & Hrb & Hnx & Hothers & _).
  rewrite Hnew in Heq. injection Heq as -> -> ->.
  split; [done|]. split; [by rewrite Hnext|].
  split; [apply (rb_fresh _ _ _ _ _ _ Hrb)|].
  split; [apply (rebound_frame_self _ _ _ _ _ _ Hok Hrb)|].
  split; [apply (rebound_table_self _ _ _ _ _ _ Hrb)|].
  split; [intros q Hq; by apply (rebound_table_other _ _ _ _ _ _ Hrb)|].
  split; [intros g Hg; by apply (rebound_frame_other _ _ _ _ _ _ Hrb)|].
  split; [intros Hin; by apply (rb_replacer _ _ _ _ _ _ Hrb) in Hin as [_ ?]|].
  split.
  { rewrite (rb_free _ _ _ _ _ _ Hrb). destruct (ok_free b Hok) as [Hnd _].
    destruct Hv as [Hh|[Hnil _]].
    - destruct (free_list_ b) as [|a fl]; [done|]. injection Hh as ->.
      by apply NoDup_cons in Hnd as [? _].
    - rewrite Hnil. apply not_elem_of_nil. }
  split; [by rewrite Hnx, Hnext|]. split; [done|].
  apply (rb_read _ _ _ _ _ _ Hrb).
Qed.

End delete_and_new.

(** X19.  [delete_page(page_id)] returns true and changes nothing when the
    page is not cached, and returns false and changes nothing when it is
    pinned.  Otherwise it returns true: the page table loses the entry, the
    frame is reset (zeroed, not dirty, pin count 0, page number
    [INVALID_PAGE_ID], [fd] kept) and appended at the back of the free list,
    and it is no longer in the replacer; if the frame was dirty its bytes
    were first written to the page on disk, else the disk is unchanged.
    The other frames and the other pages of the disk are unchanged. *)
Theorem delete_page_spec (b : BufferPoolManager) (pid : PageId) :
  bpm_ok b →
  (page_table_ b !! pid = None → BPM.delete_page pid b = (true, b))
  ∧ (∀ f, page_table_ b !! pid = Some f → pin_count_ (frame b f) > 0 →
       BPM.delete_page pid b = (false, b))
  ∧ (∀ f, page_table_ b !! pid = Some f → pin_count_ (frame b f) = 0 →
       let b' := snd (BPM.delete_page pid b) in
       fst (BPM.delete_page pid b) = true
       ∧ page_table_ b' = delete pid (page_table_ b)
       ∧ free_list_ b' = free_list_ b ++ [f]
       ∧ frame b' f = mkPage (fd pid, INVALID_PAGE_ID) zero_page false 0
       ∧ (∀ g, g ≠ f → frame b' g = frame b g)
       ∧ (∀ g, g ∈ LRUhash_ (replacer_ b') ↔ g ∈ LRUhash_ (replacer_ b) ∧ g ≠ f)
       ∧ Disk.read_page pid (disk_manager_ b')
         = (if is_dirty_ (frame b f) then data_ (frame b f)
            else Disk.read_page pid (disk_manager_ b))
       ∧ (∀ q, q ≠ pid →
               Disk.read_page q (disk_manager_ b') = Disk.read_page q (disk_manager_ b))
       ∧ ∀ x, Disk.next_page_no x (disk_manager_ b')
              = Disk.next_page_no x (disk_manager_ b)).
Proof. apply delete_page_steps. Qed.

Lemma delete_page_spec_witness :
  let b := run_pool_ops [PNew 3; PUnpin (3, 1) true; PNew 3]
             (BPM.create 2 (mkDisk ∅ {[ 3 := 1 ]} 10)) in
  BPM.delete_page (3, 2) b = (false, b)
  ∧ fst (BPM.delete_page (3, 1) b) = true
  ∧ Disk.read_page (3, 1) (disk_manager_ (snd (BPM.delete_page (3, 1) b)))
    = data_ (frame b 0)
  ∧ free_list_ (snd (BPM.delete_page (3, 1) b)) = [0%nat].
Proof.
  intros b.
  assert (bpm_ok b) as Hok.
  { apply run_from_create. vm_compute.
    repeat split; (done || (intros _; discriminate) || idtac). }
  destruct (delete_page_spec b (3, 2) Hok) as (_ & Hpinned & _).
  split; [apply (Hpinned 1%nat); by vm_compute|].
  destruct (delete_page_spec b (3, 1) Hok) as (_ & _ & Hdel).
  destruct (Hdel 0%nat) as (Hret & _ & Hfree & _ & _ & _ & Hread & _); [by vm_compute..|].
  split; [done|]. split; [by rewrite Hread|]. by rewrite Hfree.
Defined.

(** X20.  When [new_page] returns a frame, that frame is the one
    [find_victim_page] hands out (the front of the free list, else the
    replacer's victim) and [*page_id] is the file's next page number, a page
    that was not cached; the file's page count has grown by one.  The frame
    is zeroed, not dirty and pinned once, bound to the new page in the page
    table, and in neither the replacer nor the free list.  The page the frame
    held before has lost its page-table entry and, if it was dirty, its bytes
    are on disk; the other entries, frames and disk pages are unchanged. *)
Theorem new_page_spec (b b' : BufferPoolManager) (x y : Z) (f : frame_id_t)
    (pid' : PageId) :
  bpm_ok b → BPM.new_page (x, y) b = (Some f, pid', b') →
  chosen_victim b f
  ∧ pid' = (x, Disk.next_page_no x (disk_manager_ b))
  ∧ page_table_ b !! pid' = None
  ∧ frame b' f = mkPage pid' zero_page false 1
  ∧ page_table_ b' !! pid' = Some f
  ∧ (∀ q, q ≠ pid' →
       page_table_ b' !! q
       = if bool_decide (page_no (id_ (frame b f)) ≠ INVALID_PAGE_ID ∧ q = id_ (frame b f))
         then None else page_table_ b !! q)
  ∧ (∀ g, g ≠ f → frame b' g = frame b g)
  ∧ (f ∉ LRUhash_ (replacer_ b')) ∧ (f ∉ free_list_ b')
  ∧ Disk.next_page_no x (disk_manager_ b') = Disk.next_page_no x (disk_manager_ b) + 1
  ∧ (∀ z, z ≠ x → Disk.next_page_no z (disk_manager_ b')
                  = Disk.next_page_no z (disk_manager_ b))
  ∧ (∀ q, Disk.read_page q (disk_manager_ b')
          = if bool_decide (page_no (id_ (frame b f)) ≠ INVALID_PAGE_ID
                            ∧ is_dirty_ (frame b f) = true ∧ q = id_ (frame b f))
            then data_ (frame b f) else Disk.read_page q (disk_manager_ b)).
Proof. apply new_page_steps. Qed.

Lemma new_page_spec_witness :
  let b := run_pool_ops [PNew 3; PUnpin (3, 1) true]
             (BPM.create 1 (mkDisk ∅ {[ 3 := 1 ]} 10)) in
  let r := BPM.new_page (3, 0) b in
  snd (fst r) = (3, 2) ∧ frame (snd r) 0 = mkPage (3, 2) zero_page false 1
  ∧ page_table_ (snd r) !! (3, 1) = None.
Proof.
  intros b r.
  assert (bpm_ok b) as Hok.
  { apply run_from_create. vm_compute. split; [|done]. intros _. discriminate. }
  destruct (new_page_spec b (snd r) 3 0 0%nat (3, 2) Hok) as (_ & _ & _ & Hfr & _ & Ht & _).
  { by vm_compute. }
  split; [by vm_compute|]. split; [done|].
  rewrite Ht by done. by vm_compute.
Defined.

(* ================================================================= *)
(** * Which calls throw *)

Section record_errors.

Implicit Types (s : RmFileHandle) (buf d : list Z) (rid : Rid) (h : RmFileHdr).

Local Notation bpm := buffer_pool_manager_.

(** The results of the three writes at a position, on a pool that can
    always give a frame. *)
Lemma write_results s rid buf :
  fh_ok s → quiet_but (bpm s) None → (0 < length (pages_ (bpm s)))%nat →
  let p := rpage_no rid in
  let absent := inl (PageNotExistError p) in
  let checked := λ r : RmError + list Z,
    match r with inl e => inl e | inr _ => inr tt end in
  let res := get_record_result (file_hdr_ s) rid (page_view (bpm s) (fd_ s, p)) in
  fst (Rm.update_record rid buf s)
  = (if decide (RM_FILE_HDR_PAGE < p < num_pages (file_hdr_ s))
     then checked res else absent)
  ∧ fst (Rm.delete_record rid s)
    = (if decide (RM_FILE_HDR_PAGE < p < num_pages (file_hdr_ s))
       then checked res else absent)
  ∧ fst (Rm.insert_record_at rid buf s)
    = (if decide (RM_FILE_HDR_PAGE < p < num_pages (file_hdr_ s))
       then if decide (slot_no rid < 0 ∨ slot_no rid >= num_records_per_page (file_hdr_ s))
            then inl RMDBError else inr tt
       else absent).
Proof.
  intros Hok Hq Hlen p absent checked res. subst p absent checked res.
  case_decide as Hp.
  - destruct (Rm.fetch_page_handle (rpage_no rid) s) as [r s1] eqn:Hfetch.
    destruct (fetch_page_handle_post s _ _ _ Hok Hfetch)
      as (_ & Hhdr1 & _ & _ & _ & _ & _ & Hquiet).
    destruct (Hquiet Hq Hlen Hp) as (f & -> & _).
    destruct (held_data s _ f s1 Hok Hfetch) as (Hdata & Hid & Hf & Hsized).
    rewrite (update_record_eq rid buf s f s1 Hfetch Hf).
    rewrite (delete_record_eq rid s f s1 Hfetch Hf). cbv zeta.
    rewrite (insert_record_at_eq rid buf s f s1 Hfetch Hf).
    rewrite Hhdr1, Hdata. unfold get_record_result.
    destruct (decide (slot_no rid < 0
                      ∨ slot_no rid >= num_records_per_page (file_hdr_ s))); [done|].
    by destruct (Bitmap.is_set PageHandle.bitmap (slot_no rid)
                   (page_view (bpm s) (fd_ s, rpage_no rid))).
  - assert (rpage_no rid ≤ RM_FILE_HDR_PAGE ∨ rpage_no rid >= num_pages (file_hdr_ s))
      as Hout by lia.
    unfold Rm.update_record, Rm.delete_record, Rm.insert_record_at, bind.
    by rewrite (fetch_page_handle_range _ _ Hout).
Qed.

Lemma writes_fail_like_get_steps s rid buf :
  fh_ok s → quiet_but (bpm s) None → (0 < length (pages_ (bpm s)))%nat →
  (∀ e, fst (Rm.get_record rid s) = inl e →
     fst (Rm.update_record rid buf s) = inl e
     ∧ fst (Rm.delete_record rid s) = inl e
     ∧ file_hdr_ (snd (Rm.update_record rid buf s)) = file_hdr_ s
     ∧ same_pages s (snd (Rm.update_record rid buf s))
     ∧ file_hdr_ (snd (Rm.delete_record rid s)) = file_hdr_ s
     ∧ same_pages s (snd (Rm.delete_record rid s)))
  ∧ (∀ x, fst (Rm.get_record rid s) = inr x →
       fst (Rm.update_record rid buf s) = inr tt
       ∧ fst (Rm.delete_record rid s) = inr tt)
  ∧ (fst (Rm.insert_record_at rid buf s) = inr tt
     ↔ RM_FILE_HDR_PAGE < rpage_no rid < num_pages (file_hdr_ s)
       ∧ 0 ≤ slot_no rid < num_records_per_page (file_hdr_ s))
  ∧ (∀ e, fst (Rm.insert_record_at rid buf s) = inl e →
       file_hdr_ (snd (Rm.insert_record_at rid buf s)) = file_hdr_ s
       ∧ same_pages s (snd (Rm.insert_record_at rid buf s))).
Proof.
  intros Hok Hq Hlen.
  destruct (write_results s rid buf Hok Hq Hlen) as (Hu & Hd & Hi).
  pose proof (get_record_quiet s rid Hok Hq Hlen) as Hg.
  destruct (Rm.update_record rid buf s) as [ru su] eqn:Hupd.
  destruct (Rm.delete_record rid s) as [rd sd] eqn:Hdel.
  destruct (Rm.insert_record_at rid buf s) as [ri si] eqn:Hins.
  destruct (update_record_post s rid buf ru su Hok Hupd) as (_ & Hhu & _ & _ & Hpu).
  destruct (delete_record_post s rid rd sd Hok Hdel) as (_ & _ & _ & Hpd).
  destruct (insert_record_at_post s rid buf ri si Hok Hins) as (_ & Hhi & _ & _ & Hpi).
  simpl in *. rewrite Hg. split; [|split; [|split]].
  - intros e He. rewrite Hu, Hd.
    assert ((if decide (RM_FILE_HDR_PAGE < rpage_no rid < num_pages (file_hdr_ s))
             then match get_record_result (file_hdr_ s) rid
                          (page_view (bpm s) (fd_ s, rpage_no rid)) with
                  | inl e0 => inl e0
                  | inr _ => inr ()
                  end
             else inl (PageNotExistError (rpage_no rid))) = (inl e : RmError + unit))
      as Hres.
    { case_decide; [|by injection He as <-]. by rewrite He. }
    rewrite Hres in Hu, Hd. subst ru rd.
    split; [done|]. split; [done|]. split; [done|]. split; [done|]. done.
  - intros x Hx. rewrite Hu, Hd. case_decide; [|done]. by rewrite Hx.
  - rewrite Hi. case_decide as Hp.
    + case_decide as Hs; [split; [done|lia]|split; [lia|done]].
    + split; [done|]. intros [? _]. done.
  - intros e He. subst ri. rewrite He in Hpi. done.
Qed.

End record_errors.

(** X21.  [update_record] and [delete_record] succeed exactly on the Rids
    that [get_record] can read, and otherwise throw what [get_record]
    throws.  On a file whose pool has a frame and is in a state
    [quiet_but _ None] (the pool invariant holds: every frame is in exactly
    one of the free list and the page table, and in the replacer exactly when
    it is in the page table; and no cached page is pinned): if
    [get_record(rid)] throws [e] ([PageNotExistError], [RMDBError] for a slot
    number out of range, [RecordNotFoundError] for a free slot), then
    [update_record(rid, buf)] and [delete_record(rid)] throw [e] and leave the
    header and every data page unchanged; if [get_record(rid)] returns, both
    return.  The positional [insert_record(rid, buf)] returns exactly when
    the page number is in [(RM_FILE_HDR_PAGE, num_pages)] and the slot number
    in [[0, num_records_per_page)], and changes nothing when it throws. *)
Theorem writes_fail_like_get (s : RmFileHandle) (rid : Rid) (buf : list Z) :
  fh_ok s → quiet_but (buffer_pool_manager_ s) None →
  (0 < length (pages_ (buffer_pool_manager_ s)))%nat →
  (∀ e, fst (Rm.get_record rid s) = inl e →
     fst (Rm.update_record rid buf s) = inl e
     ∧ fst (Rm.delete_record rid s) = inl e
     ∧ file_hdr_ (snd (Rm.update_record rid buf s)) = file_hdr_ s
     ∧ same_pages s (snd (Rm.update_record rid buf s))
     ∧ file_hdr_ (snd (Rm.delete_record rid s)) = file_hdr_ s
     ∧ same_pages s (snd (Rm.delete_record rid s)))
  ∧ (∀ x, fst (Rm.get_record rid s) = inr x →
       fst (Rm.update_record rid buf s) = inr tt
       ∧ fst (Rm.delete_record rid s) = inr tt)
  ∧ (fst (Rm.insert_record_at rid buf s) = inr tt
     ↔ RM_FILE_HDR_PAGE < rpage_no rid < num_pages (file_hdr_ s)
       ∧ 0 ≤ slot_no rid < num_records_per_page (file_hdr_ s))
  ∧ (∀ e, fst (Rm.insert_record_at rid buf s) = inl e →
       file_hdr_ (snd (Rm.insert_record_at rid buf s)) = file_hdr_ s
       ∧ same_pages s (snd (Rm.insert_record_at rid buf s))).
Proof. apply writes_fail_like_get_steps. Qed.

Lemma writes_fail_like_get_witness :
  let page := [2; 0; 0; 0; 255; 255; 255; 255; 192;
               1; 1; 1; 1; 1; 1; 1; 1; 2; 2; 2; 2; 2; 2; 2; 2] in
  let s := mkFH 3 (mkFileHdr 8 2 4 (-1) 1)
             (BPM.create 1 (mkDisk {[ (3, 1) := page ]} {[ 3 := 2 ]} 10)) in
  let buf := [3; 3; 3; 3; 3; 3; 3; 3] in
  fst (Rm.update_record (mkRid 1 2) buf s) = inl (RecordNotFoundError 1 2)
  ∧ fst (Rm.delete_record (mkRid 1 2) s) = inl (RecordNotFoundError 1 2).
Proof.
  intros page s buf.
  destruct (writes_fail_like_get s (mkRid 1 2) buf) as (Herr & _).
  - apply fh_ok_fresh; [apply hdr_ok_four_slots|simpl; lia|reflexivity|simpl; lia|simpl; lia].
  - apply quiet_create.
  - simpl. lia.
  - destruct (Herr (RecordNotFoundError 1 2)) as (Hu & Hd & _); [by vm_compute|done].
Defined.

(* ================================================================= *)
(** * The replacer's size *)

Section replacer_size.

Implicit Types (r : LRUReplacer) (f g : frame_id_t) (fs l : list frame_id_t).

(** Unpinning frames that are not eligible, one after the other. *)
Lemma run_unpins fs : ∀ r,
  NoDup fs → (∀ f, f ∈ fs → f ∉ LRUhash_ r) →
  LRUlist_ (run_ops (OpUnpin <$> fs) r) = reverse fs ++ LRUlist_ r
  ∧ max_size_ (run_ops (OpUnpin <$> fs) r) = max_size_ r
  ∧ (∀ g, g ∈ LRUhash_ (run_ops (OpUnpin <$> fs) r) ↔ g ∈ fs ∨ g ∈ LRUhash_ r).
Proof.
  induction fs as [|f fs IH]; intros r Hnd Hfresh.
  { simpl. split; [done|]. split; [done|]. intros g. set_solver. }
  apply NoDup_cons in Hnd as [Hf Hnd].
  assert (f ∉ LRUhash_ r) as Hfr by (apply Hfresh; left).
  change (run_ops (OpUnpin <$> f :: fs) r)
    with (run_ops (OpUnpin <$> fs) (LRU.unpin f r)).
  assert (LRU.unpin f r = mkLRU (f :: LRUlist_ r) ({[f]} ∪ LRUhash_ r) (max_size_ r))
    as Hun.
  { unfold LRU.unpin. by rewrite decide_False. }
  destruct (IH (LRU.unpin f r) Hnd) as (Hl & Hm & Hh).
  { intros g Hg. rewrite Hun. simpl. intros [->%elem_of_singleton|Hin]%elem_of_union.
    - done.
    - apply (Hfresh g); [by right|done]. }
  split; [|split].
  - rewrite Hl, Hun. simpl. rewrite reverse_cons, <- app_assoc. done.
  - rewrite Hm, Hun. done.
  - intros g. rewrite Hh, Hun. simpl. set_solver.
Qed.

(** As many [victim] calls as the replacer holds frames empty it, from the
    tail of the list to its head. *)
Lemma victims_all l : ∀ r,
  LRUlist_ r = l →
  fst (victims (length l) r) = Some <$> reverse l
  ∧ LRUlist_ (snd (victims (length l) r)) = []
  ∧ max_size_ (snd (victims (length l) r)) = max_size_ r.
Proof.
  induction l as [|x l IH] using rev_ind; intros r Hr.
  { simpl. done. }
  rewrite length_app. simpl length. rewrite Nat.add_1_r. simpl victims.
  assert (LRU.victim r
          = (Some x, mkLRU l (LRUhash_ r ∖ {[x]}) (max_size_ r))) as Hv.
  { unfold LRU.victim. rewrite Hr, last_snoc. by rewrite removelast_last. }
  rewrite Hv.
  destruct (IH (mkLRU l (LRUhash_ r ∖ {[x]}) (max_size_ r)) eq_refl) as (Hf & Hl & Hm).
  destruct (victims (length l) (mkLRU l (LRUhash_ r ∖ {[x]}) (max_size_ r)))
    as [os r2] eqn:Hvs.
  simpl in *. rewrite Hf, reverse_snoc. done.
Qed.

Lemma unpins_then_victims r fs :
  NoDup fs → (∀ f, f ∈ fs → f ∉ LRUhash_ r) →
  let r1 := run_ops (OpUnpin <$> fs) r in
  LRU.Size r1 = (LRU.Size r + length fs)%nat
  ∧ max_size_ r1 = max_size_ r
  ∧ fst (victims (LRU.Size r1) r1) = Some <$> (reverse (LRUlist_ r) ++ fs)
  ∧ LRU.Size (snd (victims (LRU.Size r1) r1)) = 0%nat
  ∧ fst (LRU.victim (snd (victims (LRU.Size r1) r1))) = None.
Proof.
  intros Hnd Hfresh r1.
  destruct (run_unpins fs r Hnd Hfresh) as (Hl & Hm & _). fold r1 in Hl, Hm.
  destruct (victims_all (LRUlist_ r1) r1 eq_refl) as (Hf & He & _).
  unfold LRU.Size. split; [|split; [done|split; [|split]]].
  - rewrite Hl, length_app, length_reverse. lia.
  - rewrite Hf, Hl, reverse_app, reverse_involutive. done.
  - by rewrite He.
  - unfold LRU.victim. by rewrite He.
Qed.

End replacer_size.

(** X22.  The replacer never refuses a frame and hands frames out in the
    order they became eligible.  After [unpin] of frames that are distinct
    and not eligible (not in [LRUhash_]): [Size()] has grown by their number,
    whatever [max_size_] is (which the calls do not change); [Size()] calls
    of [victim] then return the frames that were in [LRUlist_] before, from
    its back (the least recently unpinned) to its front, followed by the new
    frames in the order they were unpinned; after these calls [Size()] is 0
    and [victim] fails. *)
Theorem lru_unpins_then_victims (r : LRUReplacer) (fs : list frame_id_t) :
  NoDup fs → (∀ f, f ∈ fs → f ∉ LRUhash_ r) →
  let r1 := run_ops (OpUnpin <$> fs) r in
  LRU.Size r1 = (LRU.Size r + length fs)%nat
  ∧ max_size_ r1 = max_size_ r
  ∧ fst (victims (LRU.Size r1) r1) = Some <$> (reverse (LRUlist_ r) ++ fs)
  ∧ LRU.Size (snd (victims (LRU.Size r1) r1)) = 0%nat
  ∧ fst (LRU.victim (snd (victims (LRU.Size r1) r1))) = None.
Proof. apply unpins_then_victims. Qed.

Lemma lru_unpins_then_victims_witness :
  let r1 := run_ops (OpUnpin <$> [4; 2; 7]%nat) (LRU.create 2) in
  LRU.Size r1 = 3%nat ∧ max_size_ r1 = 2%nat
  ∧ fst (victims 3 r1) = [Some 4; Some 2; Some 7]%nat.
Proof.
  intros r1.
  destruct (lru_unpins_then_victims (LRU.create 2) [4; 2; 7]%nat)
    as (Hs & Hm & Hv & _).
  - repeat (apply NoDup_cons; split; [set_solver|]). apply NoDup_nil_2.
  - intros f _. simpl. set_solver.
  - fold r1 in Hs, Hm, Hv. split; [done|]. split; [done|].
    rewrite Hs in Hv. exact Hv.
Defined.

(* ================================================================= *)
(** * Counting frames *)

Section frame_count.

Implicit Types (b : BufferPoolManager) (f g : frame_id_t) (pid q : Z * Z).

(** The frames of the page table's entries. *)
Lemma cached_frames b :
  bpm_ok b →
  NoDup (snd <$> map_to_list (page_table_ b))
  ∧ (∀ f, f ∈ snd <$> map_to_list (page_table_ b) ↔ in_table b f)
  ∧ length (snd <$> map_to_list (page_table_ b)) = size (page_table_ b).
Proof.
  intros Hok. split; [|split].
  - apply NoDup_fmap_2_strong; [|apply NoDup_map_to_list].
    intros [q1 g1] [q2 g2] H1%elem_of_map_to_list H2%elem_of_map_to_list. simpl.
    intros <-.
    destruct (ok_table b Hok _ _ H1) as (_ & Hid1 & _).
    destruct (ok_table b Hok _ _ H2) as (_ & Hid2 & _). congruence.
  - intros f. rewrite list_elem_of_fmap. unfold in_table. split.
    + intros ([q g] & -> & Hin%elem_of_map_to_list). by exists q.
    + intros [q Hq]. exists (q, f). split; [done|]. by apply elem_of_map_to_list.
  - by rewrite length_fmap, length_map_to_list.
Qed.

Lemma frame_count b :
  bpm_ok b → pool_inv b →
  (length (free_list_ b) + size (page_table_ b) = length (pages_ b))%nat
  ∧ (LRU.Size (replacer_ b) ≤ size (page_table_ b))%nat.
Proof.
  intros Hok Hinv.
  destruct (cached_frames b Hok) as (Hnd & Hin & Hlen).
  destruct (ok_free b Hok) as [Hndf Hfree].
  split.
  - assert (seq 0 (length (pages_ b))
            ≡ₚ free_list_ b ++ (snd <$> map_to_list (page_table_ b))) as Hperm;
      [|apply Permutation_length in Hperm;
        rewrite length_seq, length_app, Hlen in Hperm; lia].
    apply NoDup_Permutation.
    + apply NoDup_seq.
    + apply NoDup_app. split; [done|]. split; [|done].
      intros f Hf Hc%Hin. destruct (Hfree f Hf) as [Hlt _].
      destruct (Hinv f Hlt) as (_ & Hexcl & _). by apply Hexcl.
    + intros f. rewrite elem_of_seq, elem_of_app, Hin. split.
      * intros [_ Hlt]. by destruct (Hinv f ltac:(lia)) as (Hone & _).
      * intros [Hf|[q Hq]].
        -- destruct (Hfree f Hf) as [Hlt _]. lia.
        -- destruct (ok_table b Hok _ _ Hq) as (Hlt & _). lia.
  - rewrite <- Hlen. unfold LRU.Size. apply submseteq_length, NoDup_submseteq.
    + apply (ok_lru b Hok).
    + intros f Hf%(ok_lru b Hok). apply Hin.
      destruct (ok_replacer b Hok f Hf) as (_ & Hq & _). by eexists.
Qed.

End frame_count.

(** X23.  Every frame is accounted for.  In a well-formed pool that
    satisfies the pool invariant, the length of the free list plus the
    number of page-table entries is the pool size, and the replacer's
    [Size()] is at most the number of page-table entries; so the pool caches
    at most [pool_size] pages and the replacer holds at most [pool_size]
    frames. *)
Theorem pool_frame_count (b : BufferPoolManager) :
  bpm_ok b → pool_inv b →
  (length (free_list_ b) + size (page_table_ b) = length (pages_ b))%nat
  ∧ (LRU.Size (replacer_ b) ≤ size (page_table_ b))%nat.
Proof. apply frame_count. Qed.

Lemma pool_frame_count_witness :
  let b := run_pool_ops [PNew 3; PUnpin (3, 1) true; PNew 3; PFetch (3, 1)]
             (BPM.create 3 (mkDisk ∅ {[ 3 := 1 ]} 10)) in
  (length (free_list_ b) + size (page_table_ b) = 3)%nat
  ∧ (LRU.Size (replacer_ b) ≤ size (page_table_ b))%nat.
Proof.
  intros b.
  destruct (run_from_create 3 (mkDisk ∅ {[ 3 := 1 ]} 10)
              [PNew 3; PUnpin (3, 1) true; PNew 3; PFetch (3, 1)]) as [Hok Hinv].
  { vm_compute. repeat split; (done || lia || (intros _; discriminate) || idtac). }
  destruct (pool_frame_count b Hok Hinv) as [Hcount Hsize].
  split; [|done]. rewrite Hcount. by vm_compute.
Defined.
